(* ===== verification/_CoqProject ===== *)
-Q . S2P
Prelude.v
SeqNum.v
SpscQueue.v
MemPool.v
SendBuffer.v
Intervals.v
RingBuffer.v
Reassembly.v
Rss.v
AddrPool.v
Checksum.v
Machine.v
Wp.v
Lists.v
TcpOptions.v
FlowTable.v
Network.v
Faults.v
StreamOps.v
Invariant.v
Boot.v
StreamInv.v
Live.v
TcpOut.v
SafeOut.v
SendWindow.v
SafeData.v
Timer.v
SafeTimer.v
TcpIn.v
SafeIn.v
Ring.v
Sockets.v
SocketTable.v
Events.v
Pipe.v
PipeFifo.v
Epoll.v
EpollSpec.v
Api.v
ApiData.v
IpIn.v
IpChecksum.v
Icmp.v
Core.v
QueueFrame.v
SafeCalls.v
SafeLoop.v
Scenarios.v
Wire.v
SendPath.v
HttpDate.v
Config.v
ConfigOk.v
ConfigDemo.v
RelayBuffer.v
HttpParse.v
EpServer.v
EpServed.v
EpDemo.v
EpWget.v
EpWgetOk.v
EpWgetRun.v
EpWgetDemo.v
Echo.v
EchoOk.v
EchoDemo.v
MperfTimer.v
MperfRun.v
MperfProg.v
MperfArgs.v
MperfNet.v
MperfExec.v
MperfSession.v
MperfDemo.v
