(* ===== verification/Prelude.v ===== *)
(** * A verified model of the mTCP user-level TCP stack

    The repository holds mTCP ([src/mtcp/mtcp/src]), a TCP stack that runs in
    user space with one thread and one [mtcp_manager] per core, its utilities
    ([src/mtcp/util]), the bandwidth tool mperf ([src/mperf]) and sample
    programs. This development models the stack from the frame read off the
    interface to the socket call of the application, and proves it correct
    piece by piece and composed.

    ** How the parts interact

    The thread of a core runs [RunMainLoop] ([core.c]). A round takes the
    frames received ([ProcessPacket], [eth_in.c], [ip_in.c], [arp.c],
    [icmp.c]), hands TCP segments to [ProcessTCPPacket] ([tcp_in.c]), walks the
    timers ([timer.c]), passes events to the application ([eventpoll.c]),
    serves the calls the application has queued ([HandleApplicationCalls]) and
    writes segments ([tcp_out.c], [ip_out.c], [eth_out.c]). The application
    calls [api.c], [pipe.c] and [eventpoll.c] from its own thread; it reaches
    the stack's thread through lock-free rings of streams and is reached
    through event queues.

    ** Files, and the code they model

    Shared: this file (machine integers, byte memory, record update, the
    results of C functions, tail queues), [Machine] (the structures of
    [mtcp.h], [tcp_stream.h], [socket.h], [timer.h], [eventpoll.h]; the state
    and fault monad; the configuration as the class [Env]), [Wp] (weakest
    preconditions of steps), [Faults] (kinds of faults), [Ring] (rings in
    memory).

    Data structures, each proved against an abstract one:
    - [SeqNum]: the sequence number macros of [tcp_in.h];
    - [SpscQueue]: [tcp_stream_queue.c], [tcp_sb_queue.c],
      [tcp_rb_frag_queue.c], with producer and consumer interleaved;
    - [MemPool]: [memory_mgt.c]; [SendBuffer]: [tcp_send_buffer.c];
    - [Intervals], [RingBuffer], [Reassembly]: [tcp_ring_buffer.c];
    - [Rss], [AddrPool]: [rss.c], [addr_pool.c];
    - [FlowTable]: [fhash.c] and the events of [tcp_stream.c];
    - [Sockets], [SocketTable]: [socket.c]; [Pipe], [PipeFifo]: [pipe.c];
    - [Events], [Epoll], [EpollSpec]: [eventpoll.c].

    The protocol:
    - [Checksum], [TcpOptions]: [tcp_util.c] and the option generators;
    - [Network], [IpIn], [IpChecksum], [Icmp]: [ip_out.c], [arp.c],
      [eth_out.c], [eth_in.c], [ip_in.c], [icmp.c], the checksum of [ps.h];
    - [Lists], [StreamOps], [Boot]: the lists of streams, creation and
      destruction ([tcp_stream.c]), start-up ([core.c]);
    - [TcpOut], [Timer], [TcpIn], [Core]: [tcp_out.c], [timer.c], [tcp_in.c],
      [core.c]; [Api], [ApiData]: [api.c].

    The invariant of the manager and what keeps it: [Invariant], [StreamInv],
    [Live], [SafeOut], [SafeData], [SafeTimer], [SafeIn], [QueueFrame],
    [SafeCalls], [SafeLoop]; what is sent: [SendWindow], [SendPath]; from the
    sender to the receiver: [Wire]; whole runs: [Scenarios].

    The configuration: [Config] ([config.c], [mtcp_init], the end of
    [SetNetEnv] in [io_module.c]), [ConfigOk] (what a loaded configuration
    guarantees, as an instance of the class [Env] of the stack), [ConfigDemo]
    (the sample files).

    Beside the stack:
    - [HttpDate]: [util/tdate_parse.c]; [HttpParse]: [util/http_parsing.c]
      and the options of [util/netlib.c]; [RelayBuffer]: [util/ring_buffer.c];
    - [EpServer], [EpServed], [EpDemo]: the web server
      [apps/example/epserver.c] over an interface of the stack (the class
      [Stack]), what its clients get, and sessions of it;
    - [EpWget], [EpWgetOk], [EpWgetRun], [EpWgetDemo]: the web client
      [apps/example/epwget.c] over the class [Client], a download from the
      server, the counters of a run and the start of the program, and
      sessions of it;
    - [Echo], [EchoOk], [EchoDemo]: the echo servers and the echo client
      ([src/src]), what they send back, and sessions of them;
    - [MperfTimer], [MperfRun]: [mperf/timer.c];
    - [MperfProg]: the client and the server of mperf ([client.c], [server.c],
      [mperf_config.c], [mperf_util.c]) as programs over the calls of the
      stack; [MperfArgs]: its arguments ([mperf_api.c], [units.c]);
    - [MperfNet], [MperfExec], [MperfSession], [MperfDemo]: a network on which
      the two programs run against each other, and their sessions.

    ** Conventions

    A C function is a Rocq function of the same name. A function that cannot
    fail in C's sense returns a value; one that asserts, follows pointers or
    indexes memory returns a [res], [Ok] or the [fault] it stops with; a
    function on the manager is a step [M A] of the state and fault monad.
    Streams, fragments and listeners are named by address and live in finite
    maps, so a use after free is an access to an address that is not mapped
    ([UseAfterFree]), and unlinking from a tail queue an element that is not
    on it is [ListCorrupt]. Machine integers are [Z] with the conversions
    written out ([u8], [u16], [u32], [u64], [s32]). Memory the code has not
    initialised is a parameter ([fresh_mem]).

    The build is the one of the Makefiles: timestamps on, SACK, blocking
    support and statistics off, the file's own memory pool instead of DPDK's.

    ** What the theorems show

    - Memory safety of the stack: [wf] ([Invariant]) ties every list, counter,
      table and pool to the flags of the live streams. It holds after
      start-up; receiving any bytes, the timers, sending, and serving the
      application keep it and stop with neither a use after free nor a
      corrupted list (the faults excluded by [tame]). [SafeLoop] composes
      them to rounds and to the loop. For the streams queued by the
      application the theorems need that they are not destroyed before the
      queue is served; [Scenarios] shows two runs where the code breaks this.
    - Data: what the application writes enters the send buffer and leaves it
      in order and within the windows ([SendPath], [SendWindow]), and whatever
      segments arrive, the application reads a prefix of the peer's stream
      ([Reassembly]).
    - Refinement: queues are bounded FIFOs, also under every interleaving of
      one producer and one consumer; pipes, event queues, the socket table,
      the memory and address pools and the send buffer refine their abstract
      counterparts; no event is lost while a thread goes to sleep.
    - Formats: a segment that is sent passes the peer's checks and is decoded
      to what was sent ([Wire]); the IP checksum is the reference checksum; IP
      headers, TCP options and HTTP dates are read back as they were written.
    - mperf: the linked lists of timers refine a sorted list, and a run of the
      due timers ends and calls each of them; a client and a server that run
      against each other stop, the server with the client's configuration
      ([MperfSession]).
    - Configuration: whatever the files hold, reading them ends, and a
      successful start has the bounds and tables the stack relies on; the
      routing table answers with the first route that covers an address
      ([ConfigOk]).
    - The web server and client: the bytes of a connection are responses framed by their
      lengths, and a file of the cache is sent whole ([EpServed]); the client
      that reads such a response stores the file and counts it
      ([EpWgetOk]), and keeps account of all its connections, whatever
      happens to them ([EpWgetRun]); an echo server sends back what it has
      read ([EchoOk]); header
      fields and the end of a header are found where they are ([HttpParse]);
      a relay through two buffers keeps the order of the bytes
      ([RelayBuffer]).
    - Errors: inputs on which the code misbehaves are theorems as well, such
      as the option of length zero that makes the parser loop.

    ** Bounds and fuel

    Loops that are not structural take fuel from the state they run on: the
    length of a fragment list, one more than the number of option bytes
    ([opt_fuel]), the number of streams on a list, the number of tokens in a
    queue. Running out of it is the fault [OutOfFuel], and each total result
    shows that it is not reached; where only [tame] faults are excluded the
    loop over TCP options is the one that can run for ever. The timer walks
    and list writers are bounded by the code's own threshold. The main loops
    of mperf take one unit for a wait: four for a client, and for a server
    four and one for each byte it may receive. The loops over a file take one
    unit for a line, and one more than the length of the file is enough; the
    loop that sends a file takes one for each byte that is left, and the one
    that reads a response one for each piece that waits and one more.

    ** Not modelled

    The interface drivers ([dpdk_module.c], [psio_module.c], [netmap_module.c],
    [onvm_module.c]), whose libraries are not part of the repository: frames
    received are an input, frames sent an output. The system calls by which
    [SetNetEnv] looks for interfaces, [inet_addr] and GMP: parameters of
    [Config]. Creation of threads and contexts, signals, logging and CPU
    affinity: system calls without protocol logic.
    Locks: the code holds them over each operation modelled as one step. The
    threads of mperf and the JSON library it contains, whose text format is
    the class [Json]. The header [rep.h] that [ring_buffer.c] includes is not
    in the repository: its layout is a parameter. The start of the web server
    (files, threads), the creation of the threads of its client and the start
    of the echo samples are calls of the system. Lighttpd, ApacheBench and the
    kernel driver are third-party code.

    What the rest of this file holds: machine integers, byte memory, record
    update, results, tail queues. *)

From stdpp Require Export base list list_numbers numbers gmap.
From Stdlib Require Export ZArith Lia.

Declare Scope mtcp_scope.
Delimit Scope mtcp_scope with mtcp.

#[global] Open Scope Z_scope.

(** ** Machine integers

    A w-bit C integer is a [Z]; conversions and wrap-around are explicit. *)

Definition u8 (x : Z) : Z := x mod 256.
Definition u16 (x : Z) : Z := x mod 65536.
Definition u31 (x : Z) : Z := x mod 2147483648.
Definition u32 (x : Z) : Z := x mod 4294967296.
Definition u64 (x : Z) : Z := x mod 18446744073709551616.

(** Conversion to [int32_t] / [int]: two's complement. *)
Definition s32 (x : Z) : Z :=
  let y := u32 x in if y <? 2147483648 then y else y - 4294967296.

Create HintDb mtcp discriminated.

(** Arithmetic with wrap-around: expose every [mod] as a division equation. *)
Ltac wrap_lia :=
  unfold u8, u16, u31, u32, u64 in *;
  Z.to_euclidean_division_equations; lia.

(** Case analysis on the boolean tests of the code. *)
Ltac bdestruct_one :=
  match goal with
  | |- context [Z.eqb ?a ?b] => destruct (Z.eqb_spec a b)
  | |- context [Z.leb ?a ?b] => destruct (Z.leb_spec a b)
  | |- context [Z.ltb ?a ?b] => destruct (Z.ltb_spec a b)
  | H : context [Z.eqb ?a ?b] |- _ => destruct (Z.eqb_spec a b)
  | H : context [Z.leb ?a ?b] |- _ => destruct (Z.leb_spec a b)
  | H : context [Z.ltb ?a ?b] |- _ => destruct (Z.ltb_spec a b)
  end.
Ltac bdestruct_all := repeat (bdestruct_one; simpl in *; try congruence).

Lemma u32_range x : 0 <= u32 x < 4294967296.
Proof. unfold u32; apply Z.mod_pos_bound; lia. Qed.

Lemma u32_small x : 0 <= x < 4294967296 -> u32 x = x.
Proof. intros; unfold u32; apply Z.mod_small; lia. Qed.

Lemma u32_idemp x : u32 (u32 x) = u32 x.
Proof. apply u32_small, u32_range. Qed.

Lemma u32_add_l x y : u32 (u32 x + y) = u32 (x + y).
Proof. unfold u32; apply Zplus_mod_idemp_l. Qed.

Lemma u32_add_r x y : u32 (x + u32 y) = u32 (x + y).
Proof. unfold u32; apply Zplus_mod_idemp_r. Qed.

Lemma u32_sub_l x y : u32 (u32 x - y) = u32 (x - y).
Proof. unfold u32; apply Zminus_mod_idemp_l. Qed.

Lemma u32_sub_r x y : u32 (x - u32 y) = u32 (x - y).
Proof. unfold u32; apply Zminus_mod_idemp_r. Qed.

Lemma u32_eq x y : (exists k, x - y = k * 4294967296) -> u32 x = u32 y.
Proof. intros [k ?]; wrap_lia. Qed.

Lemma u64_nonneg x : 0 <= u64 x.
Proof. unfold u64. apply (Z.mod_pos_bound x 18446744073709551616). lia. Qed.

Lemma s32_range x : -2147483648 <= s32 x < 2147483648.
Proof. unfold s32; pose proof (u32_range x); destruct (Z.ltb_spec (u32 x) 2147483648); lia. Qed.

Lemma s32_small x : -2147483648 <= x < 2147483648 -> s32 x = x.
Proof. intros; unfold s32; bdestruct_one; wrap_lia. Qed.

Lemma s32_u32 x : s32 (u32 x) = s32 x.
Proof. unfold s32; by rewrite u32_idemp. Qed.

Lemma u32_s32 x : u32 (s32 x) = u32 x.
Proof. unfold s32; bdestruct_one; [apply u32_idemp | wrap_lia]. Qed.

Lemma s32_eq x y : u32 x = u32 y -> s32 x = s32 y.
Proof. unfold s32. by intros ->. Qed.

#[export] Hint Rewrite u32_idemp u32_add_l u32_add_r u32_sub_l u32_sub_r s32_u32 u32_s32 : wrap.

(** One wrap around a ring of [n] cells. *)
Lemma mod_ring h k n :
  0 <= h < n -> 0 <= k <= n -> (h + k) mod n = if h + k <? n then h + k else h + k - n.
Proof.
  intros. bdestruct_one; [apply Z.mod_small; lia|].
  symmetry. apply Z.mod_unique_pos with (q := 1); lia.
Qed.

(** ** Byte memory

    A memory chunk is a list of cells addressed from 0. Reads and writes
    that leave the chunk have no result: a C program doing them has
    undefined behaviour. *)

Definition zlen {A} (l : list A) : Z := Z.of_nat (length l).

Definition znth {A} (l : list A) (i : Z) : option A :=
  if i <? 0 then None else l !! Z.to_nat i.

Definition mem_read {A} (m : list A) (off len : Z) : option (list A) :=
  if (0 <=? off) && (0 <=? len) && (off + len <=? zlen m)
  then Some (take (Z.to_nat len) (drop (Z.to_nat off) m))
  else None.

(** [memcpy (m + off) d (length d)]. *)
Definition mem_write {A} (m : list A) (off : Z) (d : list A) : option (list A) :=
  if (0 <=? off) && (off + zlen d <=? zlen m)
  then Some (take (Z.to_nat off) m ++ d ++ drop (Z.to_nat (off + zlen d)) m)
  else None.

(** [memmove (m + dst) (m + src) len]: the source is read before it is written. *)
Definition mem_move {A} (m : list A) (dst src len : Z) : option (list A) :=
  d ← mem_read m src len; mem_write m dst d.

Section memory.
Context {A : Type}.
Implicit Types (m d : list A).

Lemma zlen_nonneg m : 0 <= zlen m.
Proof. unfold zlen; lia. Qed.

Lemma zlen_app m d : zlen (m ++ d) = zlen m + zlen d.
Proof. unfold zlen; rewrite length_app; lia. Qed.

Lemma znth_None m i : i < 0 \/ zlen m <= i -> znth m i = None.
Proof.
  unfold znth, zlen; intros [?|?]; bdestruct_one; try done; try lia.
  apply lookup_ge_None; lia.
Qed.

Lemma znth_is_Some m i : 0 <= i < zlen m -> is_Some (znth m i).
Proof.
  unfold znth, zlen; intros; bdestruct_one; [lia|].
  apply lookup_lt_is_Some; lia.
Qed.

Lemma znth_Some_range m i x : znth m i = Some x -> 0 <= i < zlen m.
Proof.
  intros H; destruct (decide (0 <= i < zlen m)) as [|Hn]; [done|].
  rewrite znth_None in H; [done|lia].
Qed.

Lemma znth_app m d i :
  znth (m ++ d) i = if i <? zlen m then znth m i else znth d (i - zlen m).
Proof.
  unfold znth, zlen; bdestruct_one; bdestruct_one; try lia; try done.
  - apply lookup_app_l; lia.
  - rewrite lookup_app_r by lia. bdestruct_one; [lia|]. f_equal; lia.
Qed.

Lemma zlen_cons (x : A) m : zlen (x :: m) = zlen m + 1.
Proof. unfold zlen; simpl; lia. Qed.

Lemma znth_cons (x : A) m i :
  znth (x :: m) i = if i =? 0 then Some x else znth m (i - 1).
Proof.
  unfold znth. destruct (Z.ltb_spec i 0), (Z.eqb_spec i 0), (Z.ltb_spec (i - 1) 0);
    try lia; try done; [by subst|].
  replace (Z.to_nat i) with (S (Z.to_nat (i - 1))) by lia. done.
Qed.

Lemma znth_take m n i : 0 <= n -> znth (take (Z.to_nat n) m) i = if i <? n then znth m i else None.
Proof.
  unfold znth; intros; bdestruct_one; bdestruct_one; try lia; try done.
  - apply lookup_take_lt; lia.
  - apply lookup_take_ge; lia.
Qed.

Lemma znth_drop m n i : 0 <= n -> 0 <= i -> znth (drop (Z.to_nat n) m) i = znth m (n + i).
Proof.
  unfold znth; intros; bdestruct_one; bdestruct_one; try lia; try done.
  rewrite lookup_drop; f_equal; lia.
Qed.

Lemma zlen_take m n : 0 <= n <= zlen m -> zlen (take (Z.to_nat n) m) = n.
Proof. unfold zlen; rewrite length_take; lia. Qed.

Lemma zlen_drop m n : 0 <= n <= zlen m -> zlen (drop (Z.to_nat n) m) = zlen m - n.
Proof. unfold zlen; rewrite length_drop; lia. Qed.

Lemma list_eq_znth m d : zlen m = zlen d -> (forall i, 0 <= i < zlen m -> znth m i = znth d i) -> m = d.
Proof.
  unfold zlen, znth; intros Hl H. apply list_eq_same_length with (n := length m); [lia|done|].
  intros i x y Hi H1 H2. specialize (H (Z.of_nat i)).
  rewrite Nat2Z.id in H. destruct (Z.ltb_spec (Z.of_nat i) 0); [lia|].
  rewrite H1, H2 in H. assert (Some x = Some y) by (apply H; lia). congruence.
Qed.

Lemma mem_read_Some m off len d :
  mem_read m off len = Some d ->
  0 <= off /\ 0 <= len /\ off + len <= zlen m /\ zlen d = len /\
  forall i, 0 <= i < len -> znth d i = znth m (off + i).
Proof.
  unfold mem_read; intros H.
  destruct (Z.leb_spec 0 off), (Z.leb_spec 0 len), (Z.leb_spec (off + len) (zlen m));
    simpl in H; try done; simplify_eq.
  split_and!; try lia.
  - rewrite zlen_take; [done|]. rewrite zlen_drop; lia.
  - intros i Hi. rewrite znth_take by lia. bdestruct_one; [|lia].
    apply znth_drop; lia.
Qed.

Lemma mem_read_eq m off len :
  0 <= off -> 0 <= len -> off + len <= zlen m -> mem_read m off len = Some (take (Z.to_nat len) (drop (Z.to_nat off) m)).
Proof.
  unfold mem_read; intros. destruct (Z.leb_spec 0 off), (Z.leb_spec 0 len),
    (Z.leb_spec (off + len) (zlen m)); simpl; done || lia.
Qed.

Lemma mem_read_is_Some m off len :
  0 <= off -> 0 <= len -> off + len <= zlen m -> exists d, mem_read m off len = Some d.
Proof.
  unfold mem_read; intros. destruct (Z.leb_spec 0 off), (Z.leb_spec 0 len),
    (Z.leb_spec (off + len) (zlen m)); simpl; eauto; lia.
Qed.

Lemma mem_write_is_Some m off d :
  0 <= off -> off + zlen d <= zlen m -> exists m', mem_write m off d = Some m'.
Proof.
  unfold mem_write; intros. destruct (Z.leb_spec 0 off),
    (Z.leb_spec (off + zlen d) (zlen m)); simpl; eauto; lia.
Qed.

Lemma mem_write_Some m off d m' :
  mem_write m off d = Some m' ->
  0 <= off /\ off + zlen d <= zlen m /\ zlen m' = zlen m /\
  forall i, znth m' i = if (off <=? i) && (i <? off + zlen d)
                        then znth d (i - off) else znth m i.
Proof.
  unfold mem_write; intros H.
  pose proof (zlen_nonneg d).
  destruct (Z.leb_spec 0 off), (Z.leb_spec (off + zlen d) (zlen m));
    simpl in H; try done; simplify_eq.
  split_and!; try lia.
  - rewrite !zlen_app, zlen_take, zlen_drop by lia; lia.
  - intros i. rewrite !znth_app, zlen_take, znth_take by lia.
    destruct (Z.ltb_spec i off), (Z.leb_spec off i); try lia; simpl; [done|].
    destruct (Z.ltb_spec (i - off) (zlen d)), (Z.ltb_spec i (off + zlen d));
      try lia; simpl; [done|].
    rewrite znth_drop by lia. f_equal; lia.
Qed.

Lemma mem_move_is_Some m dst src len :
  0 <= dst -> 0 <= src -> 0 <= len -> src + len <= zlen m -> dst + len <= zlen m ->
  exists m', mem_move m dst src len = Some m'.
Proof.
  intros. unfold mem_move. destruct (mem_read_is_Some m src len) as [d Hd]; try lia.
  rewrite Hd; simpl. apply mem_read_Some in Hd as (?&?&?&?&?).
  apply mem_write_is_Some; lia.
Qed.

Lemma mem_move_Some m dst src len m' :
  mem_move m dst src len = Some m' ->
  0 <= dst /\ 0 <= src /\ 0 <= len /\ src + len <= zlen m /\ dst + len <= zlen m /\
  zlen m' = zlen m /\
  forall i, znth m' i = if (dst <=? i) && (i <? dst + len)
                        then znth m (src + (i - dst)) else znth m i.
Proof.
  unfold mem_move; intros H. apply bind_Some in H as (d & Hr & Hw).
  apply mem_read_Some in Hr as (?&?&?&Hl&Hd).
  apply mem_write_Some in Hw as (?&?&?&Hw). rewrite Hl in *.
  split_and!; try lia. intros i. rewrite Hw.
  destruct (Z.leb_spec dst i), (Z.ltb_spec i (dst + len)); simpl; try done.
  rewrite Hd by lia. done.
Qed.
End memory.

Lemma list_snoc_inv {A} (l : list A) : l = [] \/ exists l' x, l = l' ++ [x].
Proof. destruct l as [|x l] using rev_ind; [by left|right; eauto]. Qed.

(** ** Record update

    [r <| f := v |>] rebuilds [r] with field [f] replaced. A record type
    declares how it is rebuilt from its fields once ([Rebuild]); the update
    of a given projection is found by instance search. *)

Class Rebuild (R : Type) := rebuild : R -> R.
Class FieldUpd {R T : Type} (proj : R -> T) := field_upd : (T -> T) -> R -> R.
#[global] Hint Mode FieldUpd + + + : typeclass_instances.
Arguments field_upd {R T} proj {_} f r.

Ltac solve_field_upd :=
  lazymatch goal with
  | |- @FieldUpd ?R ?T ?proj =>
      let inst := constr:(@rebuild R _) in
      let inst := eval cbv beta delta [rebuild] in inst in
      let rb := eval red in inst in
      let body := eval pattern proj in rb in
      lazymatch body with
      | ?k _ => exact (fun (f : T -> T) => k (fun r => f (proj r)))
      end
  end.
#[global] Hint Extern 1 (FieldUpd _) => solve_field_upd : typeclass_instances.

Notation "r <| p := v |>" := (field_upd p (fun _ => v) r)
  (at level 12, left associativity, p at level 11, v at level 200,
   format "r  <| p  :=  v |>").
Notation "r <| p ; q := v |>" := (field_upd p (fun r' => field_upd q (fun _ => v) r') r)
  (at level 12, left associativity, p at level 11, q at level 11, v at level 200,
   format "r  <| p ;  q  :=  v |>").

(** ** Results

    A run of a C function either returns, or stops on an assertion, a null
    or dangling pointer (to a stream or listener, or to a fragment of a
    receive buffer), an access outside a memory chunk, a division by zero,
    unlinking from a list an element that is not on it, reading the pointer
    of a union as another type, or signed arithmetic that leaves [int]. *)

Inductive fault :=
| AssertFailed
| NullDeref
| UseAfterFree
| DanglingFragment
| OutOfBounds
| ListCorrupt
| DivByZero
| TypeConfusion
| SignedOverflow
| OutOfFuel.

#[global] Instance fault_eq_dec : EqDecision fault.
Proof. solve_decision. Defined.

Inductive res (A : Type) :=
| Ok (a : A)
| Fault (e : fault).
Arguments Ok {A} a.
Arguments Fault {A} e.

Definition res_bind {A B} (c : res A) (k : A -> res B) : res B :=
  match c with Ok a => k a | Fault e => Fault e end.
Definition from_option_res {A} (e : fault) (o : option A) : res A :=
  match o with Some a => Ok a | None => Fault e end.

Notation "'let!' x := c 'in' k" := (res_bind c (fun x => k))
  (at level 200, x pattern, c at level 100, k at level 200) : mtcp_scope.
#[global] Open Scope mtcp_scope.

Lemma res_bind_Ok {A B} (c : res A) (k : A -> res B) b :
  res_bind c k = Ok b <-> exists a, c = Ok a /\ k a = Ok b.
Proof. destruct c; simpl; naive_solver. Qed.

Lemma from_option_res_Ok {A} e (o : option A) a : from_option_res e o = Ok a <-> o = Some a.
Proof. destruct o; simpl; naive_solver. Qed.

(** Invert a successful run. *)
Ltac res_inv H :=
  repeat match type of H with
  | res_bind _ _ = Ok _ => apply res_bind_Ok in H; destruct H as (? & ? & H)
  end.

(** ** [TAILQ] lists

    [TAILQ_REMOVE] rewrites the links of the element's neighbours: it is
    meaningful only for an element of the list. *)

Definition tailq_remove {A} `{EqDecision A} (x : A) (l : list A) : res (list A) :=
  if bool_decide (x ∈ l) then Ok (filter (fun y => y <> x) l) else Fault ListCorrupt.

Section tailq.
Context {A : Type} `{EqDecision A}.
Implicit Types (x y : A) (l : list A).

Lemma tailq_remove_ok x l : x ∈ l -> tailq_remove x l = Ok (filter (fun y => y <> x) l).
Proof. intros H. unfold tailq_remove. by rewrite bool_decide_true. Qed.

Lemma tailq_remove_inv x l l' :
  tailq_remove x l = Ok l' -> x ∈ l /\ l' = filter (fun y => y <> x) l.
Proof. unfold tailq_remove. case_bool_decide; naive_solver. Qed.

Lemma filter_ne_notin x l : ~ x ∈ l -> filter (fun y => y <> x) l = l.
Proof.
  induction l as [|y l IH]; [done|]. intros Hn. rewrite filter_cons_True by set_solver.
  f_equal. apply IH. set_solver.
Qed.

Lemma filter_ne_Permutation x l : NoDup l -> x ∈ l -> l ≡ₚ x :: filter (fun y => y <> x) l.
Proof.
  induction 1 as [|y l Hy Hnd IH]; [set_solver|]. intros Hx.
  destruct (decide (y = x)) as [->|Hne].
  - rewrite filter_cons_False by tauto. by rewrite filter_ne_notin.
  - rewrite filter_cons_True by done. apply elem_of_cons in Hx as [->|Hx]; [done|].
    rewrite (IH Hx) at 1. apply Permutation_swap.
Qed.

Lemma filter_ne_requeue x l : NoDup l -> x ∈ l -> l ≡ₚ filter (fun y => y <> x) l ++ [x].
Proof.
  intros. rewrite (filter_ne_Permutation x l) at 1 by done. symmetry. apply Permutation_app_comm.
Qed.

Lemma filter_ne_elem x y l : y ∈ filter (fun z => z <> x) l <-> y ∈ l /\ y <> x.
Proof. rewrite list_elem_of_filter. tauto. Qed.

Lemma filter_ne_NoDup x l : NoDup l -> NoDup (filter (fun z => z <> x) l).
Proof. apply NoDup_filter. Qed.

Lemma filter_ne_zlen x l : NoDup l -> x ∈ l -> zlen (filter (fun z => z <> x) l) = zlen l - 1.
Proof.
  intros Hn Hx. pose proof (filter_ne_Permutation x l Hn Hx) as Hp. unfold zlen.
  rewrite Hp at 2. simpl. lia.
Qed.
End tailq.
