(* ===== verification/SeqNum.v ===== *)
(** * Sequence numbers

    The comparison macros of [tcp_in.h] and the two selection functions of
    [tcp_ring_buffer.c]. Both families compare 32-bit sequence numbers
    modulo wrap-around; [in_window] says how they relate to the integers:
    on numbers at most half the space away from a common base they are the
    comparisons of the offsets. *)

From S2P Require Import Prelude.

Definition TCP_SEQ_LT (a b : Z) : bool := s32 (a - b) <? 0.
Definition TCP_SEQ_LEQ (a b : Z) : bool := s32 (a - b) <=? 0.
Definition TCP_SEQ_GT (a b : Z) : bool := 0 <? s32 (a - b).
Definition TCP_SEQ_GEQ (a b : Z) : bool := 0 <=? s32 (a - b).
Definition TCP_SEQ_BETWEEN (a b c : Z) : bool := TCP_SEQ_GEQ a b && TCP_SEQ_LEQ a c.

Definition MAXSEQ : Z := 4294967295.

Definition GetMinSeq (a b : Z) : Z :=
  if a =? b then a
  else if a <? b then (if u32 (b - a) <=? MAXSEQ / 2 then a else b)
  else (if u32 (a - b) <=? MAXSEQ / 2 then b else a).

Definition GetMaxSeq (a b : Z) : Z :=
  if a =? b then a
  else if a <? b then (if u32 (b - a) <=? MAXSEQ / 2 then b else a)
  else (if u32 (a - b) <=? MAXSEQ / 2 then a else b).

(** The sequence number [i] bytes after [w]. *)
Definition seq_at (w i : Z) : Z := u32 (w + i).

(** The distance from [w] to [x] walking forward. *)
Definition seq_off (w x : Z) : Z := u32 (x - w).

Lemma seq_at_off w x : 0 <= x < 4294967296 -> seq_at w (seq_off w x) = x.
Proof.
  intros. unfold seq_at, seq_off. autorewrite with wrap.
  replace (w + (x - w)) with x by lia. by apply u32_small.
Qed.

Lemma seq_off_at w i : 0 <= i < 4294967296 -> seq_off w (seq_at w i) = i.
Proof.
  intros. unfold seq_at, seq_off. autorewrite with wrap.
  replace (w + i - w) with i by lia. by apply u32_small.
Qed.

Lemma seq_at_range w i : 0 <= seq_at w i < 4294967296.
Proof. apply u32_range. Qed.

Lemma seq_at_add w i n : u32 (seq_at w i + n) = seq_at w (i + n).
Proof. unfold seq_at. autorewrite with wrap. f_equal; lia. Qed.

Lemma seq_at_shift w i n : seq_at (u32 (w + n)) i = seq_at w (n + i).
Proof. unfold seq_at. autorewrite with wrap. f_equal; lia. Qed.

Lemma seq_diff w i j : s32 (seq_at w i - seq_at w j) = s32 (i - j).
Proof.
  apply s32_eq. unfold seq_at. autorewrite with wrap. f_equal; lia.
Qed.

Lemma seq_at_inj w i j :
  0 <= i < 4294967296 -> 0 <= j < 4294967296 -> seq_at w i = seq_at w j -> i = j.
Proof. intros Hi Hj H. rewrite <- (seq_off_at w i), <- (seq_off_at w j) by lia. congruence. Qed.

Section window.
Context (w i j : Z).
Hypothesis (Hi : 0 <= i < 2147483648) (Hj : 0 <= j < 2147483648).

Lemma seq_lt_window : TCP_SEQ_LT (seq_at w i) (seq_at w j) = (i <? j).
Proof. unfold TCP_SEQ_LT. rewrite seq_diff, s32_small by lia. bdestruct_all; lia. Qed.

Lemma seq_leq_window : TCP_SEQ_LEQ (seq_at w i) (seq_at w j) = (i <=? j).
Proof. unfold TCP_SEQ_LEQ. rewrite seq_diff, s32_small by lia. bdestruct_all; lia. Qed.

Lemma seq_gt_window : TCP_SEQ_GT (seq_at w i) (seq_at w j) = (j <? i).
Proof. unfold TCP_SEQ_GT. rewrite seq_diff, s32_small by lia. bdestruct_all; lia. Qed.

Lemma seq_geq_window : TCP_SEQ_GEQ (seq_at w i) (seq_at w j) = (j <=? i).
Proof. unfold TCP_SEQ_GEQ. rewrite seq_diff, s32_small by lia. bdestruct_all; lia. Qed.

Lemma seq_eqb_window : (seq_at w i =? seq_at w j) = (i =? j).
Proof.
  destruct (Z.eqb_spec i j) as [->|Hne]; [apply Z.eqb_refl|].
  apply Z.eqb_neq. intros H%seq_at_inj; lia.
Qed.

Lemma seq_at_diff_cases :
  i <= j ->
  (seq_at w i <= seq_at w j /\ u32 (seq_at w j - seq_at w i) = j - i) \/
  (seq_at w j < seq_at w i /\ u32 (seq_at w i - seq_at w j) = 4294967296 - (j - i)).
Proof. intros. unfold seq_at. wrap_lia. Qed.
End window.

Lemma GetMinSeq_window w i j :
  0 <= i < 2147483648 -> 0 <= j < 2147483648 ->
  GetMinSeq (seq_at w i) (seq_at w j) = seq_at w (Z.min i j).
Proof.
  intros Hi Hj. unfold GetMinSeq. rewrite seq_eqb_window by lia.
  change (MAXSEQ / 2) with 2147483647.
  destruct (Z.eqb_spec i j); [by rewrite Z.min_l by lia|].
  destruct (Z.le_ge_cases i j).
  - rewrite Z.min_l by lia.
    destruct (seq_at_diff_cases w i j) as [[? E]|[? E]]; try lia;
      destruct (Z.ltb_spec (seq_at w i) (seq_at w j)); try lia; rewrite ?E;
      bdestruct_all; try lia; try done.
  - rewrite Z.min_r by lia.
    destruct (seq_at_diff_cases w j i) as [[? E]|[? E]]; try lia;
      destruct (Z.ltb_spec (seq_at w i) (seq_at w j)); try lia; rewrite ?E;
      bdestruct_all; try lia; try done.
Qed.

Lemma GetMaxSeq_window w i j :
  0 <= i < 2147483648 -> 0 <= j < 2147483648 ->
  GetMaxSeq (seq_at w i) (seq_at w j) = seq_at w (Z.max i j).
Proof.
  intros Hi Hj. unfold GetMaxSeq. rewrite seq_eqb_window by lia.
  change (MAXSEQ / 2) with 2147483647.
  destruct (Z.eqb_spec i j); [by rewrite Z.max_l by lia|].
  destruct (Z.le_ge_cases i j).
  - rewrite Z.max_r by lia.
    destruct (seq_at_diff_cases w i j) as [[? E]|[? E]]; try lia;
      destruct (Z.ltb_spec (seq_at w i) (seq_at w j)); try lia; rewrite ?E;
      bdestruct_all; try lia; try done.
  - rewrite Z.max_l by lia.
    destruct (seq_at_diff_cases w j i) as [[? E]|[? E]]; try lia;
      destruct (Z.ltb_spec (seq_at w i) (seq_at w j)); try lia; rewrite ?E;
      bdestruct_all; try lia; try done.
Qed.
