(* ===== verification/SpscQueue.v ===== *)
(** * Bounded queues

    [tcp_sb_queue.c], [tcp_rb_frag_queue.c] and the first half of
    [tcp_stream_queue.c] are three copies of one lock-free ring shared by a
    single producer and a single consumer thread; they are modelled once,
    generically in the element type, and named per file at the end.
    [tcp_stream_queue.c] also has a thread-private counted ring
    ([stream_queue_int]). Both implement the interface [Fifo].

    Module [Spsc] runs producer and consumer concurrently: one step per
    access to the shared indices or slots. *)

From S2P Require Import Prelude.

(** ** The interface clients rely on *)

Class Fifo (Q A : Type) := {
  fifo_rep : Q -> list A -> Prop;
  fifo_cap : Q -> Z;
  fifo_enq : Q -> A -> res (Z * Q);
  fifo_deq : Q -> res (option A * Q);
  fifo_len_cap q l : fifo_rep q l -> zlen l <= fifo_cap q;
  fifo_enq_ok q l x : fifo_rep q l -> zlen l < fifo_cap q ->
    exists q', fifo_enq q x = Ok (0, q') /\ fifo_rep q' (l ++ [x]) /\ fifo_cap q' = fifo_cap q;
  fifo_enq_full q l x : fifo_rep q l -> zlen l = fifo_cap q -> fifo_enq q x = Ok (-1, q);
  fifo_deq_nil q : fifo_rep q [] -> fifo_deq q = Ok (None, q);
  fifo_deq_cons q x l : fifo_rep q (x :: l) ->
    exists q', fifo_deq q = Ok (Some x, q') /\ fifo_rep q' l /\ fifo_cap q' = fifo_cap q
}.

(** ** Cells of a ring

    [l] is stored in the [n] cells [s] from cell [h] on, wrapping around. *)

Section cells.
Context {A : Type}.
Implicit Types (s : list (option A)) (l : list A).

Definition ring_cells (n h : Z) s l : Prop :=
  forall k x, znth l k = Some x -> znth s ((h + k) mod n) = Some (Some x).

Lemma ring_cells_head n h s x l :
  0 <= h < n -> ring_cells n h s (x :: l) -> znth s h = Some (Some x).
Proof.
  intros ? Hc. specialize (Hc 0 x eq_refl). by rewrite Z.add_0_r, Z.mod_small in Hc by lia.
Qed.

Lemma ring_cells_tail n h s x l :
  0 < n -> ring_cells n h s (x :: l) -> ring_cells n ((h + 1) mod n) s l.
Proof.
  intros ? Hc k y Hk. pose proof (znth_Some_range _ _ _ Hk).
  rewrite Zplus_mod_idemp_l, <- Z.add_assoc. apply Hc.
  rewrite znth_cons. bdestruct_one; [lia|]. rewrite <- Hk. f_equal; lia.
Qed.

Lemma ring_cells_app_l n h s l l2 : ring_cells n h s (l ++ l2) -> ring_cells n h s l.
Proof.
  intros Hc k x Hk. apply Hc. rewrite znth_app.
  pose proof (znth_Some_range _ _ _ Hk). by bdestruct_one; [|lia].
Qed.

(** Writing the first free cell appends. *)
Lemma ring_cells_snoc n h s l x s' :
  0 <= h < n -> zlen s = n -> zlen l < n -> ring_cells n h s l ->
  mem_write s ((h + zlen l) mod n) [Some x] = Some s' ->
  zlen s' = n /\ ring_cells n h s' (l ++ [x]).
Proof.
  intros ? ? ? Hc (_ & _ & Hlen & Hd)%mem_write_Some. change (zlen [Some x]) with 1 in *.
  pose proof (zlen_nonneg l). split; [lia|]. intros k y Hk.
  pose proof (znth_Some_range _ _ _ Hk). rewrite zlen_app in *. change (zlen [x]) with 1 in *.
  rewrite Hd. rewrite znth_app in Hk.
  rewrite !mod_ring in * by lia. destruct (Z.ltb_spec k (zlen l)).
  - specialize (Hc k y Hk). rewrite mod_ring in Hc by lia. rewrite Hc.
    destruct (_ && _) eqn:E; [|done]. exfalso.
    rewrite andb_true_iff, Z.leb_le, Z.ltb_lt in E.
    destruct (Z.ltb_spec (h + k) n), (Z.ltb_spec (h + zlen l) n); lia.
  - replace k with (zlen l) in * by lia.
    rewrite (proj2 (Z.leb_le _ _)), (proj2 (Z.ltb_lt _ _)) by lia; simpl.
    rewrite Z.sub_diag in Hk |- *. change (Some x = Some y) in Hk. by simplify_eq.
Qed.
End cells.

(** ** The ring shared by two threads *)

Record ring_queue (A : Type) := mkRing {
  _capacity : Z;
  _head : Z;
  _tail : Z;
  _q : list (option A)        (* [None] is the null pointer *)
}.
Arguments mkRing {A}.
Arguments _capacity {A}.
Arguments _head {A}.
Arguments _tail {A}.
Arguments _q {A}.

Section ring.
Context {A : Type}.
Implicit Types (q : ring_queue A) (l : list A).

Definition NextIndex q (i : Z) : Z := if negb (i =? _capacity q) then u32 (i + 1) else 0.
Definition PrevIndex q (i : Z) : Z := if negb (i =? 0) then u32 (i - 1) else _capacity q.

(** The two [calloc] calls may fail; [ok1] and [ok2] are their outcomes. *)
Definition CreateQueue (ok1 ok2 : bool) (capacity : Z) : option (ring_queue A) :=
  if negb ok1 then None
  else if negb (ok2 && (0 <=? capacity + 1)) then None
  else Some (mkRing (u32 capacity) 0 0 (replicate (Z.to_nat (capacity + 1)) None)).

Definition Enqueue q (x : A) : res (Z * ring_queue A) :=
  let h := _head q in
  let t := _tail q in
  let nt := NextIndex q t in
  if negb (nt =? h) then
    let! d := from_option_res OutOfBounds (mem_write (_q q) t [Some x]) in
    Ok (0, mkRing (_capacity q) (_head q) nt d)
  else Ok (-1, q).

Definition Dequeue q : res (option A * ring_queue A) :=
  let h := _head q in
  let t := _tail q in
  if negb (h =? t) then
    let! x := from_option_res OutOfBounds (znth (_q q) h) in
    let q' := mkRing (_capacity q) (NextIndex q h) (_tail q) (_q q) in
    match x with
    | Some x => Ok (Some x, q')
    | None => Fault AssertFailed
    end
  else Ok (None, q).

Definition QueueIsEmpty q : bool := _head q =? _tail q.

(** *** Representation *)

Definition ring_shape q : Prop :=
  0 <= _capacity q < 2147483648 /\
  0 <= _head q <= _capacity q /\ 0 <= _tail q <= _capacity q /\
  zlen (_q q) = _capacity q + 1.

Definition ring_rep q l : Prop :=
  ring_shape q /\ zlen l <= _capacity q /\
  _tail q = (_head q + zlen l) mod (_capacity q + 1) /\
  ring_cells (_capacity q + 1) (_head q) (_q q) l.

Lemma NextIndex_mod q i :
  0 <= i <= _capacity q /\ _capacity q < 2147483648 -> NextIndex q i = (i + 1) mod (_capacity q + 1).
Proof.
  intros ?. unfold NextIndex. bdestruct_one; simpl.
  - subst. symmetry. apply Z.mod_same; lia.
  - rewrite u32_small by lia. symmetry. apply Z.mod_small; lia.
Qed.

Lemma NextIndex_range q i :
  0 <= i <= _capacity q /\ _capacity q < 2147483648 -> 0 <= NextIndex q i <= _capacity q.
Proof.
  intros. rewrite NextIndex_mod by done.
  pose proof (Z.mod_pos_bound (i + 1) (_capacity q + 1)). lia.
Qed.

(** The full test and the empty test read the indices only. *)
Lemma ring_full_test q l :
  ring_rep q l -> (NextIndex q (_tail q) =? _head q) = (zlen l =? _capacity q).
Proof.
  intros ((?&?&?&?) & Hl & Ht & _). pose proof (zlen_nonneg l).
  rewrite NextIndex_mod by lia. rewrite Ht, Zplus_mod_idemp_l, <- Z.add_assoc, mod_ring by lia.
  bdestruct_all; lia.
Qed.

Lemma ring_empty_test q l : ring_rep q l -> (_head q =? _tail q) = (zlen l =? 0).
Proof.
  intros ((?&?&?&?) & Hl & Ht & _). pose proof (zlen_nonneg l).
  rewrite Ht, mod_ring by lia. bdestruct_all; lia.
Qed.

Lemma Enqueue_ok q l x :
  ring_rep q l -> zlen l < _capacity q ->
  exists q', Enqueue q x = Ok (0, q') /\ ring_rep q' (l ++ [x]) /\ _capacity q' = _capacity q.
Proof.
  intros Hr Hlt. unfold Enqueue. rewrite (ring_full_test q l Hr).
  destruct (Z.eqb_spec (zlen l) (_capacity q)); [lia|]; simpl.
  destruct Hr as ((?&?&?&?) & Hl & Ht & Hc). pose proof (zlen_nonneg l).
  destruct (mem_write_is_Some (_q q) (_tail q) [Some x]) as [d Hd]; simpl; try lia.
  { change (zlen [Some x]) with 1; lia. }
  rewrite Hd; simpl. eexists; split_and!; [done| |done].
  rewrite Ht in Hd. destruct (ring_cells_snoc (_capacity q + 1) (_head q) (_q q) l x d) as [? ?]; [lia..|done|done|].
  pose proof (NextIndex_range q (_tail q) ltac:(lia)).
  assert (zlen (l ++ [x]) = zlen l + 1) as El by by rewrite zlen_app.
  split_and!; unfold ring_shape; simpl; try lia; try done.
  rewrite NextIndex_mod, Ht, Zplus_mod_idemp_l, El by lia. f_equal; lia.
Qed.

Lemma Enqueue_full q l x : ring_rep q l -> zlen l = _capacity q -> Enqueue q x = Ok (-1, q).
Proof.
  intros Hr E. unfold Enqueue. rewrite (ring_full_test q l Hr), E, Z.eqb_refl. done.
Qed.

Lemma Dequeue_nil q : ring_rep q [] -> Dequeue q = Ok (None, q).
Proof. intros Hr. unfold Dequeue. by rewrite (ring_empty_test q [] Hr). Qed.

(** The contents after the head slot is given up. *)
Lemma ring_rep_tail q x l :
  ring_rep q (x :: l) ->
  ring_rep (mkRing (_capacity q) (NextIndex q (_head q)) (_tail q) (_q q)) l.
Proof.
  intros ((?&?&?&?) & Hl & Ht & Hc). rewrite zlen_cons in *.
  pose proof (NextIndex_range q (_head q) ltac:(lia)).
  split_and!; unfold ring_shape; simpl; try lia.
  - rewrite NextIndex_mod, Ht, Zplus_mod_idemp_l by lia. f_equal; lia.
  - rewrite NextIndex_mod by lia. apply (ring_cells_tail _ _ _ x); [lia|done].
Qed.

Lemma Dequeue_cons q x l :
  ring_rep q (x :: l) ->
  exists q', Dequeue q = Ok (Some x, q') /\ ring_rep q' l /\ _capacity q' = _capacity q.
Proof.
  intros Hr. unfold Dequeue. rewrite (ring_empty_test q _ Hr).
  assert (zlen (x :: l) =? 0 = false) as -> by done. simpl.
  pose proof Hr as ((?&?&?&?) & _ & _ & Hc).
  rewrite (ring_cells_head (_capacity q + 1) (_head q) (_q q) x l); [simpl|lia|done].
  eexists; split_and!; [done|by eapply ring_rep_tail|done].
Qed.

Lemma CreateQueue_rep capacity q :
  0 <= capacity < 2147483648 -> CreateQueue true true capacity = Some q ->
  ring_rep q [] /\ _capacity q = capacity.
Proof.
  intros ?. unfold CreateQueue; simpl. bdestruct_one; simpl; [|lia].
  intros [= <-]. unfold ring_rep, ring_shape; simpl.
  rewrite u32_small by lia. unfold zlen; simpl. rewrite length_replicate.
  rewrite Z.mod_0_l by lia. split_and!; try lia.
  intros k x. unfold znth. bdestruct_one; done.
Qed.
End ring.

#[export] Instance ring_fifo A : Fifo (ring_queue A) A := {|
  fifo_rep := ring_rep;
  fifo_cap := _capacity;
  fifo_enq := Enqueue;
  fifo_deq := Dequeue;
  fifo_len_cap q l H := proj1 (proj2 H);
  fifo_enq_ok := Enqueue_ok;
  fifo_enq_full := Enqueue_full;
  fifo_deq_nil := Dequeue_nil;
  fifo_deq_cons := Dequeue_cons
|}.

(** ** The thread-private counted ring of [tcp_stream_queue.c] *)

Record stream_queue_int (A : Type) := mkSqi {
  sq_array : list (option A);
  sq_size : Z;
  sq_first : Z;
  sq_last : Z;
  sq_count : Z
}.
Arguments mkSqi {A}.
Arguments sq_array {A}.
Arguments sq_size {A}.
Arguments sq_first {A}.
Arguments sq_last {A}.
Arguments sq_count {A}.

Section internal.
Context {A : Type}.
Implicit Types (q : stream_queue_int A) (l : list A).

Definition CreateInternalStreamQueue (ok1 ok2 : bool) (sz : Z) : option (stream_queue_int A) :=
  if negb ok1 then None
  else if negb (ok2 && (0 <=? sz)) then None
  else Some (mkSqi (replicate (Z.to_nat sz) None) sz 0 0 0).

Definition StreamInternalEnqueue q (x : A) : res (Z * stream_queue_int A) :=
  if sq_size q <=? sq_count q then Ok (-1, q)
  else
    let! d := from_option_res OutOfBounds (mem_write (sq_array q) (sq_last q) [Some x]) in
    let last1 := sq_last q + 1 in
    let count1 := sq_count q + 1 in
    let last2 := if sq_size q <=? last1 then 0 else last1 in
    if count1 <=? sq_size q then Ok (0, mkSqi d (sq_size q) (sq_first q) last2 count1)
    else Fault AssertFailed.

Definition StreamInternalDequeue q : res (option A * stream_queue_int A) :=
  if sq_count q <=? 0 then Ok (None, q)
  else
    let! x := from_option_res OutOfBounds (znth (sq_array q) (sq_first q)) in
    match x with
    | None => Fault AssertFailed
    | Some x =>
        let first1 := sq_first q + 1 in
        let first2 := if sq_size q <=? first1 then 0 else first1 in
        let count1 := sq_count q - 1 in
        if 0 <=? count1 then Ok (Some x, mkSqi (sq_array q) (sq_size q) first2 (sq_last q) count1)
        else Fault AssertFailed
    end.

Definition sqi_rep q l : Prop :=
  0 < sq_size q < 2147483648 /\ 0 <= sq_first q < sq_size q /\ zlen (sq_array q) = sq_size q /\
  sq_count q = zlen l /\ zlen l <= sq_size q /\ sq_last q = (sq_first q + zlen l) mod sq_size q /\
  ring_cells (sq_size q) (sq_first q) (sq_array q) l.

Lemma index_wrap i n : 0 <= i < n -> (if n <=? i + 1 then 0 else i + 1) = (i + 1) mod n.
Proof. intros. rewrite mod_ring by lia. bdestruct_all; lia. Qed.

Lemma sqi_enq_ok q l x :
  sqi_rep q l -> zlen l < sq_size q ->
  exists q', StreamInternalEnqueue q x = Ok (0, q') /\ sqi_rep q' (l ++ [x]) /\ sq_size q' = sq_size q.
Proof.
  intros (?&?&?&Hn&?&Hlast&Hc) Hlt. unfold StreamInternalEnqueue. rewrite Hn.
  pose proof (zlen_nonneg l).
  assert (0 <= sq_last q < sq_size q) by (rewrite Hlast; apply Z.mod_pos_bound; lia).
  destruct (Z.leb_spec (sq_size q) (zlen l)); [lia|].
  destruct (mem_write_is_Some (sq_array q) (sq_last q) [Some x]) as [d Hd]; try (change (zlen [Some x]) with 1); try lia.
  rewrite Hd; simpl. destruct (Z.leb_spec (zlen l + 1) (sq_size q)); [|lia].
  eexists; split_and!; [done| |done].
  rewrite Hlast in Hd. destruct (ring_cells_snoc (sq_size q) (sq_first q) (sq_array q) l x d) as [? ?]; [lia..|done|done|].
  assert (zlen (l ++ [x]) = zlen l + 1) as El by by rewrite zlen_app.
  unfold sqi_rep; simpl. rewrite El. split_and!; try lia; try done.
  rewrite index_wrap, Hlast, Zplus_mod_idemp_l by lia. f_equal; lia.
Qed.

Lemma sqi_enq_full q l x : sqi_rep q l -> zlen l = sq_size q -> StreamInternalEnqueue q x = Ok (-1, q).
Proof.
  intros (?&?&?&Hn&?&_) E. unfold StreamInternalEnqueue. rewrite Hn, E, Z.leb_refl. done.
Qed.

Lemma sqi_deq_nil q : sqi_rep q [] -> StreamInternalDequeue q = Ok (None, q).
Proof. intros (?&?&?&Hn&?). unfold StreamInternalDequeue. by rewrite Hn. Qed.

Lemma sqi_deq_cons q x l :
  sqi_rep q (x :: l) ->
  exists q', StreamInternalDequeue q = Ok (Some x, q') /\ sqi_rep q' l /\ sq_size q' = sq_size q.
Proof.
  intros (?&?&?&Hn&?&Hlast&Hc). rewrite zlen_cons in *. pose proof (zlen_nonneg l).
  unfold StreamInternalDequeue. rewrite Hn.
  destruct (Z.leb_spec (zlen l + 1) 0); [lia|].
  rewrite (ring_cells_head (sq_size q) (sq_first q) (sq_array q) x l); [simpl|lia|done].
  destruct (Z.leb_spec 0 (zlen l + 1 - 1)); [|lia].
  eexists; split_and!; [done| |done]. unfold sqi_rep; simpl.
  rewrite index_wrap, Zplus_mod_idemp_l by lia.
  pose proof (Z.mod_pos_bound (sq_first q + 1) (sq_size q)).
  split_and!; try lia.
  - rewrite Hlast. f_equal; lia.
  - apply (ring_cells_tail _ _ _ x); [lia|done].
Qed.
End internal.

#[export] Instance sqi_fifo A : Fifo (stream_queue_int A) A := {|
  fifo_rep := sqi_rep;
  fifo_cap := sq_size;
  fifo_enq := StreamInternalEnqueue;
  fifo_deq := StreamInternalDequeue;
  fifo_len_cap q l H := proj1 (proj2 (proj2 (proj2 (proj2 H))));
  fifo_enq_ok := sqi_enq_ok;
  fifo_enq_full := sqi_enq_full;
  fifo_deq_nil := sqi_deq_nil;
  fifo_deq_cons := sqi_deq_cons
|}.

(** ** Sequences of operations refine a bounded list *)

Inductive qop (A : Type) :=
| Enq (x : A)
| Deq.
Arguments Enq {A} x.
Arguments Deq {A}.

(** What the caller sees: the status of an enqueue, the item of a dequeue. *)
Inductive qout (A : Type) :=
| Status (rc : Z)
| Item (o : option A).
Arguments Status {A} rc.
Arguments Item {A} o.

Definition spec_step {A} (cap : Z) (l : list A) (o : qop A) : qout A * list A :=
  match o with
  | Enq x => if zlen l <? cap then (Status 0, l ++ [x]) else (Status (-1), l)
  | Deq => match l with [] => (Item None, []) | x :: l' => (Item (Some x), l') end
  end.

Fixpoint spec_run {A} (cap : Z) (l : list A) (ops : list (qop A)) : list (qout A) * list A :=
  match ops with
  | [] => ([], l)
  | o :: ops =>
      let '(r, l1) := spec_step cap l o in
      let '(rs, l2) := spec_run cap l1 ops in
      (r :: rs, l2)
  end.

Section run.
Context {Q A : Type} `{Fifo Q A}.

Definition fifo_step (q : Q) (o : qop A) : res (qout A * Q) :=
  match o with
  | Enq x => let! (rc, q') := fifo_enq q x in Ok (Status rc, q')
  | Deq => let! (i, q') := fifo_deq q in Ok (Item i, q')
  end.

Fixpoint fifo_run (q : Q) (ops : list (qop A)) : res (list (qout A) * Q) :=
  match ops with
  | [] => Ok ([], q)
  | o :: ops =>
      let! (r, q1) := fifo_step q o in
      let! (rs, q2) := fifo_run q1 ops in
      Ok (r :: rs, q2)
  end.

Lemma fifo_step_refines q l o :
  fifo_rep q l ->
  exists q', fifo_step q o = Ok (fst (spec_step (fifo_cap q) l o), q') /\
    fifo_rep q' (snd (spec_step (fifo_cap q) l o)) /\ fifo_cap q' = fifo_cap q.
Proof.
  intros Hr. destruct o as [x|]; simpl.
  - pose proof (fifo_len_cap q l Hr). destruct (Z.ltb_spec (zlen l) (fifo_cap q)); simpl.
    + destruct (fifo_enq_ok q l x Hr) as (q' & -> & ? & ?); [done|]. by exists q'.
    + rewrite (fifo_enq_full q l x Hr) by lia. by exists q.
  - destruct l as [|x l]; simpl.
    + rewrite (fifo_deq_nil q Hr). by exists q.
    + destruct (fifo_deq_cons q x l Hr) as (q' & -> & ? & ?). by exists q'.
Qed.

Lemma fifo_run_refines ops : forall q l,
  fifo_rep q l ->
  exists q', fifo_run q ops = Ok (fst (spec_run (fifo_cap q) l ops), q') /\
    fifo_rep q' (snd (spec_run (fifo_cap q) l ops)).
Proof.
  induction ops as [|o ops IH]; intros q l Hr; simpl; [by exists q|].
  destruct (fifo_step_refines q l o Hr) as (q1 & -> & Hr1 & Hc). simpl.
  destruct (spec_step (fifo_cap q) l o) as [r l1]; simpl in *.
  destruct (IH q1 l1 Hr1) as (q2 & -> & Hr2). rewrite Hc in *. simpl.
  destruct (spec_run (fifo_cap q) l1 ops) as [rs l2]; simpl in *. by exists q2.
Qed.
End run.

(** From a freshly created shared ring of capacity [cap], every sequence
    of [Enqueue]/[Dequeue] calls runs without a fault and returns what the
    bounded list queue returns: at most [cap] items are held, a full queue
    refuses with -1, items come out in insertion order. *)
Theorem ring_queue_refines {A} (capacity : Z) (q : ring_queue A) (ops : list (qop A)) :
  0 <= capacity < 2147483648 -> CreateQueue true true capacity = Some q ->
  exists q', fifo_run q ops = Ok (fst (spec_run capacity [] ops), q') /\
    ring_rep q' (snd (spec_run capacity [] ops)).
Proof.
  intros Hc Hq. destruct (CreateQueue_rep _ _ Hc Hq) as [Hr Hcap].
  rewrite <- Hcap. exact (fifo_run_refines ops q [] Hr).
Qed.

Lemma ring_queue_refines_witness :
  exists q', fifo_run (mkRing 2 0 0 [None; None; None]) [Enq 7; Enq 8; Enq 9; Deq; Enq 9; Deq; Deq; Deq]
    = Ok ([Status 0; Status 0; Status (-1); Item (Some 7); Status 0; Item (Some 8); Item (Some 9); Item None], q')
    /\ ring_rep q' [].
Proof.
  exact (ring_queue_refines 2 (mkRing 2 0 0 [None; None; None])
    [Enq 7; Enq 8; Enq 9; Deq; Enq 9; Deq; Deq; Deq] ltac:(lia) eq_refl).
Defined.

Lemma CreateInternal_rep {A} sz (q : stream_queue_int A) :
  0 < sz < 2147483648 -> CreateInternalStreamQueue true true sz = Some q -> sqi_rep q [] /\ sq_size q = sz.
Proof.
  intros ?. unfold CreateInternalStreamQueue; simpl. bdestruct_one; simpl; [|lia].
  intros [= <-]. unfold sqi_rep; simpl. unfold zlen; simpl. rewrite length_replicate.
  rewrite Z.mod_0_l by lia. split_and!; try lia. intros k x. unfold znth. bdestruct_one; done.
Qed.

(** the same for the counted ring [stream_queue_int] of size [sz]: no
    assertion fails, no slot outside the array is touched, and the calls
    return what the bounded list queue returns. *)
Theorem internal_queue_refines {A} (sz : Z) (q : stream_queue_int A) (ops : list (qop A)) :
  0 < sz < 2147483648 -> CreateInternalStreamQueue true true sz = Some q ->
  exists q', fifo_run q ops = Ok (fst (spec_run sz [] ops), q') /\
    sqi_rep q' (snd (spec_run sz [] ops)).
Proof.
  intros Hc Hq. destruct (CreateInternal_rep _ _ Hc Hq) as [Hr Hcap].
  rewrite <- Hcap. exact (fifo_run_refines ops q [] Hr).
Qed.

Lemma internal_queue_refines_witness :
  exists q', fifo_run (mkSqi [None; None] 2 0 0 0) [Enq 7; Enq 8; Enq 9; Deq; Enq 9; Deq; Deq; Deq]
    = Ok ([Status 0; Status 0; Status (-1); Item (Some 7); Status 0; Item (Some 8); Item (Some 9); Item None], q')
    /\ sqi_rep q' [].
Proof.
  exact (internal_queue_refines 2 (mkSqi [None; None] 2 0 0 0)
    [Enq 7; Enq 8; Enq 9; Deq; Enq 9; Deq; Deq; Deq] ltac:(lia) eq_refl).
Defined.

(** ** Producer and consumer running concurrently

    [Enqueue] and [Dequeue] are split at every access to a [volatile] index
    and to the slot array; the two threads interleave arbitrarily, and each
    access is atomic and seen in program order (the code orders the slot
    access before the index update with its barrier). [enqd] and [deqd]
    record what calls to [Enqueue] published and calls to [Dequeue]
    returned, in order. *)

Module Spsc.
Section spsc.
Context {A : Type}.

Inductive producer :=
| PIdle
| PCall (x : A)
| PHead (x : A) (h : Z)
| PTail (x : A) (h t : Z)
| PWrote (x : A) (nt : Z).

Inductive consumer :=
| CIdle
| CCall
| CHead (h : Z)
| CTail (h t : Z)
| CRead (h : Z) (x : A).

Record sys := mkSys {
  ring : ring_queue A;
  prod : producer;
  cons : consumer;
  enqd : list A;
  deqd : list A;
  faulted : bool
}.

Definition set_tail (q : ring_queue A) (t : Z) := mkRing (_capacity q) (_head q) t (_q q).
Definition set_head (q : ring_queue A) (h : Z) := mkRing (_capacity q) h (_tail q) (_q q).
Definition set_slots (q : ring_queue A) (d : list (option A)) := mkRing (_capacity q) (_head q) (_tail q) d.

Inductive step : sys -> sys -> Prop :=
| p_call q c e d x :
    step (mkSys q PIdle c e d false) (mkSys q (PCall x) c e d false)
| p_read_head q c e d x :
    step (mkSys q (PCall x) c e d false) (mkSys q (PHead x (_head q)) c e d false)
| p_read_tail q c e d x h :
    step (mkSys q (PHead x h) c e d false) (mkSys q (PTail x h (_tail q)) c e d false)
| p_full q c e d x h t :
    NextIndex q t = h ->
    step (mkSys q (PTail x h t) c e d false) (mkSys q PIdle c e d false)
| p_write q c e d x h t s :
    NextIndex q t <> h -> mem_write (_q q) t [Some x] = Some s ->
    step (mkSys q (PTail x h t) c e d false)
         (mkSys (set_slots q s) (PWrote x (NextIndex q t)) c e d false)
| p_write_oob q c e d x h t :
    NextIndex q t <> h -> mem_write (_q q) t [Some x] = None ->
    step (mkSys q (PTail x h t) c e d false) (mkSys q PIdle c e d true)
| p_publish q c e d x nt :
    step (mkSys q (PWrote x nt) c e d false) (mkSys (set_tail q nt) PIdle c (e ++ [x]) d false)
| c_call q p e d :
    step (mkSys q p CIdle e d false) (mkSys q p CCall e d false)
| c_read_head q p e d :
    step (mkSys q p CCall e d false) (mkSys q p (CHead (_head q)) e d false)
| c_read_tail q p e d h :
    step (mkSys q p (CHead h) e d false) (mkSys q p (CTail h (_tail q)) e d false)
| c_empty q p e d h t :
    h = t -> step (mkSys q p (CTail h t) e d false) (mkSys q p CIdle e d false)
| c_read q p e d h t x :
    h <> t -> znth (_q q) h = Some (Some x) ->
    step (mkSys q p (CTail h t) e d false) (mkSys q p (CRead h x) e d false)
| c_bad q p e d h t :
    (* the slot is outside the array, or holds a null pointer (the [assert]) *)
    h <> t -> znth (_q q) h = None \/ znth (_q q) h = Some None ->
    step (mkSys q p (CTail h t) e d false) (mkSys q p CIdle e d true)
| c_release q p e d h x :
    step (mkSys q p (CRead h x) e d false)
         (mkSys (set_head q (NextIndex q h)) p CIdle e (d ++ [x]) false).

Inductive reachable (capacity : Z) : sys -> Prop :=
| reach_init q :
    CreateQueue true true capacity = Some q ->
    reachable capacity (mkSys q PIdle CIdle [] [] false)
| reach_step s s' : reachable capacity s -> step s s' -> reachable capacity s'.

(** *** The invariant *)

(** [h] was the head index when [k] items had been dequeued. *)
Definition old_ix (q : ring_queue A) (h k : Z) : Prop := h = k mod (_capacity q + 1).

(** The ring holds exactly the items published and not yet released. *)
Definition inv_ring (s : sys) (l : list A) : Prop :=
  let q := ring s in
  faulted s = false /\ ring_rep q l /\ enqd s = deqd s ++ l /\
  old_ix q (_head q) (zlen (deqd s)) /\ old_ix q (_tail q) (zlen (enqd s)).

Definition inv_prod (s : sys) (l : list A) : Prop :=
  let q := ring s in
  match prod s with
  | PIdle | PCall _ => True
  | PHead _ h =>
      exists k, old_ix q h k /\ 0 <= k <= zlen (deqd s) /\ zlen (enqd s) - k <= _capacity q
  | PTail _ h t =>
      t = _tail q /\
      exists k, old_ix q h k /\ 0 <= k <= zlen (deqd s) /\ zlen (enqd s) - k <= _capacity q
  | PWrote x nt =>
      nt = NextIndex q (_tail q) /\ zlen l < _capacity q /\
      ring_cells (_capacity q + 1) (_head q) (_q q) (l ++ [x])
  end.

Definition inv_cons (s : sys) (l : list A) : Prop :=
  let q := ring s in
  match cons s with
  | CIdle | CCall => True
  | CHead h => h = _head q
  | CTail h t =>
      h = _head q /\
      exists k, old_ix q t k /\ zlen (deqd s) <= k <= zlen (enqd s)
  | CRead h x => h = _head q /\ exists l', l = x :: l'
  end.

Definition inv (s : sys) : Prop :=
  exists l, inv_ring s l /\ inv_prod s l /\ inv_cons s l.

Lemma inv_init capacity q :
  0 <= capacity < 2147483648 -> CreateQueue true true capacity = Some q ->
  inv (mkSys q PIdle CIdle [] [] false).
Proof.
  intros Hc Hq. destruct (CreateQueue_rep _ _ Hc Hq) as [Hr Hcap].
  exists []. unfold CreateQueue in Hq; simpl in Hq.
  destruct (0 <=? capacity + 1); simpl in Hq; [|done]. injection Hq as <-.
  unfold inv_ring, inv_prod, inv_cons, old_ix; simpl in *.
  split_and!; try done; change (zlen []) with 0; rewrite Z.mod_0_l by lia; done.
Qed.

(** What a write to the slot at the tail gives. *)
Lemma inv_write q l x s :
  ring_rep q l -> zlen l < _capacity q -> mem_write (_q q) (_tail q) [Some x] = Some s ->
  ring_rep (set_slots q s) l /\
  ring_cells (_capacity q + 1) (_head q) s (l ++ [x]).
Proof.
  intros ((?&?&?&?) & ? & Ht & Hc) ? Hw. rewrite Ht in Hw.
  destruct (ring_cells_snoc (_capacity q + 1) (_head q) (_q q) l x s) as [? Hc'];
    [lia..|done|done|].
  split; [|done]. split_and!; unfold ring_shape; simpl; try lia; try done.
  by eapply ring_cells_app_l.
Qed.

Lemma inv_publish q l x :
  ring_rep q l -> zlen l < _capacity q ->
  ring_cells (_capacity q + 1) (_head q) (_q q) (l ++ [x]) ->
  ring_rep (set_tail q (NextIndex q (_tail q))) (l ++ [x]).
Proof.
  intros ((?&?&?&?) & ? & Ht & Hc) ? Hc'.
  pose proof (NextIndex_range q (_tail q) ltac:(lia)).
  assert (zlen (l ++ [x]) = zlen l + 1) as El by by rewrite zlen_app.
  split_and!; unfold ring_shape; simpl; try lia; try done.
  rewrite NextIndex_mod, Ht, Zplus_mod_idemp_l, El by lia. f_equal; lia.
Qed.

Lemma old_ix_next q h k :
  ring_shape q -> 0 <= h <= _capacity q -> old_ix q h k -> old_ix q (NextIndex q h) (k + 1).
Proof.
  intros (?&?&?&?) ? ->. unfold old_ix.
  rewrite NextIndex_mod by lia. by rewrite Zplus_mod_idemp_l.
Qed.

(** The producer's room test is sound although its copy of the head may
    be stale: the head only moves away from it. *)
Lemma producer_room q x h e d l :
  ring_rep q l -> e = d ++ l -> old_ix q (_tail q) (zlen e) ->
  (exists k, old_ix q h k /\ 0 <= k <= zlen d /\ zlen e - k <= _capacity q) ->
  NextIndex q (_tail q) <> h -> zlen (l ++ [x]) <= _capacity q.
Proof.
  intros ((?&?&?&?) & ? & ? & ?) -> Ht (k & Hk & ? & ?) Hne.
  rewrite !zlen_app in *. change (zlen [x]) with 1.
  destruct (Z.eq_dec (zlen d + zlen l - k) (_capacity q)) as [E|]; [|lia].
  exfalso. apply Hne. rewrite NextIndex_mod by lia. rewrite Ht, Hk, Zplus_mod_idemp_l.
  replace (zlen d + zlen l + 1) with (k + 1 * (_capacity q + 1)) by lia.
  apply Z.mod_add; lia.
Qed.

(** A consumer that saw different indices finds an item. *)
Lemma consumer_item q t e d l :
  ring_rep q l -> e = d ++ l -> old_ix q (_head q) (zlen d) ->
  (exists k, old_ix q t k /\ zlen d <= k <= zlen e) -> _head q <> t ->
  exists x l', l = x :: l' /\ znth (_q q) (_head q) = Some (Some x).
Proof.
  intros ((?&?&?&?) & ? & ? & Hc) -> Hh (k & Hk & ?) Hne.
  destruct l as [|x l]; simpl in *.
  - exfalso. apply Hne. rewrite app_nil_r in *. rewrite Hk, Hh. f_equal; lia.
  - exists x, l; split; [done|]. eapply ring_cells_head; [|done]. lia.
Qed.

Ltac inv_solve := unfold inv_ring, inv_prod, inv_cons, old_ix in *; simpl in *; try done.

Lemma inv_step_producer s s' l :
  inv_ring s l -> inv_prod s l -> inv_cons s l -> step s s' ->
  cons s' = cons s -> deqd s' = deqd s -> inv s'.
Proof.
  intros (Hf & Hr & He & Hh & Ht) Hp Hc Hst Hcs Hds.
  pose proof Hr as (Hs & Hl & Htl & Hcl). pose proof Hs as (?&?&?&?).
  destruct Hst; simpl in *; try discriminate; simplify_eq.
  - exists l; split_and!; inv_solve.
  - exists l; split_and!; inv_solve. exists (zlen d). rewrite !zlen_app in *.
    pose proof (zlen_nonneg d). split_and!; [done|lia..].
  - exists l; split_and!; inv_solve.
  - exists l; split_and!; inv_solve.
  - unfold inv_prod in Hp; simpl in Hp. destruct Hp as [-> Hk].
    assert (zlen (l ++ [x]) <= _capacity q) as Hroom by by eapply producer_room.
    rewrite zlen_app in Hroom. change (zlen [x]) with 1 in Hroom.
    destruct (inv_write q l x s Hr) as [??]; [lia|done|].
    exists l; split_and!; inv_solve. split_and!; [done|lia|done].
  - unfold inv_prod in Hp; simpl in Hp. destruct Hp as [-> Hk]. exfalso.
    destruct (mem_write_is_Some (_q q) (_tail q) [Some x]) as [? Hw];
      [lia|change (zlen [Some x]) with 1; lia|congruence].
  - unfold inv_prod in Hp; simpl in Hp. destruct Hp as (-> & Hlt & Hc').
    exists (l ++ [x]); split_and!; inv_solve.
    + split_and!; try done.
      * by apply inv_publish.
      * by rewrite app_assoc.
      * rewrite <- app_assoc, app_assoc, (zlen_app (d ++ l)).
        apply (old_ix_next q); done.
    + destruct c; try done.
      * destruct Hc as (? & k & ? & ?). split; [done|]. exists k. split; [done|].
        rewrite (zlen_app (d ++ l)); change (zlen [x]) with 1; lia.
      * destruct Hc as (? & l' & ->). split; [done|]. by exists (l' ++ [x]).
Qed.

Lemma inv_step_consumer s s' l :
  inv_ring s l -> inv_prod s l -> inv_cons s l -> step s s' ->
  prod s' = prod s -> enqd s' = enqd s -> inv s'.
Proof.
  intros (Hf & Hr & He & Hh & Ht) Hp Hc Hst Hps Hes.
  pose proof Hr as (Hs & Hl & Htl & Hcl). pose proof Hs as (?&?&?&?).
  destruct Hst; simpl in *; try discriminate; simplify_eq;
    unfold inv_cons in Hc; simpl in Hc.
  - exists l; split_and!; inv_solve.
  - exists l; split_and!; inv_solve.
  - exists l; split_and!; inv_solve. split; [done|]. exists (zlen (d ++ l)).
    rewrite !zlen_app in *. pose proof (zlen_nonneg l). split; [done|lia].
  - exists l; split_and!; inv_solve.
  - destruct Hc as [-> Hk].
    destruct (consumer_item q t _ d l Hr eq_refl Hh Hk) as (y & l' & -> & ?); [done|].
    simplify_eq. exists (x :: l'); split_and!; inv_solve. split; [done|]. by exists l'.
  - destruct Hc as [-> Hk]. exfalso.
    destruct (consumer_item q t _ d l Hr eq_refl Hh Hk) as (y & l' & -> & ?); [done|].
    naive_solver.
  - destruct Hc as [-> (l' & ->)]. exists l'.
    assert (zlen (d ++ [x]) = zlen d + 1) as Ed by by rewrite zlen_app.
    split_and!; inv_solve.
    + split_and!; try done.
      * by apply ring_rep_tail in Hr.
      * by rewrite <- app_assoc.
      * rewrite Ed. by apply (old_ix_next q).
    + destruct p; try done.
      * destruct Hp as (k & ? & ? & ?). exists k. split_and!; [done|lia..].
      * destruct Hp as (? & k & ? & ? & ?). split; [done|]. exists k. split_and!; [done|lia..].
      * destruct Hp as (? & Hlt & Hc'). rewrite zlen_cons in Hlt. split_and!; [done|lia|].
        rewrite NextIndex_mod by lia. apply (ring_cells_tail _ _ _ x); [lia|done].
Qed.

Lemma step_thread s s' :
  step s s' ->
  (cons s' = cons s /\ deqd s' = deqd s) \/ (prod s' = prod s /\ enqd s' = enqd s).
Proof. destruct 1; simpl; auto. Qed.

Lemma reachable_inv capacity s :
  0 <= capacity < 2147483648 -> reachable capacity s -> inv s.
Proof.
  intros Hc. induction 1 as [q Hq|s s' _ (l & Hr & Hp & Hcs) Hst]; [by eapply inv_init|].
  destruct (step_thread _ _ Hst) as [[??]|[??]];
    [by eapply inv_step_producer|by eapply inv_step_consumer].
Qed.
End spsc.

(** C24: with one producer and one consumer thread interleaved in any way on
    a ring of capacity [capacity], no run touches a slot outside the array
    or trips the [assert] on a null item, and the items returned by
    [Dequeue] so far followed by the items in the ring are exactly the items
    published by [Enqueue], in order. *)
Theorem spsc_concurrent {A} (capacity : Z) (s : sys (A := A)) :
  0 <= capacity < 2147483648 -> reachable capacity s ->
  faulted s = false /\
  exists l, ring_rep (ring s) l /\ enqd s = deqd s ++ l.
Proof.
  intros Hc Hr. destruct (reachable_inv _ _ Hc Hr) as (l & (Hf & Hrep & He & _) & _).
  split; [done|]. by exists l.
Qed.

Lemma spsc_concurrent_witness :
  let s := mkSys (mkRing 2 0 1 [Some 7; None; None]) PIdle (CHead 0) [7] [] false in
  faulted s = false /\ exists l, ring_rep (ring s) l /\ enqd s = deqd s ++ l.
Proof.
  apply (spsc_concurrent 2); [lia|].
  pose (q0 := mkRing 2 0 0 [None; None; None] : ring_queue Z).
  pose (q1 := mkRing 2 0 0 [Some 7; None; None] : ring_queue Z).
  eapply reach_step; [|exact (p_publish q1 (CHead 0) [] [] 7 1)].
  eapply reach_step; [|by apply (p_write q0 (CHead 0) [] [] 7 0 0)].
  eapply reach_step; [|exact (p_read_tail q0 (CHead 0) [] [] 7 0)].
  eapply reach_step; [|exact (p_read_head q0 (CHead 0) [] [] 7)].
  eapply reach_step; [|exact (c_read_head q0 (PCall 7) [] [])].
  eapply reach_step; [|exact (c_call q0 (PCall 7) [] [])].
  eapply reach_step; [|exact (p_call q0 CIdle [] [] 7)].
  apply reach_init. reflexivity.
Defined.
End Spsc.

(** ** Names of the three copies

    Items are pointers; a pointer is a number. *)

Definition ptr := Z.

Definition CreateSBQueue {A} := @CreateQueue A.
Definition SBEnqueue {A} := @Enqueue A.
Definition SBDequeue {A} := @Dequeue A.

Definition CreateRBFragQueue := @CreateQueue ptr.
Definition RBFragEnqueue := @Enqueue ptr.
Definition RBFragDequeue := @Dequeue ptr.

Definition CreateStreamQueue := @CreateQueue ptr.
Definition StreamEnqueue := @Enqueue ptr.
Definition StreamDequeue := @Dequeue ptr.
Definition StreamQueueIsEmpty := @QueueIsEmpty ptr.
