(* ===== verification/MemPool.v ===== *)
(** * The chunk allocator of [memory_mgt.c] (build without DPDK)

    A pool is one region cut into chunks of [mp_chunk_size] bytes; a chunk
    is named by its byte offset from [mp_startptr]. The free list is
    threaded through the free chunks themselves: the first bytes of a free
    run hold a [mem_chunk] header. [hdrs] is that part of the memory. *)

From S2P Require Import Prelude.

Record mem_chunk := mkChunk {
  mc_free_chunks : Z;
  mc_next : option Z
}.

Record mem_pool := mkPool {
  mp_freeptr : option Z;
  mp_free_chunks : Z;
  mp_total_chunks : Z;
  mp_chunk_size : Z;
  hdrs : gmap Z mem_chunk
}.

Definition sizeof_mem_chunk : Z := 16.

(** [None] is the null result. A failing [calloc] ends the process, and a
    failing [posix_memalign] trips an assertion; [memalign_ok] is its outcome. *)
Definition MPCreate (memalign_ok : bool) (chunk_size total_size : Z) : res (option mem_pool) :=
  if chunk_size <? sizeof_mem_chunk then Ok None
  else if negb (chunk_size mod 4 =? 0) then Ok None
  else
    let n := s32 ((total_size + (chunk_size - 1)) / chunk_size) in
    if memalign_ok then
      Ok (Some (mkPool (Some 0) n n chunk_size {[0 := mkChunk n None]}))
    else Fault AssertFailed.

Definition MPAllocateChunk (mp : mem_pool) : res (option Z * mem_pool) :=
  if mp_free_chunks mp =? 0 then Ok (None, mp)
  else
    match mp_freeptr mp with
    | None => Fault NullDeref
    | Some p =>
        let! h := from_option_res OutOfBounds (hdrs mp !! p) in
        if negb (0 <? mc_free_chunks h) then Fault AssertFailed
        else
          let n1 := mc_free_chunks h - 1 in
          let free1 := mp_free_chunks mp - 1 in
          let hdrs1 := <[p := mkChunk n1 (mc_next h)]> (hdrs mp) in
          if negb (n1 =? 0) then
            (* move right by one chunk *)
            let p' := p + mp_chunk_size mp in
            Ok (Some p, mkPool (Some p') free1 (mp_total_chunks mp) (mp_chunk_size mp)
                          (<[p' := mkChunk n1 (mc_next h)]> hdrs1))
          else
            Ok (Some p, mkPool (mc_next h) free1 (mp_total_chunks mp) (mp_chunk_size mp) hdrs1)
    end.

Definition MPFreeChunk (mp : mem_pool) (p : Z) : res mem_pool :=
  if negb (p mod mp_chunk_size mp =? 0) then Fault AssertFailed
  else
    Ok (mkPool (Some p) (mp_free_chunks mp + 1) (mp_total_chunks mp) (mp_chunk_size mp)
          (<[p := mkChunk 1 (mp_freeptr mp)]> (hdrs mp))).

Definition MPGetFreeChunks (mp : mem_pool) : Z := mp_free_chunks mp.

(** ** The free list as a list of runs *)

(** The chunks of a run of [n] chunks from [a]. *)
Definition run_chunks (cs a : Z) (n : nat) : list Z := (fun k : nat => a + Z.of_nat k * cs) <$> seq 0 n.

Fixpoint free_runs (hs : gmap Z mem_chunk) (fp : option Z) (rs : list (Z * nat)) : Prop :=
  match rs with
  | [] => fp = None
  | (a, n) :: rs' =>
      fp = Some a /\ (0 < n)%nat /\
      exists nx, hs !! a = Some (mkChunk (Z.of_nat n) nx) /\ free_runs hs nx rs'
  end.

Definition free_chunks (cs : Z) (rs : list (Z * nat)) : list Z :=
  rs ≫= fun r => run_chunks cs (fst r) (snd r).

Definition valid_chunk (mp : mem_pool) (p : Z) : Prop :=
  exists k, p = k * mp_chunk_size mp /\ 0 <= k < mp_total_chunks mp.

(** [free] lists the free chunks, [used] the chunks handed out: together
    they are the chunks of the pool, each once. *)
Definition pool_rep (mp : mem_pool) (free used : list Z) : Prop :=
  0 < mp_chunk_size mp /\
  (exists rs, free_runs (hdrs mp) (mp_freeptr mp) rs /\ free = free_chunks (mp_chunk_size mp) rs) /\
  mp_free_chunks mp = zlen free /\ mp_total_chunks mp = zlen free + zlen used /\
  NoDup (free ++ used) /\ Forall (valid_chunk mp) (free ++ used).

Section runs.
Context (cs : Z).
Hypothesis (Hcs : 0 < cs).

Lemma run_chunks_S a n : run_chunks cs a (S n) = a :: run_chunks cs (a + cs) n.
Proof.
  unfold run_chunks. simpl. f_equal; [lia|].
  rewrite <- fmap_S_seq, <- list_fmap_compose. apply list_fmap_ext. intros ? ? _; simpl; lia.
Qed.

Lemma free_chunks_S a n rs :
  free_chunks cs ((a, S n) :: rs) = a :: run_chunks cs (a + cs) n ++ free_chunks cs rs.
Proof. change (free_chunks cs ((a, S n) :: rs)) with (run_chunks cs a (S n) ++ free_chunks cs rs).
  by rewrite run_chunks_S. Qed.

Lemma free_runs_insert hs fp rs p h :
  ~ p ∈ free_chunks cs rs -> free_runs hs fp rs -> free_runs (<[p := h]> hs) fp rs.
Proof.
  revert fp. induction rs as [|[a n] rs IH]; intros fp Hp; simpl; [done|].
  intros (-> & Hn & nx & Ha & Hrs). split_and!; [done|done|].
  destruct n as [|n]; [lia|]. rewrite free_chunks_S in Hp. exists nx. rewrite lookup_insert_ne; [|set_solver].
  split; [done|]. apply IH; [set_solver|done].
Qed.
End runs.

Lemma zlen_Permutation {A} (l l' : list A) : l ≡ₚ l' -> zlen l = zlen l'.
Proof. intros H. unfold zlen. by rewrite H. Qed.

Lemma pool_rep_perm mp free used used' :
  used ≡ₚ used' -> pool_rep mp free used -> pool_rep mp free used'.
Proof.
  intros Hp (? & ? & ? & ? & ? & ?). rewrite (zlen_Permutation _ _ Hp) in *.
  split_and!; try done; by rewrite <- Hp.
Qed.

(** ** Operations *)

Lemma MPAllocateChunk_empty mp used :
  pool_rep mp [] used -> MPAllocateChunk mp = Ok (None, mp).
Proof. intros (_ & _ & Hf & _). unfold MPAllocateChunk. by rewrite Hf. Qed.

Lemma MPAllocateChunk_some mp p free used :
  pool_rep mp (p :: free) used ->
  exists mp', MPAllocateChunk mp = Ok (Some p, mp') /\ pool_rep mp' free (p :: used) /\
    mp_chunk_size mp' = mp_chunk_size mp /\ mp_total_chunks mp' = mp_total_chunks mp.
Proof.
  intros (Hcs & (rs & Hrs & Hfree) & Hf & Ht & Hnd & Hv).
  destruct rs as [|[a n] rs]; [done|]. destruct Hrs as (Hfp & Hn & nx & Ha & Hrs).
  destruct n as [|n]; [lia|]. rewrite free_chunks_S in Hfree. injection Hfree as <- Hfree.
  rewrite zlen_cons in Hf, Ht. pose proof (zlen_nonneg free).
  assert (p :: free ++ used ≡ₚ free ++ p :: used) as Hp by by rewrite Permutation_middle.
  simpl in Hnd, Hv. pose proof Hnd as [Hpf _]%NoDup_cons. rewrite Hp in Hnd, Hv.
  assert (~ p ∈ free_chunks (mp_chunk_size mp) rs) by set_solver.
  unfold MPAllocateChunk. rewrite Hf, Hfp, Ha.
  destruct (Z.eqb_spec (zlen free + 1) 0); [lia|]. simpl.
  destruct (Z.ltb_spec 0 (Z.of_nat (S n))); [|lia]. simpl.
  destruct (Z.eqb_spec (Z.of_nat (S n) - 1) 0); simpl; eexists; split_and!; try done.
  - assert (n = 0)%nat as -> by lia. simpl in Hfree.
    split_and!; simpl; try done; rewrite ?zlen_cons; try lia.
    exists rs. split; [|done]. by apply (free_runs_insert (mp_chunk_size mp)).
  - destruct n as [|n]; [lia|]. set (p' := p + mp_chunk_size mp) in *.
    assert (~ p' ∈ free_chunks (mp_chunk_size mp) rs) as Hp'.
    { intros ?. rewrite Hfree, run_chunks_S in Hnd. simpl in Hnd.
      apply NoDup_cons in Hnd as [Hnd _]. set_solver. }
    split_and!; simpl; try done; rewrite ?zlen_cons; try lia.
    exists ((p', S n) :: rs). rewrite free_chunks_S, Hfree, run_chunks_S.
    split; [|done]. simpl. split_and!; [done|lia|]. exists nx. rewrite lookup_insert_eq.
    split; [do 2 f_equal; lia|]. do 2 (apply (free_runs_insert (mp_chunk_size mp)); [done|done|]). done.
Qed.

Lemma MPFreeChunk_ok mp p free used1 used2 :
  pool_rep mp free (used1 ++ p :: used2) ->
  exists mp', MPFreeChunk mp p = Ok mp' /\ pool_rep mp' (p :: free) (used1 ++ used2) /\
    mp_chunk_size mp' = mp_chunk_size mp /\ mp_total_chunks mp' = mp_total_chunks mp.
Proof.
  intros (Hcs & (rs & Hrs & Hfree) & Hf & Ht & Hnd & Hv).
  assert (free ++ used1 ++ p :: used2 ≡ₚ (p :: free) ++ used1 ++ used2) as Hp
    by (rewrite app_assoc; simpl; by rewrite <- Permutation_middle, app_assoc).
  rewrite Hp in Hnd, Hv. simpl in Hnd, Hv.
  pose proof Hv as [(k & -> & ?) _]%Forall_cons. pose proof Hnd as [Hpf _]%NoDup_cons.
  unfold MPFreeChunk. rewrite Z.mod_mul by lia. simpl. eexists; split_and!; try done.
  rewrite !zlen_app, zlen_cons in Ht.
  split_and!; simpl; rewrite ?zlen_cons, ?zlen_app; try lia; try done.
  exists ((k * mp_chunk_size mp, 1%nat) :: rs). rewrite free_chunks_S, Hfree. split; [|done].
  simpl. split_and!; [done|lia|]. eexists. rewrite lookup_insert_eq. split; [done|].
  apply (free_runs_insert (mp_chunk_size mp)); [done|set_solver|done].
Qed.

(** The client owns a chunk between allocation and release and may write
    anything there, header bytes included. *)
Definition client_write (mp : mem_pool) (p : Z) (h : mem_chunk) : mem_pool :=
  mkPool (mp_freeptr mp) (mp_free_chunks mp) (mp_total_chunks mp) (mp_chunk_size mp)
    (<[p := h]> (hdrs mp)).

Lemma client_write_ok mp p h free used :
  p ∈ used -> pool_rep mp free used -> pool_rep (client_write mp p h) free used.
Proof.
  intros Hu (Hcs & (rs & Hrs & Hfree) & Hf & Ht & Hnd & Hv).
  split_and!; simpl; try done. exists rs. split; [|done].
  apply (free_runs_insert (mp_chunk_size mp)); [done| |done].
  rewrite <- Hfree. apply NoDup_app in Hnd as (_ & Hd & _). set_solver.
Qed.

(** ** Every pool a client can reach *)

Definition chunk_count (chunk_size total_size : Z) : Z := (total_size + (chunk_size - 1)) / chunk_size.

Inductive pool_reach (chunk_size total_size : Z) : mem_pool -> list Z -> Prop :=
| pr_create mp :
    MPCreate true chunk_size total_size = Ok (Some mp) -> pool_reach chunk_size total_size mp []
| pr_alloc mp used p mp' :
    pool_reach chunk_size total_size mp used ->
    MPAllocateChunk mp = Ok (Some p, mp') -> pool_reach chunk_size total_size mp' (p :: used)
| pr_free mp used1 p used2 mp' :
    pool_reach chunk_size total_size mp (used1 ++ p :: used2) ->
    MPFreeChunk mp p = Ok mp' -> pool_reach chunk_size total_size mp' (used1 ++ used2)
| pr_write mp used p h :
    pool_reach chunk_size total_size mp used -> p ∈ used ->
    pool_reach chunk_size total_size (client_write mp p h) used.

Lemma run_chunks_elem cs a n p :
  p ∈ run_chunks cs a n <-> exists k, p = a + k * cs /\ 0 <= k < Z.of_nat n.
Proof.
  unfold run_chunks. rewrite list_elem_of_fmap. split.
  - intros (k & -> & Hk%elem_of_seq). exists (Z.of_nat k). lia.
  - intros (k & -> & ?). exists (Z.to_nat k). rewrite elem_of_seq, Z2Nat.id by lia. split; [done|lia].
Qed.

Lemma run_chunks_NoDup cs a n : 0 < cs -> NoDup (run_chunks cs a n).
Proof.
  intros ?. apply NoDup_fmap_2_strong; [|apply NoDup_seq]. intros ? ? _ _ ?. nia.
Qed.

Lemma MPCreate_rep chunk_size total_size mp :
  0 < total_size -> chunk_count chunk_size total_size < 2147483648 ->
  MPCreate true chunk_size total_size = Ok (Some mp) ->
  exists free, pool_rep mp free [] /\ zlen free = chunk_count chunk_size total_size.
Proof.
  intros Ht Hn. unfold MPCreate, sizeof_mem_chunk. fold (chunk_count chunk_size total_size).
  destruct (Z.ltb_spec chunk_size 16); [done|].
  destruct (negb _); [done|]. intros [= <-].
  assert (0 < chunk_count chunk_size total_size) by (apply Z.div_str_pos; lia).
  rewrite s32_small by lia. set (n := chunk_count chunk_size total_size) in *.
  exists (run_chunks chunk_size 0 (Z.to_nat n)).
  assert (zlen (run_chunks chunk_size 0 (Z.to_nat n)) = n) as Hlen.
  { unfold zlen, run_chunks. rewrite length_fmap, length_seq. lia. }
  split; [|done]. split_and!; simpl; rewrite ?Hlen, ?app_nil_r; try (change (zlen []) with 0; lia).
  - exists [(0, Z.to_nat n)]. simpl. split; [|by rewrite app_nil_r].
    split_and!; [done|lia|]. exists None. split; [|done]. rewrite lookup_singleton_eq.
    do 2 f_equal. lia.
  - by apply run_chunks_NoDup; lia.
  - apply Forall_forall. intros p (k & -> & ?)%run_chunks_elem. exists k; simpl; lia.
Qed.

Lemma pool_reach_rep chunk_size total_size mp used :
  0 < total_size -> chunk_count chunk_size total_size < 2147483648 ->
  pool_reach chunk_size total_size mp used ->
  exists free, pool_rep mp free used /\ zlen free + zlen used = chunk_count chunk_size total_size.
Proof.
  intros Ht Hn. induction 1 as [mp Hmp|mp used p mp' _ (free & Hr & Hc) Ha
    |mp used1 p used2 mp' _ (free & Hr & Hc) Hf|mp used p h _ (free & Hr & Hc) Hp].
  - destruct (MPCreate_rep _ _ _ Ht Hn Hmp) as (free & ? & ?). exists free.
    split; [done|]. change (zlen []) with 0; lia.
  - destruct free as [|q free].
    + by rewrite (MPAllocateChunk_empty _ _ Hr) in Ha.
    + destruct (MPAllocateChunk_some _ _ _ _ Hr) as (mp1 & Ha1 & ? & _). simplify_eq.
      rewrite Ha in Ha1. simplify_eq. exists free. rewrite !zlen_cons in *. split; [done|lia].
  - destruct (MPFreeChunk_ok _ _ _ _ _ Hr) as (mp1 & Hf1 & ? & _). rewrite Hf in Hf1. simplify_eq.
    exists (p :: free). rewrite !zlen_app, !zlen_cons in *. split; [done|lia].
  - exists free. split; [by apply client_write_ok|done].
Qed.

(** C27: whatever sequence of allocations, releases and writes into its own
    chunks a client performed since [MPCreate], allocation never faults,
    fails exactly when every chunk of the pool is handed out, and otherwise
    returns a chunk inside the region, aligned to the chunk size and not in
    use; releasing a chunk in use never faults. *)
Theorem pool_alloc_safe chunk_size total_size mp used :
  0 < total_size -> chunk_count chunk_size total_size < 2147483648 ->
  pool_reach chunk_size total_size mp used ->
  (exists o mp', MPAllocateChunk mp = Ok (o, mp') /\
     match o with
     | None => zlen used = chunk_count chunk_size total_size
     | Some p => ~ p ∈ used /\ valid_chunk mp p /\ zlen used < chunk_count chunk_size total_size
     end) /\
  (forall p, p ∈ used -> exists mp', MPFreeChunk mp p = Ok mp').
Proof.
  intros Ht Hn Hreach. destruct (pool_reach_rep _ _ _ _ Ht Hn Hreach) as (free & Hr & Hc). split.
  - destruct free as [|p free].
    + rewrite (MPAllocateChunk_empty _ _ Hr). eexists _, _; split; [done|].
      change (zlen []) with 0 in Hc. simpl. lia.
    + destruct (MPAllocateChunk_some _ _ _ _ Hr) as (mp' & -> & _). eexists _, _; split; [done|].
      destruct Hr as (_ & _ & _ & _ & Hnd & Hv). simpl in Hnd, Hv.
      apply NoDup_cons in Hnd as [? _]. apply Forall_cons in Hv as [? _].
      rewrite zlen_cons in Hc. pose proof (zlen_nonneg free). split_and!; [set_solver|done|lia].
  - intros p (u1 & u2 & ->)%list_elem_of_split.
    destruct (MPFreeChunk_ok _ _ _ _ _ Hr) as (mp' & ? & _). by exists mp'.
Qed.

Lemma pool_alloc_safe_witness :
  let mp := mkPool (Some 16) 2 3 16 (<[16 := mkChunk 2 None]> {[0 := mkChunk 2 None]}) in
  (exists o mp', MPAllocateChunk mp = Ok (o, mp') /\
     match o with
     | None => zlen [0] = 3
     | Some p => ~ p ∈ [0] /\ valid_chunk mp p /\ zlen [0] < 3
     end) /\
  (forall p, p ∈ [0] -> exists mp', MPFreeChunk mp p = Ok mp').
Proof.
  apply (pool_alloc_safe 16 48); [lia|reflexivity|].
  apply (pr_alloc 16 48 (mkPool (Some 0) 3 3 16 {[0 := mkChunk 3 None]}) [] 0).
  - apply pr_create. reflexivity.
  - reflexivity.
Defined.
