(* ===== verification/SendBuffer.v ===== *)
(** * The send buffer of [tcp_send_buffer.c]

    A send buffer holds the bytes the application wrote that the peer has not
    acknowledged. [SBPut] appends at the tail, moving the contents to the
    front of the chunk when the tail would reach its end; [SBRemove] drops
    acknowledged bytes. A buffer belongs to one stream, or waits in the
    manager's free queue. *)

From S2P Require Import Prelude SeqNum SpscQueue MemPool.

Record tcp_send_buffer := mkSB {
  sb_data : list Z;         (* the chunk *)
  sb_head : Z;              (* [head - data] *)
  head_off : Z;
  tail_off : Z;
  sb_len : Z;
  sb_cum_len : Z;
  sb_size : Z;
  sb_head_seq : Z;
  sb_init_seq : Z
}.
#[export] Instance tcp_send_buffer_rebuild : Rebuild tcp_send_buffer := fun b =>
  mkSB (sb_data b) (sb_head b) (head_off b) (tail_off b) (sb_len b) (sb_cum_len b)
    (sb_size b) (sb_head_seq b) (sb_init_seq b).

Record sb_manager := mkSBM {
  sbm_chunk_size : Z;
  sbm_cur_num : Z;
  sbm_cnum : Z;
  sbm_mp : mem_pool;
  freeq : ring_queue tcp_send_buffer
}.
#[export] Instance sb_manager_rebuild : Rebuild sb_manager := fun m =>
  mkSBM (sbm_chunk_size m) (sbm_cur_num m) (sbm_cnum m) (sbm_mp m) (freeq m).

Definition SBGetCurnum (sbm : sb_manager) : Z := sbm_cur_num sbm.

(** [ok], [m1] and [q1] are the outcomes of the allocations. *)
Definition SBManagerCreate (ok m1 q1 : bool) (chunksz cn : Z) : res (option sb_manager) :=
  if negb ok then Ok None
  else
    let! p := MPCreate m1 (s32 chunksz) (u64 (chunksz * cn)) in
    match p with
    | None => Ok None
    | Some p =>
        match CreateSBQueue q1 q1 (s32 cn) with
        | None => Ok None
        | Some q => Ok (Some (mkSBM chunksz 0 cn p q))
        end
    end.

(** [ok] is the outcome of [malloc], [mem] what a new chunk holds. *)
Definition SBInit (ok : bool) (mem : list Z) (sbm : sb_manager) (init_seq : Z)
  : res (option tcp_send_buffer * sb_manager) :=
  let fresh d := mkSB d 0 0 0 0 0 (u32 (sbm_chunk_size sbm)) init_seq init_seq in
  let! (o, q) := SBDequeue (freeq sbm) in
  match o with
  | Some buf => Ok (Some (fresh (sb_data buf)), sbm <| freeq := q |>)
  | None =>
      if negb ok then Ok (None, sbm)
      else
        let! (c, pool) := MPAllocateChunk (sbm_mp sbm) in
        match c with
        | None => Ok (None, sbm)
        | Some _ =>
            Ok (Some (fresh mem), sbm <| sbm_mp := pool |> <| sbm_cur_num := u32 (sbm_cur_num sbm + 1) |>)
        end
  end.

Definition SBFree (sbm : sb_manager) (buf : option tcp_send_buffer) : res sb_manager :=
  match buf with
  | None => Ok sbm
  | Some buf => let! (_, q) := SBEnqueue (freeq sbm) buf in Ok (sbm <| freeq := q |>)
  end.

(** [payload] holds the [len] bytes at [data]; the result is a [size_t]. *)
Definition SBPut (buf : tcp_send_buffer) (payload : list Z) (len : Z) : res (Z * tcp_send_buffer) :=
  if len <=? 0 then Ok (0, buf)
  else
    let to_put := Z.min len (u32 (sb_size buf - sb_len buf)) in
    if to_put <=? 0 then Ok (u64 (-2), buf)
    else
      let src := take (Z.to_nat to_put) payload in
      let! buf1 :=
        if tail_off buf + to_put <? sb_size buf then
          let! d := from_option_res OutOfBounds (mem_write (sb_data buf) (tail_off buf) src) in
          Ok (buf <| sb_data := d |> <| tail_off := u32 (tail_off buf + to_put) |>)
        else
          let! d := from_option_res OutOfBounds (mem_move (sb_data buf) 0 (sb_head buf) (sb_len buf)) in
          let! d := from_option_res OutOfBounds (mem_write d (0 + sb_len buf) src) in
          Ok (buf <| sb_data := d |> <| sb_head := 0 |> <| head_off := 0 |>
                  <| tail_off := u32 (sb_len buf + to_put) |>) in
      Ok (to_put, buf1 <| sb_len := u32 (sb_len buf1 + to_put) |>
                       <| sb_cum_len := u64 (sb_cum_len buf1 + to_put) |>).

Definition SBRemove (buf : tcp_send_buffer) (len : Z) : Z * tcp_send_buffer :=
  if len <=? 0 then (0, buf)
  else
    let to_remove := Z.min len (sb_len buf) in
    if to_remove <=? 0 then (u64 (-2), buf)
    else
      let ho := u32 (head_off buf + to_remove) in
      let buf1 := buf <| head_off := ho |> <| sb_head := ho |>
                      <| sb_head_seq := u32 (sb_head_seq buf + to_remove) |>
                      <| sb_len := u32 (sb_len buf - to_remove) |> in
      let buf2 := if (sb_len buf1 =? 0) && (0 <? head_off buf1)
                  then buf1 <| sb_head := 0 |> <| head_off := 0 |> <| tail_off := 0 |>
                  else buf1 in
      (to_remove, buf2).

(** ** The buffer as a byte queue *)

(** [c] are the bytes held; offsets are 32-bit and stay below 2^31. *)
Definition sb_rep (b : tcp_send_buffer) (c : list Z) : Prop :=
  0 < sb_size b < 2147483648 /\ zlen (sb_data b) = sb_size b /\
  sb_head b = head_off b /\ 0 <= head_off b /\ sb_len b = zlen c /\
  tail_off b = head_off b + zlen c /\ tail_off b <= sb_size b /\
  (forall i, 0 <= i < zlen c -> znth (sb_data b) (head_off b + i) = znth c i).

(** What the transmit path reads: [n] bytes at offset [i] from the head. *)
Lemma sb_rep_read b c i n :
  sb_rep b c -> 0 <= i -> 0 <= n -> i + n <= zlen c ->
  mem_read (sb_data b) (sb_head b + i) n = Some (take (Z.to_nat n) (drop (Z.to_nat i) c)).
Proof.
  intros (?&Hd&Hh&?&?&Ht&?&Hc) ? ? ?.
  destruct (mem_read_is_Some (sb_data b) (sb_head b + i) n) as [d Hr]; try lia.
  rewrite Hr. f_equal. apply mem_read_Some in Hr as (_&_&_&Hl&Hr).
  apply list_eq_znth.
  - rewrite Hl, zlen_take; [done|]. rewrite zlen_drop by lia. lia.
  - intros j Hj. rewrite Hr, znth_take, znth_drop by lia.
    destruct (Z.ltb_spec j n); [|lia]. rewrite Hh, <- Z.add_assoc. apply Hc. lia.
Qed.

Lemma sb_rep_len b c : sb_rep b c -> 0 <= zlen c <= sb_size b.
Proof. intros (?&_&_&?&_&?&?&_). pose proof (zlen_nonneg c). lia. Qed.

(** The copy of both branches: the new bytes land right after the old ones. *)
Lemma SBPut_copy b c src n :
  sb_rep b c -> n = zlen src -> 0 < n -> zlen c + n <= sb_size b ->
  exists b1,
    (if tail_off b + n <? sb_size b then
       let! d := from_option_res OutOfBounds (mem_write (sb_data b) (tail_off b) src) in
       Ok (b <| sb_data := d |> <| tail_off := u32 (tail_off b + n) |>)
     else
       let! d := from_option_res OutOfBounds (mem_move (sb_data b) 0 (sb_head b) (sb_len b)) in
       let! d := from_option_res OutOfBounds (mem_write d (0 + sb_len b) src) in
       Ok (b <| sb_data := d |> <| sb_head := 0 |> <| head_off := 0 |>
             <| tail_off := u32 (sb_len b + n) |>)) = Ok b1 /\
    sb_rep (b1 <| sb_len := zlen c + n |>) (c ++ src) /\ sb_len b1 = sb_len b /\
    sb_head_seq b1 = sb_head_seq b /\ sb_init_seq b1 = sb_init_seq b /\
    sb_size b1 = sb_size b /\ sb_cum_len b1 = sb_cum_len b.
Proof.
  intros (?&Hd&Hh&?&Hlen&Ht&?&Hc) -> ? ?. pose proof (zlen_nonneg c).
  destruct (Z.ltb_spec (tail_off b + zlen src) (sb_size b)).
  - destruct (mem_write_is_Some (sb_data b) (tail_off b) src) as [d Hw]; try lia.
    rewrite Hw. apply mem_write_Some in Hw as (_&_&Hl&Hw). simpl. eexists; split; [done|].
    unfold sb_rep; simpl. rewrite zlen_app, u32_small by lia. split_and!; try done; try lia.
    intros i Hi. rewrite Hw, znth_app, Ht.
    destruct (Z.leb_spec (head_off b + zlen c) (head_off b + i)), (Z.ltb_spec i (zlen c)); try lia; cbn [andb].
    + destruct (Z.ltb_spec (head_off b + i) (head_off b + zlen c + zlen src)); [|lia]. f_equal; lia.
    + apply Hc. lia.
  - destruct (mem_move_is_Some (sb_data b) 0 (sb_head b) (sb_len b)) as [d Hm]; try lia.
    rewrite Hm. apply mem_move_Some in Hm as (_&_&_&_&_&Hl1&Hm). cbn [from_option_res res_bind].
    destruct (mem_write_is_Some d (0 + sb_len b) src) as [d2 Hw]; try lia.
    rewrite Hw. apply mem_write_Some in Hw as (_&_&Hl&Hw). simpl. eexists; split; [done|].
    unfold sb_rep; simpl. rewrite zlen_app, u32_small by lia. split_and!; try done; try lia.
    intros i Hi. rewrite (Z.add_0_l i), Hw, znth_app, Hlen, ?Z.add_0_l.
    destruct (Z.leb_spec (zlen c) i), (Z.ltb_spec i (zlen c)); try lia; cbn [andb].
    + destruct (Z.ltb_spec i (zlen c + zlen src)); [|lia]. f_equal; lia.
    + rewrite Hm. destruct (Z.leb_spec 0 i), (Z.ltb_spec i (0 + sb_len b)); try lia. cbn [andb].
      rewrite Hh, <- Hc by lia. f_equal. lia.
Qed.

(** [SBPut] appends as many bytes as fit; a full buffer answers -2. *)
Lemma SBPut_ok b c payload :
  sb_rep b c ->
  let k := Z.min (zlen payload) (sb_size b - zlen c) in
  exists b', SBPut b payload (zlen payload) =
      Ok (if zlen payload =? 0 then 0 else if k =? 0 then u64 (-2) else k, b') /\
    sb_rep b' (c ++ take (Z.to_nat k) payload) /\ sb_head_seq b' = sb_head_seq b /\
    sb_init_seq b' = sb_init_seq b /\ sb_size b' = sb_size b.
Proof.
  intros Hb k. pose proof (sb_rep_len _ _ Hb). pose proof (zlen_nonneg payload).
  pose proof Hb as (?&_&_&_&Hlen&_). unfold SBPut.
  destruct (Z.leb_spec (zlen payload) 0), (Z.eqb_spec (zlen payload) 0); try lia.
  { exists b. replace k with 0 by lia. rewrite app_nil_r. done. }
  rewrite Hlen, u32_small by lia. fold k. destruct (Z.leb_spec k 0), (Z.eqb_spec k 0); try lia.
  { exists b. replace k with 0 by lia. rewrite app_nil_r. done. }
  destruct (SBPut_copy b c (take (Z.to_nat k) payload) k Hb) as (b1 & E & Hr & Hl1 & ? & ? & ? & ?);
    [rewrite zlen_take; lia|lia|lia|].
  rewrite Hlen in E. rewrite E. cbn [res_bind]. eexists; split; [done|].
  rewrite Hl1, Hlen, u32_small by lia. split_and!; simpl; try congruence.
  exact Hr.
Qed.

(** [SBRemove] drops from the front; an empty buffer answers -2. *)
Lemma SBRemove_ok b c len :
  sb_rep b c -> 0 <= len -> 0 <= sb_head_seq b < 4294967296 ->
  let k := Z.min len (zlen c) in
  exists b', SBRemove b len = (if len =? 0 then 0 else if k =? 0 then u64 (-2) else k, b') /\
    sb_rep b' (drop (Z.to_nat k) c) /\ sb_head_seq b' = u32 (sb_head_seq b + k) /\
    sb_init_seq b' = sb_init_seq b /\ sb_size b' = sb_size b.
Proof.
  intros Hb ? Hs k. pose proof (sb_rep_len _ _ Hb). unfold SBRemove.
  destruct (Z.leb_spec len 0), (Z.eqb_spec len 0); try lia.
  { exists b. replace k with 0 by lia. rewrite Z.add_0_r, u32_small by lia. done. }
  pose proof Hb as (?&Hd&Hh&?&Hlen&Ht&?&Hc). rewrite Hlen. fold k.
  destruct (Z.leb_spec k 0), (Z.eqb_spec k 0); try lia.
  { exists b. replace k with 0 by lia. rewrite Z.add_0_r, u32_small by lia. done. }
  eexists; split; [done|].
  rewrite (u32_small (head_off b + k)), (u32_small (zlen c - k)) by lia. simpl.
  destruct (Z.eqb_spec (zlen c - k) 0), (Z.ltb_spec 0 (head_off b + k)); try lia; cbn [andb];
    unfold sb_rep; simpl; rewrite zlen_drop by lia; split_and!; try done; try lia.
  intros i Hi. rewrite znth_drop, <- Hc by lia. f_equal. lia.
Qed.

(** ** Runs of the writer and of acknowledgements *)

Inductive sb_op :=
| Put (payload : list Z)
| Ack (len : Z).

(** [written] are the bytes accepted so far, [acked] counts those removed. *)
Record sb_run := mkRun { run_buf : tcp_send_buffer; written : list Z; acked : Z }.

(** The byte count in a [size_t] result; -2 stands for none. *)
Definition count (r : Z) : Z := if r =? u64 (-2) then 0 else r.

Definition sb_step (st : sb_run) (op : sb_op) : res sb_run :=
  match op with
  | Put payload =>
      let! (r, b) := SBPut (run_buf st) payload (zlen payload) in
      Ok (mkRun b (written st ++ take (Z.to_nat (count r)) payload) (acked st))
  | Ack len =>
      let '(r, b) := SBRemove (run_buf st) len in
      Ok (mkRun b (written st) (acked st + count r))
  end.

Fixpoint sb_steps (st : sb_run) (ops : list sb_op) : res sb_run :=
  match ops with
  | [] => Ok st
  | op :: ops => let! st' := sb_step st op in sb_steps st' ops
  end.

Definition sb_run_inv (init : Z) (sz : Z) (st : sb_run) : Prop :=
  0 <= acked st <= zlen (written st) /\ sb_size (run_buf st) = sz /\
  sb_rep (run_buf st) (drop (Z.to_nat (acked st)) (written st)) /\
  sb_head_seq (run_buf st) = seq_at init (acked st).

Lemma count_result n k : 0 <= k < 2147483648 -> 0 <= n -> (n = 0 -> k = 0) ->
  count (if n =? 0 then 0 else if k =? 0 then u64 (-2) else k) = k.
Proof.
  intros ? ? ?. unfold count. change (u64 (-2)) with 18446744073709551614.
  destruct (Z.eqb_spec n 0); [simpl; lia|]. destruct (Z.eqb_spec k 0); [simpl; lia|].
  destruct (Z.eqb_spec k 18446744073709551614); lia.
Qed.

Definition op_fine (op : sb_op) : Prop := match op with Put _ => True | Ack len => 0 <= len end.

Lemma sb_step_ok init sz st op :
  sb_run_inv init sz st -> op_fine op -> exists st', sb_step st op = Ok st' /\ sb_run_inv init sz st'.
Proof.
  intros (Ha & Hsz & Hr & Hs) Hop. pose proof (sb_rep_len _ _ Hr) as Hl. pose proof Hr as (?&_).
  rewrite zlen_drop in Hl by lia.
  destruct op as [payload|len]; simpl.
  - destruct (SBPut_ok _ _ payload Hr) as (b' & -> & Hr' & Hs' & _ & Hz'). simpl.
    pose proof (zlen_nonneg payload). rewrite zlen_drop in * by lia.
    rewrite count_result by lia. eexists; split; [done|].
    split_and!; simpl; rewrite ?zlen_app; try lia; try congruence.
    + pose proof (zlen_nonneg (take (Z.to_nat (zlen payload `min` (sb_size (run_buf st) - (zlen (written st) - acked st)))) payload)). lia.
    + rewrite drop_app_le; [done|]. unfold zlen in *. lia.
  - destruct (SBRemove_ok _ _ len Hr Hop) as (b' & -> & Hr' & Hs' & _ & Hz');
      [rewrite Hs; apply seq_at_range|].
    rewrite zlen_drop in * by lia. rewrite count_result by (simpl in Hop; lia).
    eexists; split; [done|]. simpl in Hop. split_and!; simpl; try lia; try congruence.
    + rewrite drop_drop in Hr'. rewrite Z2Nat.inj_add by lia. done.
    + rewrite Hs', Hs. apply seq_at_add.
Qed.

Lemma SBInit_ok mem sbm init b sbm' ok l :
  ring_rep (freeq sbm) l -> Forall (fun x => zlen (sb_data x) = sbm_chunk_size sbm) l ->
  zlen mem = sbm_chunk_size sbm -> 0 < sbm_chunk_size sbm < 2147483648 -> 0 <= init < 4294967296 ->
  SBInit ok mem sbm init = Ok (Some b, sbm') ->
  sb_rep b [] /\ sb_head_seq b = init /\ sb_size b = sbm_chunk_size sbm.
Proof.
  intros Hq Hl Hmem Hcs Hi. unfold SBInit, SBDequeue.
  assert (forall d, zlen d = sbm_chunk_size sbm ->
    sb_rep (mkSB d 0 0 0 0 0 (u32 (sbm_chunk_size sbm)) init init) []) as Hfresh.
  { intros d Hd. unfold sb_rep; simpl. rewrite u32_small by lia. split_and!; try done; try lia.
    intros i Hx. unfold zlen in Hx; simpl in Hx; lia. }
  destruct l as [|x l].
  - rewrite (Dequeue_nil _ Hq). cbn [res_bind]. destruct ok; [|done]. cbn [negb].
    destruct (MPAllocateChunk (sbm_mp sbm)) as [[[c|] pool]|]; simpl; [|done..].
    intros [= <- _]. split_and!; [by apply Hfresh|done|apply u32_small; lia].
  - destruct (Dequeue_cons _ _ _ Hq) as (q & -> & _). cbn [res_bind]. intros [= <- _].
    apply Forall_cons in Hl as [? _]. split_and!; [by apply Hfresh|done|apply u32_small; lia].
Qed.

(** C23: From a buffer handed out by [SBInit] (new or recycled), any sequence
    of writes and acknowledgements runs without an access outside the chunk;
    the buffer then holds exactly the accepted bytes not yet acknowledged, in
    order, never more than its size; its head sequence number counts the
    acknowledged bytes; and reading at an offset from the head, as the
    transmit path does, yields the bytes written at that position. *)
Theorem send_buffer_stream mem sbm init b sbm' ok l ops :
  ring_rep (freeq sbm) l -> Forall (fun x => zlen (sb_data x) = sbm_chunk_size sbm) l ->
  zlen mem = sbm_chunk_size sbm -> 0 < sbm_chunk_size sbm < 2147483648 -> 0 <= init < 4294967296 ->
  SBInit ok mem sbm init = Ok (Some b, sbm') -> Forall op_fine ops ->
  exists st, sb_steps (mkRun b [] 0) ops = Ok st /\
    0 <= acked st <= zlen (written st) /\
    sb_len (run_buf st) = zlen (written st) - acked st /\
    zlen (written st) - acked st <= sbm_chunk_size sbm /\
    sb_head_seq (run_buf st) = seq_at init (acked st) /\
    (forall i n, 0 <= i -> 0 <= n -> i + n <= sb_len (run_buf st) ->
       mem_read (sb_data (run_buf st)) (sb_head (run_buf st) + i) n =
       Some (take (Z.to_nat n) (drop (Z.to_nat (acked st + i)) (written st)))).
Proof.
  intros Hq Hl Hmem Hcs Hi Hb Hops.
  destruct (SBInit_ok mem sbm init b sbm' ok l) as (Hr & Hs & Hz); try done.
  assert (sb_run_inv init (sbm_chunk_size sbm) (mkRun b [] 0)) as Hinv.
  { split_and!; simpl; try done. rewrite Hs. unfold seq_at. rewrite Z.add_0_r, u32_small; lia. }
  revert Hinv. generalize (mkRun b [] 0) as st0. clear b Hb Hr Hs Hz.
  induction Hops as [|op ops Hop _ IH]; intros st0 Hinv.
  - exists st0. split; [done|]. destruct Hinv as (Ha & Hz & Hr & Hs).
    pose proof (sb_rep_len _ _ Hr) as Hn. pose proof Hr as (_&_&_&_&Hlen&_).
    rewrite zlen_drop in Hlen, Hn by lia. split_and!; try done; try lia.
    intros i n ? ? ?. rewrite (sb_rep_read _ _ _ _ Hr) by (rewrite ?zlen_drop by lia; lia).
    rewrite drop_drop, Z2Nat.inj_add by lia. done.
  - destruct (sb_step_ok _ _ _ _ Hinv Hop) as (st1 & Hst & Hinv1). simpl. rewrite Hst.
    cbn [res_bind]. by apply IH.
Qed.

Lemma send_buffer_stream_witness :
  let sbm := mkSBM 8 0 2 (mkPool (Some 0) 2 2 16 {[0 := mkChunk 2 None]}) (mkRing 2 0 0 [None; None; None]) in
  match SBInit true (replicate 8 0) sbm 4294967295 with
  | Ok (Some b, _) =>
      exists st, sb_steps (mkRun b [] 0) [Put [1;2;3;4;5]; Ack 3; Put [6;7;8;9;10;11;12]] = Ok st /\
        sb_len (run_buf st) = 8 /\ sb_head_seq (run_buf st) = 2
  | _ => False
  end.
Proof.
  intros sbm. destruct (SBInit true (replicate 8 0) sbm 4294967295) as [[[b|] sbm']|] eqn:E;
    [|vm_compute in E; congruence..].
  destruct (send_buffer_stream (replicate 8 0) sbm 4294967295 b sbm' true []
    [Put [1;2;3;4;5]; Ack 3; Put [6;7;8;9;10;11;12]]) as (st & Hst & _); try done.
  - by apply (CreateQueue_rep 2).
  - repeat constructor; simpl; lia.
  - exists st. split; [exact Hst|]. vm_compute in E. injection E as <- _.
    vm_compute in Hst. injection Hst as <-. done.
Defined.
