(* ===== verification/Intervals.v ===== *)
(** * Interval lists

    The reference description of the fragment list of a receive buffer:
    a sorted list of non-empty intervals [(start, length)] with a gap between
    any two neighbours, and the insertion that keeps it so. *)

From S2P Require Import Prelude.

Definition iv := (Z * Z)%type.

(** Offset [x] lies in one of the intervals. *)
Definition covers (l : list iv) (x : Z) : Prop :=
  exists a n, (a, n) ∈ l /\ a <= x < a + n.

(** Sorted, non-empty, separated, and not before [lo]. *)
Fixpoint ivs_ok (lo : Z) (l : list iv) : Prop :=
  match l with
  | [] => True
  | (a, n) :: l' => lo <= a /\ 0 < n /\ ivs_ok (a + n + 1) l'
  end.

Definition ivs_end (hi : Z) (l : list iv) : Prop := Forall (fun '(a, n) => a + n <= hi) l.

Fixpoint insert_iv (a n : Z) (l : list iv) : list iv :=
  match l with
  | [] => [(a, n)]
  | (b, m) :: l' =>
      if a + n <? b then (a, n) :: l
      else if b + m <? a then (b, m) :: insert_iv a n l'
      else insert_iv (Z.min a b) (Z.max (a + n) (b + m) - Z.min a b) l'
  end.

(** The length of the run of covered offsets from 0. *)
Definition prefix_len (l : list iv) : Z :=
  match l with
  | (a, n) :: _ => if a =? 0 then n else 0
  | [] => 0
  end.

Lemma covers_nil x : ~ covers [] x.
Proof. intros (a & n & H & _). by apply elem_of_nil in H. Qed.

Lemma covers_cons a n l x : covers ((a, n) :: l) x <-> a <= x < a + n \/ covers l x.
Proof.
  unfold covers. split.
  - intros (b & m & [?|?]%elem_of_cons & ?); [simplify_eq; auto|right; eauto].
  - intros [?|(b & m & ? & ?)]; [exists a, n|exists b, m]; (split; [|done]); set_solver.
Qed.

Lemma ivs_ok_weaken lo lo' l : lo' <= lo -> ivs_ok lo l -> ivs_ok lo' l.
Proof. destruct l as [|[a n] l]; simpl; [done|]. intros; intuition lia. Qed.

Lemma ivs_ok_app lo l1 l2 :
  ivs_ok lo (l1 ++ l2) <->
  ivs_ok lo l1 /\ ivs_ok lo l2 /\ (forall a n, (a, n) ∈ l1 -> ivs_ok (a + n + 1) l2).
Proof.
  revert lo. induction l1 as [|[a n] l1 IH]; intros lo; simpl.
  - split; [intros; split_and!; [done|done|]; intros ? ? []%elem_of_nil|intuition].
  - rewrite IH. split.
    + intros (? & ? & ? & Hl2 & Hb). split_and!; try done.
      * eapply ivs_ok_weaken; [|exact Hl2]. lia.
      * intros b m [?|?]%elem_of_cons; [by simplify_eq|by apply Hb].
    + intros ((? & ? & ?) & _ & Hb). split_and!; try done.
      * apply Hb. set_solver.
      * intros b m ?. apply Hb. set_solver.
Qed.

Lemma covers_lower lo l x : ivs_ok lo l -> covers l x -> lo <= x.
Proof.
  revert lo. induction l as [|[a n] l IH]; intros lo; simpl; [by intros _ ?%covers_nil|].
  intros (? & ? & Hl) [?|Hc]%covers_cons; [lia|]. specialize (IH _ Hl Hc). lia.
Qed.

Lemma insert_iv_ok lo a n l :
  lo <= a -> 0 < n -> ivs_ok lo l -> ivs_ok lo (insert_iv a n l).
Proof.
  revert lo a n. induction l as [|[b m] l IH]; intros lo a n ? ?; simpl; [done|].
  intros (? & ? & Hl). destruct (Z.ltb_spec (a + n) b); simpl.
  - split_and!; [lia|lia|lia|lia|done].
  - destruct (Z.ltb_spec (b + m) a); simpl.
    + split_and!; [lia|lia|]. apply IH; [lia|lia|done].
    + apply IH; [lia|lia|]. eapply ivs_ok_weaken; [|done]. lia.
Qed.

Lemma insert_iv_covers a n l x :
  0 < n -> (exists lo, ivs_ok lo l) ->
  covers (insert_iv a n l) x <-> a <= x < a + n \/ covers l x.
Proof.
  revert a n. induction l as [|[b m] l IH]; intros a n ? [lo Hl]; simpl.
  - by rewrite covers_cons.
  - destruct Hl as (? & ? & Hl). rewrite covers_cons.
    destruct (Z.ltb_spec (a + n) b); [by rewrite !covers_cons|].
    destruct (Z.ltb_spec (b + m) a).
    + rewrite covers_cons, IH by eauto. tauto.
    + rewrite IH by (try lia; eauto).
      assert (Z.min a b <= x < Z.min a b + (Z.max (a + n) (b + m) - Z.min a b) <->
              a <= x < a + n \/ b <= x < b + m) by lia. tauto.
Qed.

Lemma insert_iv_end hi a n l :
  0 < n -> a + n <= hi -> ivs_end hi l -> ivs_end hi (insert_iv a n l).
Proof.
  revert a n. induction l as [|[b m] l IH]; intros a n Hn ? Hl; simpl.
  - by repeat constructor.
  - apply Forall_cons in Hl as [? Hl].
    destruct (Z.ltb_spec (a + n) b); [by repeat constructor|].
    destruct (Z.ltb_spec (b + m) a); [constructor; [done|by apply IH]|].
    apply IH; [lia|lia|done].
Qed.

(** Insertion past intervals that end before it. *)
Lemma insert_iv_skip a n l1 l2 :
  0 < n -> Forall (fun '(b, m) => 0 < m /\ b + m < a) l1 ->
  insert_iv a n (l1 ++ l2) = l1 ++ insert_iv a n l2.
Proof.
  intros Hn. induction 1 as [|[b m] l1 [? ?] _ IH]; simpl; [done|].
  destruct (Z.ltb_spec (a + n) b); [lia|]. destruct (Z.ltb_spec (b + m) a); [|lia]. by f_equal.
Qed.

(** Insertion before every interval. *)
Lemma insert_iv_front a n l : ivs_ok (a + n + 1) l -> insert_iv a n l = (a, n) :: l.
Proof.
  destruct l as [|[b m] l]; simpl; [done|]. intros (? & _).
  by destruct (Z.ltb_spec (a + n) b); [|lia].
Qed.

Lemma insert_iv_zero n l : 0 < n -> ivs_ok 0 l -> exists n' l', insert_iv 0 n l = (0, n') :: l'.
Proof.
  revert n. induction l as [|[b m] l IH]; intros n ?; [by eexists _, _|].
  intros (? & ? & Hl). cbn [insert_iv]. destruct (Z.ltb_spec (0 + n) b); [by eexists _, _|].
  destruct (Z.ltb_spec (b + m) 0); [lia|]. rewrite Z.min_l by lia.
  apply IH; [lia|]. eapply ivs_ok_weaken; [|done]. lia.
Qed.

(** A run from 0 is never lost. *)
Lemma insert_iv_first a n m l :
  0 <= a -> 0 < n -> ivs_ok 0 ((0, m) :: l) -> exists n' l', insert_iv a n ((0, m) :: l) = (0, n') :: l'.
Proof.
  intros ? ? (_ & ? & Hl). cbn [insert_iv]. destruct (Z.ltb_spec (a + n) 0); [lia|].
  destruct (Z.ltb_spec (0 + m) a); [by eexists _, _|]. rewrite Z.min_r by lia.
  apply insert_iv_zero; [lia|]. eapply ivs_ok_weaken; [|done]. lia.
Qed.

Lemma insert_iv_nonnil a n l : insert_iv a n l <> [].
Proof.
  revert a n. induction l as [|[c m] l IH]; intros a n; simpl; [done|].
  destruct (a + n <? c); [done|]. destruct (c + m <? a); [done|]. apply IH.
Qed.

(** [prefix_len] is the longest run of covered offsets starting at 0. *)
Lemma prefix_len_spec l :
  ivs_ok 0 l ->
  0 <= prefix_len l /\ (forall x, 0 <= x < prefix_len l -> covers l x) /\
  ~ covers l (prefix_len l).
Proof.
  destruct l as [|[a n] l]; simpl.
  - intros _. split_and!; [lia|lia|apply covers_nil].
  - intros (? & ? & Hl). destruct (Z.eqb_spec a 0).
    + split_and!; [lia| |].
      * intros x ?. apply covers_cons; left; lia.
      * intros [?|Hc]%covers_cons; [lia|]. apply (covers_lower _ _ _ Hl) in Hc. lia.
    + split_and!; [lia|lia|]. intros [?|Hc]%covers_cons; [lia|].
      apply (covers_lower _ _ _ Hl) in Hc. lia.
Qed.

(** ** Dropping a prefix *)

Definition shift_iv (d : Z) (l : list iv) : list iv := (fun '(a, n) => (a - d, n)) <$> l.

Definition drop_iv (d : Z) (l : list iv) : list iv :=
  match l with
  | (a, n) :: l' => if n =? d then shift_iv d l' else (0, n - d) :: shift_iv d l'
  | [] => []
  end.

Lemma shift_iv_ok d lo l : ivs_ok lo l -> ivs_ok (lo - d) (shift_iv d l).
Proof.
  revert lo. induction l as [|[a n] l IH]; intros lo; simpl; [done|].
  intros (? & ? & Hl). split_and!; [lia|lia|].
  eapply ivs_ok_weaken; [|apply IH, Hl]. lia.
Qed.

Lemma shift_iv_covers d l x : covers (shift_iv d l) x <-> covers l (x + d).
Proof.
  induction l as [|[a n] l IH]; simpl; [split; by intros ?%covers_nil|].
  rewrite !covers_cons, IH. assert (a - d <= x < a - d + n <-> a <= x + d < a + n) by lia. tauto.
Qed.

Lemma shift_iv_end d hi l : ivs_end hi l -> ivs_end (hi - d) (shift_iv d l).
Proof.
  unfold ivs_end, shift_iv. rewrite Forall_fmap. intros H.
  eapply Forall_impl; [exact H|]. intros [a n] ?; simpl; lia.
Qed.

Lemma drop_iv_ok d l :
  ivs_ok 0 l -> 0 < d <= prefix_len l -> ivs_ok 0 (drop_iv d l).
Proof.
  destruct l as [|[a n] l]; simpl; [done|]. intros (? & ? & Hl).
  destruct (Z.eqb_spec a 0); [|lia]. intros ?.
  destruct (Z.eqb_spec n d); simpl; split_and?; try lia.
  - eapply ivs_ok_weaken; [|apply shift_iv_ok, Hl]. lia.
  - eapply ivs_ok_weaken; [|apply shift_iv_ok, Hl]. lia.
Qed.

Lemma drop_iv_covers d l x :
  ivs_ok 0 l -> 0 < d <= prefix_len l -> 0 <= x -> covers (drop_iv d l) x <-> covers l (x + d).
Proof.
  destruct l as [|[a n] l]; simpl; [lia|]. intros (? & ? & Hl).
  destruct (Z.eqb_spec a 0); [|lia]. intros ? ?. rewrite covers_cons.
  destruct (Z.eqb_spec n d); rewrite ?covers_cons, shift_iv_covers.
  - assert (~ a <= x + d < a + n) by lia. tauto.
  - assert (a <= x + d < a + n <-> 0 <= x < 0 + (n - d)) by lia. tauto.
Qed.

Lemma drop_iv_end d hi l :
  ivs_ok 0 l -> 0 < d <= prefix_len l -> ivs_end hi l -> ivs_end (hi - d) (drop_iv d l).
Proof.
  destruct l as [|[a n] l]; simpl; [lia|]. intros (? & ? & Hl).
  destruct (Z.eqb_spec a 0); [|lia]. intros ? [? He]%Forall_cons.
  destruct (Z.eqb_spec n d); [by apply shift_iv_end|]. constructor; [lia|by apply shift_iv_end].
Qed.

Lemma drop_iv_prefix d l :
  ivs_ok 0 l -> 0 < d <= prefix_len l -> prefix_len (drop_iv d l) = prefix_len l - d.
Proof.
  destruct l as [|[a n] l]; simpl; [lia|]. intros (? & ? & Hl).
  destruct (Z.eqb_spec a 0); [|lia]. intros ?.
  destruct (Z.eqb_spec n d); [|done].
  destruct l as [|[b m] l]; simpl in *; [lia|].
  destruct (Z.eqb_spec (b - d) 0); lia.
Qed.
