(* ===== verification/RingBuffer.v ===== *)
(** * The receive buffer of [tcp_ring_buffer.c]

    A buffer owns one chunk of memory; [head_offset] is the position of the
    next byte the application reads and [head_seq] its sequence number. The
    segments received so far are recorded as a linked list of fragment
    contexts. The list nodes live in a store ([frags]) shared by all buffers
    of a manager: nodes come from two free queues, a chunk pool or the heap,
    and the merge loop of [RBPut] relinks and frees them by pointer.

    The main result relates the buffer to an interval list ([Intervals]):
    [RBPut] adds an interval, [RBRemove] drops a prefix, and the bytes at
    covered offsets are the bytes of the segments received. *)

From S2P Require Import Prelude SeqNum SpscQueue MemPool Intervals.

Record fragment_ctx := mkFrag {
  fseq : Z;
  flen : Z;                (* 31-bit field *)
  is_calloc : bool;
  fnext : option ptr
}.

Record tcp_ring_buffer := mkRB {
  data : list Z;           (* the chunk *)
  head : Z;                (* [head - data] *)
  head_offset : Z;
  tail_offset : Z;
  merged_len : Z;
  cum_len : Z;
  last_len : Z;
  size : Z;
  head_seq : Z;
  init_seq : Z;
  fctx : option ptr
}.
#[export] Instance tcp_ring_buffer_rebuild : Rebuild tcp_ring_buffer := fun b =>
  mkRB (data b) (head b) (head_offset b) (tail_offset b) (merged_len b) (cum_len b)
    (last_len b) (size b) (head_seq b) (init_seq b) (fctx b).

(** [brk] is the address the next [calloc] of a fragment returns. *)
Record rb_manager := mkRBM {
  chunk_size : Z;
  cur_num : Z;
  cnum : Z;
  mp : mem_pool;
  frag_mp : mem_pool;
  free_fragq : ring_queue ptr;
  free_fragq_int : ring_queue ptr;
  frags : gmap ptr fragment_ctx;
  brk : ptr
}.
#[export] Instance rb_manager_rebuild : Rebuild rb_manager := fun m =>
  mkRBM (chunk_size m) (cur_num m) (cnum m) (mp m) (frag_mp m) (free_fragq m)
    (free_fragq_int m) (frags m) (brk m).

Inductive rb_caller := AT_APP | AT_MTCP.

Definition sizeof_fragment_ctx : Z := 16.

Definition RBGetCurnum (rbm : rb_manager) : Z := cur_num rbm.

(** The results of the allocations are arguments: [ok] of the manager's
    [calloc], [m1] and [m2] of the two pools, [q1] and [q2] of the queues. *)
Definition RBManagerCreate (ok m1 m2 q1 q2 : bool) (brk0 : ptr) (chunksz cn : Z)
  : res (option rb_manager) :=
  if negb ok then Ok None
  else
    let! p1 := MPCreate m1 (s32 chunksz) (u64 (chunksz * cn)) in
    match p1 with
    | None => Ok None
    | Some p1 =>
        let! p2 := MPCreate m2 sizeof_fragment_ctx (sizeof_fragment_ctx * cn) in
        match p2 with
        | None => Ok None
        | Some p2 =>
            match CreateRBFragQueue q1 q1 (s32 cn) with
            | None => Ok None
            | Some f1 =>
                match CreateRBFragQueue q2 q2 (s32 cn) with
                | None => Ok None
                | Some f2 => Ok (Some (mkRBM chunksz 0 cn p1 p2 f1 f2 ∅ brk0))
                end
            end
        end
    end.

Definition deref (rbm : rb_manager) (p : ptr) : res fragment_ctx :=
  from_option_res DanglingFragment (frags rbm !! p).

Definition FreeFragmentContextSingle (rbm : rb_manager) (frag : ptr) : res rb_manager :=
  let! f := deref rbm frag in
  let rbm1 := rbm <| frags := delete frag (frags rbm) |> in
  if is_calloc f then Ok rbm1
  else
    let! pool := MPFreeChunk (frag_mp rbm) frag in
    Ok (rbm1 <| frag_mp := pool |>).

(** [fuel] bounds the length of the list walked. *)
Fixpoint free_list (fuel : nat) (rbm : rb_manager) (f : option ptr) : res rb_manager :=
  match f with
  | None => Ok rbm
  | Some remove =>
      match fuel with
      | O => Fault OutOfFuel
      | S fuel =>
          let! c := deref rbm remove in
          let! rbm1 := FreeFragmentContextSingle rbm remove in
          free_list fuel rbm1 (fnext c)
      end
  end.

Definition FreeFragmentContext (rbm : rb_manager) (f : option ptr) : res rb_manager :=
  match f with
  | None => Fault AssertFailed
  | Some _ => free_list (S (base.size (frags rbm))) rbm f
  end.

Definition zero_frag : fragment_ctx := mkFrag 0 0 false None.

(** The fragment handed out is cleared whatever its origin: also the mark
    that it came from [calloc]. *)
Definition AllocateFragmentContext (rbm : rb_manager) : res (ptr * rb_manager) :=
  let clear p m := Ok (p, m <| frags := <[p := zero_frag]> (frags m) |>) in
  let! (o, q) := RBFragDequeue (free_fragq rbm) in
  match o with
  | Some p => clear p (rbm <| free_fragq := q |>)
  | None =>
      let! (o, q) := RBFragDequeue (free_fragq_int rbm) in
      match o with
      | Some p => clear p (rbm <| free_fragq_int := q |>)
      | None =>
          let! (o, pool) := MPAllocateChunk (frag_mp rbm) in
          match o with
          | Some p => clear p (rbm <| frag_mp := pool |>)
          | None => clear (brk rbm) (rbm <| brk := brk rbm + sizeof_fragment_ctx |>)
          end
      end
  end.

(** [mem] is what the chunk holds when it is handed out; [ok] is the outcome
    of the [calloc] of the buffer header. The result carries the address of
    the chunk. *)
Definition RBInit (ok : bool) (mem : list Z) (rbm : rb_manager) (init : Z)
  : res (option (Z * tcp_ring_buffer) * rb_manager) :=
  if negb ok then Ok (None, rbm)
  else
    let! (o, pool) := MPAllocateChunk (mp rbm) in
    match o with
    | None => Ok (None, rbm)
    | Some c =>
        Ok (Some (c, mkRB mem 0 0 0 0 0 0 (s32 (chunk_size rbm)) init init None),
            rbm <| mp := pool |> <| cur_num := u32 (cur_num rbm + 1) |>)
    end.

(** [chunk] is the address of the buffer's chunk in the pool. *)
Definition RBFree (rbm : rb_manager) (chunk : Z) (buff : tcp_ring_buffer) : res rb_manager :=
  let! rbm1 :=
    match fctx buff with
    | Some f => FreeFragmentContext rbm (Some f)
    | None => Ok rbm
    end in
  let! pool := MPFreeChunk (mp rbm1) chunk in
  Ok (rbm1 <| mp := pool |> <| cur_num := u32 (cur_num rbm1 - 1) |>).

Definition CanMerge (a b : fragment_ctx) : bool :=
  let a_end := u32 (fseq a + flen a + 1) in
  let b_end := u32 (fseq b + flen b + 1) in
  if (GetMinSeq a_end (fseq b) =? a_end) || (GetMinSeq b_end (fseq a) =? b_end)
  then false else true.

(** Merge [a] into [b]. *)
Definition MergeFragments (a b : fragment_ctx) : fragment_ctx :=
  let min_seq := GetMinSeq (fseq a) (fseq b) in
  let max_seq := GetMaxSeq (u32 (fseq a + flen a)) (u32 (fseq b + flen b)) in
  mkFrag min_seq (u31 (u32 (max_seq - min_seq))) (is_calloc b) (fnext b).

(** *** The merge loop of [RBPut]

    The loop variables, with the store and [buff->fctx] it updates. *)
Record put_vars := mkPut {
  v_rbm : rb_manager;
  v_fctx : option ptr;
  v_new : ptr;
  v_iter : option ptr;
  v_prev : option ptr;
  v_pprev : option ptr;
  v_merged : bool
}.

(** [pprev->next = x], or [buff->fctx = x] when there is no [pprev]. *)
Definition relink (fs : gmap ptr fragment_ctx) (f pp x : option ptr)
  : res (gmap ptr fragment_ctx * option ptr) :=
  match pp with
  | None => Ok (fs, x)
  | Some q =>
      let! c := from_option_res DanglingFragment (fs !! q) in
      Ok (<[q := mkFrag (fseq c) (flen c) (is_calloc c) x]> fs, f)
  end.

Fixpoint merge_loop (fuel : nat) (cur_seq len : Z) (v : put_vars) : res put_vars :=
  match v_iter v with
  | None => Ok v
  | Some it =>
      match fuel with
      | O => Fault OutOfFuel
      | S fuel =>
          let! fnew := deref (v_rbm v) (v_new v) in
          let! fit := deref (v_rbm v) it in
          if CanMerge fnew fit then
            let fs1 := <[it := MergeFragments fnew fit]> (frags (v_rbm v)) in
            let! (fs2, f2, prev2) :=
              if decide (v_prev v = Some (v_new v)) then
                let! (fs, f) := relink fs1 (v_fctx v) (v_pprev v) (Some it) in
                Ok (fs, f, v_pprev v)
              else Ok (fs1, v_fctx v, v_prev v) in
            let! rbm3 := FreeFragmentContextSingle (v_rbm v <| frags := fs2 |>) (v_new v) in
            merge_loop fuel cur_seq len
              (mkPut rbm3 f2 it (fnext fit) (Some it) prev2 true)
          else if v_merged v || (GetMaxSeq (u32 (cur_seq + len)) (fseq fit) =? fseq fit)
          then Ok v
          else
            merge_loop fuel cur_seq len
              (mkPut (v_rbm v) (v_fctx v) (v_new v) (fnext fit) (Some it) (v_prev v) false)
      end
  end.

(** Record the new fragment [new_ctx] when the loop did not merge it. *)
Definition link_new (cur_seq : Z) (v : put_vars) : res put_vars :=
  if v_merged v then Ok v
  else
    match v_fctx v with
    | None => Ok (mkPut (v_rbm v) (Some (v_new v)) (v_new v) (v_iter v) (v_prev v) (v_pprev v) false)
    | Some f =>
        let! cf := deref (v_rbm v) f in
        let! cn := deref (v_rbm v) (v_new v) in
        if GetMinSeq cur_seq (fseq cf) =? cur_seq then
          let fs := <[v_new v := mkFrag (fseq cn) (flen cn) (is_calloc cn) (Some f)]> (frags (v_rbm v)) in
          Ok (mkPut (v_rbm v <| frags := fs |>) (Some (v_new v)) (v_new v) (v_iter v) (v_prev v) (v_pprev v) false)
        else
          match v_prev v with
          | None => Fault NullDeref
          | Some pv =>
              let! cp := deref (v_rbm v) pv in
              let pend := u32 (fseq cp + flen cp) in
              if negb (GetMinSeq cur_seq pend =? pend) then Fault AssertFailed
              else
                let fs1 := <[pv := mkFrag (fseq cp) (flen cp) (is_calloc cp) (Some (v_new v))]> (frags (v_rbm v)) in
                let fs2 := <[v_new v := mkFrag (fseq cn) (flen cn) (is_calloc cn) (v_iter v)]> fs1 in
                Ok (mkPut (v_rbm v <| frags := fs2 |>) (v_fctx v) (v_new v) (v_iter v) (v_prev v) (v_pprev v) false)
          end
    end.

(** If the segment would pass the end of the chunk, move the data to the front. *)
Definition put_room (buff : tcp_ring_buffer) (end_off : Z) : res tcp_ring_buffer :=
  if u32 (size buff) <=? u32 (head_offset buff + end_off) then
    let! d := from_option_res OutOfBounds (mem_move (data buff) 0 (head buff) (last_len buff)) in
    Ok (buff <| data := d |>
             <| tail_offset := u32 (tail_offset buff - head_offset buff) |>
             <| head_offset := 0 |> <| head := 0 |>)
  else Ok buff.

(** Copy the payload and extend the tail. *)
Definition put_copy (buff : tcp_ring_buffer) (payload : list Z) (putx end_off : Z) : res tcp_ring_buffer :=
  let! d := from_option_res OutOfBounds (mem_write (data buff) (head buff + putx) payload) in
  let buff2 := buff <| data := d |> in
  let new_tail := u32 (head_offset buff2 + end_off) in
  let buff3 := if tail_offset buff2 <? new_tail
               then buff2 <| tail_offset := new_tail |> else buff2 in
  Ok (buff3 <| last_len := s32 (tail_offset buff3 - head_offset buff3) |>).

(** [payload] holds the [len] bytes at [data]. *)
Definition RBPut (rbm : rb_manager) (buff : tcp_ring_buffer) (payload : list Z) (len cur_seq : Z)
  : res (Z * rb_manager * tcp_ring_buffer) :=
  if len <=? 0 then Ok (0, rbm, buff)
  else if negb (GetMinSeq (head_seq buff) cur_seq =? head_seq buff) then Ok (0, rbm, buff)
  else
    let putx := s32 (cur_seq - head_seq buff) in
    let end_off := s32 (putx + len) in
    if size buff <? end_off then Ok (-2, rbm, buff)
    else
      let! buff1 := put_room buff end_off in
      let! buff4 := put_copy buff1 payload putx end_off in
      (* create fragmentation context blocks *)
      let! (new_ctx, rbm1) := AllocateFragmentContext rbm in
      let rbm2 := rbm1 <| frags := <[new_ctx := mkFrag cur_seq (u31 len) false None]> (frags rbm1) |> in
      let! v := merge_loop (base.size (frags rbm2)) cur_seq len
                  (mkPut rbm2 (fctx buff4) new_ctx (fctx buff4) None None false) in
      let! v := link_new cur_seq v in
      let buff5 := buff4 <| fctx := v_fctx v |> in
      match v_fctx v with
      | None => Fault NullDeref
      | Some f =>
          let! cf := deref (v_rbm v) f in
          if head_seq buff5 =? fseq cf then
            Ok (s32 len, v_rbm v,
                buff5 <| cum_len := u64 (cum_len buff5 + (flen cf - merged_len buff5)) |>
                      <| merged_len := flen cf |>)
          else Ok (s32 len, v_rbm v, buff5)
      end.

Definition RBRemove (rbm : rb_manager) (buff : tcp_ring_buffer) (len0 : Z) (option : rb_caller)
  : res (Z * rb_manager * tcp_ring_buffer) :=
  let len := if u64 (merged_len buff) <? len0 then u64 (merged_len buff) else len0 in
  if len =? 0 then Ok (0, rbm, buff)
  else
    let ho := u32 (head_offset buff + len) in
    let buff1 := buff <| head_offset := ho |> <| head := ho |>
                      <| head_seq := u32 (head_seq buff + len) |>
                      <| merged_len := s32 (merged_len buff - len) |>
                      <| last_len := s32 (last_len buff - len) |> in
    match fctx buff with
    | None => Fault NullDeref
    | Some remove =>
        let! c := deref rbm remove in
        if len =? flen c then
          let buff2 := buff1 <| fctx := fnext c |> in
          match option with
          | AT_APP =>
              let! (_, q) := RBFragEnqueue (free_fragq rbm) remove in
              Ok (len, rbm <| free_fragq := q |>, buff2)
          | AT_MTCP =>
              let! (_, q) := RBFragEnqueue (free_fragq_int rbm) remove in
              Ok (len, rbm <| free_fragq_int := q |>, buff2)
          end
        else if len <? flen c then
          let c' := mkFrag (u32 (fseq c + len)) (u31 (flen c - len)) (is_calloc c) (fnext c) in
          Ok (len, rbm <| frags := <[remove := c']> (frags rbm) |>, buff1)
        else Fault AssertFailed
    end.

(** ** Fragment arithmetic inside a window *)

(** Offsets stay below half the sequence space. *)
Definition half : Z := 2147483648.

Lemma half_eq : half = 2147483648.
Proof. reflexivity. Qed.

Definition at_off (w : Z) (i : iv) (nx : option ptr) : fragment_ctx :=
  mkFrag (seq_at w (fst i)) (snd i) false nx.

Section fragments.
Context (w a n b m : Z).
Hypothesis (Ha : 0 <= a) (Hn : 0 < n) (Hb : 0 <= b) (Hm : 0 < m).
Hypothesis (Han : a + n + 1 < half) (Hbm : b + m + 1 < half).

Lemma CanMerge_window nx ny :
  CanMerge (at_off w (a, n) nx) (at_off w (b, m) ny) = (b <=? a + n) && (a <=? b + m).
Proof.
  unfold half in *. unfold CanMerge, at_off; simpl.
  rewrite <- !Z.add_assoc, !seq_at_add, !GetMinSeq_window, !seq_eqb_window by lia.
  bdestruct_all; lia.
Qed.

Lemma MergeFragments_window nx ny :
  MergeFragments (at_off w (a, n) nx) (at_off w (b, m) ny) =
  at_off w (Z.min a b, Z.max (a + n) (b + m) - Z.min a b) ny.
Proof.
  unfold half in *. unfold MergeFragments, at_off; simpl.
  rewrite !seq_at_add, GetMinSeq_window, GetMaxSeq_window by lia. f_equal.
  unfold seq_at. autorewrite with wrap.
  replace (w + Z.max (a + n) (b + m) - (w + Z.min a b))
    with (Z.max (a + n) (b + m) - Z.min a b) by lia.
  rewrite u32_small by lia. unfold u31. apply Z.mod_small. lia.
Qed.
End fragments.

(** ** List segments in the fragment store *)

Definition node := (ptr * iv)%type.
Implicit Types (l : list node) (fs : gmap ptr fragment_ctx).

(** From [fp], the nodes [l], then [tl]. *)
Fixpoint seg (w : Z) fs (fp : option ptr) l (tl : option ptr) : Prop :=
  match l with
  | [] => fp = tl
  | (p, i) :: l' => fp = Some p /\ exists nx, fs !! p = Some (at_off w i nx) /\ seg w fs nx l' tl
  end.

Definition ptrs l : list ptr := fst <$> l.
Definition ivs l : list iv := snd <$> l.

(** The last node, the [prev] of the position after [l]. *)
Definition last_ptr l : option ptr := last (ptrs l).

Lemma seg_app w fs fp l1 l2 tl :
  seg w fs fp (l1 ++ l2) tl <-> exists md, seg w fs fp l1 md /\ seg w fs md l2 tl.
Proof.
  revert fp. induction l1 as [|[p i] l1 IH]; intros fp; simpl.
  - split; [by eexists|by intros (? & -> & ?)].
  - split.
    + intros (-> & nx & Hp & (md & H1 & H2)%IH). exists md. eauto.
    + intros (md & (-> & nx & Hp & H1) & H2). split; [done|]. exists nx. split; [done|].
      apply IH. eauto.
Qed.

Lemma seg_frame w fs fs' fp l tl :
  (forall p, p ∈ ptrs l -> fs' !! p = fs !! p) -> seg w fs fp l tl -> seg w fs' fp l tl.
Proof.
  revert fp. induction l as [|[p i] l IH]; intros fp Hf; simpl; [done|].
  intros (-> & nx & Hp & Hl). split; [done|]. exists nx. split.
  - rewrite Hf; [done|]. set_solver.
  - apply IH; [|done]. intros q ?. apply Hf. set_solver.
Qed.

Lemma seg_insert w fs p c fp l tl :
  ~ p ∈ ptrs l -> seg w fs fp l tl -> seg w (<[p := c]> fs) fp l tl.
Proof. intros ?. apply seg_frame. intros q ?. apply lookup_insert_ne. set_solver. Qed.

Lemma seg_delete w fs p fp l tl :
  ~ p ∈ ptrs l -> seg w fs fp l tl -> seg w (delete p fs) fp l tl.
Proof. intros ?. apply seg_frame. intros q ?. apply lookup_delete_ne. set_solver. Qed.

Lemma last_ptr_snoc l p i : last_ptr (l ++ [(p, i)]) = Some p.
Proof. unfold last_ptr, ptrs. rewrite fmap_app. apply last_snoc. Qed.

(** Redirecting the end of a segment. *)
Lemma relink_seg w fs fp l tl x :
  NoDup (ptrs l) -> seg w fs fp l tl ->
  exists fs' fp', relink fs fp (last_ptr l) x = Ok (fs', fp') /\ seg w fs' fp' l x /\
    (forall p, ~ p ∈ ptrs l -> fs' !! p = fs !! p) /\ dom fs' = dom fs.
Proof.
  intros Hnd Hs. destruct (list_snoc_inv l) as [->|(l' & [p i] & ->)]; simpl.
  - by exists fs, x.
  - rewrite last_ptr_snoc; simpl. apply seg_app in Hs as (md & H1 & (-> & nx & Hp & _)).
    rewrite Hp; simpl. eexists _, _. split; [done|].
    unfold ptrs in Hnd. rewrite fmap_app in Hnd. apply NoDup_app in Hnd as (_ & Hd & _).
    split_and!.
    + apply seg_app. exists (Some p). split.
      * apply seg_insert; [|done]. intros ?. eapply (Hd p); [done|]. simpl. set_solver.
      * simpl. split; [done|]. eexists. rewrite lookup_insert_eq. split; [done|done].
    + intros q Hq. apply lookup_insert_ne. intros ->. apply Hq. unfold ptrs.
      rewrite fmap_app. set_solver.
    + apply dom_insert_lookup_L. by eexists.
Qed.

(** ** Ownership of fragments

    [use] are the fragments held by buffers or being inserted. They, and the
    contents of the two free queues, are exactly the chunks the fragment
    pool handed out; the queues are large enough for all of them. *)

Definition owned (rbm : rb_manager) (use : list ptr) : Prop :=
  exists free q1 q2 used,
    pool_rep (frag_mp rbm) free used /\
    ring_rep (free_fragq rbm) q1 /\ ring_rep (free_fragq_int rbm) q2 /\
    used ≡ₚ use ++ q1 ++ q2 /\
    mp_total_chunks (frag_mp rbm) <= _capacity (free_fragq rbm) /\
    mp_total_chunks (frag_mp rbm) <= _capacity (free_fragq_int rbm) /\
    dom (frags rbm) ⊆ list_to_set used.

(** What the operations on fragments leave alone. *)
Definition mgr_frame (rbm rbm' : rb_manager) : Prop :=
  chunk_size rbm' = chunk_size rbm /\ cur_num rbm' = cur_num rbm /\ cnum rbm' = cnum rbm /\
  mp rbm' = mp rbm /\ brk rbm' = brk rbm.

#[export] Instance mgr_frame_preorder : PreOrder mgr_frame.
Proof. split; [intros ?; by split_and!|]. intros ? ? ? (?&?&?&?&?) (?&?&?&?&?). split_and!; congruence. Qed.

Lemma owned_perm rbm use use' : use ≡ₚ use' -> owned rbm use -> owned rbm use'.
Proof.
  intros Hp (free & q1 & q2 & used & ? & ? & ? & Hu & ? & ? & ?).
  exists free, q1, q2, used. split_and!; try done. by rewrite <- Hp.
Qed.

Lemma owned_NoDup rbm use : owned rbm use -> NoDup use.
Proof.
  intros (free & q1 & q2 & used & (_ & _ & _ & _ & Hnd & _) & _ & _ & Hu & _).
  apply NoDup_app in Hnd as (_ & _ & Hnd). rewrite Hu in Hnd.
  by apply NoDup_app in Hnd as (? & _).
Qed.

Lemma owned_upd rbm use fs :
  owned rbm use -> dom fs ⊆ dom (frags rbm) -> owned (rbm <| frags := fs |>) use.
Proof.
  intros (free & q1 & q2 & used & ? & ? & ? & Hu & ? & ? & ?) Hd.
  exists free, q1, q2, used. split_and!; simpl; try done. set_solver.
Qed.

Lemma FreeFragmentContextSingle_ok rbm p c use :
  owned rbm (p :: use) -> frags rbm !! p = Some c -> is_calloc c = false ->
  exists rbm', FreeFragmentContextSingle rbm p = Ok rbm' /\ owned rbm' use /\
    frags rbm' = delete p (frags rbm) /\ mgr_frame rbm rbm'.
Proof.
  intros (free & q1 & q2 & used & Hr & ? & ? & Hu & ? & ? & Hd) Hp Hc.
  unfold FreeFragmentContextSingle, deref. rewrite Hp; simpl. rewrite Hc.
  apply (pool_rep_perm _ _ _ ([] ++ p :: (use ++ q1 ++ q2))) in Hr; [|by rewrite Hu].
  destruct (MPFreeChunk_ok _ _ _ _ _ Hr) as (pool & -> & Hr' & _ & Ht). simpl.
  eexists; split_and!; [done| |done|by split_and!].
  exists (p :: free), q1, q2, (use ++ q1 ++ q2). split_and!; simpl; try done; try lia.
  rewrite dom_delete_L. intros q [Hq ?]%elem_of_difference. apply Hd in Hq.
  rewrite elem_of_list_to_set, Hu in Hq. rewrite elem_of_list_to_set. set_solver.
Qed.

(** At least one fragment is free: the heap is not needed. *)
Definition frag_available (rbm : rb_manager) : Prop :=
  QueueIsEmpty (free_fragq rbm) = false \/ QueueIsEmpty (free_fragq_int rbm) = false \/
  0 < mp_free_chunks (frag_mp rbm).

Lemma AllocateFragmentContext_ok rbm use :
  owned rbm use -> frag_available rbm ->
  exists p rbm', AllocateFragmentContext rbm = Ok (p, rbm') /\ owned rbm' (p :: use) /\
    frags rbm' = <[p := zero_frag]> (frags rbm) /\ mgr_frame rbm rbm'.
Proof.
  intros (free & q1 & q2 & used & Hr & Hq1 & Hq2 & Hu & ? & ? & Hd) Hav.
  unfold AllocateFragmentContext, RBFragDequeue.
  assert (forall p used', used' ≡ₚ p :: used \/ p ∈ used /\ used' = used ->
    dom (<[p := zero_frag]> (frags rbm)) ⊆ list_to_set used') as Hdom.
  { intros p used' Hcase. rewrite dom_insert_L.
    destruct Hcase as [->|[? ->]]; simpl; set_solver. }
  destruct q1 as [|p q1].
  2:{ destruct (Dequeue_cons _ _ _ Hq1) as (q & -> & Hq & Hcap). simpl.
    eexists _, _; split_and!; [done| |done|by split_and!].
    exists free, q1, q2, used. split_and!; simpl; try done; try lia.
    - rewrite Hu. simpl. by rewrite <- Permutation_middle.
    - apply Hdom. right. split; [|done]. rewrite Hu. set_solver. }
  rewrite (Dequeue_nil _ Hq1). simpl. destruct q2 as [|p q2].
  2:{ destruct (Dequeue_cons _ _ _ Hq2) as (q & -> & Hq & Hcap). simpl.
    eexists _, _; split_and!; [done| |done|by split_and!].
    exists free, [], q2, used. split_and!; simpl; try done; try lia.
    - rewrite Hu. simpl. by rewrite <- Permutation_middle.
    - apply Hdom. right. split; [|done]. rewrite Hu. set_solver. }
  rewrite (Dequeue_nil _ Hq2). simpl. destruct free as [|p free].
  - exfalso. unfold frag_available, QueueIsEmpty in Hav.
    rewrite (ring_empty_test _ _ Hq1), (ring_empty_test _ _ Hq2) in Hav.
    destruct Hr as (_ & _ & Hf & _). rewrite Hf in Hav.
    destruct Hav as [?|[?|?]]; [done|done|]. by change (zlen []) with 0 in *.
  - destruct (MPAllocateChunk_some _ _ _ _ Hr) as (pool & -> & Hr' & _ & Ht). simpl.
    eexists _, _; split_and!; [done| |done|by split_and!].
    exists free, [], [], (p :: used). split_and!; simpl; try done; try lia.
    + by rewrite Hu.
    + apply (Hdom p (p :: used)). by left.
Qed.

(** ** The merge loop *)

Lemma deref_ok rbm p c : frags rbm !! p = Some c -> deref rbm p = Ok c.
Proof. unfold deref. by intros ->. Qed.

Lemma ptrs_app l1 l2 : ptrs (l1 ++ l2) = ptrs l1 ++ ptrs l2.
Proof. apply fmap_app. Qed.

Lemma ivs_app l1 l2 : ivs (l1 ++ l2) = ivs l1 ++ ivs l2.
Proof. apply fmap_app. Qed.

(** What the loop and [link_new] establish: the list now represents [ivs'],
    only nodes of the list were touched. *)
Definition put_result (w : Z) (rbm : rb_manager) (touched rest : list ptr) (ivs' : list iv)
    (rbm' : rb_manager) (f' : option ptr) : Prop :=
  exists l', seg w (frags rbm') f' l' None /\ ivs l' = ivs' /\
    owned rbm' (ptrs l' ++ rest) /\ mgr_frame rbm rbm' /\
    (forall q, ~ q ∈ touched -> frags rbm' !! q = frags rbm !! q).

(** One merge of node [p] into its successor [it]. *)
Lemma merge_into_next w rbm f l1 p a n it b m nx l2 rest :
  seg w (frags rbm) f l1 (Some p) ->
  frags rbm !! p = Some (at_off w (a, n) (Some it)) ->
  frags rbm !! it = Some (at_off w (b, m) nx) ->
  seg w (frags rbm) nx l2 None ->
  owned rbm (ptrs (l1 ++ (p, (a, n)) :: (it, (b, m)) :: l2) ++ rest) ->
  0 <= a -> 0 < n -> 0 <= b -> 0 < m -> a + n + 1 < half -> b + m + 1 < half ->
  let i := (Z.min a b, Z.max (a + n) (b + m) - Z.min a b) in
  exists fs2 f2 rbm3,
    relink (<[it := MergeFragments (at_off w (a, n) (Some it)) (at_off w (b, m) nx)]> (frags rbm))
      f (last_ptr l1) (Some it) = Ok (fs2, f2) /\
    FreeFragmentContextSingle (rbm <| frags := fs2 |>) p = Ok rbm3 /\
    seg w (frags rbm3) f2 l1 (Some it) /\
    frags rbm3 !! it = Some (at_off w i nx) /\
    seg w (frags rbm3) nx l2 None /\
    owned rbm3 (ptrs (l1 ++ (it, i) :: l2) ++ rest) /\ mgr_frame rbm rbm3 /\
    (forall q, ~ q ∈ ptrs (l1 ++ (p, (a, n)) :: (it, (b, m)) :: l2) ->
       frags rbm3 !! q = frags rbm !! q).
Proof.
  intros Hl1 Hp Hit Hl2 Ho ? ? ? ? ? ? i.
  rewrite MergeFragments_window by done. fold i.
  pose proof (owned_NoDup _ _ Ho) as Hnd. rewrite ptrs_app in Hnd, Ho. simpl in Hnd, Ho.
  apply NoDup_app in Hnd as (Hnd & _ & _).
  apply NoDup_app in Hnd as (Hnd1 & Hd & Hnd2).
  apply NoDup_cons in Hnd2 as [Hpn Hnd2]. pose proof Hnd2 as [Hitn _]%NoDup_cons.
  set (fs1 := <[it := at_off w i nx]> (frags rbm)).
  assert (~ it ∈ ptrs l1) as Hit1. { intros Hx. apply (Hd it Hx). set_solver. }
  assert (~ p ∈ ptrs l1) as Hp1. { intros Hx. apply (Hd p Hx). set_solver. }
  assert (p <> it) as Hpit by set_solver.
  assert (~ p ∈ ptrs l2) as Hp2 by set_solver.
  destruct (relink_seg w fs1 f l1 (Some p) (Some it)) as (fs2 & f2 & Hrel & Hs2 & Hfr & Hdom);
    [done|by apply seg_insert|].
  assert (fs2 !! p = Some (at_off w (a, n) (Some it))) as Hp'.
  { rewrite Hfr by done. unfold fs1. by rewrite lookup_insert_ne. }
  destruct (FreeFragmentContextSingle_ok (rbm <| frags := fs2 |>) p
    (at_off w (a, n) (Some it)) ((ptrs l1 ++ it :: ptrs l2) ++ rest)) as (rbm3 & Hfree & Ho3 & Hf3 & Hm3);
    [|done|done|].
  { apply owned_upd.
    - eapply owned_perm; [|exact Ho]. simpl. by rewrite <- Permutation_middle.
    - rewrite Hdom. unfold fs1. rewrite dom_insert_L. apply elem_of_dom_2 in Hit. set_solver. }
  simpl in Hf3. exists fs2, f2, rbm3. split_and!; try done.
  - rewrite Hf3. by apply seg_delete.
  - rewrite Hf3, lookup_delete_ne, Hfr by done. unfold fs1. by rewrite lookup_insert_eq.
  - rewrite Hf3. apply seg_delete; [done|]. eapply seg_frame; [|exact Hl2].
    intros q Hq. rewrite Hfr.
    + unfold fs1. apply lookup_insert_ne. set_solver.
    + intros Hx. apply (Hd q Hx). set_solver.
  - by rewrite ptrs_app.
  - intros q Hq. rewrite ptrs_app in Hq. simpl in Hq. rewrite Hf3, lookup_delete_ne by set_solver.
    rewrite Hfr by set_solver. unfold fs1. rewrite lookup_insert_ne; set_solver.
Qed.

(** Second phase: node [p] of the list absorbed the new fragment. *)
Lemma merge_loop_merged w cs len l2 : forall fuel rbm f l1 p a n it rest,
  (length l2 <= fuel)%nat ->
  seg w (frags rbm) f l1 (Some p) -> frags rbm !! p = Some (at_off w (a, n) it) ->
  seg w (frags rbm) it l2 None -> owned rbm (ptrs (l1 ++ (p, (a, n)) :: l2) ++ rest) ->
  0 <= a -> 0 < n -> a + n + 1 < half -> ivs_ok a (ivs l2) -> ivs_end (half - 2) (ivs l2) ->
  exists v, merge_loop fuel cs len (mkPut rbm f p it (Some p) (last_ptr l1) true) = Ok v /\
    v_merged v = true /\
    put_result w rbm (ptrs (l1 ++ (p, (a, n)) :: l2)) rest
      (ivs l1 ++ insert_iv a n (ivs l2)) (v_rbm v) (v_fctx v).
Proof.
  induction l2 as [|[q [b m]] l2 IH];
    intros fuel rbm f l1 p a n it rest Hfuel Hl1 Hp Hl2 Ho ? ? ? Hok Hend.
  - simpl in Hl2. subst it. destruct fuel; simpl; eexists; (split_and!; [done|done|]);
      exists (l1 ++ [(p, (a, n))]); split_and!; try done;
      try (by rewrite ivs_app); apply seg_app; exists (Some p); (split; [done|]);
      simpl; (split; [done|]); exists None; done.
  - destruct Hl2 as (-> & nx & Hq & Hl2). destruct fuel as [|fuel]; simpl in Hfuel; [lia|].
    apply Forall_cons in Hend as [Hbm Hend]. simpl in Hok, Hbm. destruct Hok as (? & ? & Hok).
    cbn [merge_loop v_iter v_rbm v_new v_fctx v_prev v_pprev v_merged].
    rewrite (deref_ok _ _ _ Hp), (deref_ok _ _ _ Hq). cbn [res_bind].
    rewrite CanMerge_window by lia. change (snd (q, (b, m))) with (b, m). cbn [ivs fmap list_fmap snd insert_iv].
    destruct (Z.leb_spec b (a + n)); simpl.
    + destruct (Z.leb_spec a (b + m)); [|lia]. simpl.
      destruct (Z.ltb_spec (a + n) b); [lia|]. destruct (Z.ltb_spec (b + m) a); [lia|].
      destruct (decide (Some p = Some p)) as [_|]; [|done].
      destruct (merge_into_next w rbm f l1 p a n q b m nx l2 rest)
        as (fs2 & f2 & rbm3 & -> & Hfree & Hs & Hlk & Hs2 & Ho3 & Hm3 & Hfr); try done; try lia.
      simpl. rewrite Hfree. simpl.
      destruct (IH fuel rbm3 f2 l1 q (Z.min a b) (Z.max (a + n) (b + m) - Z.min a b) nx rest)
        as (v & Hv & Hmv & l' & Hs' & Hiv & Ho' & Hm' & Hfr'); try done; try lia.
      { eapply ivs_ok_weaken; [|done]. lia. }
      exists v. split_and!; [done|done|]. exists l'. split_and!; try done; [by etrans|].
      intros x Hx. rewrite Hfr', Hfr; [done|done|].
      rewrite ptrs_app in *. simpl in *. set_solver.
    + destruct (Z.ltb_spec (a + n) b); [|lia]. eexists; split_and!; [done|done|].
      exists (l1 ++ (p, (a, n)) :: (q, (b, m)) :: l2). split_and!; try done.
      * apply seg_app. exists (Some p). split; [done|]. simpl. split; [done|].
        exists (Some q). split; [done|]. split; [done|]. by exists nx.
      * by rewrite ivs_app.
Qed.

(** First merge: the detached new fragment [p] into node [it]. *)
Lemma merge_detached w rbm f l1 p a n it b m nx l2 rest :
  seg w (frags rbm) f l1 (Some it) ->
  frags rbm !! p = Some (at_off w (a, n) None) ->
  frags rbm !! it = Some (at_off w (b, m) nx) ->
  seg w (frags rbm) nx l2 None ->
  owned rbm (p :: ptrs (l1 ++ (it, (b, m)) :: l2) ++ rest) ->
  0 <= a -> 0 < n -> 0 <= b -> 0 < m -> a + n + 1 < half -> b + m + 1 < half ->
  let i := (Z.min a b, Z.max (a + n) (b + m) - Z.min a b) in
  exists rbm3,
    FreeFragmentContextSingle
      (rbm <| frags := <[it := MergeFragments (at_off w (a, n) None) (at_off w (b, m) nx)]> (frags rbm) |>) p
      = Ok rbm3 /\
    seg w (frags rbm3) f l1 (Some it) /\
    frags rbm3 !! it = Some (at_off w i nx) /\
    seg w (frags rbm3) nx l2 None /\
    owned rbm3 (ptrs (l1 ++ (it, i) :: l2) ++ rest) /\ mgr_frame rbm rbm3 /\
    (forall q, ~ q ∈ p :: ptrs (l1 ++ (it, (b, m)) :: l2) -> frags rbm3 !! q = frags rbm !! q).
Proof.
  intros Hl1 Hp Hit Hl2 Ho ? ? ? ? ? ? i. rewrite MergeFragments_window by done. fold i.
  pose proof (owned_NoDup _ _ Ho) as Hnd. rewrite ptrs_app in *. simpl in *.
  apply NoDup_cons in Hnd as [Hpn Hnd]. apply NoDup_app in Hnd as (Hnd & _ & _).
  apply NoDup_app in Hnd as (Hnd1 & Hd & Hnd2). apply NoDup_cons in Hnd2 as [Hitn _].
  set (fs1 := <[it := at_off w i nx]> (frags rbm)).
  assert (~ it ∈ ptrs l1) as Hit1. { intros Hx. apply (Hd it Hx). set_solver. }
  assert (p <> it) as Hpit by set_solver.
  destruct (FreeFragmentContextSingle_ok (rbm <| frags := fs1 |>) p
    (at_off w (a, n) None) ((ptrs l1 ++ it :: ptrs l2) ++ rest)) as (rbm3 & Hfree & Ho3 & Hf3 & Hm3).
  { apply owned_upd; [done|]. unfold fs1. rewrite dom_insert_L. apply elem_of_dom_2 in Hit. set_solver. }
  { simpl. unfold fs1. by rewrite lookup_insert_ne. }
  { done. }
  simpl in Hf3. exists rbm3. rewrite Hf3. split_and!; try done.
  - apply seg_delete; [set_solver|]. by apply seg_insert.
  - rewrite lookup_delete_ne by done. unfold fs1. by rewrite lookup_insert_eq.
  - apply seg_delete; [set_solver|]. apply seg_insert; [set_solver|done].
  - intros q Hq. rewrite ptrs_app in Hq. simpl in Hq.
    rewrite lookup_delete_ne by set_solver. unfold fs1.
    rewrite lookup_insert_ne; [done|set_solver].
Qed.

(** First phase: walk past the fragments that end before the new one. *)
Lemma merge_loop_fresh w l2 : forall fuel rbm f l1 p a n it pp rest,
  (length l2 <= fuel)%nat ->
  seg w (frags rbm) f l1 it -> seg w (frags rbm) it l2 None ->
  frags rbm !! p = Some (at_off w (a, n) None) ->
  owned rbm (p :: ptrs (l1 ++ l2) ++ rest) ->
  0 <= a -> 0 < n -> a + n + 1 < half ->
  Forall (fun '(b, m) => 0 < m /\ b + m < a) (ivs l1) ->
  ivs_ok 0 (ivs l2) -> ivs_end (half - 2) (ivs l2) ->
  exists v, merge_loop fuel (seq_at w a) n (mkPut rbm f p it (last_ptr l1) pp false) = Ok v /\
    ((v_merged v = true /\
      put_result w rbm (p :: ptrs (l1 ++ l2)) rest (insert_iv a n (ivs (l1 ++ l2))) (v_rbm v) (v_fctx v)) \/
     (exists l1' l2' it' pp', v = mkPut rbm f p it' (last_ptr l1') pp' false /\ l1 ++ l2 = l1' ++ l2' /\
      seg w (frags rbm) f l1' it' /\ seg w (frags rbm) it' l2' None /\
      Forall (fun '(b, m) => 0 < m /\ b + m < a) (ivs l1') /\ ivs_ok (a + n + 1) (ivs l2'))).
Proof.
  induction l2 as [|[q [b m]] l2 IH];
    intros fuel rbm f l1 p a n it pp rest Hfuel Hl1 Hl2 Hp Ho ? ? ? Hpre Hok Hend.
  - simpl in Hl2. subst it. assert (merge_loop fuel (seq_at w a) n
      (mkPut rbm f p None (last_ptr l1) pp false) = Ok (mkPut rbm f p None (last_ptr l1) pp false)) as ->
      by by destruct fuel.
    eexists; split; [done|]. right. exists l1, [], None, pp. done.
  - destruct Hl2 as (-> & nx & Hq & Hl2). destruct fuel as [|fuel]; simpl in Hfuel; [lia|].
    pose proof Hend as [Hbm Hend']%Forall_cons. pose proof Hok as Hok0.
    simpl in Hok, Hbm. destruct Hok as (? & ? & Hok).
    cbn [merge_loop v_iter v_rbm v_new v_fctx v_prev v_pprev v_merged].
    rewrite (deref_ok _ _ _ Hp), (deref_ok _ _ _ Hq). cbn [res_bind].
    rewrite CanMerge_window by lia.
    destruct ((b <=? a + n) && (a <=? b + m)) eqn:Ecm.
    + apply andb_true_iff in Ecm as [Hba Hab]. apply Z.leb_le in Hba, Hab.
      destruct (decide (last_ptr l1 = Some p)) as [Hlp|_].
      { exfalso. apply owned_NoDup, NoDup_cons in Ho as [Hn' _]. apply Hn'.
        unfold last_ptr in Hlp. apply last_Some_elem_of in Hlp. rewrite ptrs_app. set_solver. }
      cbn [res_bind].
      destruct (merge_detached w rbm f l1 p a n q b m nx l2 rest)
        as (rbm3 & -> & Hs & Hlk & Hs2 & Ho3 & Hm3 & Hfr); try done; try lia.
      cbn [res_bind fnext at_off].
      destruct (merge_loop_merged w (seq_at w a) n l2 fuel rbm3 f l1 q (Z.min a b)
        (Z.max (a + n) (b + m) - Z.min a b) nx rest)
        as (v & Hv & Hmv & l' & Hs' & Hiv & Ho' & Hm' & Hfr'); try done; try lia.
      { eapply ivs_ok_weaken; [|done]. lia. }
      exists v. split; [done|]. left. split; [done|]. exists l'. split_and!; try done.
      * rewrite Hiv, ivs_app, insert_iv_skip by done. simpl.
        destruct (Z.ltb_spec (a + n) b); [lia|]. by destruct (Z.ltb_spec (b + m) a); [lia|].
      * by etrans.
      * intros x Hx. rewrite Hfr'.
        -- apply Hfr. done.
        -- rewrite ptrs_app in *. simpl in *. set_solver.
    + cbn [orb]. change (fseq (at_off w (b, m) nx)) with (seq_at w b). pose proof half_eq.
      rewrite seq_at_add, GetMaxSeq_window, seq_eqb_window by lia.
      destruct (Z.eqb_spec (Z.max (a + n) b) b).
      * assert (a + n < b) by (apply andb_false_iff in Ecm as [?%Z.leb_gt|?%Z.leb_gt]; lia).
        eexists; split; [done|]. right. exists l1, ((q, (b, m)) :: l2), (Some q), pp.
        split_and!; try done; simpl.
        -- split; [done|]. by exists nx.
        -- split_and!; [lia|done|done].
      * assert (b + m < a) by (apply andb_false_iff in Ecm as [?%Z.leb_gt|?%Z.leb_gt]; lia).
        destruct (IH fuel rbm f (l1 ++ [(q, (b, m))]) p a n nx (last_ptr l1) rest)
          as (v & Hv & Hcase); try done; try lia.
        { apply seg_app. exists (Some q). split; [done|]. simpl. split; [done|]. by exists nx. }
        { by rewrite <- app_assoc. }
        { rewrite ivs_app. apply Forall_app. split; [done|]. by constructor. }
        { eapply ivs_ok_weaken; [|done]. lia. }
        rewrite last_ptr_snoc in Hv. rewrite <- app_assoc in Hcase. by exists v.
Qed.

(** The first node of a non-empty segment that ends before [a]. *)
Lemma seg_first w fs f l tl a :
  l <> [] -> seg w fs f l tl ->
  Forall (fun '(b, m) => 0 < m /\ b + m < a) (ivs l) -> ivs_ok 0 (ivs l) ->
  exists q b m nx, f = Some q /\ fs !! q = Some (at_off w (b, m) nx) /\ 0 <= b < a.
Proof.
  destruct l as [|[q [b m]] l]; [done|]. intros _ (-> & nx & Hq & _) Hpre Hok.
  exists q, b, m, nx. split_and!; try done; simpl in *; apply Forall_cons in Hpre as [? _]; lia.
Qed.

(** Linking an unmerged fragment between [l1] and [l2]. *)
Lemma link_new_ok w rbm f l1 l2 p a n it pp rest :
  seg w (frags rbm) f l1 it -> seg w (frags rbm) it l2 None ->
  frags rbm !! p = Some (at_off w (a, n) None) ->
  owned rbm (p :: ptrs (l1 ++ l2) ++ rest) ->
  0 <= a -> 0 < n -> a + n + 1 < half ->
  Forall (fun '(b, m) => 0 < m /\ b + m < a) (ivs l1) -> ivs_ok 0 (ivs l1) ->
  ivs_ok (a + n + 1) (ivs l2) -> ivs_end (half - 2) (ivs l2) ->
  exists v, link_new (seq_at w a) (mkPut rbm f p it (last_ptr l1) pp false) = Ok v /\
    put_result w rbm (p :: ptrs (l1 ++ l2)) rest (insert_iv a n (ivs (l1 ++ l2))) (v_rbm v) (v_fctx v).
Proof.
  intros Hl1 Hl2 Hp Ho ? ? ? Hpre Hok1 Hok2 Hend. pose proof half_eq.
  rewrite ivs_app, insert_iv_skip, insert_iv_front by done.
  pose proof (owned_NoDup _ _ Ho) as Hnd. apply NoDup_cons in Hnd as [Hpn Hnd].
  rewrite ptrs_app in *. apply NoDup_app in Hnd as (Hnd & _ & _).
  apply NoDup_app in Hnd as (Hnd1 & Hd & Hnd2).
  unfold link_new; cbn [v_iter v_rbm v_new v_fctx v_prev v_pprev v_merged].
  assert (Hown : owned rbm (ptrs (l1 ++ (p, (a, n)) :: l2) ++ rest)).
  { eapply owned_perm; [|exact Ho]. rewrite ptrs_app. simpl. by rewrite <- Permutation_middle. }
  destruct (list_snoc_inv l1) as [->|(l1' & [pv [c k]] & ->)].
  - simpl in Hl1. subst it. destruct l2 as [|[q [b m]] l2].
    + simpl in Hl2. subst f. eexists; split; [done|]. exists [(p, (a, n))]. split_and!; try done.
      simpl. split; [done|]. by exists None.
    + pose proof Hl2 as (-> & nx & Hq & Hl2'). rewrite (deref_ok _ _ _ Hq), (deref_ok _ _ _ Hp).
      cbn [res_bind]. simpl in Hok2. destruct Hok2 as (? & ? & _).
      apply Forall_cons in Hend as [? _]. simpl in *.
      rewrite GetMinSeq_window, seq_eqb_window by lia. destruct (Z.eqb_spec (Z.min a b) a); [|lia].
      eexists; split; [done|]. exists ((p, (a, n)) :: (q, (b, m)) :: l2). simpl. split_and!; try done.
      * exists (Some q). rewrite lookup_insert_eq. split; [done|]. split; [done|].
        exists nx. rewrite lookup_insert_ne by set_solver. split; [done|].
        apply seg_insert; [set_solver|done].
      * apply owned_upd; [done|]. rewrite dom_insert_L. apply elem_of_dom_2 in Hp. set_solver.
      * intros x Hx. apply lookup_insert_ne. set_solver.
  - destruct (seg_first w (frags rbm) f (l1' ++ [(pv, (c, k))]) it a) as (q & b & m & nxq & -> & Hq & ?);
      [by destruct l1'|done|done|done|].
    rewrite (deref_ok _ _ _ Hq), (deref_ok _ _ _ Hp). cbn [res_bind fseq at_off fst].
    rewrite GetMinSeq_window, seq_eqb_window by lia.
    destruct (Z.eqb_spec (Z.min a b) a); [lia|]. rewrite last_ptr_snoc.
    destruct (relink_seg w (frags rbm) (Some q) (l1' ++ [(pv, (c, k))]) it (Some p) Hnd1 Hl1)
      as (fs1 & f1 & Hrel & Hs1 & Hfr & Hdom).
    rewrite last_ptr_snoc in Hrel. simpl in Hrel. unfold deref.
    destruct (frags rbm !! pv) as [cp|] eqn:Hpv; [|done]. simpl in Hrel |- *. injection Hrel as <- <-.
    rewrite ivs_app in Hpre, Hok1. apply Forall_app in Hpre as [_ [Hck _]%Forall_cons].
    apply ivs_ok_app in Hok1 as (_ & (Hc & _) & _). simpl in Hck, Hc.
    apply seg_app in Hl1 as (md & _ & (-> & nx & Hpv' & _)). simplify_eq. cbn [fseq flen at_off fst snd].
    rewrite seq_at_add, GetMinSeq_window, seq_eqb_window by lia.
    destruct (Z.eqb_spec (Z.min a (c + k)) (c + k)); [|lia]. simpl.
    eexists; split; [done|]. simpl. rewrite ptrs_app in *. simpl in *.
    exists ((l1' ++ [(pv, (c, k))]) ++ (p, (a, n)) :: l2). split_and!; try done; simpl.
    + apply seg_app. exists (Some p). split; [apply seg_insert; [rewrite ptrs_app; set_solver|done]|].
      simpl. split; [done|]. exists it. rewrite lookup_insert_eq. split; [done|].
      apply seg_insert; [set_solver|]. apply seg_insert; [|done].
      intros Hx. apply (Hd pv); [|done]. set_solver.
    + by rewrite ivs_app.
    + apply owned_upd; [eapply owned_perm; [|exact Hown]; by rewrite !ptrs_app|]. rewrite dom_insert_L, Hdom. apply elem_of_dom_2 in Hp. set_solver.
    + intros x Hx. rewrite lookup_insert_ne by set_solver. apply Hfr. set_solver.
Qed.

(** The loop and the linking together insert the interval. *)
Lemma put_fragment w rbm f l p a n fuel rest :
  seg w (frags rbm) f l None -> (length l <= fuel)%nat ->
  frags rbm !! p = Some (at_off w (a, n) None) -> owned rbm (p :: ptrs l ++ rest) ->
  0 <= a -> 0 < n -> a + n + 1 < half -> ivs_ok 0 (ivs l) -> ivs_end (half - 2) (ivs l) ->
  exists v v', merge_loop fuel (seq_at w a) n (mkPut rbm f p f None None false) = Ok v /\
    link_new (seq_at w a) v = Ok v' /\
    put_result w rbm (p :: ptrs l) rest (insert_iv a n (ivs l)) (v_rbm v') (v_fctx v').
Proof.
  intros Hl Hfuel Hp Ho ? ? ? Hok Hend.
  destruct (merge_loop_fresh w l fuel rbm f [] p a n f None rest)
    as (v & Hv & [[Hm Hres]|(l1 & l2 & it & pp & -> & El & Hs1 & Hs2 & Hpre & Hok2)]); try done.
  - exists v, v. split_and!; [done| |done]. unfold link_new. by rewrite Hm.
  - simpl in El. subst l. rewrite ivs_app in *. apply ivs_ok_app in Hok as (? & _ & _). apply Forall_app in Hend as [_ ?].
    destruct (link_new_ok w rbm f l1 l2 p a n it pp rest) as (v' & ? & Hres); try done.
    rewrite ivs_app in Hres. by eexists _, v'.
Qed.

(** ** The buffer and its interval list *)

Definition max_size : Z := 1073741824.

Definition rb_shape (b : tcp_ring_buffer) : Prop :=
  0 < size b < max_size /\ zlen (data b) = size b /\
  head b = head_offset b /\ 0 <= head_offset b /\ 0 <= last_len b /\
  tail_offset b = head_offset b + last_len b /\ tail_offset b <= size b /\
  0 <= head_seq b < 4294967296 /\ 0 <= cum_len b.

Definition rb_inv (rbm : rb_manager) (b : tcp_ring_buffer) l : Prop :=
  rb_shape b /\ merged_len b = prefix_len (ivs l) /\
  seg (head_seq b) (frags rbm) (fctx b) l None /\
  ivs_ok 0 (ivs l) /\ ivs_end (last_len b) (ivs l).

(** The byte [x] positions after the head. *)
Definition rb_byte (b : tcp_ring_buffer) (x : Z) : option Z := znth (data b) (head_offset b + x).

Lemma put_room_ok b end_off :
  rb_shape b -> 0 <= end_off <= size b ->
  exists b1, put_room b end_off = Ok b1 /\ rb_shape b1 /\
    head_offset b1 + end_off <= size b /\
    size b1 = size b /\ last_len b1 = last_len b /\ head_seq b1 = head_seq b /\ init_seq b1 = init_seq b /\
    merged_len b1 = merged_len b /\ cum_len b1 = cum_len b /\ fctx b1 = fctx b /\
    forall x, 0 <= x < last_len b -> rb_byte b1 x = rb_byte b x.
Proof.
  unfold rb_shape, max_size. intros (? & ? & Hh & ? & ? & Ht & ? & ? & ?) ?.
  unfold put_room. rewrite !u32_small by lia.
  destruct (Z.leb_spec (size b) (head_offset b + end_off)).
  - destruct (mem_move_is_Some (data b) 0 (head b) (last_len b)) as [d Hd]; try lia.
    rewrite Hd. apply mem_move_Some in Hd as (_ & _ & _ & _ & _ & Hlen & Hd). simpl.
    eexists; split; [done|]. unfold rb_byte; simpl.
    split_and!; try done; try lia. intros x Hx. rewrite Hd, Hh.
    rewrite (proj2 (Z.leb_le _ _)), (proj2 (Z.ltb_lt _ _)) by lia. simpl. f_equal; lia.
  - eexists; split; [done|]. split_and!; try done; lia.
Qed.

Lemma put_copy_ok b payload putx end_off :
  rb_shape b -> 0 <= putx -> end_off = putx + zlen payload -> head_offset b + end_off <= size b ->
  exists b1, put_copy b payload putx end_off = Ok b1 /\ rb_shape b1 /\
    last_len b1 = Z.max (last_len b) end_off /\
    size b1 = size b /\ head_seq b1 = head_seq b /\ init_seq b1 = init_seq b /\
    merged_len b1 = merged_len b /\ cum_len b1 = cum_len b /\ fctx b1 = fctx b /\
    forall x, 0 <= x -> rb_byte b1 x =
      if (putx <=? x) && (x <? putx + zlen payload) then znth payload (x - putx) else rb_byte b x.
Proof.
  unfold rb_shape, max_size. intros (? & ? & Hh & ? & ? & Ht & ? & ? & ?) ? He ?.
  pose proof (zlen_nonneg payload). unfold put_copy. rewrite Hh.
  destruct (mem_write_is_Some (data b) (head_offset b + putx) payload) as [d Hd]; try lia.
  rewrite Hd. apply mem_write_Some in Hd as (_ & _ & Hlen & Hd). simpl.
  rewrite (u32_small (head_offset b + end_off)) by lia.
  assert (forall x, 0 <= x -> znth d (head_offset b + x) =
    if (putx <=? x) && (x <? putx + zlen payload) then znth payload (x - putx)
    else znth (data b) (head_offset b + x)) as Hbytes.
  { intros x ?. rewrite Hd.
    destruct (Z.leb_spec putx x), (Z.leb_spec (head_offset b + putx) (head_offset b + x)),
      (Z.ltb_spec x (putx + zlen payload)), (Z.ltb_spec (head_offset b + x) (head_offset b + putx + zlen payload));
      simpl; try lia; try done. f_equal; lia. }
  destruct (Z.ltb_spec (tail_offset b) (head_offset b + end_off)); simpl.
  - rewrite s32_small by lia. eexists; split; [done|]. unfold rb_byte; simpl.
    split_and!; try done; lia.
  - rewrite s32_small by lia. eexists; split; [done|]. unfold rb_byte; simpl.
    split_and!; try done; lia.
Qed.

(** At distance exactly [half] the answer depends on the wrap-around. *)
Lemma GetMinSeq_head w a :
  0 <= w < 4294967296 -> 0 <= a < 4294967296 -> a <> half ->
  (GetMinSeq w (seq_at w a) =? w) = (a <? half).
Proof.
  intros. unfold half in *. destruct (Z.ltb_spec a 2147483648).
  - rewrite <- (u32_small w) at 1 by lia.
    replace (u32 w) with (seq_at w 0) by (unfold seq_at; by rewrite Z.add_0_r).
    rewrite GetMinSeq_window, Z.min_l by lia. unfold seq_at.
    rewrite Z.add_0_r, u32_small by lia. apply Z.eqb_refl.
  - apply Z.eqb_neq. unfold GetMinSeq. change (MAXSEQ / 2) with 2147483647.
    unfold seq_at. assert (u32 (w + a) = w + a \/ u32 (w + a) = w + a - 4294967296 /\ 4294967296 <= w + a)
      as [E|[E ?]] by wrap_lia; rewrite E.
    + replace (w + a - w) with a by lia. rewrite u32_small by lia. bdestruct_all; lia.
    + replace (w - (w + a - 4294967296)) with (4294967296 - a) by lia.
      rewrite (u32_small (4294967296 - a)) by lia. bdestruct_all; lia.
Qed.

Section put.
Context (rbm : rb_manager) (b : tcp_ring_buffer) (l : list node) (rest : list ptr).
Context (payload : list Z) (a : Z).
Hypothesis (Hinv : rb_inv rbm b l) (Hown : owned rbm (ptrs l ++ rest)).
Hypothesis (Ha : 0 <= a < 4294967296) (Hlen : 0 < zlen payload).

Lemma RBPut_behind : half < a -> RBPut rbm b payload (zlen payload) (seq_at (head_seq b) a) = Ok (0, rbm, b).
Proof.
  intros. destruct Hinv as ((_&_&_&_&_&_&_&?&_)&_). unfold RBPut.
  destruct (Z.leb_spec (zlen payload) 0); [lia|]. rewrite GetMinSeq_head by lia.
  by destruct (Z.ltb_spec a half); [lia|].
Qed.

Lemma put_offsets :
  a + zlen payload < half ->
  s32 (seq_at (head_seq b) a - head_seq b) = a /\
  s32 (s32 (seq_at (head_seq b) a - head_seq b) + zlen payload) = a + zlen payload.
Proof.
  intros. pose proof half_eq. assert (s32 (seq_at (head_seq b) a - head_seq b) = a) as E.
  { rewrite <- (s32_small a) at 2 by lia. apply s32_eq. unfold seq_at.
    autorewrite with wrap. f_equal; lia. }
  rewrite E, s32_small by lia. done.
Qed.

Lemma RBPut_beyond :
  a + zlen payload < half -> size b < a + zlen payload ->
  RBPut rbm b payload (zlen payload) (seq_at (head_seq b) a) = Ok (-2, rbm, b).
Proof.
  intros Hh ?. destruct Hinv as ((_&_&_&_&_&_&_&?&_)&_). unfold RBPut.
  destruct (Z.leb_spec (zlen payload) 0); [lia|]. rewrite GetMinSeq_head by lia.
  destruct (Z.ltb_spec a half); [|lia]. simpl. rewrite (proj2 (put_offsets Hh)).
  by destruct (Z.ltb_spec (size b) (a + zlen payload)); [|lia].
Qed.

Lemma seg_length_size w fs f l2 tl : NoDup (ptrs l2) -> seg w fs f l2 tl -> (length l2 <= base.size fs)%nat.
Proof.
  intros Hnd Hs. rewrite <- size_dom.
  replace (length l2) with (base.size (list_to_set (ptrs l2) : gset ptr)).
  - apply subseteq_size. intros p. rewrite elem_of_list_to_set. clear Hnd. revert f Hs.
    induction l2 as [|[q i] l2 IH]; intros f; simpl; [intros _ []%elem_of_nil|].
    intros (_ & nx & Hq & Hs). unfold ptrs; simpl. rewrite elem_of_cons.
    intros [->|?]; [by apply elem_of_dom_2 in Hq|]. by eapply IH.
  - rewrite size_list_to_set by done. unfold ptrs. apply length_fmap.
Qed.

(** Copying the payload. *)
Lemma put_bytes :
  a + zlen payload <= size b ->
  exists b1 b4, put_room b (a + zlen payload) = Ok b1 /\
    put_copy b1 payload a (a + zlen payload) = Ok b4 /\ rb_shape b4 /\
    last_len b4 = Z.max (last_len b) (a + zlen payload) /\
    size b4 = size b /\ head_seq b4 = head_seq b /\ init_seq b4 = init_seq b /\
    merged_len b4 = merged_len b /\ fctx b4 = fctx b /\
    forall x, 0 <= x -> x < last_len b \/ a <= x < a + zlen payload -> rb_byte b4 x =
      if (a <=? x) && (x <? a + zlen payload) then znth payload (x - a) else rb_byte b x.
Proof using All.
  intros Hfit. pose proof (zlen_nonneg payload). destruct Hinv as (Hsh & _).
  destruct (put_room_ok b (a + zlen payload) Hsh)
    as (b1 & Hr & Hsh1 & Hfit1 & Hsz1 & Hll1 & Hhs1 & Hi1 & Hm1 & Hc1 & Hf1 & Hby1); [lia|].
  destruct (put_copy_ok b1 payload a (a + zlen payload) Hsh1)
    as (b4 & Hc & Hsh4 & Hll4 & Hsz4 & Hhs4 & Hi4 & Hm4 & Hc4 & Hf4 & Hby4); [lia|done|lia|].
  exists b1, b4. split_and!; try done; try congruence.
  intros x ? Hx. rewrite Hby4 by done.
  destruct (Z.leb_spec a x), (Z.ltb_spec x (a + zlen payload)); simpl; try done; apply Hby1; lia.
Qed.

(** Recording the segment in the fragment list. *)
Lemma put_frags :
  frag_available rbm -> a + zlen payload <= size b ->
  exists p rbm1 v v' l',
    AllocateFragmentContext rbm = Ok (p, rbm1) /\
    (let rbm2 := rbm1 <| frags := <[p := mkFrag (seq_at (head_seq b) a) (u31 (zlen payload)) false None]> (frags rbm1) |> in
     merge_loop (base.size (frags rbm2)) (seq_at (head_seq b) a) (zlen payload)
       (mkPut rbm2 (fctx b) p (fctx b) None None false) = Ok v) /\
    link_new (seq_at (head_seq b) a) v = Ok v' /\
    seg (head_seq b) (frags (v_rbm v')) (v_fctx v') l' None /\
    ivs l' = insert_iv a (zlen payload) (ivs l) /\ owned (v_rbm v') (ptrs l' ++ rest) /\
    mgr_frame rbm (v_rbm v') /\ (forall q, q ∈ rest -> frags (v_rbm v') !! q = frags rbm !! q).
Proof using All.
  intros Hav Hfit. pose proof half_eq. destruct Hinv as (Hsh & _ & Hseg & Hok & Hend).
  destruct Hsh as (Hsz&_&_&?&?&?&?&?&_). unfold max_size in Hsz.
  destruct (AllocateFragmentContext_ok rbm _ Hown Hav) as (p & rbm1 & Halloc & Ho1 & Hfr1 & Hmf1).
  set (rbm2 := rbm1 <| frags := <[p := mkFrag (seq_at (head_seq b) a) (u31 (zlen payload)) false None]> (frags rbm1) |>).
  assert (frags rbm2 = <[p := at_off (head_seq b) (a, zlen payload) None]> (frags rbm)) as Hfr2.
  { unfold rbm2; simpl. rewrite Hfr1, insert_insert_eq. unfold at_off; simpl. do 2 f_equal.
    unfold u31. apply Z.mod_small. lia. }
  assert (owned rbm2 (p :: ptrs l ++ rest)) as Ho2.
  { apply owned_upd; [done|]. rewrite Hfr1, !dom_insert_L. set_solver. }
  pose proof (owned_NoDup _ _ Ho2) as [Hpn Hnd]%NoDup_cons.
  assert (seg (head_seq b) (frags rbm2) (fctx b) l None) as Hseg2.
  { rewrite Hfr2. apply seg_insert; [set_solver|done]. }
  pose proof Hnd as (Hndl & Hd & _)%NoDup_app.
  destruct (put_fragment (head_seq b) rbm2 (fctx b) l p a (zlen payload) (base.size (frags rbm2)) rest)
    as (v & v' & Hv & Hv' & l' & Hs' & Hiv & Ho' & Hmf' & Hfr'); try done; try lia.
  { by eapply seg_length_size. }
  { by rewrite Hfr2, lookup_insert_eq. }
  { eapply Forall_impl; [exact Hend|]. intros [c m]. lia. }
  exists p, rbm1, v, v', l'. split_and!; try done; [by etrans|].
  intros q Hq. rewrite Hfr', Hfr2, lookup_insert_ne; [done|set_solver|]. set_solver.
Qed.

(** The contiguous length is the length of the first fragment if it starts
    at the head, and otherwise did not change. *)
Lemma put_prefix n' :
  0 <= a -> ivs_ok 0 (ivs l) ->
  prefix_len (insert_iv a (zlen payload) (ivs l)) =
    match insert_iv a (zlen payload) (ivs l) with
    | (c, m) :: _ => if c =? 0 then m else n'
    | [] => n'
    end \/
  prefix_len (insert_iv a (zlen payload) (ivs l)) = 0 /\ prefix_len (ivs l) = 0.
Proof using Hlen.
  generalize (ivs l) as li. intros li Ha0 Hok.
  destruct (insert_iv a (zlen payload) li) as [|[c m] l'] eqn:E.
  - by apply insert_iv_nonnil in E.
  - simpl. destruct (Z.eqb_spec c 0); [by left|right]. split; [done|].
    destruct li as [|[c0 m0] il]; [done|]. simpl. destruct (Z.eqb_spec c0 0) as [->|]; [|done].
    exfalso. destruct (insert_iv_first a (zlen payload) m0 il) as (n1 & il' & Ei); [exact Ha0|done|done|].
    pose proof (eq_trans (eq_sym Ei) E) as [=]. done.
Qed.

Lemma head_seq_first w c :
  0 <= w < 4294967296 -> 0 <= c < half -> (w =? seq_at w c) = (c =? 0).
Proof.
  intros. pose proof half_eq. replace w with (seq_at w 0) at 1
    by (unfold seq_at; rewrite Z.add_0_r; apply u32_small; lia).
  rewrite seq_eqb_window by lia. apply Z.eqb_sym.
Qed.

Lemma RBPut_ok :
  frag_available rbm -> a + zlen payload <= size b ->
  exists rbm' b' l',
    RBPut rbm b payload (zlen payload) (seq_at (head_seq b) a) = Ok (zlen payload, rbm', b') /\
    rb_inv rbm' b' l' /\ owned rbm' (ptrs l' ++ rest) /\ mgr_frame rbm rbm' /\
    ivs l' = insert_iv a (zlen payload) (ivs l) /\
    head_seq b' = head_seq b /\ size b' = size b /\ init_seq b' = init_seq b /\
    (forall x, 0 <= x -> covers (ivs l') x -> rb_byte b' x =
       if (a <=? x) && (x <? a + zlen payload) then znth payload (x - a) else rb_byte b x) /\
    (forall q, q ∈ rest -> frags rbm' !! q = frags rbm !! q).
Proof using All.
  intros Hav Hfit. pose proof half_eq.
  destruct (put_bytes Hfit) as (b1 & b4 & Hr & Hc & Hsh4 & Hll4 & Hsz4 & Hhs4 & Hi4 & Hm4 & Hf4 & Hby4).
  destruct (put_frags Hav Hfit) as (p & rbm1 & v & v' & l' & Hal & Hv & Hv' & Hs' & Hiv & Ho' & Hmf & Hrest).
  pose proof Hinv as (Hsh & Hmrg & _ & Hok & Hend). pose proof Hsh as (Hsz&_&_&_&_&_&_&?&_).
  unfold max_size in Hsz. pose proof Hsh4 as (_&_&_&?&?&?&?&?&?).
  unfold RBPut. destruct (Z.leb_spec (zlen payload) 0); [lia|]. rewrite GetMinSeq_head by lia.
  destruct (Z.ltb_spec a half); [|lia]. destruct (put_offsets ltac:(lia)) as [-> E]. rewrite E.
  cbn [negb]. destruct (Z.ltb_spec (size b) (a + zlen payload)); [lia|].
  rewrite Hr. cbn [res_bind]. rewrite Hc. cbn [res_bind]. rewrite Hal. cbn [res_bind].
  rewrite Hf4, Hv. cbn [res_bind]. rewrite Hv'. cbn [res_bind].
  assert (ivs_ok 0 (ivs l')) as Hok' by (rewrite Hiv; apply insert_iv_ok; done || lia).
  assert (ivs_end (last_len b4) (ivs l')) as Hend'.
  { rewrite Hiv. apply insert_iv_end; [done|lia|]. eapply Forall_impl; [exact Hend|]. intros [c m] ?. lia. }
  assert (forall x, 0 <= x -> covers (ivs l') x -> rb_byte b4 x =
    if (a <=? x) && (x <? a + zlen payload) then znth payload (x - a) else rb_byte b x) as Hbytes.
  { intros x ? Hx. apply Hby4; [done|]. rewrite Hiv, insert_iv_covers in Hx by eauto.
    destruct Hx as [?|(c & m & Hcm & ?)]; [lia|].
    apply (proj1 (Forall_forall _ _) Hend) in Hcm. simpl in Hcm. lia. }
  pose proof (put_prefix (merged_len b4) ltac:(lia) Hok) as Hpre. rewrite <- Hiv in Hpre.
  destruct l' as [|[q [c m]] l']; [exfalso; by apply (insert_iv_nonnil a (zlen payload) (ivs l))|].
  pose proof Hs' as (Hvf & nx & Hq & Hnx). rewrite Hvf, (deref_ok _ _ _ Hq). cbn [res_bind].
  simpl in Hok'. pose proof Hend' as [Hcm _]%Forall_cons. simpl in Hcm.
  cbn [fseq flen at_off fst snd]. change (head_seq (b4 <| fctx := Some q |>)) with (head_seq b4).
  rewrite Hhs4, head_seq_first, s32_small by lia. simpl in Hpre.
  destruct (Z.eqb_spec c 0) as [->|Hc0]; eexists _, _, ((q, (_, m)) :: l');
    (split; [done|]); split_and!; try done; (split_and!; simpl; try done; try congruence).
  - destruct Hsh4 as (?&?&?&?&?&?&?&?&?). split_and!; simpl; try done; try lia. apply u64_nonneg.
  - split; [done|]. rewrite Hhs4. exists nx. split; [exact Hq|exact Hnx].
  - destruct (Z.eqb_spec c 0); [done|]. destruct Hpre as [?|[? ?]]; congruence.
  - split; [done|]. rewrite Hhs4. exists nx. split; [exact Hq|exact Hnx].
Qed.
End put.

(** ** Removing a prefix *)

Definition shift_node (d : Z) : node -> node := fun '(p, (a, n)) => (p, (a - d, n)).

Lemma ptrs_shift d l : ptrs (shift_node d <$> l) = ptrs l.
Proof. unfold ptrs. rewrite <- list_fmap_compose. apply list_fmap_ext. by intros ? [? [? ?]] _. Qed.

Lemma ivs_shift d l : ivs (shift_node d <$> l) = shift_iv d (ivs l).
Proof.
  unfold ivs, shift_iv. rewrite <- !list_fmap_compose. apply list_fmap_ext. by intros ? [? [? ?]] _.
Qed.

Lemma at_off_shift w d a n nx : at_off (u32 (w + d)) (a - d, n) nx = at_off w (a, n) nx.
Proof. unfold at_off; simpl. rewrite seq_at_shift. do 2 f_equal. lia. Qed.

(** The same list seen from a later head. *)
Lemma seg_shift w d fs fp l tl : seg w fs fp l tl -> seg (u32 (w + d)) fs fp (shift_node d <$> l) tl.
Proof.
  revert fp. induction l as [|[p [a n]] l IH]; intros fp; simpl; [done|].
  intros (-> & nx & Hp & Hl). split; [done|]. exists nx. rewrite at_off_shift. eauto.
Qed.

(** A fragment given back to a free queue stays accounted for. *)
Lemma owned_enqueue rbm p use opt :
  owned rbm (p :: use) ->
  exists rbm', (match opt with
    | AT_APP => let! (_, q) := RBFragEnqueue (free_fragq rbm) p in Ok (rbm <| free_fragq := q |>)
    | AT_MTCP => let! (_, q) := RBFragEnqueue (free_fragq_int rbm) p in Ok (rbm <| free_fragq_int := q |>)
    end) = Ok rbm' /\ owned rbm' use /\ frags rbm' = frags rbm /\ mgr_frame rbm rbm'.
Proof.
  intros (free & q1 & q2 & used & Hr & H1 & H2 & Hu & ? & ? & Hd). pose proof Hr as (_&_&_&Ht&_).
  rewrite (zlen_Permutation _ _ Hu) in Ht. rewrite !zlen_app, zlen_cons in Ht.
  pose proof (zlen_nonneg free). pose proof (zlen_nonneg q1). pose proof (zlen_nonneg q2).
  pose proof (zlen_nonneg use).
  assert (zlen q1 < _capacity (free_fragq rbm) /\ zlen q2 < _capacity (free_fragq_int rbm)) as [? ?]
    by (unfold ptr in *; lia).
  unfold RBFragEnqueue. destruct opt.
  - destruct (Enqueue_ok (free_fragq rbm) q1 p H1) as (q & -> & Hq & Hcap); [done|].
    eexists. split_and!; [done| |done|by split_and!].
    exists free, (q1 ++ [p]), q2, used. split_and!; simpl; try done; try lia.
    rewrite Hu, (Permutation_app_comm q1 [p]). simpl. by rewrite <- Permutation_middle.
  - destruct (Enqueue_ok (free_fragq_int rbm) q2 p H2) as (q & -> & Hq & Hcap); [done|].
    eexists. split_and!; [done| |done|by split_and!].
    exists free, q1, (q2 ++ [p]), used. split_and!; simpl; try done; try lia.
    rewrite Hu. simpl. rewrite (Permutation_app_comm q2 [p]). simpl. by rewrite <- !Permutation_middle.
Qed.

Lemma prefix_first l d :
  0 < d <= prefix_len (ivs l) -> exists p n l2, l = (p, (0, n)) :: l2 /\ d <= n.
Proof.
  destruct l as [|[p [a n]] l]; simpl; [lia|]. destruct (Z.eqb_spec a 0) as [->|]; [|lia].
  intros. exists p, n, l. split; [done|lia].
Qed.

Section remove.
Context (rbm : rb_manager) (b : tcp_ring_buffer) (l : list node) (rest : list ptr) (opt : rb_caller).
Hypothesis (Hinv : rb_inv rbm b l) (Hown : owned rbm (ptrs l ++ rest)).

Lemma merged_len_range : 0 <= merged_len b <= last_len b.
Proof using Hinv. clear Hown.
  destruct Hinv as (Hsh & -> & _ & Hok & Hend). destruct Hsh as (_&_&_&_&?&_).
  destruct (prefix_len_spec _ Hok) as (? & _). destruct l as [|[p [a n]] l2]; simpl in *; [lia|].
  apply Forall_cons in Hend as [? _]. destruct (a =? 0) eqn:?; lia.
Qed.

(** The fields that move with the head. *)
Definition advance (len : Z) : tcp_ring_buffer :=
  b <| head_offset := head_offset b + len |> <| head := head_offset b + len |>
    <| head_seq := u32 (head_seq b + len) |> <| merged_len := merged_len b - len |>
    <| last_len := last_len b - len |>.

Lemma rb_shape_advance len f :
  0 <= len <= merged_len b -> rb_shape (advance len <| fctx := f |>).
Proof using Hinv. clear Hown.
  intros. pose proof merged_len_range. destruct Hinv as ((?&?&?&?&?&?&?&?&?)&_).
  split_and!; simpl; try done; try lia; apply u32_range.
Qed.

Lemma RBRemove_none len0 : Z.min (merged_len b) len0 = 0 -> RBRemove rbm b len0 opt = Ok (0, rbm, b).
Proof using Hinv. clear Hown.
  intros ?. pose proof merged_len_range. destruct Hinv as (((? & Hsz)&_&_&?&?&?&?&_)&_). unfold max_size in Hsz.
  unfold RBRemove. unfold u64. rewrite Z.mod_small by lia.
  destruct (Z.ltb_spec (merged_len b) len0).
  - by destruct (Z.eqb_spec (merged_len b) 0); [|lia].
  - by destruct (Z.eqb_spec len0 0); [|lia].
Qed.

(** What holds of the fragments and the buffer after [len] bytes were removed. *)
Definition removed (len : Z) (rbm' : rb_manager) (b' : tcp_ring_buffer) : Prop :=
  exists l', rb_inv rbm' b' l' /\ owned rbm' (ptrs l' ++ rest) /\ mgr_frame rbm rbm' /\
    ivs l' = (if len =? 0 then ivs l else drop_iv len (ivs l)) /\
    head_seq b' = u32 (head_seq b + len) /\ size b' = size b /\ init_seq b' = init_seq b /\
    cum_len b' = cum_len b /\ merged_len b' = merged_len b - len /\
    (forall x, rb_byte b' x = rb_byte b (x + len)) /\
    (forall q, q ∈ rest -> frags rbm' !! q = frags rbm !! q).

(** The whole first fragment: it leaves the list for a free queue. *)
Lemma remove_whole p n l2 :
  l = (p, (0, n)) :: l2 ->
  exists nx rbm', frags rbm !! p = Some (at_off (head_seq b) (0, n) nx) /\
    (match opt with
     | AT_APP => let! (_, q) := RBFragEnqueue (free_fragq rbm) p in Ok (rbm <| free_fragq := q |>)
     | AT_MTCP => let! (_, q) := RBFragEnqueue (free_fragq_int rbm) p in Ok (rbm <| free_fragq_int := q |>)
     end) = Ok rbm' /\ removed n rbm' (advance n <| fctx := nx |>).
Proof using All.
  intros El. pose proof Hinv as (Hsh & Hm & Hseg & Hok & Hend).
  pose proof Hown as Ho0. unfold removed. rewrite El in Hm, Hseg, Hok, Hend, Ho0 |- *.
  destruct Hseg as (Hf & nx & Hp & Hseg). simpl in Hm, Hok. destruct Hok as (_ & ? & Hok).
  apply Forall_cons in Hend as [Hn0 Hend]. simpl in Hn0.
  destruct (owned_enqueue rbm p (ptrs l2 ++ rest) opt Ho0) as (rbm' & Hq & Ho & Hfr & Hmf).
  exists nx, rbm'. split_and!; [done|done|]. exists (shift_node n <$> l2).
  rewrite ptrs_shift, ivs_shift. split_and!; try done.
  - assert (ivs_ok 0 (shift_iv n (ivs l2))) by (eapply ivs_ok_weaken; [|apply shift_iv_ok, Hok]; lia).
    split_and!; simpl; rewrite ?ivs_shift; try done.
    + apply rb_shape_advance. lia.
    + rewrite Hm. destruct l2 as [|[q [c m]] l2]; simpl in *; [lia|].
      destruct (Z.eqb_spec (c - n) 0); lia.
    + rewrite Hfr. by apply seg_shift.
    + by apply shift_iv_end.
  - destruct (Z.eqb_spec n 0); [lia|]. simpl. by rewrite Z.eqb_refl.
  - intros x. unfold rb_byte; simpl. f_equal; lia.
  - intros q _. by rewrite Hfr.
Qed.

(** Part of the first fragment: it is trimmed in place. *)
Lemma remove_part p n l2 len :
  l = (p, (0, n)) :: l2 -> 0 < len < n ->
  exists nx, frags rbm !! p = Some (at_off (head_seq b) (0, n) nx) /\
    removed len (rbm <| frags := <[p := at_off (head_seq b) (len, n - len) nx]> (frags rbm) |>) (advance len).
Proof using All.
  intros El ?. pose proof Hinv as (Hsh & Hm & Hseg & Hok & Hend).
  pose proof Hown as Ho0. unfold removed. rewrite El in Hm, Hseg, Hok, Hend, Ho0 |- *.
  destruct Hseg as (Hf & nx & Hp & Hseg). simpl in Hm, Hok. destruct Hok as (_ & ? & Hok).
  apply Forall_cons in Hend as [Hn0 Hend]. simpl in Hn0. exists nx. split; [done|].
  pose proof (owned_NoDup _ _ Ho0) as [Hpn _]%NoDup_cons.
  exists ((p, (0, n - len)) :: (shift_node len <$> l2)). simpl. rewrite ptrs_shift, ivs_shift.
  split_and!; try done.
  - split_and!; simpl; rewrite ?ivs_shift; try done; try lia.
    + apply (rb_shape_advance len (fctx b)). lia.
    + split; [done|]. exists nx. rewrite lookup_insert_eq. split.
      * rewrite <- (at_off_shift _ len). do 2 f_equal. f_equal. lia.
      * apply seg_shift. apply seg_insert; [set_solver|done].
    + split_and!; [lia|lia|]. eapply ivs_ok_weaken; [|apply shift_iv_ok, Hok]; lia.
    + constructor; [simpl; lia|by apply shift_iv_end].
  - apply owned_upd; [done|]. rewrite dom_insert_L. apply elem_of_dom_2 in Hp. set_solver.
  - destruct (Z.eqb_spec len 0); [lia|]. simpl. destruct (Z.eqb_spec n len); [lia|done].
  - intros x. unfold rb_byte; simpl. f_equal; lia.
  - intros q Hq. apply lookup_insert_ne. set_solver.
Qed.

(** [RBRemove] removes the requested bytes, at most the contiguous ones. *)
Lemma RBRemove_ok len0 :
  0 <= len0 ->
  exists rbm' b', RBRemove rbm b len0 opt = Ok (Z.min (merged_len b) len0, rbm', b') /\
    removed (Z.min (merged_len b) len0) rbm' b'.
Proof using All.
  intros ?. pose proof merged_len_range. pose proof Hinv as (Hsh & Hm & Hseg & _).
  pose proof Hsh as ((? & Hsz)&_&?&?&?&?&?&?&?). unfold max_size in Hsz.
  destruct (Z.eq_dec (Z.min (merged_len b) len0) 0) as [E|E].
  - rewrite RBRemove_none by done. rewrite E. eexists _, _. split; [done|].
    exists l. split_and!; try done; try lia.
    + rewrite Z.add_0_r, u32_small; lia.
    + intros x. by rewrite Z.add_0_r.
  - unfold RBRemove. unfold u64. rewrite (Z.mod_small (merged_len b)) by lia.
    assert ((if merged_len b <? len0 then merged_len b else len0) = Z.min (merged_len b) len0) as ->
      by (destruct (Z.ltb_spec (merged_len b) len0); lia).
    set (len := Z.min (merged_len b) len0) in *. destruct (Z.eqb_spec len 0) as [|Hl0]; [done|].
    destruct (prefix_first l len) as (p & n & l2 & El & ?); [lia|].
    assert (merged_len b = n) by (rewrite Hm, El; done).
    assert (fctx b = Some p) as Hf by (rewrite El in Hseg; apply Hseg). rewrite Hf.
    rewrite (u32_small (head_offset b + len)), !s32_small by lia. fold (advance len).
    destruct (Z.eq_dec len n) as [En|En].
    + destruct (remove_whole p n l2 El) as (nx & rbm' & Hp & Hq & Hrem).
      rewrite (deref_ok _ _ _ Hp). cbn [res_bind flen at_off snd fnext].
      rewrite En, Z.eqb_refl. exists rbm'. rewrite <- En. eexists. split; [|rewrite En; exact Hrem].
      rewrite En. destruct opt; (destruct (RBFragEnqueue _ _) as [[? ?]|]; [|done]);
        simpl in *; injection Hq as <-; done.
    + destruct (remove_part p n l2 len El) as (nx & Hp & Hrem); [lia|].
      rewrite (deref_ok _ _ _ Hp). cbn [res_bind flen at_off snd fst fnext fseq is_calloc].
      destruct (Z.eqb_spec len n); [done|]. destruct (Z.ltb_spec len n); [|lia].
      rewrite seq_at_add. unfold u31. rewrite Z.mod_small by lia. by eexists _, _.
Qed.
End remove.

(** ** Freeing a buffer *)

Lemma free_list_ok w l : forall fuel rbm f rest,
  (length l <= fuel)%nat -> seg w (frags rbm) f l None -> owned rbm (ptrs l ++ rest) ->
  exists rbm', free_list fuel rbm f = Ok rbm' /\ owned rbm' rest /\ mgr_frame rbm rbm' /\
    (forall q, ~ q ∈ ptrs l -> frags rbm' !! q = frags rbm !! q).
Proof.
  induction l as [|[p i] l IH]; intros fuel rbm f rest Hfuel.
  - simpl. intros -> Ho. exists rbm. by destruct fuel.
  - intros (-> & nx & Hp & Hl) Ho. destruct fuel as [|fuel]; simpl in Hfuel; [lia|]. cbn [free_list].
    rewrite (deref_ok _ _ _ Hp). cbn [res_bind].
    destruct (FreeFragmentContextSingle_ok rbm p _ _ Ho Hp) as (rbm1 & -> & Ho1 & Hf1 & Hm1); [done|].
    cbn [res_bind]. pose proof (owned_NoDup _ _ Ho) as [Hn _]%NoDup_cons.
    destruct (IH fuel rbm1 nx rest) as (rbm' & Hr & ? & ? & Hfr); [lia| |done|].
    { rewrite Hf1. apply seg_delete; [set_solver|done]. }
    exists rbm'. split_and!; [done|done|by etrans|]. intros q Hq. simpl in Hq.
    rewrite Hfr, Hf1, lookup_delete_ne by set_solver. done.
Qed.

(** All fragments of the buffer go back to the pool, and its chunk to the
    buffer pool; the fragments of other buffers are untouched. *)
Lemma RBFree_ok rbm b l rest chunk free used1 used2 :
  rb_inv rbm b l -> owned rbm (ptrs l ++ rest) ->
  pool_rep (mp rbm) free (used1 ++ chunk :: used2) ->
  exists rbm', RBFree rbm chunk b = Ok rbm' /\ owned rbm' rest /\
    pool_rep (mp rbm') (chunk :: free) (used1 ++ used2) /\
    cur_num rbm' = u32 (cur_num rbm - 1) /\
    (forall q, q ∈ rest -> frags rbm' !! q = frags rbm !! q).
Proof.
  intros (_ & _ & Hseg & _) Ho Hpool. pose proof (owned_NoDup _ _ Ho) as (Hnd & Hd & _)%NoDup_app.
  assert (exists rbm1, match fctx b with
      | Some f => FreeFragmentContext rbm (Some f) | None => Ok rbm end = Ok rbm1 /\
    owned rbm1 rest /\ mgr_frame rbm rbm1 /\
    (forall q, ~ q ∈ ptrs l -> frags rbm1 !! q = frags rbm !! q)) as (rbm1 & Hr & Ho1 & Hm & Hfr).
  { destruct l as [|[p i] l]; [by simpl in Hseg; rewrite Hseg; exists rbm|].
    pose proof Hseg as (Hf & _). rewrite Hf. unfold FreeFragmentContext. rewrite <- Hf.
    eapply free_list_ok; [|done..]. apply Nat.le_le_succ_r. by eapply seg_length_size. }
  unfold RBFree. rewrite Hr. cbn [res_bind]. destruct Hm as (_ & Hcn & _ & Hmp & _). rewrite Hmp.
  destruct (MPFreeChunk_ok _ _ _ _ _ Hpool) as (pool & -> & Hp' & _). cbn [res_bind].
  eexists; split; [done|]. split_and!; simpl; try done; [by rewrite Hcn|].
  intros q Hq. apply Hfr. intros ?. by eapply Hd.
Qed.
