(* ===== verification/Reassembly.v ===== *)
(** * Reassembly: the receive buffer against the peer's byte stream

    The peer sends a stream of bytes [S]; segments arrive in any order,
    overlapping and repeated, and the application reads in between. The
    buffer is driven through [RBPut] (as [ProcessTCPPayload] does) and
    through the copy and [RBRemove] of [CopyToUser] in [api.c]. *)

From S2P Require Import Prelude SeqNum SpscQueue MemPool Intervals RingBuffer.

(** [memcpy] from the head, without removing; [None] is the error return. *)
Definition PeekForUser_copy (b : tcp_ring_buffer) (len : Z) : res (option (list Z)) :=
  let copylen := Z.min (merged_len b) len in
  if copylen <=? 0 then Ok None
  else
    let! d := from_option_res OutOfBounds (mem_read (data b) (head b) copylen) in
    Ok (Some d).

(** [memcpy] from the head, then [RBRemove]. *)
Definition CopyToUser_copy (rbm : rb_manager) (b : tcp_ring_buffer) (len : Z)
  : res (option (list Z) * rb_manager * tcp_ring_buffer) :=
  let copylen := Z.min (merged_len b) len in
  if copylen <=? 0 then Ok (None, rbm, b)
  else
    let! d := from_option_res OutOfBounds (mem_read (data b) (head b) copylen) in
    let! (_, rbm, b) := RBRemove rbm b copylen AT_APP in
    Ok (Some d, rbm, b).

(** ** Creation *)

Lemma RBManagerCreate_ok brk0 chunksz cn :
  0 < cn < 67108864 -> 16 <= chunksz < max_size -> chunksz mod 4 = 0 -> chunksz * cn < 18446744073709551616 ->
  exists rbm, RBManagerCreate true true true true true brk0 chunksz cn = Ok (Some rbm) /\
    owned rbm [] /\ chunk_size rbm = chunksz /\ 0 < mp_free_chunks (mp rbm) /\
    0 < mp_free_chunks (frag_mp rbm) /\ exists free, pool_rep (mp rbm) free [].
Proof.
  intros ? ? Hmod ?. unfold max_size in *. unfold RBManagerCreate. cbn [negb].
  rewrite (s32_small chunksz), (s32_small cn) by lia. unfold u64. rewrite (Z.mod_small (chunksz * cn)) by nia.
  assert (chunk_count chunksz (chunksz * cn) = cn) as E1.
  { unfold chunk_count. rewrite Z.add_comm, Z.mul_comm, Z.div_add, Z.div_small by lia. lia. }
  assert (chunk_count 16 (16 * cn) = cn) as E2.
  { unfold chunk_count. rewrite Z.add_comm, Z.mul_comm, Z.div_add, Z.div_small by lia. lia. }
  destruct (MPCreate true chunksz (chunksz * cn)) as [[p1|]|] eqn:Hp1;
    [|exfalso; revert Hp1; unfold MPCreate, sizeof_mem_chunk; rewrite Hmod; bdestruct_all; simpl; (done || lia)..].
  destruct (MPCreate_rep chunksz (chunksz * cn) p1) as (free1 & Hr1 & Hf1); [nia|lia|done|].
  cbn [res_bind]. change sizeof_fragment_ctx with 16.
  destruct (MPCreate true 16 (16 * cn)) as [[p2|]|] eqn:Hp2; [|done..].
  destruct (MPCreate_rep 16 (16 * cn) p2) as (free2 & Hr2 & Hf2); [nia|lia|done|].
  cbn [res_bind]. unfold CreateRBFragQueue.
  destruct (CreateQueue true true cn) as [q|] eqn:Hq;
    [|exfalso; revert Hq; unfold CreateQueue; simpl; bdestruct_all; simpl; (done || lia)].
  destruct (CreateQueue_rep cn q) as [Hrq Hcap]; [lia|done|].
  pose proof Hr1 as (_&_&Hfc1&_). pose proof Hr2 as (_&_&Hfc2&Ht2&_).
  eexists; split; [done|]. split_and!; simpl; try done; try lia; [|by exists free1].
  exists free2, [], [], []. split_and!; simpl; try done; rewrite Ht2; change (zlen []) with 0; lia.
Qed.

Lemma RBInit_ok mem rbm init use free used :
  pool_rep (mp rbm) free used -> 0 < mp_free_chunks (mp rbm) ->
  zlen mem = chunk_size rbm -> 0 < chunk_size rbm < max_size -> 0 <= init < 4294967296 ->
  owned rbm use ->
  exists c b rbm', RBInit true mem rbm init = Ok (Some (c, b), rbm') /\
    rb_inv rbm' b [] /\ owned rbm' use /\ head_seq b = init /\ init_seq b = init /\
    size b = chunk_size rbm /\ merged_len b = 0 /\ frags rbm' = frags rbm.
Proof.
  intros Hr Hfc Hmem Hcs Hi Ho. unfold max_size in *.
  destruct free as [|p free]; [destruct Hr as (_&_&Hf&_); by rewrite Hf in Hfc|].
  destruct (MPAllocateChunk_some _ _ _ _ Hr) as (pool & Hal & _ & _ & _).
  unfold RBInit. cbn [negb]. rewrite Hal. cbn [res_bind]. rewrite s32_small by lia.
  eexists _, _, _. split; [done|]. unfold rb_inv, rb_shape, max_size.
  split_and!; simpl; try done; try lia. constructor.
Qed.

(** ** A run of the receiver *)

(** [rd] counts the bytes handed to the application, [out] are those bytes,
    [acc] the segments [RBPut] accepted, by offset in the stream. *)
Record rx := mkRx {
  rx_rbm : rb_manager;
  rx_buf : tcp_ring_buffer;
  rx_out : list Z;
  rx_acc : list iv
}.

Inductive rx_op :=
| Segment (o : Z) (payload : list Z)
| Read (len : Z).

Section receiver.
Context (isn : Z).

Definition rx_step (st : rx) (op : rx_op) : res rx :=
  match op with
  | Segment o payload =>
      let! (r, rbm, b) := RBPut (rx_rbm st) (rx_buf st) payload (zlen payload) (seq_at isn o) in
      Ok (mkRx rbm b (rx_out st) (if 0 <? r then (o, zlen payload) :: rx_acc st else rx_acc st))
  | Read len =>
      let! (d, rbm, b) := CopyToUser_copy (rx_rbm st) (rx_buf st) len in
      Ok (mkRx rbm b (rx_out st ++ default [] d) (rx_acc st))
  end.

Fixpoint rx_run (st : rx) (ops : list rx_op) : res rx :=
  match ops with
  | [] => Ok st
  | op :: ops => let! st' := rx_step st op in rx_run st' ops
  end.

Context (S : Z -> Z).

(** [d] are the bytes of the stream from offset [o]. *)
Definition slice (o : Z) (d : list Z) : Prop :=
  forall i, 0 <= i < zlen d -> znth d i = Some (S (o + i)).

(** A segment carries bytes of the stream, lies within half the sequence
    space of the next byte to read, and finds a fragment to record it. *)
Definition op_ok (st : rx) (op : rx_op) : Prop :=
  match op with
  | Segment o payload =>
      slice o payload /\ 0 < zlen payload /\ frag_available (rx_rbm st) /\
      - half < o - zlen (rx_out st) /\ o - zlen (rx_out st) + zlen payload < half
  | Read len => True
  end.

Inductive rx_reach (st0 : rx) : rx -> Prop :=
| rx_start : rx_reach st0 st0
| rx_next st op st' : rx_reach st0 st -> op_ok st op -> rx_step st op = Ok st' -> rx_reach st0 st'.

(** The segments held and the bytes at covered positions. *)
Definition rx_inv (st : rx) : Prop :=
  exists l, let rd := zlen (rx_out st) in
    rb_inv (rx_rbm st) (rx_buf st) l /\ owned (rx_rbm st) (ptrs l) /\
    head_seq (rx_buf st) = seq_at isn rd /\ slice 0 (rx_out st) /\
    (forall x, 0 <= x -> covers (ivs l) x -> rb_byte (rx_buf st) x = Some (S (rd + x))) /\
    (forall x, 0 <= x -> covers (ivs l) x <-> covers (rx_acc st) (rd + x)) /\
    (forall x, 0 <= x < rd -> covers (rx_acc st) x).

Lemma slice_app o d1 d2 : slice o d1 -> slice (o + zlen d1) d2 -> slice o (d1 ++ d2).
Proof.
  intros H1 H2 i Hi. rewrite zlen_app in Hi. rewrite znth_app.
  destruct (Z.ltb_spec i (zlen d1)); [apply H1; lia|].
  rewrite H2 by lia. do 2 f_equal. lia.
Qed.

Lemma seq_at_head rd a : seq_at (seq_at isn rd) a = seq_at isn (rd + a).
Proof. unfold seq_at at 2. apply seq_at_shift. Qed.

Lemma seq_at_wrap w a : seq_at w (a + 4294967296) = seq_at w a.
Proof. unfold seq_at. unfold u32. rewrite Z.add_assoc. by rewrite <- Z.add_mod_idemp_r, Z.mod_same, Z.add_0_r. Qed.

(** What [RBPut] answers to a segment at distance [a] from the head. *)
Definition put_answer (b : tcp_ring_buffer) (a len : Z) : Z :=
  if a <? 0 then 0 else if size b <? a + len then -2 else len.

Lemma segment_ok st o payload :
  rx_inv st -> op_ok st (Segment o payload) ->
  exists st', rx_step st (Segment o payload) = Ok st' /\ rx_inv st' /\
    rx_out st' = rx_out st /\
    rx_acc st' = if 0 <? put_answer (rx_buf st) (o - zlen (rx_out st)) (zlen payload)
                 then (o, zlen payload) :: rx_acc st else rx_acc st.
Proof.
  intros (l & Hinv & Hown & Hhs & Hout & Hbytes & Hcov & Hpast) (Hsl & Hlen & Hav & Hlo & Hhi).
  set (rd := zlen (rx_out st)) in *. set (a := o - rd) in *. pose proof half_eq.
  assert (seq_at isn o = seq_at (head_seq (rx_buf st)) a) as Eo
    by (rewrite Hhs, seq_at_head; f_equal; lia).
  unfold rx_step, put_answer. rewrite Eo. destruct (Z.ltb_spec a 0).
  { rewrite <- seq_at_wrap, (RBPut_behind _ _ l) by (done || lia). simpl.
    eexists; split; [done|]. split_and!; try done. by exists l. }
  destruct (Z.ltb_spec (size (rx_buf st)) (a + zlen payload)).
  { rewrite (RBPut_beyond _ _ l) by (done || lia). simpl.
    eexists; split; [done|]. split_and!; try done. by exists l. }
  rewrite <- (app_nil_r (ptrs l)) in Hown.
  destruct (RBPut_ok (rx_rbm st) (rx_buf st) l [] payload a Hinv Hown ltac:(lia) Hlen Hav)
    as (rbm' & b' & l' & -> & Hinv' & Hown' & _ & Hiv & Hhs' & _ & _ & Hb' & _); [lia|].
  rewrite app_nil_r in Hown'. simpl. eexists; split; [done|].
  destruct (Z.ltb_spec 0 (zlen payload)); [|lia].
  split_and!; try done. exists l'. simpl. fold rd. split_and!; try done; [congruence| | |].
  - intros x Hx Hc. rewrite Hb' by done.
    destruct (Z.leb_spec a x), (Z.ltb_spec x (a + zlen payload)); cbn [andb].
    1:{ rewrite Hsl by lia. do 2 f_equal. lia. }
    all: apply Hbytes; [done|]; rewrite Hiv, insert_iv_covers in Hc;
      [destruct Hc; [lia|done]|lia|destruct Hinv as (_&_&_&?&_); eauto].
  - intros x Hx. rewrite Hiv, insert_iv_covers, covers_cons, Hcov by
      (done || lia || (destruct Hinv as (_&_&_&?&_); eauto)).
    assert (a <= x < a + zlen payload <-> o <= rd + x < o + zlen payload) by lia. tauto.
  - intros x Hx. apply covers_cons. right. by apply Hpast.
Qed.

(** A read returns the contiguous bytes, at most [len] of them. *)
Lemma read_ok st len :
  rx_inv st ->
  exists st', rx_step st (Read len) = Ok st' /\ rx_inv st' /\ rx_acc st' = rx_acc st /\
    zlen (rx_out st') = zlen (rx_out st) + Z.max 0 (Z.min (merged_len (rx_buf st)) len).
Proof.
  intros (l & Hinv & Hown & Hhs & Hout & Hbytes & Hcov & Hpast). set (rd := zlen (rx_out st)) in *.
  pose proof (merged_len_range _ _ l Hinv). unfold rx_step, CopyToUser_copy.
  destruct (Z.leb_spec (Z.min (merged_len (rx_buf st)) len) 0).
  { simpl. eexists; split; [done|]. rewrite app_nil_r. split_and!; simpl; try done; [|lia].
    by exists l. }
  set (n := Z.min (merged_len (rx_buf st)) len) in *.
  pose proof Hinv as (Hsh & Hm & _ & Hok & _). pose proof Hsh as (?&?&Hh&?&?&?&?&_).
  destruct (mem_read_is_Some (data (rx_buf st)) (head (rx_buf st)) n) as [d Hd]; try lia.
  rewrite Hd. apply mem_read_Some in Hd as (_&_&_&Hdl&Hd). cbn [from_option_res res_bind].
  rewrite <- (app_nil_r (ptrs l)) in Hown.
  destruct (RBRemove_ok (rx_rbm st) (rx_buf st) l [] AT_APP Hinv Hown n) as (rbm' & b' & -> & Hrem); [lia|].
  replace (Z.min (merged_len (rx_buf st)) n) with n in * by lia.
  destruct Hrem as (l' & Hinv' & Hown' & _ & Hiv & Hhs' & _ & _ & _ & _ & Hb' & _).
  rewrite app_nil_r in Hown'. cbn [res_bind]. change (default [] (Some d)) with d. eexists; split; [done|].
  assert (slice rd d) as Hsd.
  { intros i Hi. rewrite Hd, Hh by lia. apply Hbytes; [lia|].
    apply (prefix_len_spec _ Hok). lia. }
  destruct (Z.eqb_spec n 0); [lia|]. cbn [rx_acc rx_out].
  split_and!; try done; [|rewrite zlen_app; fold rd; lia].
  exists l'. cbn [rx_acc rx_out rx_buf rx_rbm]. rewrite zlen_app, Hdl. fold rd. split_and!; try done.
  - rewrite Hhs', Hhs. apply seq_at_add.
  - by apply slice_app.
  - intros x Hx Hc. rewrite Hb', Hbytes; [do 2 f_equal; lia|lia|].
    rewrite Hiv in Hc. by apply drop_iv_covers in Hc; [|done|lia|lia].
  - intros x Hx. rewrite Hiv, drop_iv_covers, Hcov by (done || lia). by replace (rd + (x + n)) with (rd + n + x) by lia.
  - intros x Hx. destruct (Z.lt_ge_cases x rd); [by apply Hpast; lia|].
    replace x with (rd + (x - rd)) by lia. apply Hcov; [lia|]. apply (prefix_len_spec _ Hok). lia.
Qed.

Lemma rx_step_ok st op : rx_inv st -> op_ok st op -> exists st', rx_step st op = Ok st' /\ rx_inv st'.
Proof.
  destruct op; intros H1 H2; [destruct (segment_ok _ _ _ H1 H2)|destruct (read_ok _ len H1)]; naive_solver.
Qed.

Lemma rx_reach_inv st0 st : rx_inv st0 -> rx_reach st0 st -> rx_inv st.
Proof.
  intros H0. induction 1 as [|st op st' _ IH Hop Hst]; [done|].
  destruct (rx_step_ok st op IH Hop) as (st2 & Hst2 & ?). congruence.
Qed.
End receiver.

(** A fresh manager with one buffer. *)
Definition rx_init (brk0 : ptr) (chunksz cn : Z) (mem : list Z) (isn : Z) : res (option rx) :=
  let! o := RBManagerCreate true true true true true brk0 chunksz cn in
  match o with
  | None => Ok None
  | Some rbm =>
      let! (o, rbm) := RBInit true mem rbm isn in
      Ok ('(_, b) ← o; Some (mkRx rbm b [] []))
  end.

Section sizes.
Context (brk0 : ptr) (chunksz cn isn : Z) (mem : list Z) (S : Z -> Z).
Hypothesis (Hcn : 0 < cn < 67108864) (Hcs : 16 <= chunksz < max_size) (Hmod : chunksz mod 4 = 0).
Hypothesis (Hprod : chunksz * cn < 18446744073709551616) (Hmem : zlen mem = chunksz).
Hypothesis (Hisn : 0 <= isn < 4294967296).

Lemma rx_init_ok :
  exists st0, rx_init brk0 chunksz cn mem isn = Ok (Some st0) /\ rx_inv isn S st0.
Proof using All.
  destruct (RBManagerCreate_ok brk0 chunksz cn) as (rbm & Hm & Ho & Hc & Hf & _ & free & Hr); try done.
  destruct (RBInit_ok mem rbm isn [] free [] Hr Hf) as (c & b & rbm' & Hb & Hinv & Ho' & Hhs & _);
    try done; try lia; try congruence.
  unfold rx_init. rewrite Hm. cbn [res_bind]. rewrite Hb. cbn [res_bind]. eexists; split; [done|].
  exists []. split_and!; simpl; try done.
  - rewrite Hhs. change (zlen []) with 0. unfold seq_at. rewrite Z.add_0_r, u32_small; lia.
  - intros i Hi. change (zlen []) with 0 in Hi. lia.
  - intros x _ []%covers_nil.
  - change (zlen []) with 0. lia.
Qed.
End sizes.


(** In every reachable state, a segment is refused when it starts before
    the next byte to read (answer 0) or ends past the buffer (answer -2), and
    is otherwise accepted whole; a read hands over the contiguous bytes, at
    most the number asked for. *)
Theorem receiver_progress brk0 chunksz cn isn mem S st0 st :
  0 < cn < 67108864 -> 16 <= chunksz < max_size -> chunksz mod 4 = 0 ->
  chunksz * cn < 18446744073709551616 -> zlen mem = chunksz -> 0 <= isn < 4294967296 ->
  rx_init brk0 chunksz cn mem isn = Ok (Some st0) -> rx_reach isn S st0 st ->
  (forall o payload, op_ok S st (Segment o payload) ->
    exists st', rx_step isn st (Segment o payload) = Ok st' /\ rx_out st' = rx_out st /\
      rx_acc st' = if 0 <? put_answer (rx_buf st) (o - zlen (rx_out st)) (zlen payload)
                   then (o, zlen payload) :: rx_acc st else rx_acc st) /\
  (forall len, exists st', rx_step isn st (Read len) = Ok st' /\
    zlen (rx_out st') = zlen (rx_out st) + Z.max 0 (Z.min (merged_len (rx_buf st)) len)).
Proof.
  intros Hcn Hcs Hmod Hprod Hmem Hisn H0 Hreach.
  destruct (rx_init_ok brk0 chunksz cn isn mem S) as (st1 & H1 & Hinv0); try done.
  assert (st1 = st0) as -> by congruence.
  pose proof (rx_reach_inv _ _ _ _ Hinv0 Hreach) as Hst. split.
  - intros o payload Hop. destruct (segment_ok isn S st o payload Hst Hop) as (st' & ? & _ & ? & ?). eauto.
  - intros len. destruct (read_ok isn S st len Hst) as (st' & ? & _ & _ & ?). eauto.
Qed.

(** C22: [RBPut] on one buffer of a manager adds its segment to that buffer's
    list of received intervals, merging what it touches, stores the payload
    at its offset, and leaves the fragments of the other buffers ([rest])
    alone; a segment behind the head or past the end changes nothing. *)
Theorem RBPut_refines rbm b l rest payload a :
  rb_inv rbm b l -> owned rbm (ptrs l ++ rest) -> frag_available rbm ->
  0 <= a < 4294967296 -> a <> half ->
  0 < zlen payload < half -> (a < half -> a + zlen payload < half) ->
  exists r rbm' b' l', RBPut rbm b payload (zlen payload) (seq_at (head_seq b) a) = Ok (r, rbm', b') /\
    rb_inv rbm' b' l' /\ owned rbm' (ptrs l' ++ rest) /\
    (forall q, q ∈ rest -> frags rbm' !! q = frags rbm !! q) /\
    if half <? a then r = 0 /\ rbm' = rbm /\ b' = b
    else if size b <? a + zlen payload then r = -2 /\ rbm' = rbm /\ b' = b
    else r = zlen payload /\ ivs l' = insert_iv a (zlen payload) (ivs l) /\
      forall x, 0 <= x -> covers (ivs l') x -> rb_byte b' x =
        if (a <=? x) && (x <? a + zlen payload) then znth payload (x - a) else rb_byte b x.
Proof.
  intros Hinv Hown Hav Ha Hh Hlen Hend. destruct (Z.ltb_spec half a).
  { rewrite (RBPut_behind _ _ l) by (done || lia). by exists 0, rbm, b, l. }
  destruct (Z.ltb_spec (size b) (a + zlen payload)).
  { rewrite (RBPut_beyond _ _ l) by (done || lia). by exists (-2), rbm, b, l. }
  destruct (RBPut_ok rbm b l rest payload a) as (rbm' & b' & l' & ? & ? & ? & _ & ? & _ & _ & _ & ? & ?);
    try done; try lia. by exists (zlen payload), rbm', b', l'.
Qed.

(** ** Instances *)

(** A stream whose byte at offset [i] is [i], from a sequence number that
    wraps in the middle of the first segments. *)
Definition demo_ops : list rx_op :=
  [Segment 4 [4; 5]; Segment 1 [1; 2]; Segment 0 [0; 1; 2]; Read 2; Segment 3 [3]; Read 9].

Example demo_run :
  match rx_init 1024 16 4 (replicate 16 170) 4294967294 with
  | Ok (Some st) => (fun st => (rx_out st, merged_len (rx_buf st))) <$> (match rx_run 4294967294 st demo_ops with Ok st => Some st | _ => None end)
  | _ => None
  end = Some ([0; 1; 2; 3; 4; 5], 0).
Proof. vm_compute. reflexivity. Qed.

Definition demo_state (ops : list rx_op) : rx :=
  match rx_init 1024 16 4 (replicate 16 170) 4294967294 with
  | Ok (Some st) => match rx_run 4294967294 st ops with Ok st => st | _ => st end
  | _ => mkRx (mkRBM 0 0 0 (mkPool None 0 0 0 ∅) (mkPool None 0 0 0 ∅) (mkRing 0 0 0 []) (mkRing 0 0 0 []) ∅ 0)
           (mkRB [] 0 0 0 0 0 0 0 0 0 None) [] []
  end.

Lemma demo_slice o d : d = (fun k => o + k) <$> seqZ 0 (zlen d) -> slice (fun i => i) o d.
Proof.
  intros E i Hi. rewrite E. unfold znth. destruct (Z.ltb_spec i 0); [lia|].
  rewrite list_lookup_fmap, lookup_seqZ_lt by lia. simpl. f_equal. lia.
Qed.

Lemma demo_reach : rx_reach 4294967294 (fun i => i) (demo_state []) (demo_state [Segment 1 [1; 2]; Segment 0 [0]]).
Proof.
  eapply (rx_next _ _ _ (demo_state [Segment 1 [1; 2]]) (Segment 0 [0])).
  - eapply (rx_next _ _ _ (demo_state []) (Segment 1 [1; 2])); [apply rx_start| |vm_compute; reflexivity].
    split_and!; [by apply demo_slice|done| |done|done]. right; right. done.
  - split_and!; [by apply demo_slice|done| |done|done]. right; right. done.
  - vm_compute. reflexivity.
Qed.


Lemma receiver_progress_witness :
  let st := demo_state [Segment 1 [1; 2]; Segment 0 [0]] in
  exists st', rx_step 4294967294 st (Read 2) = Ok st' /\ zlen (rx_out st') = 2.
Proof.
  intros st.
  refine (proj2 (receiver_progress 1024 16 4 4294967294 (replicate 16 170) (fun i => i) (demo_state []) st
    _ _ _ _ _ _ _ demo_reach) 2); done.
Defined.

(** One more segment into the buffer of the demonstration. *)
Lemma RBPut_refines_witness :
  let st := demo_state [] in
  exists r rbm' b', RBPut (rx_rbm st) (rx_buf st) [7; 8] 2 4294967295 = Ok (r, rbm', b') /\ r = 2.
Proof.
  intros st. destruct (rx_init_ok 1024 16 4 4294967294 (replicate 16 170) (fun i => i))
    as (st1 & H1 & Hinv); try done. assert (Ok (Some st1) = Ok (Some st)) as [= ->]
    by (rewrite <- H1; vm_compute; reflexivity).
  destruct Hinv as (l & Hinv & Hown & _). rewrite <- (app_nil_r (ptrs l)) in Hown.
  destruct (RBPut_refines (rx_rbm st) (rx_buf st) l [] [7; 8] 1 Hinv Hown)
    as (r & rbm' & b' & l' & Hput & _ & _ & _ & Hr); try done.
  - right; right. done.
  - exists r, rbm', b'. split; [exact Hput|]. exact (proj1 Hr).
Defined.

(** ** Fragments from the heap *)

(** When no fragment is free, the fragment allocated on the heap is
    cleared together with its heap mark: freeing it puts its address on the
    free list of the fragment pool. *)
Theorem heap_fragment_enters_pool rbm :
  QueueIsEmpty (free_fragq rbm) = true -> QueueIsEmpty (free_fragq_int rbm) = true ->
  mp_free_chunks (frag_mp rbm) = 0 -> brk rbm mod mp_chunk_size (frag_mp rbm) = 0 ->
  exists rbm1 rbm2, AllocateFragmentContext rbm = Ok (brk rbm, rbm1) /\
    FreeFragmentContextSingle rbm1 (brk rbm) = Ok rbm2 /\
    mp_freeptr (frag_mp rbm2) = Some (brk rbm) /\ mp_free_chunks (frag_mp rbm2) = 1.
Proof.
  unfold QueueIsEmpty. intros H1 H2 Hf Hm.
  unfold AllocateFragmentContext, RBFragDequeue, Dequeue. rewrite H1. cbn [res_bind]. rewrite H2. cbn [res_bind].
  unfold MPAllocateChunk. rewrite Hf. cbn [res_bind Z.eqb]. eexists _, _. split; [done|].
  unfold FreeFragmentContextSingle, deref. simpl. rewrite lookup_insert_eq. simpl.
  unfold MPFreeChunk. rewrite Hm. simpl. rewrite Hf. done.
Qed.

Lemma heap_fragment_enters_pool_witness :
  let rbm := mkRBM 16 0 1 (mkPool None 0 1 16 ∅) (mkPool None 0 1 16 ∅) (mkRing 1 0 0 [None; None])
               (mkRing 1 0 0 [None; None]) ∅ 1024 in
  exists rbm1 rbm2, AllocateFragmentContext rbm = Ok (1024, rbm1) /\
    FreeFragmentContextSingle rbm1 1024 = Ok rbm2 /\ mp_freeptr (frag_mp rbm2) = Some 1024.
Proof.
  intros rbm. destruct (heap_fragment_enters_pool rbm) as (r1 & r2 & ? & ? & ? & _); try done. by exists r1, r2.
Defined.
