(* ===== verification/Rss.v ===== *)
(** * Receive-side scaling: [rss.c]

    The interface spreads packets over receive queues by a Toeplitz hash of
    the addresses and ports. With the key of [BuildKeyCache] every byte is the
    same, so the hash does not depend on the direction of a flow. *)

From S2P Require Import Prelude.

(** ** Byte order *)

Definition bswap16 (x : Z) : Z := x mod 256 * 256 + x / 256 mod 256.
Definition bswap32 (x : Z) : Z :=
  x mod 256 * 16777216 + x / 256 mod 256 * 65536 + x / 65536 mod 256 * 256 + x / 16777216 mod 256.

(** The machine is little-endian. *)
Definition htons := bswap16.
Definition ntohs := bswap16.
Definition htonl := bswap32.
Definition ntohl := bswap32.

Lemma bswap16_range x : 0 <= bswap16 x < 65536.
Proof. unfold bswap16. wrap_lia. Qed.
Lemma bswap32_range x : 0 <= bswap32 x < 4294967296.
Proof. unfold bswap32. wrap_lia. Qed.

Lemma bswap16_involutive x : 0 <= x < 65536 -> bswap16 (bswap16 x) = x.
Proof. unfold bswap16. intros. wrap_lia. Qed.

Lemma bswap32_digits a b c d :
  0 <= a < 256 -> 0 <= b < 256 -> 0 <= c < 256 -> 0 <= d < 256 ->
  bswap32 (a * 16777216 + b * 65536 + c * 256 + d) = d * 16777216 + c * 65536 + b * 256 + a.
Proof. intros. unfold bswap32. wrap_lia. Qed.

Lemma bswap32_involutive x : 0 <= x < 4294967296 -> bswap32 (bswap32 x) = x.
Proof.
  intros. unfold bswap32 at 2. rewrite bswap32_digits by wrap_lia. wrap_lia.
Qed.

(** ** The key cache *)

Definition rss_key : list Z := replicate 40 5.
Definition KEY_CACHE_LEN : nat := 96.

Fixpoint key_cache_loop (n : nat) (idx result : Z) : list Z :=
  match n with
  | O => []
  | S n =>
      let shift := idx mod 8 in
      let b := if negb (Z.land (Z.shiftl (default 0 (znth rss_key (idx / 8))) shift) 128 =? 0) then 1 else 0 in
      result :: key_cache_loop n (u32 (idx + 1)) (Z.lor (u32 (Z.shiftl result 1)) b)
  end.

Definition BuildKeyCache (cache_len : nat) : list Z :=
  let k i := default 0 (znth rss_key i) in
  key_cache_loop cache_len 32
    (Z.lor (Z.lor (Z.lor (Z.shiftl (k 0) 24) (Z.shiftl (k 1) 16)) (Z.shiftl (k 2) 8)) (k 3)).

(** The cache is filled once and never changes. *)
Definition key_cache : list Z := BuildKeyCache KEY_CACHE_LEN.

(** One of the four loops: [n] bits of [x] of width [w], keys from [off]. *)
Fixpoint hash_loop (n : nat) (w off x res : Z) : Z :=
  match n with
  | O => res
  | S n =>
      let res := if negb (Z.land x (2 ^ (w - 1)) =? 0)
                 then Z.lxor res (default 0 (znth key_cache off)) else res in
      hash_loop n w (off + 1) (Z.shiftl x 1 mod 2 ^ w) res
  end.

Definition GetRSSHash (sip dip sp dp : Z) : Z :=
  let res := hash_loop 32 32 0 sip 0 in
  let res := hash_loop 32 32 32 dip res in
  let res := hash_loop 16 16 64 sp res in
  hash_loop 16 16 80 dp res.

Definition RSS_BIT_MASK_IXGBE : Z := 127.
Definition RSS_BIT_MASK_I40E : Z := 511.

Definition GetRSSCPUCore (sip dip sp dp num_queues : Z) (endian_check : bool) : Z :=
  let masked :=
    if endian_check then
      let masked := Z.land (GetRSSHash sip dip sp dp) RSS_BIT_MASK_I40E in
      let off := match Z.land masked 3 with 0 => 3 | 1 => 1 | 2 => u32 (-1) | _ => u32 (-3) end in
      u32 (masked + off)
    else Z.land (GetRSSHash sip dip sp dp) RSS_BIT_MASK_IXGBE in
  s32 (masked mod u32 num_queues).

(** ** Symmetry *)

Lemma hash_loop_acc n w off x r : hash_loop n w off x r = Z.lxor r (hash_loop n w off x 0).
Proof.
  revert off x r. induction n as [|n IH]; intros off x r; simpl; [by rewrite Z.lxor_0_r|].
  rewrite IH, (IH _ _ (if negb _ then Z.lxor 0 _ else 0)).
  destruct (negb _); [|done]. by rewrite Z.lxor_0_l, Z.lxor_assoc.
Qed.

Lemma hash_loop_keys n w off off' x r :
  (forall k, 0 <= k < Z.of_nat n -> znth key_cache (off + k) = znth key_cache (off' + k)) ->
  hash_loop n w off x r = hash_loop n w off' x r.
Proof.
  revert off off' x r. induction n as [|n IH]; intros off off' x r Hk; [done|]. cbn [hash_loop].
  pose proof (Hk 0) as H0. rewrite !Z.add_0_r in H0. rewrite H0 by lia.
  apply IH. intros k Hr. rewrite <- !Z.add_assoc. apply Hk. lia.
Qed.

(** The key repeats every 8 bits. *)
Lemma key_cache_shift n a b :
  forallb (fun k => bool_decide (znth key_cache (a + Z.of_nat k) = znth key_cache (b + Z.of_nat k))) (seq 0 n) = true ->
  forall k, 0 <= k < Z.of_nat n -> znth key_cache (a + k) = znth key_cache (b + k).
Proof.
  intros H k Hk. rewrite List.forallb_forall in H. specialize (H (Z.to_nat k)).
  rewrite Z2Nat.id in H by lia. eapply bool_decide_eq_true, H. apply in_seq. lia.
Qed.

Lemma hash_dip x r : hash_loop 32 32 32 x r = hash_loop 32 32 0 x r.
Proof. apply hash_loop_keys, key_cache_shift. vm_compute. reflexivity. Qed.

Lemma hash_dp x r : hash_loop 16 16 80 x r = hash_loop 16 16 64 x r.
Proof. apply hash_loop_keys, key_cache_shift. vm_compute. reflexivity. Qed.

(** The contributions of the four fields. *)
Lemma GetRSSHash_parts sip dip sp dp :
  GetRSSHash sip dip sp dp =
  Z.lxor (Z.lxor (hash_loop 32 32 0 sip 0) (hash_loop 32 32 0 dip 0))
         (Z.lxor (hash_loop 16 16 64 sp 0) (hash_loop 16 16 64 dp 0)).
Proof.
  unfold GetRSSHash. rewrite hash_dip, hash_dp, <- !Z.lxor_assoc.
  etrans; [apply hash_loop_acc|]. f_equal. etrans; [apply hash_loop_acc|]. f_equal. apply hash_loop_acc.
Qed.

Lemma GetRSSHash_symmetric sip dip sp dp : GetRSSHash sip dip sp dp = GetRSSHash dip sip dp sp.
Proof. rewrite !GetRSSHash_parts. f_equal; apply Z.lxor_comm. Qed.

Lemma GetRSSCPUCore_symmetric sip dip sp dp n e :
  GetRSSCPUCore sip dip sp dp n e = GetRSSCPUCore dip sip dp sp n e.
Proof. unfold GetRSSCPUCore. by rewrite (GetRSSHash_symmetric sip). Qed.

Example rss_example : GetRSSHash 167772161 167772162 1025 80 = GetRSSHash 167772162 167772161 80 1025.
Proof. vm_compute. reflexivity. Qed.
