(* ===== verification/AddrPool.v ===== *)
(** * Source addresses for outgoing connections: [addr_pool.c]

    A pool holds (address, port) pairs; each is an entry of the array [pool],
    named by its index, and sits on the free list or on the used list.
    [FetchAddress] picks a free entry whose replies the interface delivers to
    the calling core; [FreeAddress] finds an entry back through [mapper]. *)

From S2P Require Import Prelude Rss.

Record sockaddr_in := mkAddr { sin_addr : Z; sin_port : Z }.   (* network order *)
#[global] Instance sockaddr_in_eq_dec : EqDecision sockaddr_in.
Proof. solve_decision. Defined.

Record addr_pool := mkAP {
  pool : gmap Z sockaddr_in;
  mapper : option (gmap (Z * Z) Z);       (* address index, port: entry *)
  addr_base : Z;                          (* host order *)
  num_addr : Z; num_entry : Z; num_free : Z; num_used : Z;
  free_list : list Z; used_list : list Z
}.
#[export] Instance addr_pool_rebuild : Rebuild addr_pool := fun a =>
  mkAP (pool a) (mapper a) (addr_base a) (num_addr a) (num_entry a) (num_free a) (num_used a)
    (free_list a) (used_list a).

Definition MIN_PORT : Z := 1025.
Definition MAX_PORT : Z := 65536.
Definition INADDR_ANY : Z := 0.
Definition INPORT_ANY : Z := 0.

(** Record entry [cnt] for address [i] (host order [addr_h]) and port [j]. *)
Definition add_entry (ap : addr_pool) (cnt i j addr_h : Z) : addr_pool :=
  ap <| pool := <[cnt := mkAddr (htonl addr_h) (htons j)]> (pool ap) |>
     <| mapper := (fun m => <[(i, j) := cnt]> m) <$> mapper ap |>
     <| free_list := free_list ap ++ [cnt] |>.

(** The loop over ports, [n] iterations from [j]; [num_entry] bounds the array. *)
Fixpoint fill_ports (n : nat) (nentry i j cnt : Z) (ap : addr_pool) : Z * addr_pool :=
  match n with
  | O => (cnt, ap)
  | S n =>
      let ap1 := add_entry ap cnt i j (u32 (addr_base ap + i)) in
      if nentry <=? cnt + 1 then (cnt + 1, ap1)
      else fill_ports n nentry i (j + 1) (cnt + 1) ap1
  end.

Fixpoint fill_addrs (n : nat) (nentry i cnt : Z) (ap : addr_pool) : Z * addr_pool :=
  match n with
  | O => (cnt, ap)
  | S n =>
      let (cnt, ap) := fill_ports (Z.to_nat (MAX_PORT - MIN_PORT)) nentry i MIN_PORT cnt ap in
      fill_addrs n nentry (i + 1) cnt ap
  end.

Definition empty_pool (base num : Z) : addr_pool := mkAP ∅ (Some ∅) (ntohl base) num 0 0 0 [] [].

(** [ok1], [ok2], [ok3] and [ok4] are the outcomes of the allocations. *)
Definition CreateAddressPool (ok1 ok2 ok3 ok4 : bool) (base num : Z) : option addr_pool :=
  if negb (ok1 && ok2 && ok3 && ok4) then None
  else
    let nentry := num * (MAX_PORT - MIN_PORT) in
    let (cnt, ap) := fill_addrs (Z.to_nat num) nentry 0 0 (empty_pool base num) in
    Some (ap <| num_entry := cnt |> <| num_free := cnt |> <| num_used := 0 |>).

(** Only the ports whose packets from the server [daddr], [dport] arrive at [core]. *)
Section per_core.
Context (core num_queues daddr_h dport_h : Z) (endian_check : bool).

Fixpoint fill_ports_core (n : nat) (nentry i j cnt : Z) (ap : addr_pool) : Z * addr_pool :=
  match n with
  | O => (cnt, ap)
  | S n =>
      if nentry <=? cnt then (cnt, ap)
      else
        let saddr_h := u32 (addr_base ap + i) in
        if negb (GetRSSCPUCore daddr_h saddr_h dport_h j num_queues endian_check =? core)
        then fill_ports_core n nentry i (j + 1) cnt ap
        else fill_ports_core n nentry i (j + 1) (cnt + 1) (add_entry ap cnt i j saddr_h)
  end.

Fixpoint fill_addrs_core (n : nat) (nentry i cnt : Z) (ap : addr_pool) : Z * addr_pool :=
  match n with
  | O => (cnt, ap)
  | S n =>
      let (cnt, ap) := fill_ports_core (Z.to_nat (MAX_PORT - MIN_PORT)) nentry i MIN_PORT cnt ap in
      fill_addrs_core n nentry (i + 1) cnt ap
  end.
End per_core.

Definition CreateAddressPoolPerCore (ok1 ok2 ok3 ok4 : bool) (core num_queues base num : Z)
    (daddr dport : Z) (endian_check : bool) : option addr_pool :=
  if negb (ok1 && ok2 && ok3 && ok4) then None
  else
    let nentry := (num * (MAX_PORT - MIN_PORT)) / num_queues in
    let (cnt, ap) := fill_addrs_core core num_queues (ntohl daddr) (ntohs dport) endian_check
                       (Z.to_nat num) nentry 0 0 (empty_pool base num) in
    Some (ap <| num_entry := cnt |> <| num_free := cnt |> <| num_used := 0 |>).

(** The search of [FetchAddress] along the free list. *)
Fixpoint fetch_walk (ap : addr_pool) (core num_queues : Z) (da sa : sockaddr_in) (e : bool)
    (l : list Z) : res (option Z) :=
  match l with
  | [] => Ok None
  | walk :: next =>
      let! a := from_option_res OutOfBounds (pool ap !! walk) in
      if negb (sin_addr sa =? INADDR_ANY) && negb (sin_addr a =? sin_addr sa)
      then fetch_walk ap core num_queues da sa e next
      else if negb (sin_port sa =? INPORT_ANY) && negb (sin_port a =? sin_port sa)
      then fetch_walk ap core num_queues da sa e next
      else if core =? GetRSSCPUCore (ntohl (sin_addr a)) (ntohl (sin_addr da))
                        (ntohs (sin_port a)) (ntohs (sin_port da)) num_queues e
      then Ok (Some walk)
      else fetch_walk ap core num_queues da sa e next
  end.

(** Move an entry from the free to the used list, and report its address. *)
Definition take_entry (ap : addr_pool) (walk : Z) : res (Z * sockaddr_in * addr_pool) :=
  let! a := from_option_res OutOfBounds (pool ap !! walk) in
  let! f := tailq_remove walk (free_list ap) in
  Ok (0, a, ap <| free_list := f |> <| used_list := used_list ap ++ [walk] |>
               <| num_free := num_free ap - 1 |> <| num_used := num_used ap + 1 |>).

(** Results: status, address, pool. *)
Definition FetchAddress (ap : option addr_pool) (core num_queues : Z) (da sa : sockaddr_in) (e : bool)
  : res (Z * sockaddr_in * option addr_pool) :=
  match ap with
  | None => Ok (-1, sa, None)
  | Some ap =>
      let! w := fetch_walk ap core num_queues da sa e (free_list ap) in
      match w with
      | None => Ok (-1, sa, Some ap)
      | Some walk => let! (r, a, ap) := take_entry ap walk in Ok (r, a, Some ap)
      end
  end.

Definition FetchAddressPerCore (ap : option addr_pool) (sa : sockaddr_in)
  : res (Z * sockaddr_in * option addr_pool) :=
  match ap with
  | None => Ok (-1, sa, None)
  | Some ap =>
      match free_list ap with
      | [] => Ok (-1, sa, Some ap)
      | walk :: _ => let! (r, a, ap) := take_entry ap walk in Ok (r, a, Some ap)
      end
  end.

(** Without a mapper, the used list is searched. *)
Fixpoint used_walk (ap : addr_pool) (addr : sockaddr_in) (l : list Z) : res (option Z) :=
  match l with
  | [] => Ok None
  | walk :: next =>
      let! a := from_option_res OutOfBounds (pool ap !! walk) in
      if (sin_port addr =? sin_port a) && (sin_addr addr =? sin_addr a) then Ok (Some walk)
      else used_walk ap addr next
  end.

Definition find_entry (ap : addr_pool) (addr : sockaddr_in) : res (option Z) :=
  match mapper ap with
  | Some m =>
      let addr_h := ntohl (sin_addr addr) in
      let port_h := ntohs (sin_port addr) in
      let index := s32 (addr_h - addr_base ap) in
      if (0 <=? index) && (index <? num_addr ap)
      then Ok (m !! (u32 (addr_h - addr_base ap), port_h)) else Ok None
  | None => used_walk ap addr (used_list ap)
  end.

Definition FreeAddress (ap : option addr_pool) (addr : sockaddr_in) : res (Z * option addr_pool) :=
  match ap with
  | None => Ok (-1, None)
  | Some ap =>
      let! w := find_entry ap addr in
      match w with
      | None => Ok (-1, Some ap)
      | Some walk =>
          let! u := tailq_remove walk (used_list ap) in
          Ok (0, Some (ap <| used_list := u |> <| free_list := free_list ap ++ [walk] |>
                          <| num_free := num_free ap + 1 |> <| num_used := num_used ap - 1 |>))
      end
  end.

(** ** Invariant *)

(** Entry [k] is the pair of address index [i] and port [j]. *)
Definition entry_ok (ap : addr_pool) (m : gmap (Z * Z) Z) (k : Z) : Prop :=
  exists i j, 0 <= i < num_addr ap /\ 0 <= j < 65536 /\ m !! (i, j) = Some k /\
    pool ap !! k = Some (mkAddr (htonl (u32 (addr_base ap + i))) (htons j)).

Definition ap_inv (ap : addr_pool) : Prop :=
  0 <= addr_base ap < 4294967296 /\ 0 <= num_addr ap < 2147483648 /\
  num_free ap = zlen (free_list ap) /\ num_used ap = zlen (used_list ap) /\
  NoDup (free_list ap ++ used_list ap) /\
  exists m, mapper ap = Some m /\
    (forall k, k ∈ free_list ap ++ used_list ap -> entry_ok ap m k).

Definition in_use (ap : addr_pool) (a : sockaddr_in) : Prop :=
  exists k, k ∈ used_list ap /\ pool ap !! k = Some a.

Lemma entry_found ap m k :
  0 <= addr_base ap < 4294967296 -> 0 <= num_addr ap < 2147483648 ->
  mapper ap = Some m -> entry_ok ap m k ->
  exists a, pool ap !! k = Some a /\ find_entry ap a = Ok (Some k).
Proof.
  intros Hb Hn Hm (i & j & Hi & Hj & Hmap & Hp). eexists; split; [exact Hp|].
  unfold find_entry. rewrite Hm. simpl. unfold ntohl, htonl, ntohs, htons.
  rewrite bswap32_involutive by apply u32_range. rewrite bswap16_involutive by done.
  assert (u32 (u32 (addr_base ap + i) - addr_base ap) = i) as ->.
  { autorewrite with wrap. replace (addr_base ap + i - addr_base ap) with i by lia. apply u32_small. lia. }
  assert (s32 (u32 (addr_base ap + i) - addr_base ap) = i) as ->.
  { transitivity (s32 i); [|apply s32_small; lia]. apply s32_eq. autorewrite with wrap. f_equal. lia. }
  destruct (Z.leb_spec 0 i), (Z.ltb_spec i (num_addr ap)); try lia. simpl. by rewrite Hmap.
Qed.

Lemma entry_inj ap m k k' a :
  0 <= addr_base ap < 4294967296 -> 0 <= num_addr ap < 2147483648 -> mapper ap = Some m ->
  entry_ok ap m k -> entry_ok ap m k' -> pool ap !! k = Some a -> pool ap !! k' = Some a -> k = k'.
Proof.
  intros Hb Hn Hm H1 H2 Hk Hk'.
  destruct (entry_found _ _ _ Hb Hn Hm H1) as (a1 & E1 & F1).
  destruct (entry_found _ _ _ Hb Hn Hm H2) as (a2 & E2 & F2). simplify_eq. congruence.
Qed.

Lemma fetch_walk_ok ap m core nq da sa e l :
  mapper ap = Some m -> (forall k, k ∈ l -> entry_ok ap m k) ->
  exists o, fetch_walk ap core nq da sa e l = Ok o /\
    match o with
    | None => True
    | Some k => k ∈ l /\ exists a, pool ap !! k = Some a /\
        (sin_addr sa = INADDR_ANY \/ sin_addr a = sin_addr sa) /\
        (sin_port sa = INPORT_ANY \/ sin_port a = sin_port sa) /\
        GetRSSCPUCore (ntohl (sin_addr a)) (ntohl (sin_addr da)) (ntohs (sin_port a))
          (ntohs (sin_port da)) nq e = core
    end.
Proof.
  intros Hm. induction l as [|k l IH]; intros Hl; cbn [fetch_walk]; [by exists None|].
  destruct IH as (o & Ho & Hres); [set_solver|].
  assert (exists o', Ok o = Ok o' /\ match o' with None => True | Some k' => k' ∈ k :: l /\
    exists a, pool ap !! k' = Some a /\ (sin_addr sa = INADDR_ANY \/ sin_addr a = sin_addr sa) /\
        (sin_port sa = INPORT_ANY \/ sin_port a = sin_port sa) /\
        GetRSSCPUCore (ntohl (sin_addr a)) (ntohl (sin_addr da)) (ntohs (sin_port a))
          (ntohs (sin_port da)) nq e = core end) as Hskip.
  { exists o. split; [done|]. destruct o; [|done]. destruct Hres as [? ?]. split; [set_solver|done]. }
  destruct (Hl k) as (i & j & _ & _ & _ & Hp); [set_solver|]. rewrite Hp. cbn [from_option_res res_bind].
  set (a := mkAddr _ _) in *. rewrite Ho.
  destruct (Z.eqb_spec (sin_addr sa) INADDR_ANY), (Z.eqb_spec (sin_addr a) (sin_addr sa)); cbn [negb andb]; try done;
  destruct (Z.eqb_spec (sin_port sa) INPORT_ANY), (Z.eqb_spec (sin_port a) (sin_port sa)); cbn [negb andb]; try done;
  (destruct (Z.eqb_spec core (GetRSSCPUCore (ntohl (sin_addr a)) (ntohl (sin_addr da))
    (ntohs (sin_port a)) (ntohs (sin_port da)) nq e)); [|done]);
  exists (Some k); (split; [done|]); (split; [set_solver|]); exists a; auto.
Qed.

Lemma take_entry_ok ap k :
  ap_inv ap -> k ∈ free_list ap ->
  exists a ap', take_entry ap k = Ok (0, a, ap') /\ pool ap !! k = Some a /\ ap_inv ap' /\
    ~ in_use ap a /\ (forall b, in_use ap' b <-> b = a \/ in_use ap b).
Proof.
  intros (Hb & Hn & Hf & Hu & Hnd & m & Hm & Hok) Hk.
  destruct (Hok k) as (i & j & Hi & Hj & Hmap & Hp); [set_solver|].
  set (a := mkAddr _ _) in Hp. exists a. unfold take_entry. rewrite Hp. cbn [from_option_res res_bind].
  rewrite tailq_remove_ok by done. cbn [res_bind]. eexists; split; [done|].
  pose proof Hnd as (Hnf & Hd & Hnu)%NoDup_app.
  split_and!; [done| | |].
  - split_and!; simpl; try done; try lia.
    + rewrite filter_ne_zlen by done. lia.
    + rewrite zlen_app. unfold zlen at 2. simpl. lia.
    + rewrite app_assoc. apply NoDup_app. split_and!.
      * apply NoDup_app. split_and!; [by apply filter_ne_NoDup| |done].
        intros x [Hx _]%filter_ne_elem. by apply Hd.
      * intros x [Hx|Hx]%elem_of_app ->%list_elem_of_singleton.
        -- apply filter_ne_elem in Hx. tauto.
        -- by apply (Hd k).
      * apply NoDup_singleton.
    + exists m. split; [done|]. intros x Hx. apply Hok.
      rewrite !elem_of_app, filter_ne_elem, list_elem_of_singleton in Hx.
      rewrite elem_of_app. destruct Hx as [[? ?]|[?| ->]]; tauto.
  - intros (k' & Hk' & Hp'). assert (k = k') as <-.
    { eapply (entry_inj ap m); try done; apply Hok; set_solver. }
    by apply (Hd k).
  - intros b. unfold in_use; simpl. split.
    + intros (k' & [?| ->%list_elem_of_singleton]%elem_of_app & Hp'); [eauto|left; congruence].
    + intros [->|(k' & ? & ?)]; [exists k|exists k']; (split; [|done]); set_solver.
Qed.

Lemma FreeAddress_ok ap a :
  ap_inv ap -> in_use ap a ->
  exists ap', FreeAddress (Some ap) a = Ok (0, Some ap') /\ ap_inv ap' /\
    ~ in_use ap' a /\ (forall b, b <> a -> in_use ap' b <-> in_use ap b).
Proof.
  intros (Hb & Hn & Hf & Hu & Hnd & m & Hm & Hok) (k & Hk & Hp).
  destruct (entry_found ap m k Hb Hn Hm) as (a' & Hp' & Hfind); [apply Hok; set_solver|].
  simplify_eq. unfold FreeAddress. rewrite Hfind. cbn [res_bind]. rewrite tailq_remove_ok by done.
  cbn [res_bind]. eexists; split; [done|]. pose proof Hnd as (Hnf & Hd & Hnu)%NoDup_app.
  split_and!; simpl.
  - split_and!; simpl; try done; try lia.
    + rewrite zlen_app. unfold zlen at 2. simpl. lia.
    + rewrite filter_ne_zlen by done. lia.
    + apply NoDup_app. split_and!; [|intros x [Hx|Hx%list_elem_of_singleton]%elem_of_app| by apply filter_ne_NoDup].
      * apply NoDup_app. split_and!; [done| |apply NoDup_singleton].
        intros x Hx ->%list_elem_of_singleton. by apply (Hd k).
      * intros [? _]%filter_ne_elem. by apply (Hd x).
      * rewrite filter_ne_elem. tauto.
    + exists m. split; [done|]. intros x Hx. apply Hok.
      rewrite !elem_of_app, filter_ne_elem, list_elem_of_singleton in Hx.
      rewrite elem_of_app. destruct Hx as [[?| ->]|[? ?]]; tauto.
  - intros (k' & [Hk' Hne]%filter_ne_elem & Hp2). simpl in Hp2. apply Hne.
    eapply (entry_inj ap m); try done; apply Hok; set_solver.
  - intros b Hba. unfold in_use; simpl. split; intros (k' & Hk' & Hb').
    + apply filter_ne_elem in Hk' as [? _]. eauto.
    + exists k'. rewrite filter_ne_elem. split; [|done]. split; [done|]. congruence.
Qed.

(** ** Creation *)

(** The pool while it is filled: [i] and [j] are the loop counters. *)
Definition filling (base num i j cnt : Z) (ap : addr_pool) : Prop :=
  addr_base ap = base /\ num_addr ap = num /\ used_list ap = [] /\
  0 <= cnt /\ zlen (free_list ap) = cnt /\ NoDup (free_list ap) /\
  (forall k, k ∈ free_list ap -> k < cnt) /\
  exists m, mapper ap = Some m /\
    (forall i' j' k, m !! (i', j') = Some k -> i' < i \/ i' = i /\ j' < j) /\
    (forall k, k ∈ free_list ap -> entry_ok ap m k).

Lemma filling_next base num i j cnt ap :
  filling base num i j cnt ap -> filling base num i (j + 1) cnt ap.
Proof.
  intros (? & ? & ? & ? & ? & ? & ? & m & ? & Hk & ?). split_and!; try done.
  exists m. split_and!; try done. intros i' j' k Hm. destruct (Hk _ _ _ Hm); lia.
Qed.

Lemma filling_next_addr base num i j cnt ap :
  filling base num i j cnt ap -> filling base num (i + 1) MIN_PORT cnt ap.
Proof.
  intros (? & ? & ? & ? & ? & ? & ? & m & ? & Hk & ?). split_and!; try done.
  exists m. split_and!; try done. intros i' j' k Hm. destruct (Hk _ _ _ Hm); lia.
Qed.

Lemma filling_add base num i j cnt ap :
  filling base num i j cnt ap -> 0 <= i < num -> 0 <= j < 65536 ->
  filling base num i (j + 1) (cnt + 1) (add_entry ap cnt i j (u32 (addr_base ap + i))).
Proof.
  intros (Hb & Hn & Hu & Hc & Hl & Hnd & Hlt & m & Hm & Hk & Hok) Hi Hj.
  split_and!; simpl; try done; try lia.
  - rewrite zlen_app. unfold zlen at 2; simpl. lia.
  - apply NoDup_app. split_and!; [done| |apply NoDup_singleton].
    intros k Hk1 ->%list_elem_of_singleton. apply Hlt in Hk1. lia.
  - intros k [?%Hlt| ->%list_elem_of_singleton]%elem_of_app; lia.
  - exists (<[(i, j) := cnt]> m). rewrite Hm. split_and!; [done| |].
    + intros i' j' k [[[= <- <-] _]|[_ Hmk]]%lookup_insert_Some; [lia|]. destruct (Hk _ _ _ Hmk); lia.
    + intros k [Hin| ->%list_elem_of_singleton]%elem_of_app.
      * destruct (Hok k Hin) as (i' & j' & ? & ? & Hmk & Hp). exists i', j'. simpl. split_and!; try done; try lia.
        -- rewrite lookup_insert_ne; [done|]. intros [= <- <-]. destruct (Hk _ _ _ Hmk); lia.
        -- rewrite lookup_insert_ne; [done|]. apply Hlt in Hin. lia.
      * exists i, j. simpl. rewrite !lookup_insert_eq. split_and!; try done; lia.
Qed.

Lemma fill_ports_ok base num nentry i n : forall j cnt ap,
  filling base num i j cnt ap -> 0 <= i < num -> 0 <= j -> j + Z.of_nat n <= 65536 ->
  exists j' cnt' ap', fill_ports n nentry i j cnt ap = (cnt', ap') /\ filling base num i j' cnt' ap'.
Proof.
  induction n as [|n IH]; intros j cnt ap Hf Hi Hj Hn; cbn [fill_ports]; [by eexists _, _, _|].
  pose proof (filling_add _ _ _ _ _ _ Hf Hi ltac:(lia)) as Hf1.
  destruct (nentry <=? cnt + 1); [by eexists _, _, _|]. apply IH; [done|done|lia|lia].
Qed.

Lemma fill_addrs_ok base num nentry n : forall i cnt ap,
  filling base num i MIN_PORT cnt ap -> 0 <= i -> i + Z.of_nat n <= num ->
  exists i' j' cnt' ap', fill_addrs n nentry i cnt ap = (cnt', ap') /\ filling base num i' j' cnt' ap'.
Proof.
  induction n as [|n IH]; intros i cnt ap Hf Hi Hn; cbn [fill_addrs]; [by eexists _, _, _, _|].
  destruct (fill_ports_ok base num nentry i (Z.to_nat (MAX_PORT - MIN_PORT)) MIN_PORT cnt ap Hf)
    as (j' & cnt' & ap' & -> & Hf'); [lia|unfold MIN_PORT; lia|unfold MIN_PORT, MAX_PORT; lia|].
  apply IH; [by eapply filling_next_addr|lia|lia].
Qed.

Section core_pools.
Context (core num_queues daddr_h dport_h : Z) (endian_check : bool) (base num nentry : Z).

Lemma fill_ports_core_ok i n : forall j cnt ap,
  filling base num i j cnt ap -> 0 <= i < num -> 0 <= j -> j + Z.of_nat n <= 65536 ->
  exists j' cnt' ap', fill_ports_core core num_queues daddr_h dport_h endian_check n nentry i j cnt ap
    = (cnt', ap') /\ filling base num i j' cnt' ap'.
Proof.
  induction n as [|n IH]; intros j cnt ap Hf Hi Hj Hn; cbn [fill_ports_core]; [by eexists _, _, _|].
  destruct (nentry <=? cnt); [by eexists _, _, _|]. destruct (negb _).
  - apply IH; [by apply filling_next|done|lia|lia].
  - apply IH; [apply filling_add; [done|done|lia]|done|lia|lia].
Qed.

Lemma fill_addrs_core_ok n : forall i cnt ap,
  filling base num i MIN_PORT cnt ap -> 0 <= i -> i + Z.of_nat n <= num ->
  exists i' j' cnt' ap', fill_addrs_core core num_queues daddr_h dport_h endian_check n nentry i cnt ap
    = (cnt', ap') /\ filling base num i' j' cnt' ap'.
Proof.
  induction n as [|n IH]; intros i cnt ap Hf Hi Hn; cbn [fill_addrs_core]; [by eexists _, _, _, _|].
  destruct (fill_ports_core_ok i (Z.to_nat (MAX_PORT - MIN_PORT)) MIN_PORT cnt ap Hf)
    as (j' & cnt' & ap' & -> & Hf'); [lia|unfold MIN_PORT; lia|unfold MIN_PORT, MAX_PORT; lia|].
  apply IH; [by eapply filling_next_addr|lia|lia].
Qed.
End core_pools.

Lemma filling_empty base num : filling (ntohl base) num 0 MIN_PORT 0 (empty_pool base num).
Proof.
  split_and!; simpl; try done; [constructor|by intros k ?%elem_of_nil|].
  exists ∅. split_and!; [done| |by intros k ?%elem_of_nil]. intros ? ? ? Hm. by rewrite lookup_empty in Hm.
Qed.

Lemma filling_inv base num i j cnt ap :
  0 <= base < 4294967296 -> 0 <= num < 2147483648 -> filling base num i j cnt ap ->
  ap_inv (ap <| num_entry := cnt |> <| num_free := cnt |> <| num_used := 0 |>).
Proof.
  intros ? ? (Hb & Hn & Hu & Hc & Hl & Hnd & Hlt & m & Hm & _ & Hok).
  split_and!; simpl; rewrite ?Hu, ?app_nil_r; try done; try lia. exists m. split; [done|].
  intros k Hk. by apply Hok.
Qed.

(** A pool, and the pools made from it by fetching addresses and by freeing
    addresses in use. *)
Inductive ap_reach : addr_pool -> Prop :=
| apr_create base num ap :
    0 <= num < 2147483648 ->
    CreateAddressPool true true true true base num = Some ap -> ap_reach ap
| apr_create_core core nq base num daddr dport e ap :
    0 <= num < 2147483648 ->
    CreateAddressPoolPerCore true true true true core nq base num daddr dport e = Some ap -> ap_reach ap
| apr_fetch ap core nq da sa e r a ap' :
    ap_reach ap -> FetchAddress (Some ap) core nq da sa e = Ok (r, a, Some ap') -> ap_reach ap'
| apr_fetch_core ap sa r a ap' :
    ap_reach ap -> FetchAddressPerCore (Some ap) sa = Ok (r, a, Some ap') -> ap_reach ap'
| apr_free ap a r ap' :
    ap_reach ap -> in_use ap a -> FreeAddress (Some ap) a = Ok (r, Some ap') -> ap_reach ap'.

Lemma FetchAddress_ok ap core nq da sa e :
  ap_inv ap ->
  exists r a ap', FetchAddress (Some ap) core nq da sa e = Ok (r, a, Some ap') /\ ap_inv ap' /\
    (r = -1 /\ ap' = ap \/
     r = 0 /\ ~ in_use ap a /\ (forall b, in_use ap' b <-> b = a \/ in_use ap b) /\
     (sin_addr sa = INADDR_ANY \/ sin_addr a = sin_addr sa) /\
     (sin_port sa = INPORT_ANY \/ sin_port a = sin_port sa) /\
     GetRSSCPUCore (ntohl (sin_addr a)) (ntohl (sin_addr da)) (ntohs (sin_port a))
       (ntohs (sin_port da)) nq e = core).
Proof.
  intros Hinv. pose proof Hinv as (_ & _ & _ & _ & _ & m & Hm & Hok). unfold FetchAddress.
  destruct (fetch_walk_ok ap m core nq da sa e (free_list ap) Hm) as ([k|] & -> & Hres); [set_solver| |].
  - destruct Hres as (Hk & a & Hp & H1 & H2 & H3). cbn [res_bind].
    destruct (take_entry_ok ap k Hinv Hk) as (a' & ap' & -> & Hp' & Hinv' & Hnew & Huse). simplify_eq.
    cbn [res_bind]. eexists _, _, _. split; [done|]. split; [done|]. right. done.
  - cbn [res_bind]. eexists _, _, _. split; [done|]. split; [done|]. by left.
Qed.

Lemma FetchAddressPerCore_inv ap sa r a ap' :
  ap_inv ap -> FetchAddressPerCore (Some ap) sa = Ok (r, a, Some ap') -> ap_inv ap'.
Proof.
  intros Hinv. unfold FetchAddressPerCore. destruct (free_list ap) as [|k l] eqn:Ef; [naive_solver|].
  destruct (take_entry_ok ap k Hinv) as (a' & ap2 & -> & _ & Hinv' & _); [rewrite Ef; set_solver|].
  simpl. naive_solver.
Qed.

Lemma ap_reach_inv ap : ap_reach ap -> ap_inv ap.
Proof.
  induction 1 as [base num ap Hn Hc|core nq base num daddr dport e ap Hn Hc|ap core nq da sa e r a ap' _ IH Hf
    |ap sa r a ap' _ IH Hf|ap a r ap' _ IH Ha Hf].
  - unfold CreateAddressPool in Hc. simpl in Hc.
    destruct (fill_addrs_ok (ntohl base) num (num * (MAX_PORT - MIN_PORT)) (Z.to_nat num) 0 0 (empty_pool base num))
      as (i' & j' & cnt & ap1 & E & Hfill); [apply filling_empty|lia|lia|].
    rewrite E in Hc. injection Hc as <-. eapply filling_inv; [apply bswap32_range|done|exact Hfill].
  - unfold CreateAddressPoolPerCore in Hc. simpl in Hc.
    destruct (fill_addrs_core_ok core nq (ntohl daddr) (ntohs dport) e (ntohl base) num
      (num * (MAX_PORT - MIN_PORT) / nq) (Z.to_nat num) 0 0 (empty_pool base num))
      as (i' & j' & cnt & ap1 & E & Hfill); [apply filling_empty|lia|lia|].
    rewrite E in Hc. injection Hc as <-. eapply filling_inv; [apply bswap32_range|done|exact Hfill].
  - destruct (FetchAddress_ok ap core nq da sa e IH) as (r' & a' & ap2 & E & Hinv & _).
    rewrite Hf in E. by injection E as _ _ <-.
  - by eapply FetchAddressPerCore_inv.
  - destruct (FreeAddress_ok ap a IH Ha) as (ap2 & E & Hinv & _). rewrite Hf in E. by injection E as _ <-.
Qed.


(** A port of 10.0.0.1 whose packets from port 80 of 10.0.0.2 reach core 67. *)
Definition demo_pool : option addr_pool :=
  CreateAddressPoolPerCore true true true true 67 64511 (htonl 167772161) 1 (htonl 167772162) (htons 80) false.

