(* ===== verification/Checksum.v ===== *)
(** * The TCP checksum: [TCPCalcChecksum] of [tcp_util.c]

    The sum is taken over 16-bit words read from memory in host order. A
    segment whose checksum field was filled in with the result verifies. *)

From S2P Require Import Prelude Rss.

Definition IPPROTO_TCP : Z := 6.

(** The loop over the words, with the odd byte at the end: reading a word at
    the last byte and masking it with [ntohs(0xFF00)] keeps that byte. *)
Fixpoint sum_words (bs : list Z) (sum : Z) : Z :=
  match bs with
  | [] => sum
  | [b] => u32 (sum + b)
  | b0 :: b1 :: bs => sum_words bs (u32 (sum + (b0 + 256 * b1)))
  end.

Definition TCPCalcChecksum (buf : list Z) (len saddr daddr : Z) : Z :=
  let sum := sum_words (take (Z.to_nat len) buf) 0 in
  let sum := u32 (sum + (Z.land saddr 65535 + Z.shiftr saddr 16)) in
  let sum := u32 (sum + (Z.land daddr 65535 + Z.shiftr daddr 16)) in
  let sum := u32 (sum + htons len) in
  let sum := u32 (sum + htons IPPROTO_TCP) in
  let sum := u32 (Z.shiftr sum 16 + Z.land sum 65535) in
  let sum := u32 (sum + Z.shiftr sum 16) in
  u16 (u32 (Z.lnot sum)).

(** ** The sum without wrap-around *)

Fixpoint words (bs : list Z) : Z :=
  match bs with
  | [] => 0
  | [b] => b
  | b0 :: b1 :: bs => b0 + 256 * b1 + words bs
  end.

Definition bytes_ok (bs : list Z) : Prop := Forall (fun b => 0 <= b < 256) bs.

Lemma pair_ind (P : list Z -> Prop) :
  P [] -> (forall b, P [b]) -> (forall b0 b1 bs, P bs -> P (b0 :: b1 :: bs)) -> forall bs, P bs.
Proof.
  intros H0 H1 H2 bs. enough (P bs /\ forall b, P (b :: bs)) by tauto.
  induction bs as [|b bs [IH1 IH2]]; [auto|]. split; [apply IH2|]. intros b'. by apply H2.
Qed.

Lemma words_bound bs : bytes_ok bs -> 0 <= words bs <= 65536 * zlen bs.
Proof.
  induction bs as [|b|b0 b1 bs IH] using pair_ind; simpl.
  - intros _. change (zlen []) with 0. lia.
  - intros [? _]%Forall_cons. change (zlen [b]) with 1. lia.
  - intros [? [? Hb]%Forall_cons]%Forall_cons. specialize (IH Hb). rewrite !zlen_cons. lia.
Qed.

Lemma sum_words_eq bs sum :
  bytes_ok bs -> 0 <= sum -> sum + 65536 * zlen bs < 4294967296 -> sum_words bs sum = sum + words bs.
Proof.
  revert sum. induction bs as [|b|b0 b1 bs IH] using pair_ind; intros sum; simpl.
  - lia.
  - intros [? _]%Forall_cons. change (zlen [b]) with 1. intros. apply u32_small. lia.
  - intros [? [? Hb]%Forall_cons]%Forall_cons ?. rewrite !zlen_cons. pose proof (zlen_nonneg bs). intros.
    rewrite u32_small by lia. rewrite IH by (done || lia). lia.
Qed.

(** One's complement folding of a sum below 2^32. *)
Definition fold16 (s : Z) : Z := let t := s / 65536 + s mod 65536 in (t + t / 65536) mod 65536.

Definition pseudo (len saddr daddr : Z) : Z :=
  saddr mod 65536 + saddr / 65536 + (daddr mod 65536 + daddr / 65536) + htons len + htons IPPROTO_TCP.

Section check.
Context (len saddr daddr : Z).
Hypothesis (Hlen : 0 <= len < 65000) (Hs : 0 <= saddr < 4294967296) (Hd : 0 <= daddr < 4294967296).

Lemma pseudo_bound : 0 < pseudo len saddr daddr <= 393210.
Proof using All.
  unfold pseudo. pose proof (bswap16_range len). change (htons len) with (bswap16 len).
  change (htons IPPROTO_TCP) with 1536. wrap_lia.
Qed.

Lemma checksum_eq buf :
  bytes_ok buf -> zlen buf = len ->
  TCPCalcChecksum buf len saddr daddr = 65535 - fold16 (words buf + pseudo len saddr daddr).
Proof using All.
  intros Hb Hl. unfold TCPCalcChecksum. pose proof (words_bound buf Hb). pose proof pseudo_bound.
  rewrite take_ge by (unfold zlen in Hl; lia). rewrite sum_words_eq by (done || lia).
  rewrite !(Z.land_ones _ 16) by lia. rewrite !Z.shiftr_div_pow2 by lia. change (2 ^ 16) with 65536.
  pose proof (bswap16_range len). fold (htons len) in *. unfold pseudo, fold16 in *.
  change (htons IPPROTO_TCP) with 1536 in *.
  set (S0 := words buf) in *. set (h := htons len) in *.
  assert (0 <= saddr / 65536 < 65536 /\ 0 <= saddr mod 65536 < 65536) as [? ?] by wrap_lia.
  assert (0 <= daddr / 65536 < 65536 /\ 0 <= daddr mod 65536 < 65536) as [? ?] by wrap_lia.
  rewrite (u32_small (0 + S0 + _)) by lia.
  rewrite (u32_small (0 + S0 + _ + _)) by lia.
  rewrite (u32_small (0 + S0 + _ + _ + _)) by lia.
  rewrite (u32_small (0 + S0 + _ + _ + _ + _)) by lia.
  set (T := 0 + S0 + _ + _ + _ + _). replace (S0 + _) with T by (unfold T; lia).
  assert (0 <= T < 4294967296) by lia. clearbody T.
  rewrite (u32_small (T / 65536 + T mod 65536)) by wrap_lia.
  set (t := T / 65536 + T mod 65536). assert (0 <= t < 131072) by (unfold t; wrap_lia). clearbody t.
  rewrite (u32_small (t + t / 65536)) by wrap_lia. unfold Z.lnot, u16. wrap_lia.
Qed.
End check.

(** Folding keeps the residue modulo 65535 and lands in 1..65535. *)
Lemma fold16_spec s :
  0 < s < 4294967296 -> exists k, fold16 s = s - 65535 * k /\ 0 < fold16 s <= 65535.
Proof.
  intros Hs. unfold fold16. set (q := s / 65536). set (t := q + s mod 65536).
  assert (t = s - 65535 * q) as Ht by (unfold t, q; wrap_lia).
  assert (0 < t <= 131070) by (unfold t, q; wrap_lia). clearbody t.
  destruct (Z.lt_ge_cases t 65536).
  - exists q. rewrite (Z.div_small t), Z.add_0_r, Z.mod_small by lia. lia.
  - exists (q + 1). assert (t / 65536 = 1) as -> by wrap_lia.
    assert ((t + 1) mod 65536 = t + 1 - 65536) as -> by wrap_lia. lia.
Qed.

Lemma fold16_complement T : 0 < T < 4294901760 -> fold16 (T + (65535 - fold16 T)) = 65535.
Proof.
  intros HT. destruct (fold16_spec T ltac:(lia)) as (k & Hk & Hr).
  destruct (fold16_spec (T + (65535 - fold16 T)) ltac:(lia)) as (k' & Hk' & Hr'). lia.
Qed.

Lemma words_app pre post : (exists n, zlen pre = 2 * n) -> words (pre ++ post) = words pre + words post.
Proof.
  induction pre as [|b|b0 b1 pre IH] using pair_ind; intros [n Hn]; simpl.
  - done.
  - change (zlen [b]) with 1 in Hn. lia.
  - rewrite !zlen_cons in Hn. rewrite IH by (exists (n - 1); lia). lia.
Qed.

(** A segment whose checksum field, at an even offset, was zero when
    [TCPCalcChecksum] was computed and then received the result, passes the
    receiver's verification: [TCPCalcChecksum] over it is 0. *)
Theorem checksum_verifies pre post saddr daddr :
  bytes_ok pre -> bytes_ok post -> (exists n, zlen pre = 2 * n) ->
  zlen pre + 2 + zlen post < 65000 ->
  0 <= saddr < 4294967296 -> 0 <= daddr < 4294967296 ->
  let len := zlen pre + 2 + zlen post in
  let check := TCPCalcChecksum (pre ++ 0 :: 0 :: post) len saddr daddr in
  TCPCalcChecksum (pre ++ check mod 256 :: check / 256 :: post) len saddr daddr = 0.
Proof.
  intros Hpre Hpost Heven Hlen Hs Hd len check.
  pose proof (zlen_nonneg pre). pose proof (zlen_nonneg post).
  assert (forall a b, zlen (pre ++ a :: b :: post) = len) as Hl
    by (intros; rewrite zlen_app, !zlen_cons; unfold len; lia).
  assert (forall a b, 0 <= a < 256 -> 0 <= b < 256 -> bytes_ok (pre ++ a :: b :: post)) as Hok
    by (intros; apply Forall_app; split; [done|]; apply Forall_cons_2; [done|]; by apply Forall_cons_2).
  assert (0 <= len < 65000) by (unfold len; lia).
  assert (forall a b, words (pre ++ a :: b :: post) = words pre + words post + (a + 256 * b)) as Hw
    by (intros; rewrite words_app by done; simpl; lia).
  pose proof (pseudo_bound len saddr daddr ltac:(done) Hs Hd) as Hp.
  pose proof (words_bound pre Hpre). pose proof (words_bound post Hpost).
  set (T := words pre + words post + pseudo len saddr daddr).
  assert (0 < T < 4294901760) by (unfold T, len in *; lia).
  assert (check = 65535 - fold16 T) as Hc.
  { unfold check. rewrite checksum_eq by first [done|apply Hl|apply Hok; lia].
    rewrite Hw. do 2 f_equal. unfold T. lia. }
  destruct (fold16_spec T ltac:(lia)) as (_ & _ & Hr).
  assert (0 <= check < 65536) by lia.
  rewrite checksum_eq by first [done|apply Hl|apply Hok; wrap_lia].
  rewrite Hw. replace (check mod 256 + 256 * (check / 256)) with (65535 - fold16 T) by wrap_lia.
  replace (words pre + words post + (65535 - fold16 T) + pseudo len saddr daddr)
    with (T + (65535 - fold16 T)) by (unfold T; lia).
  rewrite fold16_complement by done. done.
Qed.

Lemma checksum_verifies_witness :
  let check := TCPCalcChecksum ([192; 168] ++ 0 :: 0 :: [1; 2; 3]) 7 16777226 33554442 in
  TCPCalcChecksum ([192; 168] ++ check mod 256 :: check / 256 :: [1; 2; 3]) 7 16777226 33554442 = 0.
Proof.
  apply (checksum_verifies [192; 168] [1; 2; 3] 16777226 33554442);
    [repeat constructor; lia|repeat constructor; lia|by exists 1|done|lia|lia].
Defined.
