(* ===== verification/Machine.v ===== *)
(** * The state of one mTCP thread

    Data of [mtcp.h], [tcp_stream.h], [socket.h], [timer.h], [eventpoll.h] and
    [tcp_in.h]: streams with their send and receive variables, the sender
    lists, the retransmission store, sockets and listeners, and the manager
    that holds them. Streams are named by their address in the flow pool; the
    manager maps the addresses of live streams to their contents, so an access
    to a destroyed stream is an access to an address that is not mapped.

    Operations are state-passing functions [mtcp_manager -> res (A *
    mtcp_manager)] composed with a small state and fault monad. A [TAILQ] is a
    list of addresses; unlinking an element that is not on the list faults. *)

From S2P Require Import Prelude SeqNum SpscQueue MemPool RingBuffer SendBuffer AddrPool.

(** ** Enumerations *)

Inductive tcp_state :=
| TCP_ST_CLOSED | TCP_ST_LISTEN | TCP_ST_SYN_SENT | TCP_ST_SYN_RCVD | TCP_ST_ESTABLISHED
| TCP_ST_FIN_WAIT_1 | TCP_ST_FIN_WAIT_2 | TCP_ST_CLOSE_WAIT | TCP_ST_CLOSING
| TCP_ST_LAST_ACK | TCP_ST_TIME_WAIT.
#[global] Instance tcp_state_eq_dec : EqDecision tcp_state.
Proof. solve_decision. Defined.

(** The numbers of the enumeration, by which states are compared. *)
Definition st_code (s : tcp_state) : Z :=
  match s with
  | TCP_ST_CLOSED => 0 | TCP_ST_LISTEN => 1 | TCP_ST_SYN_SENT => 2 | TCP_ST_SYN_RCVD => 3
  | TCP_ST_ESTABLISHED => 4 | TCP_ST_FIN_WAIT_1 => 5 | TCP_ST_FIN_WAIT_2 => 6
  | TCP_ST_CLOSE_WAIT => 7 | TCP_ST_CLOSING => 8 | TCP_ST_LAST_ACK => 9 | TCP_ST_TIME_WAIT => 10
  end.

Inductive tcp_close_reason :=
| TCP_NOT_CLOSED | TCP_ACTIVE_CLOSE | TCP_PASSIVE_CLOSE | TCP_CONN_FAIL | TCP_CONN_LOST
| TCP_RESET | TCP_NO_MEM | TCP_NOT_ACCEPTED | TCP_TIMEDOUT.
#[global] Instance tcp_close_reason_eq_dec : EqDecision tcp_close_reason.
Proof. solve_decision. Defined.

(** Header flags, one bit each. *)
Definition TCP_FLAG_FIN : Z := 1.
Definition TCP_FLAG_SYN : Z := 2.
Definition TCP_FLAG_RST : Z := 4.
Definition TCP_FLAG_PSH : Z := 8.
Definition TCP_FLAG_ACK : Z := 16.
Definition TCP_FLAG_WACK : Z := 128.
Definition has (flags f : Z) : bool := negb (Z.land flags f =? 0).

Definition TCP_DEFAULT_MSS : Z := 1460.
Definition TCP_DEFAULT_WSCALE : Z := 7.
Definition TCP_INITIAL_WINDOW : Z := 14600.
Definition TCP_INITIAL_RTO : Z := 500.
Definition TCP_MAX_RTX : Z := 16.
Definition TCP_MAX_SYN_RETRY : Z := 7.
Definition TCP_MAX_BACKOFF : Z := 7.
Definition TCP_HEADER_LEN : Z := 20.
Definition IP_HEADER_LEN : Z := 20.
Definition RTO_HASH : Z := 3000.

(** Kinds and options of sockets. *)
Definition MTCP_SOCK_UNUSED : Z := 0.
Definition MTCP_SOCK_STREAM : Z := 1.
Definition MTCP_SOCK_LISTENER : Z := 3.
Definition MTCP_SOCK_EPOLL : Z := 4.
Definition MTCP_SOCK_PIPE : Z := 5.
Definition MTCP_NONBLOCK : Z := 1.
Definition MTCP_ADDR_BIND : Z := 2.

(** Epoll event bits. *)
Definition MTCP_EPOLLNONE : Z := 0.
Definition MTCP_EPOLLET : Z := 2147483648.
Definition MTCP_EPOLLIN : Z := 1.
Definition MTCP_EPOLLOUT : Z := 4.
Definition MTCP_EPOLLERR : Z := 8.
Definition MTCP_EPOLLHUP : Z := 16.
Definition MTCP_EPOLLRDHUP : Z := 8192.

(** ** Streams *)

Record tcp_recv_vars := mkRcv {
  rcv_wnd : Z; irs : Z; snd_wl1 : Z; snd_wl2 : Z;
  dup_acks : Z; last_ack_seq : Z;
  ts_recent : Z; ts_lastack_rcvd : Z; ts_last_ts_upd : Z; ts_tw_expire : Z;
  srtt : Z; mdev : Z; mdev_max : Z; rttvar : Z; rtt_seq : Z;
  rcvbuf : option (Z * tcp_ring_buffer)      (* chunk address and buffer *)
}.
#[export] Instance tcp_recv_vars_rebuild : Rebuild tcp_recv_vars := fun r =>
  mkRcv (rcv_wnd r) (irs r) (snd_wl1 r) (snd_wl2 r) (dup_acks r) (last_ack_seq r)
    (ts_recent r) (ts_lastack_rcvd r) (ts_last_ts_upd r) (ts_tw_expire r)
    (srtt r) (mdev r) (mdev_max r) (rttvar r) (rtt_seq r) (rcvbuf r).

Record tcp_send_vars := mkSnd {
  ip_id : Z; mss : Z; eff_mss : Z; wscale_mine : Z; wscale_peer : Z; nif_out : Z;
  snd_una : Z; snd_wnd : Z; peer_wnd : Z; iss : Z; fss : Z;
  nrtx : Z; max_nrtx : Z; rto : Z; ts_rto : Z; cwnd : Z; ssthresh : Z;
  ts_lastack_sent : Z; is_wack : bool; ack_cnt : Z;
  on_control_list : bool; on_send_list : bool; on_ack_list : bool;
  on_sendq : bool; on_ackq : bool; on_closeq : bool; on_resetq : bool;
  on_closeq_int : bool; on_resetq_int : bool; is_fin_sent : bool; is_fin_ackd : bool;
  sndbuf : option tcp_send_buffer
}.
#[export] Instance tcp_send_vars_rebuild : Rebuild tcp_send_vars := fun v =>
  mkSnd (ip_id v) (mss v) (eff_mss v) (wscale_mine v) (wscale_peer v) (nif_out v)
    (snd_una v) (snd_wnd v) (peer_wnd v) (iss v) (fss v)
    (nrtx v) (max_nrtx v) (rto v) (ts_rto v) (cwnd v) (ssthresh v)
    (ts_lastack_sent v) (is_wack v) (ack_cnt v)
    (on_control_list v) (on_send_list v) (on_ack_list v)
    (on_sendq v) (on_ackq v) (on_closeq v) (on_resetq v)
    (on_closeq_int v) (on_resetq_int v) (is_fin_sent v) (is_fin_ackd v) (sndbuf v).

(** [rv_addr] and [sv_addr] are the pool chunks of the two variable blocks. *)
Record tcp_stream := mkStream {
  socket : option Z; sid : Z; stream_type : Z;
  saddr : Z; daddr : Z; sport : Z; dport : Z;
  state : tcp_state; close_reason : tcp_close_reason;
  on_hash_table : bool; on_timewait_list : bool; ht_idx : Z; closed : bool;
  is_bound_addr : bool; need_wnd_adv : bool; on_rto_idx : Z;
  on_timeout_list : bool; saw_timestamp : bool; sack_permit : bool;
  control_list_waiting : bool; have_reset : bool; is_external : bool;
  snd_nxt : Z; rcv_nxt : Z;
  rcvvar : tcp_recv_vars; sndvar : tcp_send_vars;
  rv_addr : ptr; sv_addr : ptr;
  last_active_ts : Z
}.
#[export] Instance tcp_stream_rebuild : Rebuild tcp_stream := fun s =>
  mkStream (socket s) (sid s) (stream_type s) (saddr s) (daddr s) (sport s) (dport s)
    (state s) (close_reason s) (on_hash_table s) (on_timewait_list s) (ht_idx s) (closed s)
    (is_bound_addr s) (need_wnd_adv s) (on_rto_idx s)
    (on_timeout_list s) (saw_timestamp s) (sack_permit s)
    (control_list_waiting s) (have_reset s) (is_external s)
    (snd_nxt s) (rcv_nxt s) (rcvvar s) (sndvar s) (rv_addr s) (sv_addr s) (last_active_ts s).

(** The blocks after [memset]. *)
Definition zero_rcv : tcp_recv_vars := mkRcv 0 0 0 0 0 0 0 0 0 0 0 0 0 0 0 None.
Definition zero_snd : tcp_send_vars :=
  mkSnd 0 0 0 0 0 0 0 0 0 0 0 0 0 0 0 0 0 0 false 0
    false false false false false false false false false false false None.
Definition zero_stream : tcp_stream :=
  mkStream None 0 0 0 0 0 0 TCP_ST_CLOSED TCP_NOT_CLOSED false false 0 false false false 0
    false false false false false false 0 0 zero_rcv zero_snd 0 0 0.

(** ** Sockets, listeners, events *)

(** The pointer in the [union] of a socket; a null pointer is the same for
    every member. *)
Inductive sock_ref :=
| SockNull | SockStream (p : ptr) | SockListener (l : ptr) | SockEpoll (e : ptr) | SockPipe (pp : ptr).

Record socket_map := mkSock {
  sk_id : Z; socktype : Z; opts : Z; sk_addr : Z; sk_port : Z;
  sk_ref : sock_ref; epoll : Z; events : Z; ep_data : Z
}.
#[export] Instance socket_map_rebuild : Rebuild socket_map := fun s =>
  mkSock (sk_id s) (socktype s) (opts s) (sk_addr s) (sk_port s) (sk_ref s) (epoll s) (events s) (ep_data s).

Record tcp_listener := mkListener { l_sockid : Z; l_socket : Z; backlog : Z; acceptq : ring_queue ptr }.
#[export] Instance tcp_listener_rebuild : Rebuild tcp_listener := fun l =>
  mkListener (l_sockid l) (l_socket l) (backlog l) (acceptq l).

Record epoll_event_int := mkEv { ev_events : Z; ev_data : Z; ev_sockid : Z }.

Record event_queue := mkEQ {
  eq_events : list epoll_event_int; eq_start : Z; eq_end : Z; eq_size : Z; num_events : Z
}.
#[export] Instance event_queue_rebuild : Rebuild event_queue := fun q =>
  mkEQ (eq_events q) (eq_start q) (eq_end q) (eq_size q) (num_events q).

Inductive queue_type := USR_EVENT_QUEUE | USR_SHADOW_EVENT_QUEUE | MTCP_EVENT_QUEUE.

Record mtcp_epoll := mkEpoll {
  usr_queue : event_queue; usr_shadow_queue : event_queue; mtcp_queue : event_queue;
  waiting : bool;
  calls : Z; waits : Z; wakes : Z; issued : Z; registered : Z; invalidated : Z; handled : Z
}.
#[export] Instance mtcp_epoll_rebuild : Rebuild mtcp_epoll := fun e =>
  mkEpoll (usr_queue e) (usr_shadow_queue e) (mtcp_queue e) (waiting e)
    (calls e) (waits e) (wakes e) (issued e) (registered e) (invalidated e) (handled e).

(** ** Pipes *)

Inductive pipe_state := PIPE_CLOSED | PIPE_ACTIVE | PIPE_CLOSE_WAIT.
#[global] Instance pipe_state_eq_dec : EqDecision pipe_state.
Proof. solve_decision. Defined.

(** [p_sock0] and [p_sock1] are the indices of the two sockets. *)
Record pipe := mkPipe {
  p_state : pipe_state; p_sock0 : Z; p_sock1 : Z;
  p_buf : list Z; buf_off : Z; buf_tail : Z; buf_len : Z; buf_size : Z
}.
#[export] Instance pipe_rebuild : Rebuild pipe := fun p =>
  mkPipe (p_state p) (p_sock0 p) (p_sock1 p) (p_buf p) (buf_off p) (buf_tail p) (buf_len p) (buf_size p).

(** ** Senders, timers *)

Record mtcp_sender := mkSender {
  ifidx : Z;
  control_list : list ptr; send_list : list ptr; ack_list : list ptr;
  control_list_cnt : Z; send_list_cnt : Z; ack_list_cnt : Z
}.
#[export] Instance mtcp_sender_rebuild : Rebuild mtcp_sender := fun s =>
  mkSender (ifidx s) (control_list s) (send_list s) (ack_list s)
    (control_list_cnt s) (send_list_cnt s) (ack_list_cnt s).

(** [rto_list] maps a slot to its list; an absent slot is an empty list. *)
Record rto_hashstore := mkRTO { rto_now_idx : Z; rto_now_ts : Z; rto_list : gmap Z (list ptr) }.
#[export] Instance rto_hashstore_rebuild : Rebuild rto_hashstore := fun r =>
  mkRTO (rto_now_idx r) (rto_now_ts r) (rto_list r).

(** ** Routes and ARP *)

Record route := mkRoute { rt_daddr : Z; rt_mask : Z; rt_masked : Z; rt_prefix : Z; rt_nif : Z }.
Record arp_entry := mkArp { arp_ip : Z; arp_prefix : Z; arp_mask : Z; arp_masked : Z; arp_haddr : list Z }.
Record arp_queue_entry := mkArpQ { aq_ip : Z; aq_nif : Z; aq_ts : Z }.

(** ** Packets handed to the interface *)

Record tcp_packet := mkPkt {
  pk_saddr : Z; pk_daddr : Z; pk_sport : Z; pk_dport : Z; pk_ipid : Z;
  pk_seq : Z; pk_ack : Z; pk_syn : bool; pk_fin : bool; pk_rst : bool; pk_psh : bool; pk_ackf : bool;
  pk_window : Z; pk_doff : Z; pk_check : Z; pk_opts : list Z; pk_payload : list Z
}.
Inductive frame := TcpFrame (eidx : Z) (dst : list Z) (p : tcp_packet)
                 | ArpFrame (eidx : Z) (op : Z) (tip : Z) (dst : list Z)
                 | IcmpFrame (eidx : Z) (dst : list Z) (sa da : Z) (msg : list Z).

(** ** The manager *)

Record mtcp_manager := mkMtcp {
  streams : gmap ptr tcp_stream;
  flow_pool : mem_pool; rv_pool : mem_pool; sv_pool : mem_pool;
  rbm_snd : sb_manager; rbm_rcv : rb_manager;
  tcp_flow_table : gmap Z (list ptr);
  sockets : gmap Z socket_map; free_smap : list Z;
  listeners : gmap Z (list ptr); listener_store : gmap ptr tcp_listener;
  g_id : Z; flow_cnt : Z;
  ep : option ptr;
  epolls : gmap ptr mtcp_epoll; pipes : gmap ptr pipe;   (* objects on the heap *)
  heap_next : ptr;                                       (* address of the next heap object *)
  connectq : ring_queue ptr; sendq : ring_queue ptr; ackq : ring_queue ptr;
  closeq : ring_queue ptr; closeq_int : stream_queue_int ptr;
  resetq : ring_queue ptr; resetq_int : stream_queue_int ptr; destroyq : ring_queue ptr;
  g_sender : mtcp_sender; n_sender : list mtcp_sender;
  rto_store : rto_hashstore; timewait_list : list ptr; timeout_list : list ptr;
  rto_list_cnt : Z; timewait_list_cnt : Z; timeout_list_cnt : Z;
  m_cur_ts : Z; wakeup_flag : bool;
  ctx_done : bool; ctx_exit : bool; ctx_interrupt : bool;
  next_seed : Z;
  arp_table : list arp_entry; arp_gateway : option arp_entry; arp_queue : list arp_queue_entry;
  m_ap : option addr_pool;          (* the thread's address pool *)
  aps : list (option addr_pool);    (* the pools shared by the threads, one per interface *)
  (* outcomes of calls to the interface and the allocator still to come *)
  wptrs : list bool; mallocs : list bool;
  tx : list frame                   (* frames written so far *)
}.
#[export] Instance mtcp_manager_rebuild : Rebuild mtcp_manager := fun m =>
  mkMtcp (streams m) (flow_pool m) (rv_pool m) (sv_pool m) (rbm_snd m) (rbm_rcv m)
    (tcp_flow_table m) (sockets m) (free_smap m) (listeners m) (listener_store m) (g_id m) (flow_cnt m) (ep m)
    (epolls m) (pipes m) (heap_next m)
    (connectq m) (sendq m) (ackq m) (closeq m) (closeq_int m) (resetq m) (resetq_int m) (destroyq m)
    (g_sender m) (n_sender m) (rto_store m) (timewait_list m) (timeout_list m)
    (rto_list_cnt m) (timewait_list_cnt m) (timeout_list_cnt m) (m_cur_ts m) (wakeup_flag m)
    (ctx_done m) (ctx_exit m) (ctx_interrupt m)
    (next_seed m) (arp_table m) (arp_gateway m) (arp_queue m) (m_ap m) (aps m) (wptrs m) (mallocs m) (tx m).

(** The configuration, read from [CONFIG] and fixed after start-up, and the
    library functions whose results the code only receives. *)
Class Env := {
  tcp_timewait : Z; tcp_timeout : Z; sndbuf_size : Z; max_concurrency : Z;
  eths : list (Z * list Z);                 (* address and hardware address *)
  nif_to_eidx : Z -> Z;
  rtable : list route; gateway : option route;
  arp_capacity : Z;                         (* length of the ARP table's array *)
  rand_r : Z -> Z * Z;                      (* value and next seed *)
  fresh_mem : Z -> list Z;                  (* what a new chunk of a size holds *)
  hw_checksum : bool;                       (* the interface checks and computes checksums *)
  cpu : Z; num_cpus : Z; num_queues : Z;    (* the core of the thread, cores and queues *)
  endian_check : bool                       (* the result of [FetchEndianType] *)
}.
Definition eths_num `{Env} : Z := zlen eths.

(** An 8-bit signed field. *)
Definition s8 (x : Z) : Z := let y := u8 x in if y <? 128 then y else y - 256.

(** ** State and faults *)

Definition M (A : Type) : Type := mtcp_manager -> res (A * mtcp_manager).
Definition ret {A} (a : A) : M A := fun m => Ok (a, m).
Definition bind {A B} (c : M A) (k : A -> M B) : M B :=
  fun m => match c m with Ok (a, m') => k a m' | Fault e => Fault e end.
Definition throw {A} (e : fault) : M A := fun _ => Fault e.
Definition gets {A} (f : mtcp_manager -> A) : M A := fun m => Ok (f m, m).
Definition modify (f : mtcp_manager -> mtcp_manager) : M unit := fun m => Ok (tt, f m).
(** A function of [res] as a step that leaves the state alone. *)
Definition lift {A} (r : res A) : M A := fun m => let! a := r in Ok (a, m).

Notation "'let*' x := c 'in' k" := (bind c (fun x => k))
  (at level 200, x pattern, c at level 100, k at level 200) : mtcp_scope.
Notation "c ';;;' k" := (bind c (fun _ => k)) (at level 100, right associativity) : mtcp_scope.

Definition when (b : bool) (c : M unit) : M unit := if b then c else ret tt.
Definition assert (b : bool) : M unit := if b then ret tt else throw AssertFailed.

(** ** Access to streams *)

Definition get_stream (p : ptr) : M tcp_stream :=
  fun m => match streams m !! p with Some s => Ok (s, m) | None => Fault UseAfterFree end.
Definition upd_stream (p : ptr) (f : tcp_stream -> tcp_stream) : M unit :=
  fun m => match streams m !! p with
           | Some s => Ok (tt, m <| streams := <[p := f s]> (streams m) |>)
           | None => Fault UseAfterFree
           end.
Definition upd_snd (p : ptr) (f : tcp_send_vars -> tcp_send_vars) : M unit :=
  upd_stream p (fun s => s <| sndvar := f (sndvar s) |>).
Definition upd_rcv (p : ptr) (f : tcp_recv_vars -> tcp_recv_vars) : M unit :=
  upd_stream p (fun s => s <| rcvvar := f (rcvvar s) |>).
Definition set_state (p : ptr) (st : tcp_state) : M unit := upd_stream p (fun s => s <| state := st |>).

(** The outcome of the next allocation, and of the next request for a
    transmit buffer; requests beyond the list fail. *)
Definition next_malloc : M bool :=
  fun m => match mallocs m with
           | b :: l => Ok (b, m <| mallocs := l |>)
           | [] => Ok (false, m)
           end.
Definition get_wptr : M bool :=
  fun m => match wptrs m with
           | b :: l => Ok (b, m <| wptrs := l |>)
           | [] => Ok (false, m)
           end.
Definition emit (f : frame) : M unit := modify (fun m => m <| tx := tx m ++ [f] |>).

(** ** Senders *)

Inductive sender_id := GSender | NSender (i : nat).
#[global] Instance sender_id_eq_dec : EqDecision sender_id.
Proof. solve_decision. Defined.

Definition get_sender (i : sender_id) : M mtcp_sender :=
  match i with
  | GSender => gets g_sender
  | NSender i => fun m => match n_sender m !! i with Some s => Ok (s, m) | None => Fault NullDeref end
  end.
Definition upd_sender (i : sender_id) (f : mtcp_sender -> mtcp_sender) : M unit :=
  match i with
  | GSender => modify (fun m => m <| g_sender := f (g_sender m) |>)
  | NSender i => fun m => match n_sender m !! i with
                          | Some s => Ok (tt, m <| n_sender := <[i := f s]> (n_sender m) |>)
                          | None => Fault NullDeref
                          end
  end.

(** The sender a stream with output interface [nif] belongs to. *)
Definition sender_of `{Env} (nif : Z) : option sender_id :=
  if nif <? 0 then Some GSender
  else
    let eidx := nif_to_eidx nif in
    if (eidx <? 0) || (eths_num <=? eidx) then None else Some (NSender (Z.to_nat eidx)).

Definition GetSender `{Env} (p : ptr) : M (option sender_id) :=
  let* s := get_stream p in ret (sender_of (nif_out (sndvar s))).

(** [sender = GetSender(...); assert(sender != NULL);] *)
Definition the_sender `{Env} (p : ptr) : M sender_id :=
  let* o := GetSender p in
  match o with Some i => ret i | None => throw AssertFailed end.
