(* ===== verification/Wp.v ===== *)
(** * Reasoning about steps of the manager

    [wp E c Q m]: run from [m], the step [c] returns a value and a manager
    that satisfy [Q], or stops with a fault that satisfies [E]. With
    [no_fault] for [E] this is total correctness: the step returns.

    [keeps I c] is the special case of a step that keeps an invariant; it is
    closed under the operations of the monad, so that a handler is shown to
    keep an invariant by going through its text once. *)

From S2P Require Import Prelude Machine.

Definition wp {A} (E : fault -> Prop) (c : M A) (Q : A -> mtcp_manager -> Prop) (m : mtcp_manager) : Prop :=
  match c m with Ok (a, m') => Q a m' | Fault e => E e end.

Definition no_fault (e : fault) : Prop := False.

Lemma wp_returns {A} (c : M A) Q m : wp no_fault c Q m -> exists a m', c m = Ok (a, m') /\ Q a m'.
Proof. unfold wp. destruct (c m) as [[a m']|e]; [eauto|done]. Qed.

(** Running a step whose result is known. *)
Lemma bind_ok {A B} (c : M A) (k : A -> M B) m a m' : c m = Ok (a, m') -> bind c k m = k a m'.
Proof. unfold bind. by intros ->. Qed.

Lemma bind_lift {A B} (r : res A) (k : A -> M B) m a : r = Ok a -> bind (lift r) k m = k a m.
Proof. unfold bind, lift. by intros ->. Qed.

Lemma bind_fault {A B} (c : M A) (k : A -> M B) m e : c m = Fault e -> bind c k m = Fault e.
Proof. unfold bind. by intros ->. Qed.

(** Only the behaviour of a step matters, so steps may be regrouped. *)
Lemma wp_assoc {A B C} E (c : M A) (k : A -> M B) (k' : B -> M C) Q m :
  wp E (bind (bind c k) k') Q m <-> wp E (bind c (fun a => bind (k a) k')) Q m.
Proof. unfold wp, bind. by destruct (c m) as [[a m']|e]. Qed.

Section wp.
Context {E : fault -> Prop}.

Lemma wp_mono {A} (c : M A) (Q Q' : A -> mtcp_manager -> Prop) m :
  wp E c Q m -> (forall a m', Q a m' -> Q' a m') -> wp E c Q' m.
Proof. unfold wp. destruct (c m) as [[a m']|e]; eauto. Qed.

Lemma wp_result {A} (c : M A) (Q : A -> mtcp_manager -> Prop) m a m' : wp E c Q m -> c m = Ok (a, m') -> Q a m'.
Proof. unfold wp. intros Hw E'. by rewrite E' in Hw. Qed.

Lemma wp_ret {A} (a : A) Q m : Q a m -> wp E (ret a) Q m.
Proof. done. Qed.

Lemma wp_bind {A B} (c : M A) (k : A -> M B) Q m :
  wp E c (fun a m' => wp E (k a) Q m') m -> wp E (bind c k) Q m.
Proof. unfold wp, bind. by destruct (c m) as [[a m']|e]. Qed.

Lemma wp_gets {A} (f : mtcp_manager -> A) Q m : Q (f m) m -> wp E (gets f) Q m.
Proof. done. Qed.

Lemma wp_modify f Q m : Q tt (f m) -> wp E (modify f) Q m.
Proof. done. Qed.

Lemma wp_throw {A} e (Q : A -> mtcp_manager -> Prop) m : E e -> wp E (throw e) Q m.
Proof. done. Qed.

Lemma wp_lift {A} (r : res A) Q m :
  (forall a, r = Ok a -> Q a m) -> (forall e, r = Fault e -> E e) -> wp E (lift r) Q m.
Proof. unfold wp, lift. destruct r; simpl; eauto. Qed.

Lemma wp_when b c Q m : (b = true -> wp E c Q m) -> (b = false -> Q tt m) -> wp E (when b c) Q m.
Proof. destruct b; simpl; intros H1 H2; [by apply H1|by apply wp_ret, H2]. Qed.

Lemma wp_get_stream p s Q m : streams m !! p = Some s -> Q s m -> wp E (get_stream p) Q m.
Proof. unfold wp, get_stream. by intros ->. Qed.

Lemma wp_upd_stream p f s Q m :
  streams m !! p = Some s -> Q tt (m <| streams := <[p := f s]> (streams m) |>) ->
  wp E (upd_stream p f) Q m.
Proof. unfold wp, upd_stream. by intros ->. Qed.
End wp.

(** ** Steps that keep an invariant *)

Definition keeps {A} (E : fault -> Prop) (I : mtcp_manager -> Prop) (c : M A) : Prop :=
  forall m, I m -> wp E c (fun _ m' => I m') m.

Section keeps.
Context {E : fault -> Prop} {I : mtcp_manager -> Prop}.

Lemma keeps_ret {A} (a : A) : keeps E I (ret a).
Proof. intros m ?. done. Qed.

Lemma keeps_bind {A B} (c : M A) (k : A -> M B) :
  keeps E I c -> (forall a, keeps E I (k a)) -> keeps E I (bind c k).
Proof. intros Hc Hk m Hm. apply wp_bind. eapply wp_mono; [by apply Hc|]. intros a m' ?. by apply Hk. Qed.

Lemma keeps_gets {A} (f : mtcp_manager -> A) : keeps E I (gets f).
Proof. intros m ?. done. Qed.

Lemma keeps_throw {A} e : E e -> keeps E I (throw (A := A) e).
Proof. intros ? m ?. done. Qed.

Lemma keeps_lift {A} (r : res A) : (forall e, r = Fault e -> E e) -> keeps E I (lift r).
Proof. intros ? m ?. by apply wp_lift. Qed.

Lemma keeps_when b c : keeps E I c -> keeps E I (when b c).
Proof. intros Hc. destruct b; [done|apply keeps_ret]. Qed.

Lemma keeps_assert b : E AssertFailed -> keeps E I (assert b).
Proof. intros ?. destruct b; [apply keeps_ret|by apply keeps_throw]. Qed.

Lemma keeps_modify f : (forall m, I m -> I (f m)) -> keeps E I (modify f).
Proof. intros Hf m Hm. apply wp_modify. by apply Hf. Qed.
End keeps.

(** A fault or a result that satisfies both. *)
Lemma wp_conj {A} (E E' : fault -> Prop) (c : M A) (Q Q' : A -> mtcp_manager -> Prop) m :
  wp E c Q m -> wp E' c Q' m -> wp E c (fun a m' => Q a m' /\ Q' a m') m.
Proof. unfold wp. by destruct (c m) as [[a m']|e]. Qed.

(** ** Parts of the manager a step does not change *)

Definition same {A B} (π : mtcp_manager -> B) (c : M A) : Prop :=
  forall v, keeps (fun _ => True) (fun m => π m = v) c.

Ltac frame_step :=
  lazymatch goal with
  | |- forall _, _ => intros ?
  | |- same _ _ => intros ?
  | |- keeps _ _ (ret _) => apply keeps_ret
  | |- keeps _ _ (gets _) => apply keeps_gets
  | |- keeps _ _ (bind _ _) => apply keeps_bind
  | |- keeps _ _ (when _ _) => apply keeps_when
  | |- keeps _ _ (assert _) => by apply keeps_assert
  | |- keeps _ _ (throw _) => by apply keeps_throw
  | |- keeps _ _ (lift _) => by apply keeps_lift
  | |- keeps _ _ (modify _) => apply keeps_modify; intros ? <-; reflexivity
  | |- keeps _ _ (let _ := _ in _) => cbv zeta
  | |- keeps _ _ (get_stream _) => let m := fresh in intros m ?; unfold wp, get_stream; destruct (streams m !! _); done
  | |- keeps _ _ (upd_stream _ _) => let m := fresh in intros m <-; unfold wp, upd_stream; destruct (streams m !! _); [reflexivity|done]
  | |- keeps _ _ (upd_snd _ _) => unfold upd_snd
  | |- keeps _ _ (upd_rcv _ _) => unfold upd_rcv
  | |- keeps _ _ (set_state _ _) => unfold set_state
  | |- keeps _ _ (get_sender ?i) => let m := fresh in destruct i; [apply keeps_gets|]; intros m ?; unfold wp, get_sender; destruct (n_sender m !! _); done
  | |- keeps _ _ (upd_sender ?i _) => let m := fresh in destruct i; intros m <-; unfold wp, upd_sender; [reflexivity|destruct (n_sender m !! _); [reflexivity|done]]
  | |- keeps _ _ (match ?x with _ => _ end) => destruct x
  | |- keeps _ _ _ => match goal with Hs : _ |- _ => apply Hs end
  end.
Ltac frame := repeat frame_step.
