(* ===== verification/Lists.v ===== *)
(** * Lists of streams: the sender lists of [tcp_out.c] and the timer lists of
    [timer.c]

    A stream carries a flag for each list it can be on; the operations keep
    flag, list and counter together. *)

From S2P Require Import Prelude SeqNum SpscQueue Machine.

Section lists.
Context `{Env}.

(** ** Control, send and ACK lists *)

Definition AddtoControlList (p : ptr) (cur_ts : Z) : M unit :=
  let* s := get_stream p in
  if negb (on_control_list (sndvar s)) then
    let* i := the_sender p in
    upd_snd p (fun v => v <| on_control_list := true |>) ;;;
    upd_sender i (fun d => d <| control_list := control_list d ++ [p] |>
                             <| control_list_cnt := control_list_cnt d + 1 |>)
  else ret tt.

Definition AddtoSendList (p : ptr) : M unit :=
  let* i := the_sender p in
  let* s := get_stream p in
  match sndbuf (sndvar s) with
  | None => throw AssertFailed
  | Some _ =>
      if negb (on_send_list (sndvar s)) then
        upd_snd p (fun v => v <| on_send_list := true |>) ;;;
        upd_sender i (fun d => d <| send_list := send_list d ++ [p] |>
                                 <| send_list_cnt := send_list_cnt d + 1 |>)
      else ret tt
  end.

Definition AddtoACKList (p : ptr) : M unit :=
  let* i := the_sender p in
  let* s := get_stream p in
  if negb (on_ack_list (sndvar s)) then
    upd_snd p (fun v => v <| on_ack_list := true |>) ;;;
    upd_sender i (fun d => d <| ack_list := ack_list d ++ [p] |>
                             <| ack_list_cnt := ack_list_cnt d + 1 |>)
  else ret tt.

Definition RemoveFromControlList (p : ptr) : M unit :=
  let* i := the_sender p in
  let* s := get_stream p in
  if on_control_list (sndvar s) then
    upd_snd p (fun v => v <| on_control_list := false |>) ;;;
    let* d := get_sender i in
    let* l := lift (tailq_remove p (control_list d)) in
    upd_sender i (fun d => d <| control_list := l |> <| control_list_cnt := control_list_cnt d - 1 |>)
  else ret tt.

Definition RemoveFromSendList (p : ptr) : M unit :=
  let* i := the_sender p in
  let* s := get_stream p in
  if on_send_list (sndvar s) then
    upd_snd p (fun v => v <| on_send_list := false |>) ;;;
    let* d := get_sender i in
    let* l := lift (tailq_remove p (send_list d)) in
    upd_sender i (fun d => d <| send_list := l |> <| send_list_cnt := send_list_cnt d - 1 |>)
  else ret tt.

Definition RemoveFromACKList (p : ptr) : M unit :=
  let* i := the_sender p in
  let* s := get_stream p in
  if on_ack_list (sndvar s) then
    upd_snd p (fun v => v <| on_ack_list := false |>) ;;;
    let* d := get_sender i in
    let* l := lift (tailq_remove p (ack_list d)) in
    upd_sender i (fun d => d <| ack_list := l |> <| ack_list_cnt := ack_list_cnt d - 1 |>)
  else ret tt.

Inductive ack_opt := ACK_OPT_NOW | ACK_OPT_AGGREGATE | ACK_OPT_WACK.

(** [ack_cnt] is a 6-bit field; the test before the increment is made on
    promoted integers. *)
Definition EnqueueACK (p : ptr) (cur_ts : Z) (opt : ack_opt) : M unit :=
  let* s := get_stream p in
  let c := ack_cnt (sndvar s) in
  (match opt with
   | ACK_OPT_NOW =>
       if c <? c + 1 then upd_snd p (fun v => v <| ack_cnt := (c + 1) mod 64 |>) else ret tt
   | ACK_OPT_AGGREGATE =>
       if c =? 0 then upd_snd p (fun v => v <| ack_cnt := 1 |>) else ret tt
   | ACK_OPT_WACK => upd_snd p (fun v => v <| is_wack := true |>)
   end) ;;;
  AddtoACKList p.

(** ** The retransmission store *)

Definition rto_slot (m : mtcp_manager) (i : Z) : list ptr := default [] (rto_list (rto_store m) !! i).
Definition upd_slot (i : Z) (l : list ptr) : M unit :=
  modify (fun m => m <| rto_store; rto_list := <[i := l]> (rto_list (rto_store m)) |>).

Definition AddtoRTOList (p : ptr) : M unit :=
  let* s := get_stream p in
  let* cnt := gets rto_list_cnt in
  when (cnt =? 0)
    (modify (fun m => m <| rto_store; rto_now_idx := 0 |>
                        <| rto_store; rto_now_ts := ts_rto (sndvar s) |>)) ;;;
  if on_rto_idx s <? 0 then
    if on_timewait_list s then ret tt
    else
      let* st := gets rto_store in
      let diff := s32 (ts_rto (sndvar s) - rto_now_ts st) in
      let offset := if diff <? RTO_HASH then u32 (diff + rto_now_idx st) mod RTO_HASH else RTO_HASH in
      upd_stream p (fun s => s <| on_rto_idx := offset |>) ;;;
      let* l := gets (fun m => rto_slot m offset) in
      upd_slot offset (l ++ [p]) ;;;
      modify (fun m => m <| rto_list_cnt := rto_list_cnt m + 1 |>)
  else ret tt.

Definition RemoveFromRTOList (p : ptr) : M unit :=
  let* s := get_stream p in
  if on_rto_idx s <? 0 then ret tt
  else
    let* l := gets (fun m => rto_slot m (on_rto_idx s)) in
    let* l := lift (tailq_remove p l) in
    upd_slot (on_rto_idx s) l ;;;
    upd_stream p (fun s => s <| on_rto_idx := -1 |>) ;;;
    modify (fun m => m <| rto_list_cnt := rto_list_cnt m - 1 |>).

(** ** The TIME_WAIT and timeout lists *)

Definition AddtoTimewaitList (p : ptr) (cur_ts : Z) : M unit :=
  upd_rcv p (fun r => r <| ts_tw_expire := u32 (cur_ts + tcp_timewait) |>) ;;;
  let* s := get_stream p in
  if on_timewait_list s then
    let* l := gets timewait_list in
    let* l := lift (tailq_remove p l) in
    modify (fun m => m <| timewait_list := l ++ [p] |>)
  else
    when (0 <=? on_rto_idx s) (RemoveFromRTOList p) ;;;
    upd_stream p (fun s => s <| on_timewait_list := true |>) ;;;
    modify (fun m => m <| timewait_list := timewait_list m ++ [p] |>
                       <| timewait_list_cnt := timewait_list_cnt m + 1 |>).

Definition RemoveFromTimewaitList (p : ptr) : M unit :=
  let* s := get_stream p in
  if negb (on_timewait_list s) then throw AssertFailed
  else
    let* l := gets timewait_list in
    let* l := lift (tailq_remove p l) in
    modify (fun m => m <| timewait_list := l |>) ;;;
    upd_stream p (fun s => s <| on_timewait_list := false |>) ;;;
    modify (fun m => m <| timewait_list_cnt := timewait_list_cnt m - 1 |>).

Definition AddtoTimeoutList (p : ptr) : M unit :=
  let* s := get_stream p in
  if on_timeout_list s then throw AssertFailed
  else
    upd_stream p (fun s => s <| on_timeout_list := true |>) ;;;
    modify (fun m => m <| timeout_list := timeout_list m ++ [p] |>
                       <| timeout_list_cnt := timeout_list_cnt m + 1 |>).

Definition RemoveFromTimeoutList (p : ptr) : M unit :=
  let* s := get_stream p in
  if on_timeout_list s then
    upd_stream p (fun s => s <| on_timeout_list := false |>) ;;;
    let* l := gets timeout_list in
    let* l := lift (tailq_remove p l) in
    modify (fun m => m <| timeout_list := l |> <| timeout_list_cnt := timeout_list_cnt m - 1 |>)
  else ret tt.

Definition UpdateTimeoutList (p : ptr) : M unit :=
  let* s := get_stream p in
  if on_timeout_list s then
    let* l := gets timeout_list in
    let* l := lift (tailq_remove p l) in
    modify (fun m => m <| timeout_list := l ++ [p] |>)
  else ret tt.

Definition UpdateRetransmissionTimer (p : ptr) (cur_ts : Z) : M unit :=
  let* s := get_stream p in
  assert (0 <? rto (sndvar s)) ;;;
  upd_snd p (fun v => v <| nrtx := 0 |>) ;;;
  when (0 <=? on_rto_idx s) (RemoveFromRTOList p) ;;;
  if TCP_SEQ_GT (snd_nxt s) (snd_una (sndvar s)) then
    upd_snd p (fun v => v <| ts_rto := u32 (cur_ts + rto (sndvar s)) |>) ;;;
    AddtoRTOList p
  else ret tt.
End lists.
