(* ===== verification/TcpOptions.v ===== *)
(** * TCP options: the parsers of [tcp_util.c] and the generators of [tcp_out.c]

    [mem] holds the bytes from the first option byte to the end of the packet
    buffer and [len] is the length of the option area; the parsers can read
    past [len], and past the buffer. *)

From S2P Require Import Prelude SpscQueue Machine.

Definition TCP_OPT_END : Z := 0.
Definition TCP_OPT_NOP : Z := 1.
Definition TCP_OPT_MSS : Z := 2.
Definition TCP_OPT_WSCALE : Z := 3.
Definition TCP_OPT_SACK_PERMIT : Z := 4.
Definition TCP_OPT_TIMESTAMP : Z := 8.
Definition TCP_OPT_MSS_LEN : Z := 4.
Definition TCP_OPT_WSCALE_LEN : Z := 3.
Definition TCP_OPT_TIMESTAMP_LEN : Z := 10.

(** ** Reading memory *)

Definition rd (mem : list Z) (i : Z) : res Z := from_option_res OutOfBounds (znth mem i).

(** [ntohl] of the word at [i]. *)
Definition rd32 (mem : list Z) (i : Z) : res Z :=
  let! a := rd mem i in let! b := rd mem (i + 1) in
  let! c := rd mem (i + 2) in let! d := rd mem (i + 3) in
  Ok (a * 16777216 + b * 65536 + c * 256 + d).

(** ** Parsing *)

Fixpoint parse_options (fuel : nat) (cur_ts : Z) (mem : list Z) (len i : Z) (s : tcp_stream) : res tcp_stream :=
  match fuel with
  | O => Fault OutOfFuel
  | S fuel =>
      if negb (i <? len) then Ok s
      else
        let! opt := rd mem i in
        let i := i + 1 in
        if opt =? TCP_OPT_END then Ok s
        else if opt =? TCP_OPT_NOP then parse_options fuel cur_ts mem len i s
        else
          let! optlen := rd mem i in
          let i := i + 1 in
          if u32 len <? u32 (i + optlen - 2) then Ok s
          else if opt =? TCP_OPT_MSS then
            let! hi := rd mem i in
            let! lo := rd mem (i + 1) in
            let mss' := u16 (u16 (Z.shiftl hi 8) + lo) in
            parse_options fuel cur_ts mem len (i + 2)
              (s <| sndvar; mss := mss' |>
                 <| sndvar; eff_mss := u16 (mss' - (TCP_OPT_TIMESTAMP_LEN + 2)) |>)
          else if opt =? TCP_OPT_WSCALE then
            let! w := rd mem i in
            parse_options fuel cur_ts mem len (i + 1) (s <| sndvar; wscale_peer := w |>)
          else if opt =? TCP_OPT_SACK_PERMIT then
            parse_options fuel cur_ts mem len i (s <| sack_permit := true |>)
          else if opt =? TCP_OPT_TIMESTAMP then
            let! v := rd32 mem i in
            parse_options fuel cur_ts mem len (i + 8)
              (s <| saw_timestamp := true |> <| rcvvar; ts_recent := v |>
                 <| rcvvar; ts_last_ts_upd := cur_ts |>)
          else parse_options fuel cur_ts mem len (s32 (i + u32 (optlen - 2))) s
  end.

(** One more iteration than there are option bytes. *)
Definition opt_fuel (len : Z) : nat := S (Z.to_nat len).

Definition ParseTCPOptions (cur_ts : Z) (mem : list Z) (len : Z) (s : tcp_stream) : res tcp_stream :=
  parse_options (opt_fuel len) cur_ts mem len 0 s.

Fixpoint parse_timestamp (fuel : nat) (mem : list Z) (len i : Z) : res (option (Z * Z)) :=
  match fuel with
  | O => Fault OutOfFuel
  | S fuel =>
      if negb (i <? len) then Ok None
      else
        let! opt := rd mem i in
        let i := i + 1 in
        if opt =? TCP_OPT_END then Ok None
        else if opt =? TCP_OPT_NOP then parse_timestamp fuel mem len i
        else
          let! optlen := rd mem i in
          let i := i + 1 in
          if u32 len <? u32 (i + optlen - 2) then Ok None
          else if opt =? TCP_OPT_TIMESTAMP then
            let! v := rd32 mem i in
            let! r := rd32 mem (i + 4) in
            Ok (Some (v, r))
          else parse_timestamp fuel mem len (s32 (i + u32 (optlen - 2)))
  end.

(** [ts_val] and [ts_ref], or [None] for FALSE. *)
Definition ParseTCPTimestamp (mem : list Z) (len : Z) : res (option (Z * Z)) :=
  parse_timestamp (opt_fuel len) mem len 0.

(** ** Generating *)

Definition CalculateOptionLength (flags : Z) : res Z :=
  let optlen :=
    if has flags TCP_FLAG_SYN
    then TCP_OPT_MSS_LEN + TCP_OPT_TIMESTAMP_LEN + 2 + (TCP_OPT_WSCALE_LEN + 1)
    else TCP_OPT_TIMESTAMP_LEN + 2 in
  if optlen mod 4 =? 0 then Ok optlen else Fault AssertFailed.

(** The bytes of a word stored in network order. *)
Definition be32 (x : Z) : list Z := [x / 16777216 mod 256; x / 65536 mod 256; x / 256 mod 256; x mod 256].

Definition GenerateTCPTimestamp (s : tcp_stream) (cur_ts : Z) : list Z :=
  [TCP_OPT_TIMESTAMP; TCP_OPT_TIMESTAMP_LEN] ++ be32 cur_ts ++ be32 (ts_recent (rcvvar s)).

Definition GenerateTCPOptions (s : tcp_stream) (cur_ts flags optlen : Z) : res (list Z) :=
  let l :=
    if has flags TCP_FLAG_SYN then
      [TCP_OPT_MSS; TCP_OPT_MSS_LEN; Z.shiftr (mss (sndvar s)) 8 mod 256; mss (sndvar s) mod 256] ++
      [TCP_OPT_NOP; TCP_OPT_NOP] ++ GenerateTCPTimestamp s cur_ts ++
      [TCP_OPT_NOP; TCP_OPT_WSCALE; TCP_OPT_WSCALE_LEN; wscale_mine (sndvar s)]
    else [TCP_OPT_NOP; TCP_OPT_NOP] ++ GenerateTCPTimestamp s cur_ts in
  if zlen l =? optlen then Ok l else Fault AssertFailed.

(** ** One option at a time *)

Lemma rd32_be32 mem i x :
  0 <= x < 4294967296 ->
  znth mem i = znth (be32 x) 0 -> znth mem (i + 1) = znth (be32 x) 1 ->
  znth mem (i + 2) = znth (be32 x) 2 -> znth mem (i + 3) = znth (be32 x) 3 -> rd32 mem i = Ok x.
Proof.
  intros Hx H0 H1 H2 H3. unfold rd32, rd. rewrite H0, H1, H2, H3. unfold znth, be32. simpl. f_equal. wrap_lia.
Qed.

Section steps.
Context (cur_ts : Z) (mem : list Z) (len i : Z).
Hypothesis (Hi : 0 <= i) (Hlen : len < 2147483648).

(** The bound check on an option of length [n] that fits. *)
Lemma fits n : 2 <= n -> i + n <= len -> (u32 len <? u32 (i + 1 + 1 + n - 2)) = false.
Proof using Hi Hlen. intros. rewrite !u32_small by lia. apply Z.ltb_ge. lia. Qed.

Lemma options_done fuel s : len <= i -> parse_options (S fuel) cur_ts mem len i s = Ok s.
Proof using Hi Hlen. intros. cbn [parse_options]. by destruct (Z.ltb_spec i len); [lia|]. Qed.

Lemma options_nop fuel s :
  i < len -> znth mem i = Some TCP_OPT_NOP ->
  parse_options (S fuel) cur_ts mem len i s = parse_options fuel cur_ts mem len (i + 1) s.
Proof using Hi Hlen.
  intros ? H. cbn [parse_options]. destruct (Z.ltb_spec i len); [|lia]. unfold rd. by rewrite H.
Qed.

Lemma options_mss fuel s hi lo :
  i + 4 <= len -> znth mem i = Some TCP_OPT_MSS -> znth mem (i + 1) = Some TCP_OPT_MSS_LEN ->
  znth mem (i + 1 + 1) = Some hi -> znth mem (i + 1 + 1 + 1) = Some lo ->
  0 <= hi < 256 -> 0 <= lo < 256 ->
  parse_options (S fuel) cur_ts mem len i s =
  parse_options fuel cur_ts mem len (i + 4)
    (s <| sndvar; mss := 256 * hi + lo |> <| sndvar; eff_mss := u16 (256 * hi + lo - 12) |>).
Proof using Hi Hlen.
  intros ? H0 H1 H2 H3 ? ?. cbn [parse_options]. destruct (Z.ltb_spec i len); [|lia]. unfold rd.
  rewrite H0. cbn -[Z.add Z.sub u32 u16 parse_options Z.shiftl]. rewrite H1. cbn -[Z.add Z.sub u32 u16 parse_options Z.shiftl].
  rewrite fits by (unfold TCP_OPT_MSS_LEN; lia). rewrite H2. cbn -[Z.add Z.sub u32 u16 parse_options Z.shiftl].
  rewrite H3. cbn -[Z.add Z.sub u32 u16 parse_options Z.shiftl].
  rewrite Z.shiftl_mul_pow2 by lia. change (2 ^ 8) with 256.
  replace (u16 (u16 (hi * 256) + lo)) with (256 * hi + lo) by wrap_lia.
  change (TCP_OPT_TIMESTAMP_LEN + 2) with 12. f_equal. lia.
Qed.

Lemma options_wscale fuel s w :
  i + 3 <= len -> znth mem i = Some TCP_OPT_WSCALE -> znth mem (i + 1) = Some TCP_OPT_WSCALE_LEN ->
  znth mem (i + 1 + 1) = Some w ->
  parse_options (S fuel) cur_ts mem len i s =
  parse_options fuel cur_ts mem len (i + 3) (s <| sndvar; wscale_peer := w |>).
Proof using Hi Hlen.
  intros ? H0 H1 H2. cbn [parse_options]. destruct (Z.ltb_spec i len); [|lia]. unfold rd.
  rewrite H0. cbn -[Z.add Z.sub u32 parse_options]. rewrite H1. cbn -[Z.add Z.sub u32 parse_options].
  rewrite fits by (unfold TCP_OPT_WSCALE_LEN; lia). rewrite H2. cbn -[Z.add parse_options]. f_equal. lia.
Qed.

Lemma options_timestamp fuel s v :
  i + 10 <= len -> znth mem i = Some TCP_OPT_TIMESTAMP -> znth mem (i + 1) = Some TCP_OPT_TIMESTAMP_LEN ->
  rd32 mem (i + 1 + 1) = Ok v ->
  parse_options (S fuel) cur_ts mem len i s =
  parse_options fuel cur_ts mem len (i + 10)
    (s <| saw_timestamp := true |> <| rcvvar; ts_recent := v |> <| rcvvar; ts_last_ts_upd := cur_ts |>).
Proof using Hi Hlen.
  intros ? H0 H1 H2. cbn [parse_options]. destruct (Z.ltb_spec i len); [|lia]. unfold rd.
  rewrite H0. cbn -[Z.add Z.sub u32 parse_options rd32]. rewrite H1. cbn -[Z.add Z.sub u32 parse_options rd32].
  rewrite fits by (unfold TCP_OPT_TIMESTAMP_LEN; lia). rewrite H2. cbn -[Z.add parse_options]. f_equal. lia.
Qed.

Lemma timestamp_nop fuel :
  i < len -> znth mem i = Some TCP_OPT_NOP ->
  parse_timestamp (S fuel) mem len i = parse_timestamp fuel mem len (i + 1).
Proof using Hi Hlen.
  intros ? H. cbn [parse_timestamp]. destruct (Z.ltb_spec i len); [|lia]. unfold rd. by rewrite H.
Qed.

Lemma timestamp_found fuel v r :
  i + 10 <= len -> znth mem i = Some TCP_OPT_TIMESTAMP -> znth mem (i + 1) = Some TCP_OPT_TIMESTAMP_LEN ->
  rd32 mem (i + 1 + 1) = Ok v -> rd32 mem (i + 1 + 1 + 4) = Ok r ->
  parse_timestamp (S fuel) mem len i = Ok (Some (v, r)).
Proof using Hi Hlen.
  intros ? H0 H1 H2 H3. cbn [parse_timestamp]. destruct (Z.ltb_spec i len); [|lia]. unfold rd.
  rewrite H0. cbn -[Z.add Z.sub u32 rd32]. rewrite H1. cbn -[Z.add Z.sub u32 rd32].
  rewrite fits by (unfold TCP_OPT_TIMESTAMP_LEN; lia). rewrite H2. cbn -[Z.add rd32]. by rewrite H3.
Qed.
End steps.

(** ** Round trips *)

(** What a peer learns from the options of a SYN. *)
Definition learn_syn (s peer : tcp_stream) (ts cur_ts : Z) : tcp_stream :=
  peer <| sndvar; mss := mss (sndvar s) |> <| sndvar; eff_mss := u16 (mss (sndvar s) - 12) |>
       <| saw_timestamp := true |> <| rcvvar; ts_recent := ts |> <| rcvvar; ts_last_ts_upd := cur_ts |>
       <| sndvar; wscale_peer := wscale_mine (sndvar s) |>.

(** C31: The options generated for a SYN, whatever bytes follow them in the
    packet, are parsed back by the peer: maximum segment size (and effective
    size 12 less), timestamp and window scale; those of any other segment
    yield the sender's timestamp and the echoed one. *)
Theorem options_roundtrip s peer ts cur_ts flags rest :
  0 <= mss (sndvar s) < 65536 -> 0 <= ts < 4294967296 -> 0 <= ts_recent (rcvvar s) < 4294967296 ->
  exists optlen l, CalculateOptionLength flags = Ok optlen /\
    GenerateTCPOptions s ts flags optlen = Ok l /\ zlen l = optlen /\
    if has flags TCP_FLAG_SYN
    then ParseTCPOptions cur_ts (l ++ rest) (zlen l) peer = Ok (learn_syn s peer ts cur_ts)
    else ParseTCPTimestamp (l ++ rest) (zlen l) = Ok (Some (ts, ts_recent (rcvvar s))).
Proof.
  intros Hm Ht Hr. unfold CalculateOptionLength, GenerateTCPOptions.
  destruct (has flags TCP_FLAG_SYN); eexists _, _; (split; [reflexivity|]); (split; [reflexivity|]);
    (split; [reflexivity|]).
  - unfold ParseTCPOptions. set (l := _ ++ rest). change (zlen _) with 20.
    change (opt_fuel 20) with (S (S (S (S (S (S (S 14))))))).
    rewrite (options_mss cur_ts l 20 0 ltac:(lia) ltac:(lia) _ _ (Z.shiftr (mss (sndvar s)) 8 mod 256)
      (mss (sndvar s) mod 256)) by (reflexivity || lia || wrap_lia).
    rewrite (options_nop cur_ts l 20 (0 + 4)) by (reflexivity || lia).
    rewrite (options_nop cur_ts l 20 (0 + 4 + 1)) by (reflexivity || lia).
    rewrite (options_timestamp cur_ts l 20 (0 + 4 + 1 + 1) ltac:(lia) ltac:(lia) _ _ ts)
      by (reflexivity || lia || by apply rd32_be32).
    rewrite (options_nop cur_ts l 20 (0 + 4 + 1 + 1 + 10)) by (reflexivity || lia).
    rewrite (options_wscale cur_ts l 20 (0 + 4 + 1 + 1 + 10 + 1) ltac:(lia) ltac:(lia) _ _ (wscale_mine (sndvar s)))
      by (reflexivity || lia).
    rewrite options_done by lia.
    replace (256 * (Z.shiftr (mss (sndvar s)) 8 mod 256) + mss (sndvar s) mod 256) with (mss (sndvar s))
      by (rewrite Z.shiftr_div_pow2 by lia; change (2 ^ 8) with 256; wrap_lia).
    reflexivity.
  - unfold ParseTCPTimestamp. set (l := _ ++ rest). change (zlen _) with 12.
    change (opt_fuel 12) with (S (S (S 10))).
    rewrite (timestamp_nop l 12 0) by (reflexivity || lia).
    rewrite (timestamp_nop l 12 (0 + 1)) by (reflexivity || lia).
    apply (timestamp_found l 12 (0 + 1 + 1)); try lia; try reflexivity; by apply rd32_be32.
Qed.

Lemma options_roundtrip_witness :
  let s := zero_stream <| sndvar; mss := 1460 |> <| sndvar; wscale_mine := 7 |> in
  exists optlen l, CalculateOptionLength TCP_FLAG_SYN = Ok optlen /\
    GenerateTCPOptions s 77 TCP_FLAG_SYN optlen = Ok l /\ zlen l = optlen /\
    ParseTCPOptions 99 (l ++ [5; 5]) (zlen l) zero_stream = Ok (learn_syn s zero_stream 77 99).
Proof. intros s. apply (options_roundtrip s zero_stream 77 99 TCP_FLAG_SYN [5; 5]); simpl; lia. Defined.

(** ** Termination *)

(** An option area as RFC 793 describes it: single-byte options, and options
    with a length byte that counts kind and length; a timestamp has length 10. *)
Inductive wf_opts : list Z -> Prop :=
| wf_nil : wf_opts []
| wf_end l : wf_opts (TCP_OPT_END :: l)
| wf_nop l : wf_opts l -> wf_opts (TCP_OPT_NOP :: l)
| wf_opt k n d l :
    k <> TCP_OPT_END -> k <> TCP_OPT_NOP -> 2 <= n < 256 -> zlen d = n - 2 ->
    (k = TCP_OPT_TIMESTAMP -> n = TCP_OPT_TIMESTAMP_LEN) ->
    wf_opts l -> wf_opts (k :: n :: d ++ l).

Lemma rd32_in mem i : 0 <= i -> i + 4 <= zlen mem -> exists v, rd32 mem i = Ok v.
Proof.
  intros. unfold rd32, rd.
  destruct (znth_is_Some mem i) as [a ->]; [lia|]. destruct (znth_is_Some mem (i + 1)) as [b ->]; [lia|].
  destruct (znth_is_Some mem (i + 2)) as [c ->]; [lia|]. destruct (znth_is_Some mem (i + 3)) as [d ->]; [lia|].
  by eexists.
Qed.

Lemma znth_at {A} (pre post : list A) (x : A) : znth (pre ++ x :: post) (zlen pre) = Some x.
Proof. rewrite znth_app, Z.ltb_irrefl, Z.sub_diag. done. Qed.

Lemma wf_area_parsed opts : wf_opts opts -> forall pre rest fuel,
  (length opts < fuel)%nat -> zlen pre + zlen opts < 2147483648 ->
  exists r, parse_timestamp fuel (pre ++ opts ++ rest) (zlen pre + zlen opts) (zlen pre) = Ok r.
Proof.
  induction 1 as [|l|l Hl IH|k n d l Hk0 Hk1 Hn Hd Hts Hl IH]; intros pre rest fuel Hf Hlen;
    (destruct fuel as [|fuel]; [simpl in Hf; lia|]); cbn [parse_timestamp];
    pose proof (zlen_nonneg pre).
  - rewrite Z.add_0_r, Z.ltb_irrefl. by eexists.
  - rewrite zlen_cons in *. pose proof (zlen_nonneg l). destruct (Z.ltb_spec (zlen pre) (zlen pre + (zlen l + 1))); [|lia].
    unfold rd. rewrite <- app_comm_cons, znth_at. by eexists.
  - rewrite zlen_cons in *. pose proof (zlen_nonneg l). destruct (Z.ltb_spec (zlen pre) (zlen pre + (zlen l + 1))); [|lia].
    unfold rd. rewrite <- app_comm_cons, znth_at. cbn -[Z.add zlen parse_timestamp].
    destruct (IH (pre ++ [TCP_OPT_NOP]) rest fuel) as (r & Hr); [simpl in Hf; lia|rewrite zlen_app; change (zlen [_]) with 1; lia|].
    exists r. rewrite <- Hr, zlen_app, <- app_assoc. change (zlen [_]) with 1. f_equal; lia.
  - rewrite !zlen_cons, zlen_app in *. pose proof (zlen_nonneg l). rewrite Hd in *.
    set (mem := pre ++ (k :: n :: d ++ l) ++ rest) in *.
    assert (znth mem (zlen pre) = Some k) as E0 by apply znth_at.
    assert (znth mem (zlen pre + 1) = Some n) as E1.
    { unfold mem. change ((k :: n :: d ++ l) ++ rest) with ([k] ++ (n :: (d ++ l) ++ rest)).
      rewrite app_assoc. replace (zlen pre + 1) with (zlen (pre ++ [k])) by (by rewrite zlen_app). apply znth_at. }
    assert (zlen pre + n <= zlen mem).
    { unfold mem. rewrite !zlen_app, !zlen_cons, zlen_app. pose proof (zlen_nonneg rest). lia. }
    destruct (Z.ltb_spec (zlen pre) (zlen pre + (n - 2 + zlen l + 1 + 1))); [|lia].
    unfold rd. rewrite E0. cbn [from_option_res res_bind negb].
    destruct (Z.eqb_spec k TCP_OPT_END); [done|]. destruct (Z.eqb_spec k TCP_OPT_NOP); [done|].
    rewrite E1. cbn [from_option_res res_bind]. rewrite fits by lia.
    destruct (Z.eqb_spec k TCP_OPT_TIMESTAMP) as [Ek|].
    + specialize (Hts Ek). unfold TCP_OPT_TIMESTAMP_LEN in Hts.
      destruct (rd32_in mem (zlen pre + 1 + 1)) as [v ->]; [lia|lia|].
      destruct (rd32_in mem (zlen pre + 1 + 1 + 4)) as [v' ->]; [lia|lia|]. by eexists.
    + destruct (IH (pre ++ k :: n :: d) rest fuel) as (r & Hr).
      { simpl in Hf. rewrite length_app in Hf. lia. }
      { rewrite zlen_app, !zlen_cons. lia. }
      exists r. rewrite <- Hr, zlen_app, !zlen_cons, Hd. unfold mem. rewrite <- app_assoc.
      change ((k :: n :: d) ++ l ++ rest) with ([k; n] ++ (d ++ (l ++ rest))).
      change ((k :: n :: d ++ l) ++ rest) with ([k; n] ++ (d ++ l) ++ rest). rewrite <- (app_assoc d).
      f_equal; [lia|]. rewrite u32_small, s32_small by lia. lia.
Qed.

(** On a well-formed option area, [ParseTCPTimestamp] returns after at
    most one iteration per byte, reading only inside the packet. *)
Theorem timestamp_terminates opts rest :
  wf_opts opts -> zlen opts < 2147483648 ->
  exists r, ParseTCPTimestamp (opts ++ rest) (zlen opts) = Ok r.
Proof.
  intros Hw Hl. apply (wf_area_parsed opts Hw [] rest); [|done].
  unfold opt_fuel, zlen in *. lia.
Qed.

Lemma timestamp_terminates_witness :
  exists r, ParseTCPTimestamp ([1; 30; 4; 9; 9; 8; 10; 0; 0; 0; 1; 0; 0; 0; 2] ++ [7]) 15 = Ok r /\ r = Some (1, 2).
Proof.
  assert (wf_opts [1; 30; 4; 9; 9; 8; 10; 0; 0; 0; 1; 0; 0; 0; 2]) as Hw.
  { apply wf_nop, (wf_opt 30 4 [9; 9] _); try done. apply (wf_opt 8 10 [0; 0; 0; 1; 0; 0; 0; 2] []); try done. constructor. }
  destruct (timestamp_terminates _ [7] Hw) as [r Hr]; [done|]. exists r. split; [exact Hr|].
  vm_compute in Hr. congruence.
Defined.

(** C38: An option of an unknown kind with length 0 makes no progress: on such
    a packet [ParseTCPTimestamp] iterates for ever. *)
Theorem zero_length_option_diverges k mem len fuel :
  k <> TCP_OPT_END -> k <> TCP_OPT_NOP -> k <> TCP_OPT_TIMESTAMP -> 2 <= len < 2147483648 ->
  parse_timestamp fuel (k :: 0 :: mem) len 0 = Fault OutOfFuel.
Proof.
  intros H0 H1 H8 Hl. induction fuel as [|fuel IH]; [done|]. cbn [parse_timestamp].
  destruct (Z.ltb_spec 0 len); [|lia]. change (rd (k :: 0 :: mem) 0) with (Ok k).
  change (rd (k :: 0 :: mem) (0 + 1)) with (Ok 0). cbn [res_bind negb].
  destruct (Z.eqb_spec k TCP_OPT_END); [done|]. destruct (Z.eqb_spec k TCP_OPT_NOP); [done|].
  change (u32 (0 + 1 + 1 + 0 - 2)) with 0. rewrite u32_small by lia. destruct (Z.ltb_spec len 0); [lia|].
  destruct (Z.eqb_spec k TCP_OPT_TIMESTAMP); [done|]. exact IH.
Qed.

Lemma zero_length_option_diverges_witness :
  parse_timestamp 1000 [30; 0; 0; 0] 4 0 = Fault OutOfFuel.
Proof. apply (zero_length_option_diverges 30 [0; 0] 4 1000); (discriminate || lia). Defined.
