(* ===== verification/FlowTable.v ===== *)
(** * Flow table, listener table and events

    The hash tables of [fhash.c], the flow hash and equality of [tcp_stream.c],
    the event raising functions of [tcp_stream.c] and [AddEpollEvent] of
    [eventpoll.c]. *)

From S2P Require Import Prelude SpscQueue Rss Machine.

Definition NUM_BINS_FLOWS : Z := 131072.
Definition NUM_BINS_LISTENERS : Z := 1024.
Definition TCP_AR_CNT : Z := 3.

(** ** Flow keys *)

Record flow_key := mkFlow { fk_saddr : Z; fk_daddr : Z; fk_sport : Z; fk_dport : Z }.
#[global] Instance flow_key_eq_dec : EqDecision flow_key.
Proof. solve_decision. Defined.

Definition flow_of (s : tcp_stream) : flow_key := mkFlow (saddr s) (daddr s) (sport s) (dport s).

(** The 12 bytes from [&flow->saddr], on a little-endian machine. *)
Definition le_bytes (n : nat) (x : Z) : list Z := (fun i : nat => x / 2 ^ (8 * Z.of_nat i) mod 256) <$> seq 0 n.
Definition flow_bytes (f : flow_key) : list Z :=
  le_bytes 4 (fk_saddr f) ++ le_bytes 4 (fk_daddr f) ++ le_bytes 2 (fk_sport f) ++ le_bytes 2 (fk_dport f).

(** [char] is signed. *)
Definition schar (b : Z) : Z := if b <? 128 then b else b - 256.

Definition hash_round (hash : Z) (b : Z) : Z :=
  let hash := u32 (hash + schar b) in
  let hash := u32 (hash + Z.shiftl hash 10) in
  Z.lxor hash (Z.shiftr hash 6).

Definition HashFlow (f : flow_key) : Z :=
  let hash := foldl hash_round 0 (flow_bytes f) in
  let hash := u32 (hash + Z.shiftl hash 3) in
  let hash := Z.lxor hash (Z.shiftr hash 11) in
  let hash := u32 (hash + Z.shiftl hash 15) in
  Z.land hash (NUM_BINS_FLOWS - 1).

Lemma HashFlow_range f : 0 <= HashFlow f < NUM_BINS_FLOWS.
Proof.
  unfold HashFlow, NUM_BINS_FLOWS. change (131072 - 1) with (Z.ones 17). rewrite Z.land_ones by lia.
  apply Z.mod_pos_bound. lia.
Qed.
#[global] Opaque HashFlow.

Definition EqualFlow (f1 f2 : flow_key) : bool :=
  (fk_saddr f1 =? fk_saddr f2) && (fk_sport f1 =? fk_sport f2) &&
  (fk_daddr f1 =? fk_daddr f2) && (fk_dport f1 =? fk_dport f2).

(** ** The flow table *)

Definition bucket (t : gmap Z (list ptr)) (i : Z) : list ptr := default [] (t !! i).

Definition StreamHTInsert (p : ptr) : M Z :=
  let* s := get_stream p in
  let idx := HashFlow (flow_of s) in
  assert ((0 <=? idx) && (idx <? NUM_BINS_FLOWS)) ;;;
  modify (fun m => m <| tcp_flow_table := <[idx := bucket (tcp_flow_table m) idx ++ [p]]> (tcp_flow_table m) |>) ;;;
  upd_stream p (fun s => s <| ht_idx := TCP_AR_CNT |>) ;;;
  ret 0.

Definition StreamHTRemove (p : ptr) : M unit :=
  let* s := get_stream p in
  let idx := HashFlow (flow_of s) in
  let* l := gets (fun m => bucket (tcp_flow_table m) idx) in
  let* l := lift (tailq_remove p l) in
  modify (fun m => m <| tcp_flow_table := <[idx := l]> (tcp_flow_table m) |>).

(** The walk along a bucket. *)
Fixpoint ht_walk (f : flow_key) (l : list ptr) : M (option ptr) :=
  match l with
  | [] => ret None
  | walk :: next =>
      let* s := get_stream walk in
      if EqualFlow (flow_of s) f then ret (Some walk) else ht_walk f next
  end.

Definition StreamHTSearch (f : flow_key) : M (option ptr) :=
  let* l := gets (fun m => bucket (tcp_flow_table m) (HashFlow f)) in ht_walk f l.

(** ** The listener table *)

Definition get_socket (i : Z) : M socket_map :=
  fun m => match sockets m !! i with Some s => Ok (s, m) | None => Fault NullDeref end.
Definition upd_socket (i : Z) (f : socket_map -> socket_map) : M unit :=
  fun m => match sockets m !! i with
           | Some s => Ok (tt, m <| sockets := <[i := f s]> (sockets m) |>)
           | None => Fault NullDeref
           end.
Definition get_listener (l : ptr) : M tcp_listener :=
  fun m => match listener_store m !! l with Some s => Ok (s, m) | None => Fault UseAfterFree end.
Definition upd_listener (l : ptr) (f : tcp_listener -> tcp_listener) : M unit :=
  fun m => match listener_store m !! l with
           | Some s => Ok (tt, m <| listener_store := <[l := f s]> (listener_store m) |>)
           | None => Fault UseAfterFree
           end.

Definition HashListener (port : Z) : Z := Z.land port (NUM_BINS_LISTENERS - 1).
Definition EqualListener (port1 port2 : Z) : bool := port1 =? port2.

Definition listener_port (l : ptr) : M Z :=
  let* x := get_listener l in let* s := get_socket (l_socket x) in ret (sk_port s).

Definition ListenerHTInsert (l : ptr) : M Z :=
  let* port := listener_port l in
  let idx := HashListener port in
  assert ((0 <=? idx) && (idx <? NUM_BINS_LISTENERS)) ;;;
  modify (fun m => m <| listeners := <[idx := bucket (listeners m) idx ++ [l]]> (listeners m) |>) ;;;
  ret 0.

Definition ListenerHTRemove (l : ptr) : M unit :=
  let* port := listener_port l in
  let idx := HashListener port in
  let* b := gets (fun m => bucket (listeners m) idx) in
  let* b := lift (tailq_remove l b) in
  modify (fun m => m <| listeners := <[idx := b]> (listeners m) |>).

Fixpoint lt_walk (port : Z) (l : list ptr) : M (option ptr) :=
  match l with
  | [] => ret None
  | walk :: next =>
      let* p := listener_port walk in
      if EqualListener p port then ret (Some walk) else lt_walk port next
  end.

Definition ListenerHTSearch (port : Z) : M (option ptr) :=
  let* l := gets (fun m => bucket (listeners m) (HashListener port)) in lt_walk port l.

(** ** Events *)

Definition get_queue (e : mtcp_epoll) (t : queue_type) : event_queue :=
  match t with
  | USR_EVENT_QUEUE => usr_queue e
  | USR_SHADOW_EVENT_QUEUE => usr_shadow_queue e
  | MTCP_EVENT_QUEUE => mtcp_queue e
  end.
Definition set_queue (e : mtcp_epoll) (t : queue_type) (q : event_queue) : mtcp_epoll :=
  match t with
  | USR_EVENT_QUEUE => e <| usr_queue := q |>
  | USR_SHADOW_EVENT_QUEUE => e <| usr_shadow_queue := q |>
  | MTCP_EVENT_QUEUE => e <| mtcp_queue := q |>
  end.

Definition get_epoll (e : ptr) : M mtcp_epoll :=
  fun m => match epolls m !! e with Some x => Ok (x, m) | None => Fault UseAfterFree end.
Definition set_epoll (e : ptr) (x : mtcp_epoll) : M unit := modify (fun m => m <| epolls := <[e := x]> (epolls m) |>).

(** Append an event; the caller has tested for room. *)
Definition eq_push (q : event_queue) (ev : epoll_event_int) : res event_queue :=
  let! evs := from_option_res OutOfBounds (mem_write (eq_events q) (eq_end q) [ev]) in
  let en := eq_end q + 1 in
  Ok (mkEQ evs (eq_start q) (if eq_size q <=? en then 0 else en) (eq_size q) (num_events q + 1)).

(** [o] is the epoll instance, [sock] the socket's index; -1 answers a missing
    instance or event, or a full queue. *)
Definition AddEpollEvent (o : option ptr) (t : queue_type) (sock : Z) (event : Z) : M Z :=
  match o with
  | None => ret (-1)
  | Some a =>
      if event =? 0 then ret (-1)
      else
        let* sk := get_socket sock in
        let* e := get_epoll a in
        let e := e <| issued := u64 (issued e + 1) |> in
        if negb (Z.land (events sk) event =? 0) then set_epoll a e ;;; ret 0
        else
          let q := get_queue e t in
          if eq_size q <=? num_events q then set_epoll a e ;;; ret (-1)
          else
            let* q := lift (eq_push q (mkEv event (ep_data sk) (sk_id sk))) in
            upd_socket sock (fun s => s <| events := Z.lor (events s) event |>) ;;;
            set_epoll a (set_queue e t q <| registered := u64 (registered e + 1) |>) ;;;
            ret 0
  end.

(** An event for the instance of the thread, [mtcp->ep]. *)
Definition raise_event (t : queue_type) (sock : Z) (event : Z) : M unit :=
  let* o := gets ep in AddEpollEvent o t sock event ;;; ret tt.

(** An event is raised on the socket of the stream, if it has one and the
    event is registered. *)
Definition RaiseReadEvent (p : ptr) : M unit :=
  let* s := get_stream p in
  match socket s with
  | None => ret tt
  | Some k =>
      let* sk := get_socket k in
      if has (epoll sk) MTCP_EPOLLIN then raise_event MTCP_EVENT_QUEUE k MTCP_EPOLLIN else ret tt
  end.

Definition RaiseWriteEvent (p : ptr) : M unit :=
  let* s := get_stream p in
  match socket s with
  | None => ret tt
  | Some k =>
      let* sk := get_socket k in
      if has (epoll sk) MTCP_EPOLLOUT then raise_event MTCP_EVENT_QUEUE k MTCP_EPOLLOUT else ret tt
  end.

Definition RaiseCloseEvent (p : ptr) : M unit :=
  let* s := get_stream p in
  match socket s with
  | None => ret tt
  | Some k =>
      let* sk := get_socket k in
      if has (epoll sk) MTCP_EPOLLRDHUP then raise_event MTCP_EVENT_QUEUE k MTCP_EPOLLRDHUP
      else if has (epoll sk) MTCP_EPOLLIN then raise_event MTCP_EVENT_QUEUE k MTCP_EPOLLIN
      else ret tt
  end.

Definition RaiseErrorEvent (p : ptr) : M unit :=
  let* s := get_stream p in
  match socket s with
  | None => ret tt
  | Some k =>
      let* sk := get_socket k in
      if has (epoll sk) MTCP_EPOLLERR then raise_event MTCP_EVENT_QUEUE k MTCP_EPOLLERR else ret tt
  end.
