(* ===== verification/Network.v ===== *)
(** * Below TCP: routes, ARP, Ethernet and IP output

    [GetOutputInterface], [IPOutput] and [IPOutputStandalone] of [ip_out.c],
    [EthernetOutput] of [eth_out.c] and the ARP table of [arp.c]. A buffer is
    obtained from the interface by [get_wptr]; the caller then fills it, so
    these functions answer with what the frame header needs. *)

From S2P Require Import Prelude SeqNum SpscQueue Machine.

Section network.
Context `{Env}.

(** The first matching entry decides; [prefix] is still 0 when it is compared. *)
Fixpoint route_walk (da : Z) (l : list route) : Z * bool :=
  match l with
  | [] => (-1, false)
  | e :: l =>
      if Z.land da (rt_mask e) =? rt_masked e then
        if 0 <? rt_prefix e then (rt_nif e, false)
        else match gateway with Some g => (rt_nif g, true) | None => (-1, false) end
      else route_walk da l
  end.

(** Output interface, and whether it is reached through the gateway. *)
Definition GetOutputInterface (da : Z) : res (Z * bool) :=
  let '(nif, ext) := route_walk da rtable in
  if nif <? 0 then Fault AssertFailed else Ok (nif, ext).

(** ** ARP table *)

Fixpoint arp_walk (dip : Z) (l : list arp_entry) (d_haddr : option (list Z)) (prefix : Z) : option (list Z) :=
  match l with
  | [] => d_haddr
  | e :: l =>
      if arp_prefix e =? 1 then
        if arp_ip e =? dip then Some (arp_haddr e) else arp_walk dip l d_haddr prefix
      else if Z.land dip (arp_mask e) =? arp_masked e then
        if prefix <? arp_prefix e then arp_walk dip l (Some (arp_haddr e)) (arp_prefix e)
        else arp_walk dip l d_haddr prefix
      else arp_walk dip l d_haddr prefix
  end.

Definition GetDestinationHWaddr (dip : Z) (is_gateway : bool) : M (option (list Z)) :=
  let* gw := gets arp_gateway in
  let* t := gets arp_table in
  match is_gateway, gw with
  | true, Some g => ret (Some (arp_haddr g))
  | _, _ => ret (arp_walk dip t None 0)
  end.

Definition GetHWaddr (ip : Z) : option (list Z) :=
  snd <$> List.find (fun e => ip =? fst e) eths.

(** The entry is written behind the last one; the code does not compare the
    index with the length of the array. *)
Definition RegisterARPEntry (ip : Z) (haddr : list Z) : M Z :=
  let* t := gets arp_table in
  let e := mkArp ip 32 4294967295 ip haddr in
  if arp_capacity <=? zlen t then throw OutOfBounds
  else
    (match gateway with
     | Some g => when (Z.land (rt_daddr g) (arp_mask e) =? arp_masked e)
                   (modify (fun m => m <| arp_gateway := Some e |>))
     | None => ret tt
     end) ;;;
    modify (fun m => m <| arp_table := arp_table m ++ [e] |>) ;;;
    ret 0.

(** ** Ethernet *)

(** The interface index of the buffer, if one is available. *)
Definition EthernetOutput (nif : Z) : M (option Z) :=
  if nif <? 0 then ret None
  else
    let eidx := nif_to_eidx nif in
    if eidx <? 0 then ret None
    else let* ok := get_wptr in ret (if ok then Some eidx else None).

Definition arp_op_request : Z := 1.
Definition arp_op_reply : Z := 2.

Definition ARPOutput (nif opcode dst_ip : Z) (dst_haddr : option (list Z)) : M Z :=
  match dst_haddr with
  | None => ret (-1)
  | Some d =>
      let* o := EthernetOutput nif in
      match o with
      | None => ret (-1)
      | Some eidx => emit (ArpFrame eidx opcode dst_ip d) ;;; ret 0
      end
  end.

Definition RequestARP (ip nif cur_ts : Z) : M unit :=
  let* q := gets arp_queue in
  if List.existsb (fun e => aq_ip e =? ip) q then ret tt
  else
    modify (fun m => m <| arp_queue := arp_queue m ++ [mkArpQ ip nif cur_ts] |>) ;;;
    ARPOutput nif arp_op_request ip (Some (replicate 6 255)) ;;;
    ret tt.

(** An ARP message: opcode, sender and target. *)
Record arphdr := mkArph { ar_op : Z; ar_sha : list Z; ar_sip : Z; ar_tip : Z }.

Definition learn_sender (a : arphdr) : M unit :=
  let* o := GetDestinationHWaddr (ar_sip a) false in
  match o with
  | None => RegisterARPEntry (ar_sip a) (ar_sha a) ;;; ret tt
  | Some _ => ret tt
  end.

Definition ProcessARPRequest (a : arphdr) (nif cur_ts : Z) : M Z :=
  learn_sender a ;;;
  ARPOutput nif arp_op_reply (ar_sip a) (Some (ar_sha a)) ;;;
  ret 0.

(** The first entry for the sender leaves the queue. *)
Fixpoint drop_request (ip : Z) (q : list arp_queue_entry) : list arp_queue_entry :=
  match q with
  | [] => []
  | e :: q => if aq_ip e =? ip then q else e :: drop_request ip q
  end.

Definition ProcessARPReply (a : arphdr) (cur_ts : Z) : M Z :=
  learn_sender a ;;;
  modify (fun m => m <| arp_queue := drop_request (ar_sip a) (arp_queue m) |>) ;;;
  ret 0.

Definition ProcessARPPacket (nif_of : Z -> Z) (cur_ts ifidx : Z) (a : arphdr) : M bool :=
  if negb (List.existsb (fun e => ar_tip a =? fst e) eths) then ret true
  else
    (if ar_op a =? arp_op_request then ProcessARPRequest a (nif_of ifidx) cur_ts ;;; ret tt
     else if ar_op a =? arp_op_reply then ProcessARPReply a cur_ts ;;; ret tt
     else ret tt) ;;;
    ret true.

Definition ARP_TIMEOUT : Z := 1000.

Definition ARPTimer (cur_ts : Z) : M unit :=
  modify (fun m => m <| arp_queue :=
    filter (fun e => Is_true (negb (TCP_SEQ_GT cur_ts (u32 (aq_ts e + ARP_TIMEOUT))))) (arp_queue m) |>).

(** ** IP *)

Definition gateway_addr (ext : bool) (da : Z) : res Z :=
  if ext then match gateway with Some g => Ok (rt_daddr g) | None => Fault NullDeref end else Ok da.

(** Interface, hardware address and identification for the frame. *)
Definition IPOutputStandalone (da : Z) : M (option (Z * list Z)) :=
  let* (nif, ext) := lift (GetOutputInterface da) in
  let* o := GetDestinationHWaddr da ext in
  match o with
  | None =>
      let* ip := lift (gateway_addr ext da) in
      let* ts := gets m_cur_ts in
      RequestARP ip nif ts ;;; ret None
  | Some haddr =>
      let* e := EthernetOutput nif in
      ret ((fun eidx => (eidx, haddr)) <$> e)
  end.

(** The hardware address and the buffer, the output interface being known. *)
Definition ip_output_via (p : ptr) : M (option (Z * list Z * Z)) :=
  let* s := get_stream p in
  let* o := GetDestinationHWaddr (daddr s) (is_external s) in
  match o with
  | None =>
      let* ip := lift (gateway_addr (is_external s) (daddr s)) in
      let* ts := gets m_cur_ts in
      RequestARP ip (nif_out (sndvar s)) ts ;;; ret None
  | Some haddr =>
      let* e := EthernetOutput (nif_out (sndvar s)) in
      match e with
      | None => ret None
      | Some eidx =>
          let id := ip_id (sndvar s) in
          upd_snd p (fun v => v <| ip_id := u16 (id + 1) |>) ;;;
          ret (Some (eidx, haddr, id))
      end
  end.
Definition IPOutput (p : ptr) : M (option (Z * list Z * Z)) :=
  let* s := get_stream p in
  (if 0 <=? nif_out (sndvar s) then ret tt
   else
     let* (nif, ext) := lift (GetOutputInterface (daddr s)) in
     upd_stream p (fun s => s <| sndvar; nif_out := s8 nif |> <| is_external := ext |>)) ;;;
  ip_output_via p.
End network.
