(* ===== verification/Faults.v ===== *)
(** * Kinds of faults

    Which faults a function can stop with. A [tame] fault is neither a use of
    a destroyed stream, listener or event object nor a corrupted list; a
    [calm] fault is moreover not the end of a loop's fuel. The functions on
    buffers, pools, queues and options have only tame faults: those are found
    by going through their text. *)

From S2P Require Import Prelude SeqNum SpscQueue MemPool RingBuffer SendBuffer AddrPool Rss.
From S2P Require Import Machine Wp Lists TcpOptions FlowTable Network.

Definition tame (e : fault) : Prop := e <> UseAfterFree /\ e <> ListCorrupt.
Definition calm (e : fault) : Prop := tame e /\ e <> OutOfFuel.

Lemma calm_tame e : calm e -> tame e.
Proof. by intros []. Qed.

Definition faults_in {A} (E : fault -> Prop) (r : res A) : Prop := forall e, r = Fault e -> E e.

Section rules.
Context {E : fault -> Prop}.

Lemma faults_ok {A} (a : A) : faults_in E (Ok a).
Proof. by intros e. Qed.

Lemma faults_fault {A} e : E e -> faults_in E (Fault (A := A) e).
Proof. by intros ? e' [= <-]. Qed.

Lemma faults_bind {A B} (c : res A) (k : A -> res B) :
  faults_in E c -> (forall a, faults_in E (k a)) -> faults_in E (res_bind c k).
Proof. intros Hc Hk e. destruct c as [a|e']; simpl; [apply Hk|intros [= <-]; by apply Hc]. Qed.

Lemma faults_from_option {A} e (o : option A) : E e -> faults_in E (from_option_res e o).
Proof. intros ?. destruct o; [apply faults_ok|by apply faults_fault]. Qed.
End rules.

Lemma faults_mono {A} (E E' : fault -> Prop) (r : res A) :
  (forall e, E e -> E' e) -> faults_in E r -> faults_in E' r.
Proof. intros HE Hr e He. by apply HE, Hr. Qed.

Create HintDb faults discriminated.

Ltac calm_fault := first [by split; [split|]|by split].

(** Go through the text of a function. *)
Ltac faults :=
  repeat match goal with
  | |- forall _, _ => intros ?
  | |- faults_in _ (Ok _) => apply faults_ok
  | |- faults_in _ (Fault _) => apply faults_fault; calm_fault
  | |- faults_in _ (from_option_res _ _) => apply faults_from_option; calm_fault
  | |- faults_in _ (res_bind _ _) => apply faults_bind
  | |- faults_in _ (let _ := _ in _) => cbv zeta
  | |- faults_in _ (match ?x with _ => _ end) => destruct x
  | |- faults_in _ _ => solve [eauto with faults]
  end.

(** ** Pools, queues, send buffers *)

Lemma MPAllocateChunk_faults mp : faults_in calm (MPAllocateChunk mp).
Proof. unfold MPAllocateChunk. faults. Qed.

Lemma MPFreeChunk_faults mp p : faults_in calm (MPFreeChunk mp p).
Proof. unfold MPFreeChunk. faults. Qed.

Lemma Enqueue_faults {A} (q : ring_queue A) x : faults_in calm (Enqueue q x).
Proof. unfold Enqueue. faults. Qed.

Lemma Dequeue_faults {A} (q : ring_queue A) : faults_in calm (Dequeue q).
Proof. unfold Dequeue. faults. Qed.

Lemma StreamInternalEnqueue_faults {A} (q : stream_queue_int A) x : faults_in calm (StreamInternalEnqueue q x).
Proof. unfold StreamInternalEnqueue. faults. Qed.

Lemma StreamInternalDequeue_faults {A} (q : stream_queue_int A) : faults_in calm (StreamInternalDequeue q).
Proof. unfold StreamInternalDequeue. faults. Qed.

#[export] Hint Resolve MPAllocateChunk_faults MPFreeChunk_faults Enqueue_faults Dequeue_faults
  StreamInternalEnqueue_faults StreamInternalDequeue_faults : faults.
#[export] Hint Extern 1 (faults_in _ (RBFragEnqueue _ _)) => apply Enqueue_faults : faults.
#[export] Hint Extern 1 (faults_in _ (RBFragDequeue _)) => apply Dequeue_faults : faults.
#[export] Hint Extern 1 (faults_in _ (StreamEnqueue _ _)) => apply Enqueue_faults : faults.
#[export] Hint Extern 1 (faults_in _ (StreamDequeue _)) => apply Dequeue_faults : faults.
#[export] Hint Extern 1 (faults_in _ (SBEnqueue _ _)) => apply Enqueue_faults : faults.
#[export] Hint Extern 1 (faults_in _ (SBDequeue _)) => apply Dequeue_faults : faults.

Lemma SBFree_faults sbm o : faults_in calm (SBFree sbm o).
Proof. unfold SBFree. faults. Qed.

Lemma SBInit_faults ok mem sbm i : faults_in calm (SBInit ok mem sbm i).
Proof. unfold SBInit. faults. Qed.

Lemma SBPut_faults b payload len : faults_in calm (SBPut b payload len).
Proof. unfold SBPut. faults. Qed.

(** ** Receive buffers *)

Lemma deref_faults rbm p : faults_in calm (deref rbm p).
Proof. unfold deref. faults. Qed.
#[export] Hint Resolve SBFree_faults SBInit_faults SBPut_faults deref_faults : faults.

Lemma FreeFragmentContextSingle_faults rbm p : faults_in calm (FreeFragmentContextSingle rbm p).
Proof. unfold FreeFragmentContextSingle. faults. Qed.
#[export] Hint Resolve FreeFragmentContextSingle_faults : faults.

(** Every fragment freed leaves the store, so the walk ends. *)
Lemma free_single_size rbm p rbm' : FreeFragmentContextSingle rbm p = Ok rbm' ->
  S (base.size (frags rbm')) = base.size (frags rbm).
Proof.
  unfold FreeFragmentContextSingle, deref. destruct (frags rbm !! p) as [f|] eqn:E; [|done]. cbn [from_option_res res_bind].
  assert (S (base.size (delete p (frags rbm))) = base.size (frags rbm)) as Hs.
  { rewrite map_size_delete, E. assert (base.size (frags rbm) <> 0)%nat; [|lia]. apply map_size_ne_0_lookup. eauto. }
  destruct (is_calloc f); [by intros [= <-]|]. intros Hr. res_inv Hr. by injection Hr as <-.
Qed.

Lemma free_list_faults fuel rbm f : (base.size (frags rbm) < fuel)%nat -> faults_in calm (RingBuffer.free_list fuel rbm f).
Proof.
  revert rbm f. induction fuel as [|fuel IH]; intros rbm f Hf; simpl; [lia|]. destruct f as [p|]; [|faults].
  apply faults_bind; [faults|]. intros c. intros e. destruct (FreeFragmentContextSingle rbm p) as [rbm1|e1] eqn:E; simpl.
  - apply IH. apply free_single_size in E. lia.
  - intros [= <-]. by eapply FreeFragmentContextSingle_faults.
Qed.

Lemma RBFree_faults rbm c b : faults_in calm (RBFree rbm c b).
Proof.
  unfold RBFree, FreeFragmentContext. apply faults_bind; [|faults]. destruct (fctx b); [|faults].
  apply free_list_faults. lia.
Qed.

Lemma RBInit_faults ok mem rbm i : faults_in calm (RBInit ok mem rbm i).
Proof. unfold RBInit. faults. Qed.

Lemma RBRemove_faults rbm b len c : faults_in calm (RBRemove rbm b len c).
Proof. unfold RBRemove. faults. Qed.

Lemma calm_faults {A} (r : res A) : faults_in calm r -> faults_in tame r.
Proof. apply faults_mono, calm_tame. Qed.
#[export] Hint Resolve RBFree_faults RBInit_faults RBRemove_faults : faults.
#[export] Hint Resolve calm_faults | 10 : faults.

Lemma merge_loop_faults fuel sq len v : faults_in tame (merge_loop fuel sq len v).
Proof.
  revert v. induction fuel as [|fuel IH]; intros v; simpl; unfold relink; faults.
Qed.

Lemma RBPut_faults rbm b payload len sq : faults_in tame (RBPut rbm b payload len sq).
Proof.
  pose proof merge_loop_faults. unfold RBPut, put_room, put_copy, AllocateFragmentContext, link_new. faults.
Qed.
#[export] Hint Resolve RBPut_faults : faults.

(** ** Options *)

Lemma rd32_faults mem i : faults_in calm (rd32 mem i).
Proof. unfold rd32, rd. faults. Qed.
#[export] Hint Resolve rd32_faults : faults.

Lemma ParseTCPOptions_faults ts mem len s : faults_in tame (ParseTCPOptions ts mem len s).
Proof.
  unfold ParseTCPOptions. generalize 0 (opt_fuel len). intros i fuel. revert i s.
  induction fuel as [|fuel IH]; intros i s; simpl; unfold rd; faults.
Qed.

Lemma ParseTCPTimestamp_faults mem len : faults_in tame (ParseTCPTimestamp mem len).
Proof.
  unfold ParseTCPTimestamp. generalize 0 (opt_fuel len). intros i fuel. revert i.
  induction fuel as [|fuel IH]; intros i; simpl; unfold rd; faults.
Qed.

Lemma CalculateOptionLength_faults fl : faults_in calm (CalculateOptionLength fl).
Proof. unfold CalculateOptionLength. faults. Qed.

Lemma GenerateTCPOptions_faults s ts fl n : faults_in calm (GenerateTCPOptions s ts fl n).
Proof. unfold GenerateTCPOptions. faults. Qed.

(** ** Events *)

Lemma eq_push_faults q ev : faults_in calm (eq_push q ev).
Proof. unfold eq_push. faults. Qed.
#[export] Hint Resolve eq_push_faults : faults.

(** ** Routes *)

Lemma GetOutputInterface_faults `{Env} da : faults_in calm (GetOutputInterface da).
Proof. unfold GetOutputInterface. faults. Qed.

Lemma gateway_addr_faults `{Env} ext da : faults_in calm (gateway_addr ext da).
Proof. unfold gateway_addr. faults. Qed.

#[export] Hint Resolve ParseTCPOptions_faults ParseTCPTimestamp_faults CalculateOptionLength_faults
  GenerateTCPOptions_faults GetOutputInterface_faults gateway_addr_faults : faults.
