(* ===== verification/StreamOps.v ===== *)
(** * Creating and destroying streams: [CreateTCPStream] and
    [DestroyTCPStream] of [tcp_stream.c]

    Locks are taken and released around the pool operations; initialising a
    process-private spin lock does not fail. *)

From S2P Require Import Prelude SeqNum SpscQueue MemPool RingBuffer SendBuffer AddrPool Rss.
From S2P Require Import Machine Lists FlowTable Network.

Definition TCP_MAX_SEQ : Z := 4294967295.

Section streams.
Context `{Env}.

(** ** Pool and buffer operations on the manager *)

Definition alloc_flow : M (option Z) :=
  let* mp := gets flow_pool in
  let* (o, mp) := lift (MPAllocateChunk mp) in
  modify (fun m => m <| flow_pool := mp |>) ;;; ret o.
Definition alloc_rv : M (option Z) :=
  let* mp := gets rv_pool in
  let* (o, mp) := lift (MPAllocateChunk mp) in
  modify (fun m => m <| rv_pool := mp |>) ;;; ret o.
Definition alloc_sv : M (option Z) :=
  let* mp := gets sv_pool in
  let* (o, mp) := lift (MPAllocateChunk mp) in
  modify (fun m => m <| sv_pool := mp |>) ;;; ret o.
(** Freeing the chunk of a stream ends the stream's life. *)
Definition free_flow (p : ptr) : M unit :=
  let* mp := gets flow_pool in
  let* mp := lift (MPFreeChunk mp p) in
  modify (fun m => m <| flow_pool := mp |> <| streams := delete p (streams m) |>).
Definition free_rv (p : ptr) : M unit :=
  let* mp := gets rv_pool in
  let* mp := lift (MPFreeChunk mp p) in
  modify (fun m => m <| rv_pool := mp |>).
Definition free_sv (p : ptr) : M unit :=
  let* mp := gets sv_pool in
  let* mp := lift (MPFreeChunk mp p) in
  modify (fun m => m <| sv_pool := mp |>).

(** ** Creation *)

(** The stream after the block of assignments that follows the insertion into
    the flow table; [seed] is the value of [rand_r]. *)
Definition init_stream (type seed nif : Z) (ext : bool) (s : tcp_stream) : tcp_stream :=
  let iss' := seed mod TCP_MAX_SEQ in
  s <| stream_type := type |> <| state := TCP_ST_LISTEN |> <| on_rto_idx := -1 |>
    <| sndvar; ip_id := 0 |> <| sndvar; mss := TCP_DEFAULT_MSS |>
    <| sndvar; wscale_mine := TCP_DEFAULT_WSCALE |> <| sndvar; wscale_peer := 0 |>
    <| sndvar; nif_out := s8 nif |> <| is_external := ext |>
    <| sndvar; iss := iss' |> <| rcvvar; irs := 0 |>
    <| snd_nxt := iss' |> <| sndvar; snd_una := iss' |> <| sndvar; snd_wnd := sndbuf_size |>
    <| rcv_nxt := 0 |> <| rcvvar; rcv_wnd := TCP_INITIAL_WINDOW |>
    <| rcvvar; snd_wl1 := u32 (0 - 1) |> <| sndvar; rto := TCP_INITIAL_RTO |>.

Definition CreateTCPStream (sock : option Z) (type sa sp da dp : Z) : M (option ptr) :=
  let* o := alloc_flow in
  match o with
  | None => ret None
  | Some p =>
      modify (fun m => m <| streams := <[p := zero_stream]> (streams m) |>) ;;;
      let* o := alloc_rv in
      match o with
      | None => free_flow p ;;; ret None
      | Some rv =>
          let* o := alloc_sv in
          match o with
          | None => free_rv rv ;;; free_flow p ;;; ret None
          | Some sv =>
              let* id := gets g_id in
              modify (fun m => m <| g_id := u32 (id + 1) |>) ;;;
              upd_stream p (fun s => s <| rv_addr := rv |> <| sv_addr := sv |>
                                       <| sid := id mod 16777216 |> <| saddr := sa |> <| sport := sp |>
                                       <| daddr := da |> <| dport := dp |>) ;;;
              let* r := StreamHTInsert p in
              if r <? 0 then free_flow p ;;; ret None
              else
                upd_stream p (fun s => s <| on_hash_table := true |>) ;;;
                modify (fun m => m <| flow_cnt := u32 (flow_cnt m + 1) |>) ;;;
                (match sock with
                 | Some k =>
                     upd_stream p (fun s => s <| socket := Some k |>) ;;;
                     upd_socket k (fun x => x <| sk_ref := SockStream p |>)
                 | None => ret tt
                 end) ;;;
                let* (nif, ext) := lift (GetOutputInterface da) in
                let* seed := gets next_seed in
                let '(v, seed') := rand_r seed in
                modify (fun m => m <| next_seed := seed' |>) ;;;
                upd_stream p (init_stream type v nif ext) ;;;
                ret (Some p)
          end
      end
  end.

(** ** Destruction *)

Definition free_sndbuf (p : ptr) : M unit :=
  let* s := get_stream p in
  match sndbuf (sndvar s) with
  | Some b =>
      let* sbm := gets rbm_snd in
      let* sbm := lift (SBFree sbm (Some b)) in
      modify (fun m => m <| rbm_snd := sbm |>) ;;;
      upd_snd p (fun v => v <| sndbuf := None |>)
  | None => ret tt
  end.

Definition free_rcvbuf (p : ptr) : M unit :=
  let* s := get_stream p in
  match rcvbuf (rcvvar s) with
  | Some (c, b) =>
      let* rbm := gets rbm_rcv in
      let* rbm := lift (RBFree rbm c b) in
      modify (fun m => m <| rbm_rcv := rbm |>) ;;;
      upd_rcv p (fun v => v <| rcvbuf := None |>)
  | None => ret tt
  end.

(** Give a bound address back to the pool it came from. *)
Definition free_address (a : sockaddr_in) : M unit :=
  let* o := gets m_ap in
  match o with
  | Some pool =>
      let* (_, pool) := lift (FreeAddress (Some pool) a) in
      modify (fun m => m <| m_ap := pool |>)
  | None =>
      let* (nif, _) := lift (GetOutputInterface (sin_addr a)) in
      let i := Z.to_nat (nif_to_eidx nif) in
      let* l := gets aps in
      let* (_, pool) := lift (FreeAddress (default None (l !! i)) a) in
      modify (fun m => m <| aps := <[i := pool]> (aps m) |>)
  end.

(** Leave the lists of the sender and of the timers. *)
Definition leave_lists (p : ptr) : M unit :=
  RemoveFromControlList p ;;;
  RemoveFromSendList p ;;;
  RemoveFromACKList p ;;;
  let* s := get_stream p in
  when (0 <=? on_rto_idx s) (RemoveFromRTOList p) ;;;
  let* s := get_stream p in
  when (on_timewait_list s) (RemoveFromTimewaitList p) ;;;
  when (0 <? tcp_timeout) (RemoveFromTimeoutList p).

Definition DestroyTCPStream (p : ptr) : M unit :=
  let* s0 := get_stream p in
  leave_lists p ;;;
  let* s := get_stream p in
  assert (on_hash_table s) ;;;
  free_sndbuf p ;;;
  free_rcvbuf p ;;;
  StreamHTRemove p ;;;
  upd_stream p (fun s => s <| on_hash_table := false |>) ;;;
  modify (fun m => m <| flow_cnt := u32 (flow_cnt m - 1) |>) ;;;
  free_rv (rv_addr s) ;;;
  free_sv (sv_addr s) ;;;
  free_flow p ;;;
  when (is_bound_addr s0) (free_address (mkAddr (saddr s0) (sport s0))).
End streams.
