(* ===== verification/Invariant.v ===== *)
(** * The structural invariant of a manager

    Every list a stream can be on agrees with the flag the stream carries for
    it: a stream is on the list exactly when it is live and its flag is set,
    and it is there once. Counters agree with the lists, the chunks handed
    out by the three stream pools are exactly those of the live streams, and
    the addresses of bound streams are in use in the address pools.

    The operations of [Lists] are shown here to run without a fault and to
    keep the invariant. *)

From S2P Require Import Prelude SeqNum SpscQueue MemPool RingBuffer SendBuffer AddrPool Rss.
From S2P Require Import Machine Wp Lists FlowTable Network StreamOps.

(** ** Names for the lists *)

Inductive list_id :=
| LControl (i : sender_id) | LSend (i : sender_id) | LAck (i : sender_id)
| LRto (j : Z) | LTimewait | LTimeout | LFlow (j : Z).
#[global] Instance list_id_eq_dec : EqDecision list_id.
Proof. solve_decision. Defined.

Definition sender_at (m : mtcp_manager) (i : sender_id) : option mtcp_sender :=
  match i with GSender => Some (g_sender m) | NSender i => n_sender m !! i end.

Definition list_at (m : mtcp_manager) (id : list_id) : list ptr :=
  match id with
  | LControl i => from_option control_list [] (sender_at m i)
  | LSend i => from_option send_list [] (sender_at m i)
  | LAck i => from_option ack_list [] (sender_at m i)
  | LRto j => rto_slot m j
  | LTimewait => timewait_list m
  | LTimeout => timeout_list m
  | LFlow j => bucket (tcp_flow_table m) j
  end.

(** The counter of a list, where it has one of its own. *)
Definition cnt_at (m : mtcp_manager) (id : list_id) : option Z :=
  match id with
  | LControl i => control_list_cnt <$> sender_at m i
  | LSend i => send_list_cnt <$> sender_at m i
  | LAck i => ack_list_cnt <$> sender_at m i
  | LTimewait => Some (timewait_list_cnt m)
  | LTimeout => Some (timeout_list_cnt m)
  | LRto _ | LFlow _ => None
  end.

(** [l] holds the streams that satisfy [P], each once. *)
Definition enlists (l : list ptr) (P : tcp_stream -> bool) (ss : gmap ptr tcp_stream) : Prop :=
  NoDup l /\ forall p, p ∈ l <-> exists s, ss !! p = Some s /\ P s = true.

(** The chunks [mp] handed out are the keys of the streams, one each. *)
Definition owns (mp : mem_pool) (key : ptr -> tcp_stream -> Z) (ss : gmap ptr tcp_stream) : Prop :=
  exists free used, pool_rep mp free used /\
    (forall a, a ∈ used <-> exists p s, ss !! p = Some s /\ key p s = a) /\
    (forall p q s t, ss !! p = Some s -> ss !! q = Some t -> key p s = key q t -> p = q).

Definition bound_to (s : tcp_stream) : sockaddr_in := mkAddr (saddr s) (sport s).
Definition on_rto (s : tcp_stream) : bool := 0 <=? on_rto_idx s.

Section invariant.
Context `{Env}.
Implicit Types (m : mtcp_manager) (s : tcp_stream) (p q : ptr).

Definition on_list (id : list_id) (s : tcp_stream) : bool :=
  let mine i := bool_decide (sender_of (nif_out (sndvar s)) = Some i) in
  match id with
  | LControl i => on_control_list (sndvar s) && mine i
  | LSend i => on_send_list (sndvar s) && mine i
  | LAck i => on_ack_list (sndvar s) && mine i
  | LRto j => on_rto s && (on_rto_idx s =? j)
  | LTimewait => on_timewait_list s
  | LTimeout => on_timeout_list s
  | LFlow j => on_hash_table s && (HashFlow (flow_of s) =? j)
  end.

(** The address pool a bound address goes back to. *)
Definition ap_of (m : mtcp_manager) (a : Z) : option addr_pool :=
  match m_ap m with
  | Some ap => Some ap
  | None => match GetOutputInterface a with
            | Ok (nif, _) => default None (aps m !! Z.to_nat (nif_to_eidx nif))
            | Fault _ => None
            end
  end.

(** The slot in the retransmission store is inside the array; the store and
    the TIME_WAIT list share one link field, so a stream is on one of them
    at most. The timeout list is used only when a timeout is configured. *)
Definition timer_ok (s : tcp_stream) : Prop :=
  -1 <= on_rto_idx s <= RTO_HASH /\ (on_timewait_list s = true -> on_rto_idx s = -1) /\
  (on_timeout_list s = true -> 0 < tcp_timeout).

(** Live streams are in the flow table and know their sender. *)
Record stream_ok (s : tcp_stream) : Prop := {
  so_hash : on_hash_table s = true;
  so_nif : 0 <= nif_out (sndvar s);
  so_sender : is_Some (sender_of (nif_out (sndvar s)));
  so_timer : timer_ok s
}.

Record wf (m : mtcp_manager) : Prop := {
  wf_lists : forall id, enlists (list_at m id) (on_list id) (streams m);
  wf_counts : forall id n, cnt_at m id = Some n -> n = zlen (list_at m id);
  wf_rto : exists l, enlists l on_rto (streams m) /\ rto_list_cnt m = zlen l;
  wf_flows : flow_cnt m = u32 (Z.of_nat (base.size (streams m)));
  wf_senders : length (n_sender m) = Z.to_nat eths_num;
  wf_streams : forall p s, streams m !! p = Some s -> stream_ok s;
  wf_flow_pool : owns (flow_pool m) (fun p _ => p) (streams m);
  wf_rv_pool : owns (rv_pool m) (fun _ => rv_addr) (streams m);
  wf_sv_pool : owns (sv_pool m) (fun _ => sv_addr) (streams m);
  wf_listeners : forall j l, l ∈ bucket (listeners m) j -> is_Some (listener_store m !! l);
  wf_ep : forall e, ep m = Some e -> is_Some (epolls m !! e);
  wf_bound : forall p s, streams m !! p = Some s -> is_bound_addr s = true ->
    exists ap, ap_of m (saddr s) = Some ap /\ ap_inv ap /\ in_use ap (bound_to s);
  wf_bound_inj : forall p q s t, streams m !! p = Some s -> streams m !! q = Some t ->
    is_bound_addr s = true -> is_bound_addr t = true -> bound_to s = bound_to t -> p = q
}.

(** The configuration: every route, the default route too, leads to an
    interface that exists and whose number fits the 8-bit field [nif_out]. *)
Definition nif_ok (nif : Z) : Prop := 0 <= nif < 128 /\ is_Some (sender_of nif).
Class NetOk : Prop := {
  routes_ok : Forall (fun r => nif_ok (rt_nif r)) rtable;
  gateway_ok : forall g, gateway = Some g -> nif_ok (rt_nif g)
}.

Lemma GetOutputInterface_nif `{NetOk} da nif ext : GetOutputInterface da = Ok (nif, ext) -> nif_ok nif.
Proof.
  unfold GetOutputInterface. destruct (route_walk da rtable) as [nif' ext'] eqn:E.
  destruct (Z.ltb_spec nif' 0); [done|]. intros [= -> ->]. revert E. pose proof routes_ok as Hr.
  induction Hr as [|r l Hr _ IH]; simpl; [intros [= <- <-]; lia|].
  destruct (_ =? _); [|done]. destruct (0 <? rt_prefix r); [by intros [= <- <-]|].
  destruct gateway as [g|] eqn:Eg; intros [= <- <-]; [by apply gateway_ok|lia].
Qed.

Lemma s8_small x : 0 <= x < 128 -> s8 x = x.
Proof. intros. unfold s8, u8. rewrite Z.mod_small by lia. destruct (Z.ltb_spec x 128); lia. Qed.

(** ** Changes of one list *)

Lemma enlists_same l l' P (ss : gmap ptr tcp_stream) p s s' :
  ss !! p = Some s -> P s' = P s -> l ≡ₚ l' -> enlists l P ss -> enlists l' P (<[p := s']> ss).
Proof.
  intros Hp HP Hl [Hnd Hin]. split; [by rewrite <- Hl|]. intros q. rewrite <- Hl, Hin.
  destruct (decide (q = p)) as [->|Hne].
  - rewrite lookup_insert_eq. naive_solver congruence.
  - by rewrite lookup_insert_ne.
Qed.

Lemma enlists_perm l l' P (ss : gmap ptr tcp_stream) : l' ≡ₚ l -> enlists l P ss -> enlists l' P ss.
Proof. intros Hl [Hnd Hin]. split; [by rewrite Hl|]. intros q. by rewrite Hl. Qed.

Lemma enlists_add l P (ss : gmap ptr tcp_stream) p s s' :
  ss !! p = Some s -> P s = false -> P s' = true -> enlists l P ss -> enlists (l ++ [p]) P (<[p := s']> ss).
Proof.
  intros Hp HP HP' [Hnd Hin]. assert (~ p ∈ l) as Hn.
  { intros (t & ? & ?)%Hin. simplify_eq. congruence. }
  split.
  - apply NoDup_app. split_and!; [done| |apply NoDup_singleton]. set_solver.
  - intros q. rewrite elem_of_app, Hin, list_elem_of_singleton.
    destruct (decide (q = p)) as [->|Hne].
    + rewrite lookup_insert_eq. naive_solver.
    + rewrite lookup_insert_ne by done. naive_solver.
Qed.

Lemma enlists_remove l P (ss : gmap ptr tcp_stream) p s s' :
  ss !! p = Some s -> P s = true -> P s' = false -> enlists l P ss ->
  enlists (filter (fun y => y <> p) l) P (<[p := s']> ss) /\ p ∈ l.
Proof.
  intros Hp HP HP' [Hnd Hin]. split; [|apply Hin; eauto]. split; [by apply filter_ne_NoDup|].
  intros q. rewrite filter_ne_elem, Hin. destruct (decide (q = p)) as [->|Hne].
  - rewrite lookup_insert_eq. naive_solver congruence.
  - rewrite lookup_insert_ne by done. naive_solver.
Qed.

(** How one list may change while stream [p] goes from [s] to [s']. *)
Inductive list_change m m' p s s' (id : list_id) : Prop :=
| lc_same : list_at m id ≡ₚ list_at m' id -> cnt_at m' id = cnt_at m id ->
    on_list id s' = on_list id s -> list_change m m' p s s' id
| lc_add : list_at m' id ≡ₚ list_at m id ++ [p] -> cnt_at m' id = (fun n => n + 1) <$> cnt_at m id ->
    on_list id s = false -> on_list id s' = true -> list_change m m' p s s' id
| lc_remove : list_at m' id ≡ₚ filter (fun y => y <> p) (list_at m id) ->
    cnt_at m' id = (fun n => n - 1) <$> cnt_at m id ->
    on_list id s = true -> on_list id s' = false -> list_change m m' p s s' id.

Lemma list_change_ok m m' p s s' id :
  streams m !! p = Some s -> streams m' = <[p := s']> (streams m) -> list_change m m' p s s' id ->
  enlists (list_at m id) (on_list id) (streams m) ->
  (forall n, cnt_at m id = Some n -> n = zlen (list_at m id)) ->
  enlists (list_at m' id) (on_list id) (streams m') /\
  (forall n, cnt_at m' id = Some n -> n = zlen (list_at m' id)).
Proof.
  intros Hp Hs Hc Hl Hn. rewrite Hs. destruct Hc as [Hl' Hc' Ho|Hl' Hc' Ho Ho'|Hl' Hc' Ho Ho'].
  - split; [by eapply enlists_same|]. intros n. rewrite Hc', <- (zlen_Permutation _ _ Hl'). apply Hn.
  - rewrite Hc', (zlen_Permutation _ _ Hl'). split; [by eapply enlists_perm, enlists_add|].
    intros n (n' & ->%Hn & ->)%fmap_Some. by rewrite zlen_app.
  - rewrite Hc', (zlen_Permutation _ _ Hl'). destruct (enlists_remove _ _ _ p s s' Hp Ho Ho' Hl) as [? Hin].
    split; [by eapply enlists_perm|].
    intros n (n' & ->%Hn & ->)%fmap_Some. rewrite filter_ne_zlen; [done| |done]. apply Hl.
Qed.

Lemma rto_change m m' p s s' :
  streams m !! p = Some s -> streams m' = <[p := s']> (streams m) ->
  rto_list_cnt m' = rto_list_cnt m + Z.b2z (on_rto s') - Z.b2z (on_rto s) ->
  (exists l, enlists l on_rto (streams m) /\ rto_list_cnt m = zlen l) ->
  exists l, enlists l on_rto (streams m') /\ rto_list_cnt m' = zlen l.
Proof.
  intros Hp Hs Hc (l & Hl & Hn). rewrite Hs, Hc, Hn. destruct (on_rto s) eqn:E, (on_rto s') eqn:E'; simpl.
  - exists l. split; [|lia]. eapply enlists_same; [done|by rewrite E, E'|done|done].
  - exists (filter (fun y => y <> p) l). destruct (enlists_remove _ _ _ p s s' Hp E E' Hl) as [? Hin].
    split; [done|]. rewrite filter_ne_zlen; [lia|apply Hl|done].
  - exists (l ++ [p]). split; [by eapply enlists_add|]. rewrite zlen_app. change (zlen [p]) with 1. lia.
  - exists l. split; [|lia]. eapply enlists_same; [done|by rewrite E, E'|done|done].
Qed.

Lemma owns_upd mp key (ss : gmap ptr tcp_stream) p s s' :
  ss !! p = Some s -> key p s' = key p s -> owns mp key ss -> owns mp key (<[p := s']> ss).
Proof.
  intros Hp Hk (free & used & Hr & Hin & Hinj). exists free, used. split; [done|].
  assert (forall q t, <[p := s']> ss !! q = Some t -> exists t', ss !! q = Some t' /\ key q t = key q t') as Hback.
  { intros q t. destruct (decide (q = p)) as [->|Hne]; [rewrite lookup_insert_eq|rewrite lookup_insert_ne by done]; naive_solver. }
  split.
  - intros a. rewrite Hin. split; intros (q & t & Hq & <-).
    + destruct (decide (q = p)) as [->|Hne]; [exists p, s'|exists q, t].
      * rewrite lookup_insert_eq. naive_solver congruence.
      * by rewrite lookup_insert_ne.
    + destruct (Hback _ _ Hq) as (t' & ? & ->). eauto.
  - intros q r t u Hq Hr' E. destruct (Hback _ _ Hq) as (t' & ? & E1), (Hback _ _ Hr') as (u' & ? & E2).
    eapply Hinj; [done|done|congruence].
Qed.

(** ** What list operations leave alone

    [strip] erases what the operations on lists may change. *)
Definition strip (m : mtcp_manager) : mtcp_manager :=
  m <| streams := ∅ |> <| g_sender := mkSender 0 [] [] [] 0 0 0 |> <| n_sender := [] |>
    <| rto_store := mkRTO 0 0 ∅ |> <| timewait_list := [] |> <| timeout_list := [] |>
    <| rto_list_cnt := 0 |> <| timewait_list_cnt := 0 |> <| timeout_list_cnt := 0 |>.

(** The fields of a stream the invariant reads besides the list flags. *)
Definition identity (s : tcp_stream) :=
  (on_hash_table s, nif_out (sndvar s), flow_of s, rv_addr s, sv_addr s, is_bound_addr s).

(** [m'] is [m] with stream [p] changed from [s] to [s'] and lists adapted. *)
Record moved m m' p s s' : Prop := {
  mv_streams : streams m' = <[p := s']> (streams m);
  mv_lists : forall id, list_change m m' p s s' id;
  mv_rto : rto_list_cnt m' = rto_list_cnt m + Z.b2z (on_rto s') - Z.b2z (on_rto s);
  mv_timer : timer_ok s';
  mv_senders : length (n_sender m') = length (n_sender m);
  mv_identity : identity s' = identity s;
  mv_strip : strip m' = strip m
}.

Lemma moved_wf m m' p s s' : streams m !! p = Some s -> moved m m' p s s' -> wf m -> wf m'.
Proof.
  intros Hp [Hs Hl Hr Hj Hn Hi Hst] Hw.
  assert (forall A (f : mtcp_manager -> A), f (strip m') = f (strip m)) as Hf by (intros; by rewrite Hst).
  assert (forall q t, streams m' !! q = Some t -> exists t', streams m !! q = Some t' /\ identity t = identity t') as Hback.
  { intros q t. rewrite Hs. destruct (decide (q = p)) as [->|Hne];
      [rewrite lookup_insert_eq; intros [= <-]; by exists s|rewrite lookup_insert_ne by done; by exists t]. }
  assert (forall a, ap_of m' a = ap_of m a) as Hap.
  { intros a. unfold ap_of. by rewrite (Hf _ m_ap : m_ap m' = m_ap m), (Hf _ aps : aps m' = aps m). }
  constructor.
  - intros id. apply (list_change_ok m m' p s s' id Hp Hs (Hl id) (wf_lists _ Hw id) (wf_counts _ Hw id)).
  - intros id. apply (list_change_ok m m' p s s' id Hp Hs (Hl id) (wf_lists _ Hw id) (wf_counts _ Hw id)).
  - by eapply rto_change; [| | |apply Hw].
  - rewrite (Hf _ flow_cnt : flow_cnt m' = flow_cnt m), Hs, map_size_insert, Hp. apply Hw.
  - rewrite Hn. apply Hw.
  - intros q t Hq. destruct (decide (q = p)) as [->|Hne].
    + rewrite Hs, lookup_insert_eq in Hq. injection Hq as <-. destruct (wf_streams _ Hw _ _ Hp) as [? ? ? ?].
      injection Hi as E1 E2 E3. by constructor; rewrite ?E1, ?E2.
    + rewrite Hs, lookup_insert_ne in Hq by done. by eapply wf_streams.
  - rewrite (Hf _ flow_pool : flow_pool m' = flow_pool m), Hs. by eapply owns_upd; [| |apply Hw].
  - rewrite (Hf _ rv_pool : rv_pool m' = rv_pool m), Hs. eapply owns_upd; [done| |apply Hw].
    unfold identity in Hi. simpl. congruence.
  - rewrite (Hf _ sv_pool : sv_pool m' = sv_pool m), Hs. eapply owns_upd; [done| |apply Hw].
    unfold identity in Hi. simpl. congruence.
  - rewrite (Hf _ listeners : listeners m' = listeners m),
      (Hf _ listener_store : listener_store m' = listener_store m). apply Hw.
  - rewrite (Hf _ ep : ep m' = ep m), (Hf _ epolls : epolls m' = epolls m). apply Hw.
  - intros q t (t' & Hq & E)%Hback Hb. unfold identity, flow_of in E. injection E as E1 E2 E3 E4 E5 E6 E7 E8 E9.
    unfold bound_to. rewrite Hap, E3, E5. apply (wf_bound _ Hw q t'); [done|congruence].
  - intros q r t u (t' & Hq & E)%Hback (u' & Hr' & E')%Hback Hb Hb'. unfold identity, flow_of, bound_to in *.
    intros [= ? ?]. apply (wf_bound_inj _ Hw q r t' u'); unfold bound_to; congruence.
Qed.

(** [m'] satisfies the invariant and differs from [m] only in stream [p], now
    [s'], and in lists. *)
Definition shift m p s' m' : Prop :=
  wf m' /\ streams m' = <[p := s']> (streams m) /\ strip m' = strip m.

Lemma shift_moved m m' p s s' : streams m !! p = Some s -> wf m -> moved m m' p s s' -> shift m p s' m'.
Proof. intros ? ? Hmv. split_and!; [by eapply moved_wf|by destruct Hmv..]. Qed.

Lemma shift_refl m p s : streams m !! p = Some s -> wf m -> shift m p s m.
Proof. intros. split_and!; [done|by rewrite insert_id|done]. Qed.

Lemma shift_lookup m p s m' : shift m p s m' -> streams m' !! p = Some s.
Proof. intros (_ & -> & _). apply lookup_insert_eq. Qed.

Lemma shift_trans m p s1 m1 s2 m2 : shift m p s1 m1 -> shift m1 p s2 m2 -> shift m p s2 m2.
Proof.
  intros (_ & Hs1 & Ht1) (? & Hs2 & Ht2). split_and!; [done| |congruence].
  by rewrite Hs2, Hs1, insert_insert_eq.
Qed.

(** A run of [c] that returns and moves stream [p] to [s']. *)
Definition runs_to {A} (c : M A) m p s' : Prop := exists a m', c m = Ok (a, m') /\ shift m p s' m'.

Lemma runs_bind {A B} (c : M A) (k : A -> M B) m p s1 s2 :
  runs_to c m p s1 -> (forall a m1, wf m1 -> streams m1 !! p = Some s1 -> runs_to (k a) m1 p s2) ->
  runs_to (bind c k) m p s2.
Proof.
  intros (a & m1 & E & Hsh) Hk. destruct (Hk a m1) as (b & m2 & E2 & Hsh2);
    [apply Hsh|by eapply shift_lookup|]. exists b, m2. unfold bind. rewrite E. split; [done|].
  by eapply shift_trans.
Qed.

Lemma runs_get {A} (k : tcp_stream -> M A) m p s s' :
  streams m !! p = Some s -> runs_to (k s) m p s' -> runs_to (bind (get_stream p) k) m p s'.
Proof. intros Hp. unfold runs_to, bind, get_stream. by rewrite Hp. Qed.

Lemma runs_ret {A} (a : A) m p s : wf m -> streams m !! p = Some s -> runs_to (ret a) m p s.
Proof. intros. exists a, m. split; [done|by apply shift_refl]. Qed.

(** The same with a property of the new stream. *)
Definition runs_in {A} (c : M A) m p (P : tcp_stream -> Prop) : Prop := exists s', P s' /\ runs_to c m p s'.

Lemma runs_in_bind {A B} (c : M A) (k : A -> M B) m p s1 P :
  runs_to c m p s1 -> (forall a m1, wf m1 -> streams m1 !! p = Some s1 -> runs_in (k a) m1 p P) ->
  runs_in (bind c k) m p P.
Proof.
  intros (a & m1 & E & Hsh) Hk. destruct (Hk a m1) as (s2 & ? & b & m2 & E2 & Hsh2);
    [apply Hsh|by eapply shift_lookup|]. exists s2. split; [done|]. exists b, m2. unfold bind. rewrite E.
  split; [done|]. by eapply shift_trans.
Qed.

Lemma runs_in_get {A} (k : tcp_stream -> M A) m p s P :
  streams m !! p = Some s -> runs_in (k s) m p P -> runs_in (bind (get_stream p) k) m p P.
Proof. intros Hp (s' & ? & ?). exists s'. split; [done|by eapply runs_get]. Qed.

(** *** Updates of a stream that concern no list *)

Definition flags (s : tcp_stream) :=
  (on_control_list (sndvar s), on_send_list (sndvar s), on_ack_list (sndvar s),
   on_rto_idx s, on_timewait_list s, on_timeout_list s).

Lemma on_list_ext id s s' : flags s' = flags s -> identity s' = identity s -> on_list id s' = on_list id s.
Proof.
  unfold flags, identity. intros Hf Hi. assert (flow_of s' = flow_of s) as E by congruence.
  injection Hf as E1 E2 E3 E4 E5 E6. assert (nif_out (sndvar s') = nif_out (sndvar s)) as E7 by congruence.
  assert (on_hash_table s' = on_hash_table s) as E8 by congruence.
  destruct id; unfold on_list, on_rto; by rewrite ?E1, ?E2, ?E3, ?E4, ?E5, ?E6, ?E7, ?E8, ?E.
Qed.

Lemma upd_stream_quiet m p f s :
  wf m -> streams m !! p = Some s -> flags (f s) = flags s -> identity (f s) = identity s ->
  shift m p (f s) (m <| streams := <[p := f s]> (streams m) |>).
Proof.
  intros Hw Hp Hf Hi. eapply shift_moved; [done|done|].
  assert (on_rto_idx (f s) = on_rto_idx s) as Hr by (unfold flags in Hf; congruence).
  assert (on_timewait_list (f s) = on_timewait_list s) as Ht by (unfold flags in Hf; congruence).
  assert (on_timeout_list (f s) = on_timeout_list s) as Ho by (unfold flags in Hf; congruence).
  constructor; try done.
  - intros id. apply lc_same; [by destruct id|by destruct id|by apply on_list_ext].
  - unfold on_rto. rewrite Hr. simpl. lia.
  - unfold timer_ok. rewrite Hr, Ht, Ho. apply (wf_streams _ Hw _ _ Hp).
Qed.

Lemma runs_upd m p f s :
  wf m -> streams m !! p = Some s -> flags (f s) = flags s -> identity (f s) = identity s ->
  runs_to (upd_stream p f) m p (f s).
Proof.
  intros Hw Hp Hf Hi. unfold runs_to, upd_stream. rewrite Hp. eexists _, _; split; [done|].
  by apply upd_stream_quiet.
Qed.

Lemma runs_upd_rcv m p f s :
  wf m -> streams m !! p = Some s -> runs_to (upd_rcv p f) m p (s <| rcvvar := f (rcvvar s) |>).
Proof. intros Hw Hp. by apply (runs_upd m p (fun s => s <| rcvvar := f (rcvvar s) |>) s). Qed.

Lemma runs_upd_snd m p f s :
  wf m -> streams m !! p = Some s -> flags (s <| sndvar := f (sndvar s) |>) = flags s ->
  nif_out (f (sndvar s)) = nif_out (sndvar s) -> runs_to (upd_snd p f) m p (s <| sndvar := f (sndvar s) |>).
Proof.
  intros Hw Hp Hf Hn. apply (runs_upd m p (fun s => s <| sndvar := f (sndvar s) |>) s); try done.
  unfold identity; simpl. by rewrite Hn.
Qed.

(** *** Senders *)

Definition set_sender m (i : sender_id) (d : mtcp_sender) : mtcp_manager :=
  match i with
  | GSender => m <| g_sender := d |>
  | NSender k => m <| n_sender := <[k := d]> (n_sender m) |>
  end.

Lemma upd_sender_ok m i d f : sender_at m i = Some d -> upd_sender i f m = Ok (tt, set_sender m i (f d)).
Proof. destruct i; simpl; [intros [= <-]; done|by intros ->]. Qed.

Lemma get_sender_ok m i d : sender_at m i = Some d -> get_sender i m = Ok (d, m).
Proof. destruct i; simpl; [intros [= <-]; done|by intros ->]. Qed.

Lemma sender_at_set m ss i j d d0 : sender_at m i = Some d0 ->
  sender_at (set_sender (m <| streams := ss |>) i d) j = if decide (j = i) then Some d else sender_at m j.
Proof.
  intros Hi. destruct (decide (j = i)) as [->|Hne].
  - destruct i as [|k]; [done|]. apply list_lookup_insert_eq. by eapply lookup_lt_Some.
  - destruct i as [|k], j as [|l]; try done. apply list_lookup_insert_ne. congruence.
Qed.

Lemma set_sender_rest m i d :
  exists g n, set_sender m i d = m <| g_sender := g |> <| n_sender := n |> /\ length n = length (n_sender m).
Proof.
  destruct i as [|k]; simpl.
  - by exists d, (n_sender m).
  - exists (g_sender m), (<[k := d]> (n_sender m)). split; [done|apply length_insert].
Qed.

Lemma sender_exists m p s : wf m -> streams m !! p = Some s ->
  exists i d, sender_of (nif_out (sndvar s)) = Some i /\ sender_at m i = Some d.
Proof.
  intros Hw Hp. destruct (wf_streams _ Hw _ _ Hp) as [_ _ [i Hi] _]. exists i.
  cut (is_Some (sender_at m i)); [intros [d ?]; by exists d|].
  revert Hi. unfold sender_of. destruct (_ <? 0); [by intros [= <-]|].
  destruct (Z.ltb_spec (nif_to_eidx (nif_out (sndvar s))) 0),
    (Z.leb_spec eths_num (nif_to_eidx (nif_out (sndvar s)))); simpl; try done.
  intros [= <-]. apply lookup_lt_is_Some. rewrite (wf_senders _ Hw). lia.
Qed.

(** *** Operations on the sender lists *)

(** Changes of the sender lists only: [d'] replaces [d]. *)
Lemma sender_moved m p s s' i d d' :
  wf m -> streams m !! p = Some s -> sender_of (nif_out (sndvar s)) = Some i -> sender_at m i = Some d ->
  let m' := set_sender (m <| streams := <[p := s']> (streams m) |>) i d' in
  identity s' = identity s -> on_rto_idx s' = on_rto_idx s ->
  on_timewait_list s' = on_timewait_list s -> on_timeout_list s' = on_timeout_list s ->
  (forall j, list_change m m' p s s' (LControl j)) -> (forall j, list_change m m' p s s' (LSend j)) ->
  (forall j, list_change m m' p s s' (LAck j)) ->
  shift m p s' m'.
Proof.
  intros Hw Hp Hi Hd m' Hid Hr Htw Hto H1 H2 H3. eapply shift_moved; [done|done|].
  destruct (set_sender_rest (m <| streams := <[p := s']> (streams m) |>) i d') as (g & n & E & Hlen).
  assert (flow_of s' = flow_of s) as Ef by (unfold identity in Hid; congruence).
  assert (on_hash_table s' = on_hash_table s) as Eh by (unfold identity in Hid; congruence).
  fold m' in E. clearbody m'. subst m'. constructor; try done.
  - intros [j|j|j|j| | |j]; [by apply H1|by apply H2|by apply H3|..];
      (apply lc_same; [done|done|unfold on_list, on_rto; by rewrite ?Hr, ?Htw, ?Hto, ?Ef, ?Eh]).
  - unfold on_rto. rewrite Hr. simpl. lia.
  - unfold timer_ok. rewrite Hr, Htw, Hto. apply (wf_streams _ Hw _ _ Hp).
Qed.

Lemma the_sender_ok m p s i :
  streams m !! p = Some s -> sender_of (nif_out (sndvar s)) = Some i -> the_sender p m = Ok (i, m).
Proof. intros Hp Hi. unfold the_sender, GetSender, bind, get_stream. rewrite Hp. unfold ret. by rewrite Hi. Qed.

(** Evaluate the steps of a list operation on stream [p]. *)
Ltac run_list Hp Hi Hd :=
  unfold bind, ret, throw, gets, modify, when, assert, upd_snd, upd_rcv, upd_stream, get_stream, lift;
  repeat (rewrite ?(the_sender_ok _ _ _ _ Hp Hi), ?Hp;
          try erewrite get_sender_ok by exact Hd; try erewrite upd_sender_ok by exact Hd; cbv beta iota).

(** The lists of one kind: the one of sender [i] changes as [tac] says. *)
Ltac sender_change i Hi Hd tac :=
  let j := fresh "j" in
  intros j; destruct (decide (j = i)) as [->|Hne];
  [ tac; unfold list_at, cnt_at, on_list; erewrite ?(sender_at_set _ _ i i _ _ Hd), ?decide_True, ?Hd by done;
    simpl; rewrite ?Hi, ?bool_decide_true, ?andb_true_r by done; simpl; try done; try congruence
  | apply lc_same; unfold list_at, cnt_at, on_list;
    rewrite ?(sender_at_set _ _ i j _ _ Hd), ?decide_False by done; try done;
    simpl; rewrite ?Hi, bool_decide_false by congruence; by rewrite ?andb_false_r ].

(** A stream whose flag already has its value. *)
Ltac eta_stream s :=
  destruct s as [? ? ? ? ? ? ? ? ? ? ? ? ? ? ? ? ? ? ? ? ? ? ? ? [] [] ? ? ?]; simpl in *; by subst.

Lemma wf_member m p s id : wf m -> streams m !! p = Some s -> on_list id s = true -> p ∈ list_at m id.
Proof. intros Hw Hp Ho. apply (wf_lists _ Hw id). eauto. Qed.

Lemma wf_sender_member m p s i d : wf m -> streams m !! p = Some s ->
  sender_of (nif_out (sndvar s)) = Some i -> sender_at m i = Some d ->
  (on_control_list (sndvar s) = true -> p ∈ control_list d) /\
  (on_send_list (sndvar s) = true -> p ∈ send_list d) /\
  (on_ack_list (sndvar s) = true -> p ∈ ack_list d).
Proof.
  intros Hw Hp Hi Hd. split_and!; intros E.
  - pose proof (wf_member m p s (LControl i) Hw Hp) as Hm. simpl in Hm.
    rewrite E, Hi, Hd, bool_decide_true in Hm by done. by apply Hm.
  - pose proof (wf_member m p s (LSend i) Hw Hp) as Hm. simpl in Hm.
    rewrite E, Hi, Hd, bool_decide_true in Hm by done. by apply Hm.
  - pose proof (wf_member m p s (LAck i) Hw Hp) as Hm. simpl in Hm.
    rewrite E, Hi, Hd, bool_decide_true in Hm by done. by apply Hm.
Qed.

Ltac same_stream := eexists _, _; split; [done|];
  match goal with |- shift ?m ?p ?s' ?m => match goal with Hp : streams m !! p = Some ?s |- _ =>
    replace s' with s; [by apply shift_refl|eta_stream s] end end.

Ltac list_op Hp Hi Hd c1 c2 c3 :=
  run_list Hp Hi Hd; eexists _, _; split; [done|];
  match type of Hi with _ = Some ?i => match type of Hd with _ = Some ?d =>
    match type of Hp with _ = Some ?s => match goal with |- shift ?m ?p _ _ =>
      eapply (sender_moved m p s _ i d);
        [done..|sender_change i Hi Hd c1|sender_change i Hi Hd c2|sender_change i Hi Hd c3] end end end end.
Ltac lc_s := apply lc_same.
Ltac lc_a := apply lc_add.
Ltac lc_r := apply lc_remove.

Section sender_lists.
Context (m : mtcp_manager) (p : ptr) (s : tcp_stream).
Hypothesis (Hw : wf m) (Hp : streams m !! p = Some s).

Lemma AddtoControlList_ok ts :
  runs_to (AddtoControlList p ts) m p (s <| sndvar; on_control_list := true |>).
Proof using All.
  destruct (sender_exists m p s Hw Hp) as (i & d & Hi & Hd).
  unfold runs_to, AddtoControlList. run_list Hp Hi Hd.
  destruct (on_control_list (sndvar s)) eqn:E; simpl; [same_stream|].
  list_op Hp Hi Hd lc_a lc_s lc_s.
Qed.

Lemma AddtoSendList_ok :
  is_Some (sndbuf (sndvar s)) -> runs_to (AddtoSendList p) m p (s <| sndvar; on_send_list := true |>).
Proof using All.
  intros [b Hb]. destruct (sender_exists m p s Hw Hp) as (i & d & Hi & Hd).
  unfold runs_to, AddtoSendList. run_list Hp Hi Hd. rewrite Hb.
  destruct (on_send_list (sndvar s)) eqn:E; simpl; [same_stream|].
  list_op Hp Hi Hd lc_s lc_a lc_s.
Qed.

Lemma AddtoACKList_ok : runs_to (AddtoACKList p) m p (s <| sndvar; on_ack_list := true |>).
Proof using All.
  destruct (sender_exists m p s Hw Hp) as (i & d & Hi & Hd).
  unfold runs_to, AddtoACKList. run_list Hp Hi Hd.
  destruct (on_ack_list (sndvar s)) eqn:E; simpl; [same_stream|].
  list_op Hp Hi Hd lc_s lc_s lc_a.
Qed.

Lemma RemoveFromControlList_ok :
  runs_to (RemoveFromControlList p) m p (s <| sndvar; on_control_list := false |>).
Proof using All.
  destruct (sender_exists m p s Hw Hp) as (i & d & Hi & Hd).
  destruct (wf_sender_member m p s i d Hw Hp Hi Hd) as (Hm & _ & _).
  unfold runs_to, RemoveFromControlList. run_list Hp Hi Hd.
  destruct (on_control_list (sndvar s)) eqn:E; simpl; [|same_stream].
  run_list Hp Hi Hd. rewrite tailq_remove_ok by auto. cbn [res_bind]. list_op Hp Hi Hd lc_r lc_s lc_s.
Qed.

Lemma RemoveFromSendList_ok :
  runs_to (RemoveFromSendList p) m p (s <| sndvar; on_send_list := false |>).
Proof using All.
  destruct (sender_exists m p s Hw Hp) as (i & d & Hi & Hd).
  destruct (wf_sender_member m p s i d Hw Hp Hi Hd) as (_ & Hm & _).
  unfold runs_to, RemoveFromSendList. run_list Hp Hi Hd.
  destruct (on_send_list (sndvar s)) eqn:E; simpl; [|same_stream].
  run_list Hp Hi Hd. rewrite tailq_remove_ok by auto. cbn [res_bind]. list_op Hp Hi Hd lc_s lc_r lc_s.
Qed.

Lemma RemoveFromACKList_ok :
  runs_to (RemoveFromACKList p) m p (s <| sndvar; on_ack_list := false |>).
Proof using All.
  destruct (sender_exists m p s Hw Hp) as (i & d & Hi & Hd).
  destruct (wf_sender_member m p s i d Hw Hp Hi Hd) as (_ & _ & Hm).
  unfold runs_to, RemoveFromACKList. run_list Hp Hi Hd.
  destruct (on_ack_list (sndvar s)) eqn:E; simpl; [|same_stream].
  run_list Hp Hi Hd. rewrite tailq_remove_ok by auto. cbn [res_bind]. list_op Hp Hi Hd lc_s lc_s lc_r.
Qed.

(** The same changes made by other code: [i] is the stream's sender, [d] its
    lists. *)
Context (i : sender_id) (d : mtcp_sender).
Hypothesis (Hi : sender_of (nif_out (sndvar s)) = Some i) (Hd : sender_at m i = Some d).

Lemma attach_control l :
  on_control_list (sndvar s) = false -> l ≡ₚ control_list d ++ [p] ->
  let s' := s <| sndvar; on_control_list := true |> in
  shift m p s' (set_sender (m <| streams := <[p := s']> (streams m) |>) i
    (d <| control_list := l |> <| control_list_cnt := control_list_cnt d + 1 |>)).
Proof using All.
  intros E Hl s'. eapply (sender_moved m p s _ i d);
    [done..|sender_change i Hi Hd lc_a|sender_change i Hi Hd lc_s|sender_change i Hi Hd lc_s].
Qed.

Lemma detach_control l :
  on_control_list (sndvar s) = true -> l ≡ₚ filter (fun y => y <> p) (control_list d) ->
  let s' := s <| sndvar; on_control_list := false |> in
  shift m p s' (set_sender (m <| streams := <[p := s']> (streams m) |>) i
    (d <| control_list := l |> <| control_list_cnt := control_list_cnt d - 1 |>)).
Proof using All.
  intros E Hl s'. eapply (sender_moved m p s _ i d);
    [done..|sender_change i Hi Hd lc_r|sender_change i Hi Hd lc_s|sender_change i Hi Hd lc_s].
Qed.

Lemma detach_send l :
  on_send_list (sndvar s) = true -> l ≡ₚ filter (fun y => y <> p) (send_list d) ->
  let s' := s <| sndvar; on_send_list := false |> in
  shift m p s' (set_sender (m <| streams := <[p := s']> (streams m) |>) i
    (d <| send_list := l |> <| send_list_cnt := send_list_cnt d - 1 |>)).
Proof using All.
  intros E Hl s'. eapply (sender_moved m p s _ i d);
    [done..|sender_change i Hi Hd lc_s|sender_change i Hi Hd lc_r|sender_change i Hi Hd lc_s].
Qed.

Lemma requeue_send l :
  l ≡ₚ send_list d -> shift m p s (set_sender (m <| streams := <[p := s]> (streams m) |>) i (d <| send_list := l |>)).
Proof using All.
  intros Hl. eapply (sender_moved m p s _ i d);
    [done..|sender_change i Hi Hd lc_s|sender_change i Hi Hd lc_s|sender_change i Hi Hd lc_s].
Qed.

Lemma detach_ack l :
  on_ack_list (sndvar s) = true -> l ≡ₚ filter (fun y => y <> p) (ack_list d) ->
  let s' := s <| sndvar; on_ack_list := false |> in
  shift m p s' (set_sender (m <| streams := <[p := s']> (streams m) |>) i
    (d <| ack_list := l |> <| ack_list_cnt := ack_list_cnt d - 1 |>)).
Proof using All.
  intros E Hl s'. eapply (sender_moved m p s _ i d);
    [done..|sender_change i Hi Hd lc_s|sender_change i Hi Hd lc_s|sender_change i Hi Hd lc_r].
Qed.
End sender_lists.

(** *** Operations on the timer lists *)

(** The slot a stream goes to: by the distance of its timeout from the time
    of the store, in an array that turns with the time. *)
Definition rto_offset (st : rto_hashstore) s : Z :=
  let diff := s32 (ts_rto (sndvar s) - rto_now_ts st) in
  if diff <? RTO_HASH then u32 (diff + rto_now_idx st) mod RTO_HASH else RTO_HASH.

(** The store after [AddtoRTOList] has set its time if it was empty. *)
Definition rto_started m s : rto_hashstore :=
  if rto_list_cnt m =? 0 then mkRTO 0 (ts_rto (sndvar s)) (rto_list (rto_store m)) else rto_store m.

Lemma rto_offset_range st s : 0 <= rto_offset st s <= RTO_HASH.
Proof.
  unfold rto_offset, RTO_HASH. destruct (_ <? 3000); [|lia].
  pose proof (Z.mod_pos_bound (u32 (s32 (ts_rto (sndvar s) - rto_now_ts st) + rto_now_idx st)) 3000). lia.
Qed.

Lemma rto_slot_insert m st j k l :
  default [] (<[k := l]> (rto_list st) !! j) = if decide (j = k) then l else default [] (rto_list st !! j).
Proof. case_decide; subst; [by rewrite lookup_insert_eq|by rewrite lookup_insert_ne]. Qed.

Lemma bool_ltb_neg a : a <? 0 = negb (0 <=? a).
Proof. destruct (Z.ltb_spec a 0), (Z.leb_spec 0 a); simpl; lia || done. Qed.

Section timer_lists.
Context (m : mtcp_manager) (p : ptr) (s : tcp_stream).
Hypothesis (Hw : wf m) (Hp : streams m !! p = Some s).

(** Stream [p] moves in the store; [st] is the new store. *)
Lemma rto_moved k st n :
  let s' := s <| on_rto_idx := k |> in
  let m' := m <| streams := <[p := s']> (streams m) |> <| rto_store := st |> <| rto_list_cnt := n |> in
  -1 <= k <= RTO_HASH -> (on_timewait_list s = true -> k = -1) -> (forall j, list_change m m' p s s' (LRto j)) ->
  n = rto_list_cnt m + Z.b2z (0 <=? k) - Z.b2z (on_rto s) -> shift m p s' m'.
Proof using All.
  intros s' m' Hk Ht Hl Hn. eapply shift_moved; [done|done|]. constructor; try done.
  - intros [j|j|j|j| | |j]; try (by apply lc_same; try destruct j). apply Hl.
  - split_and!; [apply Hk..|exact Ht|apply (wf_streams _ Hw _ _ Hp)].
Qed.

Lemma AddtoRTOList_ok :
  on_rto_idx s < 0 -> on_timewait_list s = false ->
  exists m', AddtoRTOList p m = Ok (tt, m') /\
    shift m p (s <| on_rto_idx := rto_offset (rto_started m s) s |>) m'.
Proof using All.
  intros Hneg Htw. set (k := rto_offset (rto_started m s) s).
  pose proof (rto_offset_range (rto_started m s) s) as Hk. fold k in Hk.
  exists (m <| streams := <[p := s <| on_rto_idx := k |>]> (streams m) |>
       <| rto_store := mkRTO (rto_now_idx (rto_started m s)) (rto_now_ts (rto_started m s))
            (<[k := rto_slot m k ++ [p]]> (rto_list (rto_store m))) |>
       <| rto_list_cnt := rto_list_cnt m + 1 |>). split.
  - unfold AddtoRTOList, bind, gets, get_stream, upd_slot, when. rewrite Hp. unfold k, rto_started, rto_offset.
    destruct (Z.eqb_spec (rto_list_cnt m) 0); simpl; (destruct (Z.ltb_spec (on_rto_idx s) 0); [|lia]);
      rewrite Htw; unfold upd_stream; cbn -[s32 u32 RTO_HASH]; rewrite Hp; done.
  - assert (on_rto s = false) as Hr by (unfold on_rto; destruct (Z.leb_spec 0 (on_rto_idx s)); lia || done).
    apply rto_moved; [lia|congruence| |].
    + intros j. destruct (decide (j = k)) as [->|Hne].
      * apply lc_add; simpl; [|done|by rewrite Hr|].
        -- unfold rto_slot at 1. simpl. by rewrite lookup_insert_eq.
        -- unfold on_rto; simpl. rewrite Z.eqb_refl. destruct (Z.leb_spec 0 k); [done|lia].
      * apply lc_same; simpl; [|done|].
        -- unfold rto_slot; simpl. by rewrite lookup_insert_ne.
        -- unfold on_rto; simpl. destruct (Z.eqb_spec k j); [congruence|]. fold (on_rto s). by rewrite Hr, andb_false_r.
    + rewrite Hr. destruct (Z.leb_spec 0 k); simpl; lia.
Qed.

Lemma AddtoRTOList_noop :
  0 <= on_rto_idx s \/ on_timewait_list s = true -> runs_to (AddtoRTOList p) m p s.
Proof using All.
  intros Hn. unfold runs_to, AddtoRTOList, bind, gets, get_stream, when, modify, ret. rewrite Hp.
  assert (shift m p s (m <| rto_store := rto_started m s |>)) as Hsh.
  { apply (shift_trans m p s (m <| streams := <[p := s]> (streams m) |>)).
    - apply (upd_stream_quiet m p (fun s => s) s); done.
    - eapply shift_moved; [by apply lookup_insert_eq|by apply (upd_stream_quiet m p (fun s => s) s)|].
      constructor; try done; simpl.
      + by rewrite insert_insert_eq, insert_id.
      + intros id. apply lc_same; [|by destruct id|done]. destruct id; try done. simpl. unfold rto_slot; simpl.
        unfold rto_started. by destruct (_ =? _).
      + lia.
      + apply (wf_streams _ Hw _ _ Hp). }
  unfold rto_started in Hsh.
  destruct (Z.eqb_spec (rto_list_cnt m) 0) as [E|E]; rewrite ?E in Hsh; simpl in *;
    (destruct (Z.ltb_spec (on_rto_idx s) 0); [destruct Hn as [|Ht]; [lia|rewrite Ht]|]);
    (eexists _, _; split; [done|first [exact Hsh|by apply shift_refl]]).
Qed.

Lemma RemoveFromRTOList_ok : runs_to (RemoveFromRTOList p) m p (s <| on_rto_idx := -1 |>).
Proof using All.
  unfold runs_to, RemoveFromRTOList, bind, gets, get_stream, ret. rewrite Hp.
  destruct (so_timer _ (wf_streams _ Hw _ _ Hp)) as (Hr & _ & _).
  destruct (Z.ltb_spec (on_rto_idx s) 0) as [Hn|Hn].
  - eexists _, _; split; [done|]. replace (s <| on_rto_idx := _ |>) with s; [by apply shift_refl|].
    replace (-1) with (on_rto_idx s) by lia. by destruct s.
  - assert (on_rto s = true) as Ho by (unfold on_rto; destruct (Z.leb_spec 0 (on_rto_idx s)); lia || done).
    pose proof (wf_member m p s (LRto (on_rto_idx s)) Hw Hp) as Hm. simpl in Hm. rewrite Ho, Z.eqb_refl in Hm.
    unfold lift. rewrite tailq_remove_ok by auto. unfold upd_slot, upd_stream, modify. cbn. rewrite Hp.
    eexists _, _; split; [done|].
    eapply (rto_moved (-1) (rto_store m <| rto_list := <[on_rto_idx s := _]> (rto_list (rto_store m)) |>)); [lia|done| |].
    + intros j. destruct (decide (j = on_rto_idx s)) as [->|Hne].
      * apply lc_remove; simpl; [|done|by rewrite Ho, Z.eqb_refl|done].
        unfold rto_slot at 1. simpl. by rewrite lookup_insert_eq.
      * apply lc_same; simpl; [|done|].
        -- unfold rto_slot; simpl. by rewrite lookup_insert_ne.
        -- destruct (Z.eqb_spec (on_rto_idx s) j); [congruence|]. by rewrite andb_false_r.
    + rewrite Ho. simpl. lia.
Qed.

(** The TIME_WAIT list: [l], [n] and flag [b] replace the old ones. *)
Lemma timewait_moved b l n :
  let s' := s <| on_timewait_list := b |> in
  let m' := m <| streams := <[p := s']> (streams m) |> <| timewait_list := l |> <| timewait_list_cnt := n |> in
  (b = true -> on_rto_idx s = -1) -> list_change m m' p s s' LTimewait -> shift m p s' m'.
Proof using All.
  intros s' m' Hb Hl. eapply shift_moved; [done|done|]. constructor; try done.
  - intros [j|j|j|j| | |j]; try (by apply lc_same; try destruct j). apply Hl.
  - unfold s', on_rto; simpl. lia.
  - split_and!; [apply (wf_streams _ Hw _ _ Hp)..|exact Hb|apply (wf_streams _ Hw _ _ Hp)].
Qed.

Lemma timeout_moved b l n :
  let s' := s <| on_timeout_list := b |> in
  let m' := m <| streams := <[p := s']> (streams m) |> <| timeout_list := l |> <| timeout_list_cnt := n |> in
  (b = true -> 0 < tcp_timeout) -> list_change m m' p s s' LTimeout -> shift m p s' m'.
Proof using All.
  intros s' m' Hb Hl. eapply shift_moved; [done|done|]. constructor; try done.
  - intros [j|j|j|j| | |j]; try (by apply lc_same; try destruct j). apply Hl.
  - unfold s', on_rto; simpl. lia.
  - split_and!; [apply (wf_streams _ Hw _ _ Hp)..|exact Hb].
Qed.

Lemma RemoveFromTimewaitList_ok :
  on_timewait_list s = true -> runs_to (RemoveFromTimewaitList p) m p (s <| on_timewait_list := false |>).
Proof using All.
  intros Ht. unfold runs_to, RemoveFromTimewaitList, bind, gets, get_stream, modify, lift.
  pose proof (wf_member m p s LTimewait Hw Hp Ht) as Hm. simpl in Hm.
  rewrite Hp, Ht. cbn -[tailq_remove]. rewrite tailq_remove_ok by done. unfold upd_stream. cbn. rewrite Hp.
  eexists _, _; split; [done|]. eapply timewait_moved; [done|]. by apply lc_remove.
Qed.

Lemma AddtoTimeoutList_ok :
  0 < tcp_timeout -> on_timeout_list s = false -> runs_to (AddtoTimeoutList p) m p (s <| on_timeout_list := true |>).
Proof using All.
  intros ? Ht. unfold runs_to, AddtoTimeoutList, bind, gets, get_stream, modify, upd_stream.
  rewrite Hp, Ht. cbn. rewrite Hp. eexists _, _; split; [done|]. eapply timeout_moved; [done|]. by apply lc_add.
Qed.

Lemma RemoveFromTimeoutList_ok :
  runs_to (RemoveFromTimeoutList p) m p (s <| on_timeout_list := false |>).
Proof using All.
  unfold runs_to, RemoveFromTimeoutList, bind, gets, get_stream, modify, upd_stream, lift. rewrite Hp.
  destruct (on_timeout_list s) eqn:E; [|same_stream]. cbn -[tailq_remove]. rewrite Hp.
  pose proof (wf_member m p s LTimeout Hw Hp E) as Hm. simpl in Hm. cbn -[tailq_remove]. rewrite tailq_remove_ok by done.
  eexists _, _; split; [done|]. eapply timeout_moved; [done|]. by apply lc_remove.
Qed.

Lemma UpdateTimeoutList_ok : runs_to (UpdateTimeoutList p) m p s.
Proof using All.
  unfold runs_to, UpdateTimeoutList, bind, gets, get_stream, modify, ret, lift. rewrite Hp.
  destruct (on_timeout_list s) eqn:E; [|eexists _, _; split; [done|by apply shift_refl]].
  pose proof (wf_member m p s LTimeout Hw Hp E) as Hm. simpl in Hm. cbn -[tailq_remove]. rewrite tailq_remove_ok by done.
  eexists _, _; split; [done|]. eapply shift_moved; [done|done|]. constructor; try done; simpl.
  - by rewrite insert_id.
  - intros [j|j|j|j| | |j]; try (by apply lc_same; try destruct j).
    apply lc_same; [|done|done]. apply filter_ne_requeue; [|done]. apply (wf_lists _ Hw LTimeout).
  - lia.
  - apply (wf_streams _ Hw _ _ Hp).
Qed.
End timer_lists.

(** What the stream becomes when it enters TIME_WAIT. *)
Definition in_timewait (s : tcp_stream) (cur_ts : Z) : tcp_stream :=
  s <| rcvvar; ts_tw_expire := u32 (cur_ts + tcp_timewait) |> <| on_rto_idx := -1 |> <| on_timewait_list := true |>.

Lemma leave_rto_ok m p s :
  wf m -> streams m !! p = Some s ->
  runs_to (when (0 <=? on_rto_idx s) (RemoveFromRTOList p)) m p (s <| on_rto_idx := -1 |>).
Proof.
  intros Hw Hp. unfold when. destruct (Z.leb_spec 0 (on_rto_idx s)) as [?|Hn]; [by apply RemoveFromRTOList_ok|].
  destruct (so_timer _ (wf_streams _ Hw _ _ Hp)) as (Hr & _ & _). replace (-1) with (on_rto_idx s) by lia.
  replace (s <| on_rto_idx := on_rto_idx s |>) with s by (by destruct s). by apply runs_ret.
Qed.

Lemma AddtoTimewaitList_ok m p s ts :
  wf m -> streams m !! p = Some s -> runs_to (AddtoTimewaitList p ts) m p (in_timewait s ts).
Proof.
  intros Hw Hp. eapply runs_bind; [by apply runs_upd_rcv|].
  clear m Hw Hp. intros _ m Hw Hp. eapply runs_get; [done|].
  change (on_timewait_list (s <| rcvvar := _ |>)) with (on_timewait_list s). destruct (on_timewait_list s) eqn:E.
  - pose proof (wf_member m p _ LTimewait Hw Hp E) as Hm. simpl in Hm.
    destruct (so_timer _ (wf_streams _ Hw _ _ Hp)) as (_ & Hx & _). specialize (Hx E). simpl in Hx.
    unfold runs_to, bind, gets, lift, modify. rewrite tailq_remove_ok by done. eexists _, _; split; [done|].
    unfold in_timewait. rewrite <- E, <- Hx. eapply shift_moved; [done|done|]. constructor; try done; simpl.
    + rewrite insert_id; [done|]. rewrite Hp. by destruct s.
    + intros id. apply lc_same; [|by destruct id|apply on_list_ext; by destruct s].
      destruct id; try done. apply filter_ne_requeue; [|done]. apply (wf_lists _ Hw LTimewait).
    + unfold on_rto; simpl. lia.
    + apply (wf_streams _ Hw _ _ Hp).
  - eapply runs_bind; [exact (leave_rto_ok _ _ _ Hw Hp)|].
    clear m Hw Hp. intros _ m Hw Hp. unfold runs_to, bind, upd_stream, modify. rewrite Hp.
    eexists _, _; split; [done|]. eapply (timewait_moved m p _ Hw Hp true); [done|]. by apply lc_add.
Qed.

(** A stream that is not on the store may be added to it. *)
Lemma AddtoRTOList_some m p s :
  wf m -> streams m !! p = Some s ->
  exists k, runs_to (AddtoRTOList p) m p (s <| on_rto_idx := k |>).
Proof.
  intros Hw Hp. destruct (decide (0 <= on_rto_idx s \/ on_timewait_list s = true)) as [Hn|Hn].
  - exists (on_rto_idx s). replace (s <| on_rto_idx := on_rto_idx s |>) with s by (by destruct s).
    by apply AddtoRTOList_noop.
  - destruct (AddtoRTOList_ok m p s Hw Hp) as (m' & E & Hsh); [lia|destruct (on_timewait_list s); tauto|].
    eexists. exists tt, m'. done.
Qed.

Lemma UpdateRetransmissionTimer_ok m p s ts :
  wf m -> streams m !! p = Some s -> 0 < rto (sndvar s) ->
  runs_in (UpdateRetransmissionTimer p ts) m p (fun s' => exists t k,
    s' = s <| sndvar; nrtx := 0 |> <| sndvar; ts_rto := t |> <| on_rto_idx := k |>).
Proof.
  intros Hw Hp Hr. apply (runs_in_get _ m p s _ Hp). unfold assert. destruct (Z.ltb_spec 0 (rto (sndvar s))); [|lia].
  change (bind (ret tt) ?k) with (k tt). cbv beta.
  eapply runs_in_bind; [by apply runs_upd_snd|]. clear m Hw Hp. intros _ m Hw Hp.
  eapply runs_in_bind; [exact (leave_rto_ok _ _ _ Hw Hp)|]. clear m Hw Hp. intros _ m Hw Hp.
  destruct (TCP_SEQ_GT _ _).
  - eapply runs_in_bind; [by apply runs_upd_snd|]. clear m Hw Hp. intros _ m Hw Hp.
    destruct (AddtoRTOList_some m p _ Hw Hp) as (k & Hk). eexists. split; [|exact Hk]. by eexists _, k.
  - eexists. split; [|by apply runs_ret]. exists (ts_rto (sndvar s)), (-1). by destruct s as [? ? ? ? ? ? ? ? ? ? ? ? ? ? ? ? ? ? ? ? ? ? ? ? ? [] ? ? ?].
Qed.
End invariant.
