(* ===== verification/Boot.v ===== *)
(** * Start-up of a thread: [InitializeMTCPManager] and [CreateMTCPSender] of
    [core.c], [InitRTOHashstore] of [timer.c], [CreateHashtable] of [fhash.c]

    The manager starts with empty tables, lists and queues; it satisfies the
    invariant of [Invariant]. A sample configuration with one interface is
    defined here for the examples of the later files. *)

From S2P Require Import Prelude SeqNum SpscQueue MemPool RingBuffer SendBuffer AddrPool Rss.
From S2P Require Import Machine Wp Lists FlowTable Network StreamOps Invariant.

Definition CreateMTCPSender (ok : bool) (ifidx : Z) : option mtcp_sender :=
  if ok then Some (mkSender ifidx [] [] [] 0 0 0) else None.

(** An absent bucket is an empty list. *)
Definition CreateHashtable (ok1 ok2 : bool) : option (gmap Z (list ptr)) := if ok1 && ok2 then Some ∅ else None.

Definition InitRTOHashstore : rto_hashstore := mkRTO 0 0 ∅.

Definition BACKLOG_SIZE : Z := 10240.

(** A slot of the socket map, unused. *)
Definition empty_socket (i : Z) : socket_map := mkSock i MTCP_SOCK_UNUSED 0 0 0 SockNull 0 0 0.

(** [if (!x) return NULL;] *)
Definition need {A B} (o : option A) (k : A -> res (option B)) : res (option B) :=
  match o with None => Ok None | Some a => k a end.

Fixpoint create_senders (ok : nat -> bool) (i : nat) (n : nat) : option (list mtcp_sender) :=
  match n with
  | O => Some []
  | S n => d ← CreateMTCPSender (ok i) (Z.of_nat i); l ← create_senders ok (S i) n; Some (d :: l)
  end.

(** What start-up receives from outside: the sizes of the structures, the
    receive buffer configuration, the clock, the heap, and the outcomes of
    the calls to the interface and the allocator still to come. *)
Record boot_args := mkBoot {
  sz_stream : Z; sz_rcv : Z; sz_snd : Z; rcvbuf_size : Z; max_num_buffers : Z;
  boot_time : Z; frag_brk : ptr; heap_start : ptr;
  boot_wptrs : list bool; boot_mallocs : list bool; boot_aps : list (option addr_pool)
}.

Lemma need_Some {A B} (o : option A) (k : A -> res (option B)) b :
  need o k = Ok (Some b) -> exists a, o = Some a /\ k a = Ok (Some b).
Proof. destruct o; simpl; [eauto|done]. Qed.

Ltac boot_inv H :=
  repeat match type of H with
  | need _ _ = Ok (Some _) => apply need_Some in H; destruct H as (? & ? & H)
  | res_bind _ _ = Ok _ => apply res_bind_Ok in H; destruct H as (? & ? & H)
  | (if ?b then _ else _) = Ok _ => destruct b; [done|]
  end.

Section boot.
Context `{Env}.

(** [ok k] is the outcome of the k-th allocation; the outcome of the
    allocation of the retransmission store is not tested by the code and is
    taken to be success. *)
Definition InitializeMTCPManager (ok : nat -> bool) (a : boot_args) : res (option mtcp_manager) :=
  if negb (ok 0%nat) then Ok None
  else
    need (CreateHashtable (ok 1%nat) (ok 2%nat)) (fun flows =>
    need (CreateHashtable (ok 3%nat) (ok 4%nat)) (fun lst =>
    let! fp := MPCreate (ok 5%nat) (sz_stream a) (sz_stream a * max_concurrency) in
    need fp (fun fp =>
    let! rp := MPCreate (ok 6%nat) (sz_rcv a) (sz_rcv a * max_concurrency) in
    need rp (fun rp =>
    let! sp := MPCreate (ok 7%nat) (sz_snd a) (sz_snd a * max_concurrency) in
    need sp (fun sp =>
    let! sbm := SBManagerCreate (ok 8%nat) (ok 9%nat) (ok 10%nat) sndbuf_size (max_num_buffers a) in
    need sbm (fun sbm =>
    let! rbm := RBManagerCreate (ok 11%nat) (ok 12%nat) (ok 13%nat) (ok 14%nat) (ok 15%nat) (frag_brk a)
                  (rcvbuf_size a) (max_num_buffers a) in
    need rbm (fun rbm =>
    if negb (ok 16%nat) then Ok None          (* socket map *)
    else if negb (ok 17%nat) then Ok None     (* log file *)
    else
      need (CreateStreamQueue (ok 18%nat) (ok 18%nat) BACKLOG_SIZE) (fun cq =>
      need (CreateStreamQueue (ok 19%nat) (ok 19%nat) max_concurrency) (fun sq =>
      need (CreateStreamQueue (ok 20%nat) (ok 20%nat) max_concurrency) (fun aq =>
      need (CreateStreamQueue (ok 21%nat) (ok 21%nat) max_concurrency) (fun clq =>
      need (CreateInternalStreamQueue (ok 22%nat) (ok 22%nat) max_concurrency) (fun clqi =>
      need (CreateStreamQueue (ok 23%nat) (ok 23%nat) max_concurrency) (fun rq =>
      need (CreateInternalStreamQueue (ok 24%nat) (ok 24%nat) max_concurrency) (fun rqi =>
      need (CreateStreamQueue (ok 25%nat) (ok 25%nat) max_concurrency) (fun dq =>
      need (CreateMTCPSender (ok 26%nat) (-1)) (fun g =>
      need (create_senders (fun i => ok (27 + i)%nat) 0 (Z.to_nat eths_num)) (fun ns =>
      let ids := Z.of_nat <$> seq 0 (Z.to_nat max_concurrency) in
      Ok (Some (mkMtcp ∅ fp rp sp sbm rbm flows
                  (list_to_map ((fun i => (i, empty_socket i)) <$> ids)) ids
                  lst ∅ 0 0 None ∅ ∅ (heap_start a)
                  cq sq aq clq clqi rq rqi dq g ns InitRTOHashstore [] [] 0 0 0 0 false
                  false false false (boot_time a) [] None [] None (boot_aps a)
                  (boot_wptrs a) (boot_mallocs a) []))))))))))))))))))).

(** The sizes fit: what the invariant needs of the configuration. *)
Definition boot_ok (a : boot_args) : Prop :=
  0 < max_concurrency < 2147483648 /\
  Forall (fun sz => 0 < sz) [sz_stream a; sz_rcv a; sz_snd a].

Lemma owns_created ok sz mp key :
  0 < sz -> 0 < max_concurrency < 2147483648 ->
  MPCreate ok sz (sz * max_concurrency) = Ok (Some mp) -> owns mp key ∅.
Proof.
  intros Hsz Hn Hc. assert (chunk_count sz (sz * max_concurrency) = max_concurrency) as Hcnt.
  { unfold chunk_count. rewrite Z.add_comm, Z.mul_comm, Z.div_add by lia. rewrite Z.div_small; lia. }
  destruct (MPCreate_rep sz (sz * max_concurrency) mp) as (free & Hr & _); [nia|lia| |].
  - destruct ok; [done|]. revert Hc. unfold MPCreate. by repeat case_match.
  - exists free, []. split; [done|]. split; [|by intros ? ? ? ? ?%lookup_empty_Some].
    intros b. split; [by intros ?%not_elem_of_nil|]. by intros (? & ? & ?%lookup_empty_Some & _).
Qed.

Lemma create_senders_spec ok i n l :
  create_senders ok i n = Some l -> length l = n /\ Forall (fun d => exists k, d = mkSender k [] [] [] 0 0 0) l.
Proof.
  revert i l. induction n as [|n IH]; intros i l; simpl; [by intros [= <-]|].
  intros (d & Hd & (l' & Hl & [= <-])%bind_Some)%bind_Some. apply IH in Hl as [? ?].
  revert Hd. unfold CreateMTCPSender. destruct (ok i); [|done]. intros [= <-]. split; [simpl; lia|]. eauto.
Qed.

Lemma init_wf ok a m : boot_ok a -> InitializeMTCPManager ok a = Ok (Some m) -> wf m.
Proof.
  intros (Hn & Hsz) Hi. apply Forall_cons in Hsz as (H1 & (H2 & (H3 & _)%Forall_cons)%Forall_cons).
  unfold InitializeMTCPManager in Hi. boot_inv Hi. injection Hi as <-. subst.
  repeat match goal with Hc : CreateHashtable _ _ = Some _ |- _ =>
    unfold CreateHashtable in Hc; destruct (_ && _); [injection Hc as <-|discriminate Hc] end.
  match goal with Hc : CreateMTCPSender _ _ = Some _ |- _ =>
    unfold CreateMTCPSender in Hc; destruct (ok 26%nat); [injection Hc as <-|discriminate Hc] end.
  match goal with Hc : create_senders _ _ _ = Some _ |- _ => apply create_senders_spec in Hc as [Hlen Hall] end.
  match goal with |- wf ?m => set (m0 := m) end.
  assert (forall i, match sender_at m0 i with Some d => exists k, d = mkSender k [] [] [] 0 0 0 | None => True end) as Hs.
  { intros [|k]; simpl; [eauto|]. destruct (_ !! k) eqn:E; [|done]. by apply (Forall_lookup_1 _ _ _ _ Hall E). }
  assert (forall id, list_at m0 id = []) as Hl.
  { intros [i|i|i|j| | |j]; try done; simpl; specialize (Hs i); destruct (sender_at m0 i); try done;
      by destruct Hs as [? ->]. }
  assert (forall l P, l = [] -> enlists l P (∅ : gmap ptr tcp_stream)) as He.
  { intros l P ->. split; [apply NoDup_nil_2|]. intros p. split; [by intros ?%not_elem_of_nil|].
    by intros (? & ?%lookup_empty_Some & _). }
  constructor; simpl.
  - intros id. by apply He.
  - intros id n. rewrite Hl. destruct id as [i|i|i|j| | |j]; try done; simpl; try (by intros [= <-]);
      specialize (Hs i); destruct (sender_at m0 i); try done; destruct Hs as [? ->]; by intros [= <-].
  - exists []. split; [by apply He|done].
  - done.
  - done.
  - by intros ? ? ?%lookup_empty_Some.
  - eapply owns_created; [| |eassumption]; done.
  - eapply owns_created; [| |eassumption]; done.
  - eapply owns_created; [| |eassumption]; done.
  - intros j l. unfold bucket. rewrite lookup_empty. by intros ?%not_elem_of_nil.
  - done.
  - by intros ? ? ?%lookup_empty_Some.
  - by intros ? ? ? ? ?%lookup_empty_Some.
Qed.
End boot.

(** ** A sample configuration

    One interface, 10.0.0.1/24, with a route for its subnet. Addresses are in
    network order on a little-endian machine. *)

Module Demo.
Definition ip_me : Z := 16777226.      (* 10.0.0.1 *)
Definition ip_peer : Z := 33554442.    (* 10.0.0.2 *)

Definition env : Env := {|
  tcp_timewait := 0; tcp_timeout := 30000; sndbuf_size := 8192; max_concurrency := 4;
  eths := [(ip_me, [2; 0; 0; 0; 0; 1])];
  nif_to_eidx := fun n => if n =? 0 then 0 else -1;
  rtable := [mkRoute ip_me 16777215 10 24 0]; gateway := None;
  arp_capacity := 16;
  rand_r := fun s => (s * 1103515245 mod 2147483648, u32 (s + 12345));
  fresh_mem := fun n => replicate (Z.to_nat n) 0;
  hw_checksum := true; cpu := 0; num_cpus := 1; num_queues := 1; endian_check := true
|}.
#[export] Existing Instance env.

#[export] Instance net : NetOk.
Proof.
  split; [|done]. apply Forall_cons. split; [|done]. split; [done|]. by exists (NSender 0).
Qed.

Definition args : boot_args :=
  mkBoot 128 160 200 8192 8 1 1048576 1 (replicate 64 true) (replicate 64 true) [].

Definition boot : res (option mtcp_manager) := InitializeMTCPManager (fun _ => true) args.

(** The manager after start-up, evaluated. *)
Definition m_boot : mtcp_manager :=
  ltac:(let x := eval vm_compute in boot in match x with Ok (Some ?m) => exact m end).

Lemma boot_eq : boot = Ok (Some m_boot).
Proof. vm_compute. reflexivity. Qed.

Lemma boot_wf : wf m_boot.
Proof.
  apply (init_wf (fun _ => true) args); [|exact boot_eq]. split; [done|]. by repeat constructor.
Qed.

(** The hardware address of the peer is known. *)
Definition m0 : mtcp_manager :=
  m_boot <| arp_table := [mkArp ip_peer 32 4294967295 ip_peer [2; 0; 0; 0; 0; 2]] |>.
End Demo.
