(* ===== verification/StreamInv.v ===== *)
(** * Life of a stream

    [CreateTCPStream] and [DestroyTCPStream] against the invariant of
    [Invariant]: a created stream enters the flow table and nothing else; a
    destroyed stream leaves every list, its chunks go back to the pools and
    its address to the address pool. *)

From S2P Require Import Prelude SeqNum SpscQueue MemPool RingBuffer SendBuffer AddrPool Rss.
From S2P Require Import Machine Wp Lists FlowTable Network StreamOps Invariant Boot.

Section streams.
Context `{Env}.
Implicit Types (m : mtcp_manager) (s : tcp_stream) (p q : ptr).

(** ** The part of a manager the invariant reads *)

Definition core m :=
  (streams m, flow_pool m, rv_pool m, sv_pool m, tcp_flow_table m, listeners m, listener_store m,
   flow_cnt m, (g_sender m, n_sender m, rto_list (rto_store m), timewait_list m, timeout_list m),
   (rto_list_cnt m, timewait_list_cnt m, timeout_list_cnt m), (m_ap m, aps m), (ep m, epolls m)).

Lemma wf_core m m' : core m' = core m -> wf m -> wf m'.
Proof.
  intros E [Hl Hc Hr Hf Hs Ho Hp1 Hp2 Hp3 Hli He Hb Hbi]. unfold core in E.
  injection E as E1 E2 E3 E4 E5 E6 E7 E8 E9 E10 E11 E12 E13 E14 E15 E16 E17 E18 E19 E20.
  assert (forall i, sender_at m' i = sender_at m i) as Hsa by (intros []; simpl; congruence).
  assert (forall id, list_at m' id = list_at m id) as Hla.
  { intros []; simpl; rewrite ?Hsa; unfold rto_slot; congruence. }
  assert (forall id, cnt_at m' id = cnt_at m id) as Hca.
  { intros []; simpl; rewrite ?Hsa; congruence. }
  assert (forall a, ap_of m' a = ap_of m a) as Hap by (intros a; unfold ap_of; by rewrite E17, E18).
  constructor; rewrite ?E1, ?E2, ?E3, ?E4, ?E6, ?E7, ?E8, ?E10, ?E14, ?E19, ?E20; try done.
  - intros id. rewrite Hla. apply Hl.
  - intros id n. rewrite Hca, Hla. apply Hc.
  - intros p s. rewrite Hap. apply Hb.
Qed.

(** ** Leaving the lists *)

(** The stream with the flags of all lists but the flow table cleared. *)
Definition off_lists s : tcp_stream :=
  s <| sndvar; on_control_list := false |> <| sndvar; on_send_list := false |> <| sndvar; on_ack_list := false |>
    <| on_rto_idx := -1 |> <| on_timewait_list := false |> <| on_timeout_list := false |>.

Lemma off_lists_id s : flags s = (false, false, false, -1, false, false) -> off_lists s = s.
Proof.
  destruct s as [? ? ? ? ? ? ? ? ? ? ? ? ? ? ? ? ? ? ? ? ? ? ? ? ? [] ? ? ?]. unfold flags. simpl.
  by intros [= -> -> -> -> -> ->].
Qed.

Lemma leave_lists_ok m p s :
  wf m -> streams m !! p = Some s -> runs_to (leave_lists p) m p (off_lists s).
Proof.
  intros Hw Hp. unfold leave_lists.
  eapply runs_bind; [by apply RemoveFromControlList_ok|]. clear m Hw Hp. intros _ m Hw Hp.
  eapply runs_bind; [by apply RemoveFromSendList_ok|]. clear m Hw Hp. intros _ m Hw Hp.
  eapply runs_bind; [by apply RemoveFromACKList_ok|]. clear m Hw Hp. intros _ m Hw Hp.
  eapply runs_get; [done|].
  eapply runs_bind; [exact (leave_rto_ok _ _ _ Hw Hp)|]. clear m Hw Hp. intros _ m Hw Hp.
  eapply runs_get; [done|].
  eapply runs_bind.
  { instantiate (1 := _ <| on_timewait_list := false |>). unfold when.
    match goal with |- runs_to (if ?b then _ else _) _ _ _ => destruct b eqn:E end.
    - by apply RemoveFromTimewaitList_ok.
    - match type of Hp with _ = Some ?x => replace (x <| on_timewait_list := false |>) with x
        by (simpl in E; by destruct s; simpl in *; subst) end. by apply runs_ret. }
  clear m Hw Hp. intros _ m Hw Hp. unfold when. destruct (Z.ltb_spec 0 tcp_timeout).
  - eapply RemoveFromTimeoutList_ok; [done|exact Hp].
  - destruct (so_timer _ (wf_streams _ Hw _ _ Hp)) as (_ & _ & Ht). simpl in Ht.
    unfold off_lists. match type of Hp with _ = Some ?x => set (x0 := x) in * end.
    assert (on_timeout_list s = false) as E by (destruct (on_timeout_list s); [lia|done]).
    replace (x0 <| on_timeout_list := false |>) with x0 by (unfold x0; by destruct s; simpl in *; subst).
    by apply runs_ret.
Qed.

(** ** Deleting a stream that is on no list *)

Lemma enlists_delete l P (ss : gmap ptr tcp_stream) p :
  enlists l P ss -> enlists (filter (fun y => y <> p) l) P (delete p ss).
Proof.
  intros [Hnd Hin]. split; [by apply filter_ne_NoDup|]. intros q. rewrite filter_ne_elem, Hin.
  destruct (decide (q = p)) as [->|Hne].
  - rewrite lookup_delete_eq. naive_solver.
  - rewrite lookup_delete_ne by done. naive_solver.
Qed.

Lemma enlists_off l P (ss : gmap ptr tcp_stream) p s :
  ss !! p = Some s -> P s = false -> enlists l P ss -> filter (fun y => y <> p) l = l.
Proof. intros Hp HP [_ Hin]. apply filter_ne_notin. intros (t & ? & ?)%Hin. congruence. Qed.

Lemma owns_delete mp key (ss : gmap ptr tcp_stream) p s :
  owns mp key ss -> ss !! p = Some s ->
  exists mp', MPFreeChunk mp (key p s) = Ok mp' /\ owns mp' key (delete p ss).
Proof.
  intros (free & used & Hr & Hin & Hinj) Hp. assert (key p s ∈ used) as Hk by (apply Hin; eauto).
  apply list_elem_of_split in Hk as (u1 & u2 & ->).
  destruct (MPFreeChunk_ok _ _ _ _ _ Hr) as (mp' & E & Hr' & _). exists mp'. split; [done|].
  exists (key p s :: free), (u1 ++ u2). split; [done|].
  assert (~ key p s ∈ u1 ++ u2) as Hn.
  { destruct Hr' as (_ & _ & _ & _ & Hnd & _). simpl in Hnd. apply NoDup_cons in Hnd as [Hnd _]. set_solver. }
  split.
  - intros a. trans (a ∈ u1 ++ key p s :: u2 /\ a <> key p s); [set_solver|]. rewrite Hin. split.
    + intros [(q & t & Hq & <-) Hne]. exists q, t. rewrite lookup_delete_ne; naive_solver.
    + intros (q & t & [Hqp Hq]%lookup_delete_Some & <-). split; [eauto|]. intros E'. apply Hqp. eauto.
  - intros q r t u [_ Hq]%lookup_delete_Some [_ Hr2]%lookup_delete_Some. by apply Hinj.
Qed.

(** [m'] is [m] without stream [p], whose chunks went back to the pools. *)
Record erased m p s m' : Prop := {
  rm_streams : streams m' = delete p (streams m);
  rm_lists : forall id, list_at m' id = filter (fun y => y <> p) (list_at m id);
  rm_counts : forall id, cnt_at m' id = cnt_at m id;
  rm_rto : rto_list_cnt m' = rto_list_cnt m;
  rm_flows : flow_cnt m' = u32 (flow_cnt m - 1);
  rm_senders : n_sender m' = n_sender m;
  rm_flow_pool : MPFreeChunk (flow_pool m) p = Ok (flow_pool m');
  rm_rv_pool : MPFreeChunk (rv_pool m) (rv_addr s) = Ok (rv_pool m');
  rm_sv_pool : MPFreeChunk (sv_pool m) (sv_addr s) = Ok (sv_pool m');
  rm_listeners : listeners m' = listeners m /\ listener_store m' = listener_store m;
  rm_ep : ep m' = ep m /\ epolls m' = epolls m;
  rm_addr : m_ap m' = m_ap m /\ aps m' = aps m
}.

Lemma list_id_flow id : (exists j, id = LFlow j) \/ (forall j, id <> LFlow j).
Proof. destruct id; eauto. Qed.

Lemma off_lists_off s id : (forall j, id <> LFlow j) -> on_list id (off_lists s) = false.
Proof. intros Hid. destruct id; [done..|by edestruct Hid]. Qed.

Lemma erased_wf m p s m' :
  wf m -> streams m !! p = Some s -> off_lists s = s -> erased m p s m' -> wf m'.
Proof.
  intros Hw Hp Hoff He. destruct He.
  assert (forall id, (forall j, id <> LFlow j) -> list_at m' id = list_at m id) as Hsame.
  { intros id Hid. rewrite rm_lists0. eapply enlists_off; [done| |apply (wf_lists _ Hw id)].
    rewrite <- Hoff. by apply off_lists_off. }
  constructor.
  - intros id. rewrite rm_lists0, rm_streams0. apply enlists_delete, (wf_lists _ Hw).
  - intros id n Hn. rewrite rm_counts0 in Hn. rewrite Hsame; [by apply (wf_counts _ Hw)|].
    intros j ->. done.
  - destruct (wf_rto _ Hw) as (l & Hl & E). exists l. rewrite rm_rto0, rm_streams0. split; [|done].
    rewrite <- (enlists_off l on_rto (streams m) p s); [by apply enlists_delete|done| |done].
    by rewrite <- Hoff.
  - rewrite rm_flows0, rm_streams0, (wf_flows _ Hw), u32_sub_l, map_size_delete, Hp.
    assert (base.size (streams m) <> 0)%nat as Hz by (rewrite map_size_ne_0_lookup; eauto). f_equal. lia.
  - rewrite rm_senders0. apply Hw.
  - intros q t. rewrite rm_streams0. intros [_ Hq]%lookup_delete_Some. by eapply wf_streams.
  - destruct (owns_delete _ _ _ _ _ (wf_flow_pool _ Hw) Hp) as (mp' & E & Ho).
    rewrite rm_streams0. rewrite rm_flow_pool0 in E. by injection E as <-.
  - destruct (owns_delete _ _ _ _ _ (wf_rv_pool _ Hw) Hp) as (mp' & E & Ho).
    rewrite rm_streams0. rewrite rm_rv_pool0 in E. by injection E as <-.
  - destruct (owns_delete _ _ _ _ _ (wf_sv_pool _ Hw) Hp) as (mp' & E & Ho).
    rewrite rm_streams0. rewrite rm_sv_pool0 in E. by injection E as <-.
  - destruct rm_listeners0 as [-> ->]. apply Hw.
  - destruct rm_ep0 as [-> ->]. apply Hw.
  - intros q t. rewrite rm_streams0. intros [_ Hq]%lookup_delete_Some. unfold ap_of.
    destruct rm_addr0 as [-> ->]. by apply (wf_bound _ Hw q t).
  - intros q r t u. rewrite rm_streams0. intros [_ Hq]%lookup_delete_Some [_ Hr]%lookup_delete_Some.
    by apply (wf_bound_inj _ Hw).
Qed.

(** ** [DestroyTCPStream] *)

(** The part between the release of the buffers and the release of the address. *)
Definition unlink_stream p (rv sv : ptr) : M unit :=
  StreamHTRemove p ;;;
  upd_stream p (fun s => s <| on_hash_table := false |>) ;;;
  modify (fun m => m <| flow_cnt := u32 (flow_cnt m - 1) |>) ;;;
  free_rv rv ;;;
  free_sv sv ;;;
  free_flow p.

Lemma StreamHTRemove_ok m p s :
  wf m -> streams m !! p = Some s ->
  let j := HashFlow (flow_of s) in
  StreamHTRemove p m = Ok (tt, m <| tcp_flow_table :=
    <[j := filter (fun y => y <> p) (bucket (tcp_flow_table m) j)]> (tcp_flow_table m) |>).
Proof.
  intros Hw Hp j. unfold StreamHTRemove, bind, get_stream, gets, lift, modify. rewrite Hp.
  fold j. rewrite tailq_remove_ok; [done|]. apply (wf_member m p s (LFlow j) Hw Hp). simpl.
  by rewrite (so_hash _ (wf_streams _ Hw _ _ Hp)), Z.eqb_refl.
Qed.

Lemma unlink_stream_ok m p s :
  wf m -> streams m !! p = Some s -> off_lists s = s ->
  exists m', unlink_stream p (rv_addr s) (sv_addr s) m = Ok (tt, m') /\ wf m' /\ streams m' = delete p (streams m) /\
    (forall id, ~ p ∈ list_at m' id) /\ m_ap m' = m_ap m /\ aps m' = aps m.
Proof.
  intros Hw Hp Hoff. set (j := HashFlow (flow_of s)).
  destruct (owns_delete _ _ _ _ _ (wf_flow_pool _ Hw) Hp) as (fp & E1 & _).
  destruct (owns_delete _ _ _ _ _ (wf_rv_pool _ Hw) Hp) as (rp & E2 & _).
  destruct (owns_delete _ _ _ _ _ (wf_sv_pool _ Hw) Hp) as (sp & E3 & _).
  set (m' := m <| streams := delete p (streams m) |> <| flow_cnt := u32 (flow_cnt m - 1) |>
    <| flow_pool := fp |> <| rv_pool := rp |> <| sv_pool := sp |>
    <| tcp_flow_table := <[j := filter (fun y => y <> p) (bucket (tcp_flow_table m) j)]> (tcp_flow_table m) |>).
  assert (erased m p s m') as He.
  { constructor; try done.
    - intros id. destruct (list_id_flow id) as [[k ->]|Hid].
      + simpl. unfold bucket. destruct (decide (k = j)) as [->|Hne];
          [by rewrite lookup_insert_eq|rewrite lookup_insert_ne by done].
        symmetry. eapply (enlists_off _ (on_list (LFlow k))); [done| |apply (wf_lists _ Hw (LFlow k))].
        simpl. fold j. destruct (Z.eqb_spec j k); [congruence|]. by rewrite andb_false_r.
      + rewrite (enlists_off _ (on_list id) (streams m) p s);
          [|done|rewrite <- Hoff; by apply off_lists_off|apply (wf_lists _ Hw)].
        destruct id as [[]|[]|[]| | | |]; try done. by edestruct Hid. }
  exists m'. split_and!; try done.
  - unfold unlink_stream. unfold bind at 1. rewrite (StreamHTRemove_ok m p s Hw Hp). fold j.
    unfold bind, upd_stream, free_rv, free_sv, free_flow, gets, modify, lift. cbn -[MPFreeChunk]. rewrite Hp.
    cbn -[MPFreeChunk]. rewrite E2. cbn -[MPFreeChunk]. rewrite E3. cbn -[MPFreeChunk]. rewrite E1. cbn.
    unfold m'. do 2 f_equal. simpl. f_equal. by rewrite delete_insert_eq.
  - by eapply erased_wf.
  - intros id. rewrite (rm_lists _ _ _ _ He). rewrite filter_ne_elem. tauto.
Qed.

(** *** The address of a bound stream *)

(** Other pools of the manager in which the bound addresses are in use. *)
Lemma wf_new_pools m ap l :
  wf m ->
  (forall q t, streams m !! q = Some t -> is_bound_addr t = true -> exists a,
     ap_of (m <| m_ap := ap |> <| aps := l |>) (saddr t) = Some a /\ ap_inv a /\ in_use a (bound_to t)) ->
  wf (m <| m_ap := ap |> <| aps := l |>).
Proof. intros Hw Hb. constructor; try apply Hw. exact Hb. Qed.

Lemma free_address_ok m a ap :
  wf m -> ap_of m (sin_addr a) = Some ap -> ap_inv ap -> in_use ap a ->
  (forall q t, streams m !! q = Some t -> is_bound_addr t = true -> bound_to t <> a) ->
  exists m', free_address a m = Ok (tt, m') /\ wf m' /\ streams m' = streams m /\
    forall id, list_at m' id = list_at m id.
Proof.
  intros Hw Hap Hinv Huse Hne. destruct (FreeAddress_ok ap a Hinv Huse) as (ap' & E & Hinv' & _ & Hoth).
  unfold free_address, bind at 1, gets at 1. unfold ap_of in Hap. destruct (m_ap m) as [ap0|] eqn:Em.
  - injection Hap as ->. unfold bind, lift. rewrite E. cbn. eexists; split; [done|].
    assert (m <| m_ap := Some ap' |> = m <| m_ap := Some ap' |> <| aps := aps m |>) as -> by done.
    split_and!; [|done|done]. apply wf_new_pools; [done|]. intros q t Hq Hb. exists ap'. split_and!; [done..|].
    apply Hoth; [by eapply Hne|]. destruct (wf_bound _ Hw q t Hq Hb) as (ap1 & Ha1 & _ & ?).
    unfold ap_of in Ha1. rewrite Em in Ha1. by simplify_eq.
  - destruct (GetOutputInterface (sin_addr a)) as [[nif ext]|] eqn:Eo; [|done].
    set (i := Z.to_nat (nif_to_eidx nif)) in *. unfold bind, lift, gets. cbn. fold i.
    rewrite Hap. rewrite E. cbn. eexists; split; [done|].
    assert (m <| aps := <[i := Some ap']> (aps m) |> = m <| m_ap := None |> <| aps := <[i := Some ap']> (aps m) |>) as ->
      by (rewrite <- Em; by destruct m).
    split_and!; [|done|done]. apply wf_new_pools; [done|]. intros q t Hq Hb.
    destruct (wf_bound _ Hw q t Hq Hb) as (ap1 & Ha1 & Hi1 & Hu1). unfold ap_of in *. rewrite Em in Ha1. simpl.
    destruct (GetOutputInterface (saddr t)) as [[nif1 ext1]|]; [|done].
    destruct (decide (Z.to_nat (nif_to_eidx nif1) = i)) as [Ei|Hn].
    all: rewrite ?Ei in *.
    + exists ap'. rewrite list_lookup_insert_eq; [|destruct (aps m !! i) eqn:El; [by eapply lookup_lt_Some|done]].
      split_and!; [done..|]. apply Hoth; [by eapply Hne|]. assert (ap = ap1) as -> by congruence. done.
    + exists ap1. by rewrite list_lookup_insert_ne.
Qed.

(** *** The buffers *)

Lemma free_sndbuf_wp (E : fault -> Prop) m p s :
  wf m -> streams m !! p = Some s ->
  (forall b e, sndbuf (sndvar s) = Some b -> SBFree (rbm_snd m) (Some b) = Fault e -> E e) ->
  wp E (free_sndbuf p) (fun _ m' => wf m' /\ streams m' = <[p := s <| sndvar; sndbuf := None |>]> (streams m) /\
    rbm_rcv m' = rbm_rcv m /\ m_ap m' = m_ap m /\ aps m' = aps m) m.
Proof.
  intros Hw Hp He. unfold wp, free_sndbuf, bind at 1, get_stream. rewrite Hp.
  destruct (sndbuf (sndvar s)) as [b|] eqn:Eb.
  - unfold bind, gets, lift, modify, upd_snd, upd_stream. destruct (SBFree (rbm_snd m) (Some b)) as [sbm|e] eqn:Ef.
    + cbn. rewrite Hp. split_and!; try done. eapply wf_core; [|by apply (upd_stream_quiet m p (fun s => s <| sndvar; sndbuf := None |>) s)].
      done.
    + cbn. by eapply He.
  - split_and!; try done. rewrite insert_id; [done|]. rewrite Hp. f_equal.
    destruct s as [? ? ? ? ? ? ? ? ? ? ? ? ? ? ? ? ? ? ? ? ? ? ? ? ? [] ? ? ?]; simpl in *; by subst.
Qed.

Lemma free_rcvbuf_wp (E : fault -> Prop) m p s :
  wf m -> streams m !! p = Some s ->
  (forall c b e, rcvbuf (rcvvar s) = Some (c, b) -> RBFree (rbm_rcv m) c b = Fault e -> E e) ->
  wp E (free_rcvbuf p) (fun _ m' => wf m' /\ streams m' = <[p := s <| rcvvar; rcvbuf := None |>]> (streams m) /\
    m_ap m' = m_ap m /\ aps m' = aps m) m.
Proof.
  intros Hw Hp He. unfold wp, free_rcvbuf, bind at 1, get_stream. rewrite Hp.
  destruct (rcvbuf (rcvvar s)) as [[c b]|] eqn:Eb.
  - unfold bind, gets, lift, modify, upd_rcv, upd_stream. destruct (RBFree (rbm_rcv m) c b) as [rbm|e] eqn:Ef.
    + cbn. rewrite Hp. split_and!; try done. eapply wf_core; [|by apply (upd_stream_quiet m p (fun s => s <| rcvvar; rcvbuf := None |>) s)].
      done.
    + cbn. by eapply He.
  - split_and!; try done. rewrite insert_id; [done|]. rewrite Hp. f_equal.
    destruct s as [? ? ? ? ? ? ? ? ? ? ? ? ? ? ? ? ? ? ? ? ? ? ? ? [] ? ? ? ?]; simpl in *; by subst.
Qed.

(** *** The whole of it *)

Lemma unlink_stream_bind p rv sv (k : M unit) m :
  (StreamHTRemove p ;;;
   upd_stream p (fun s => s <| on_hash_table := false |>) ;;;
   modify (fun m => m <| flow_cnt := u32 (flow_cnt m - 1) |>) ;;;
   free_rv rv ;;; free_sv sv ;;; free_flow p ;;; k) m = (unlink_stream p rv sv ;;; k) m.
Proof. unfold unlink_stream, bind. by repeat case_match; simplify_eq. Qed.

Lemma freed_off s :
  let s3 := off_lists s <| sndvar; sndbuf := None |> <| rcvvar; rcvbuf := None |> in
  off_lists s3 = s3 /\ rv_addr s3 = rv_addr (off_lists s) /\ sv_addr s3 = sv_addr (off_lists s).
Proof.
  destruct s as [? ? ? ? ? ? ? ? ? ? ? ? ? ? ? ? ? ? ? ? ? ? ? ? [] [] ? ? ?].
  cbv. split_and!; reflexivity.
Qed.

(** No trace of [p] is left and the invariant holds. *)
Definition gone m p m' : Prop :=
  wf m' /\ streams m' = delete p (streams m) /\ forall id, ~ p ∈ list_at m' id.

Lemma DestroyTCPStream_wp (E : fault -> Prop) m p s :
  wf m -> streams m !! p = Some s ->
  (forall b e, sndbuf (sndvar s) = Some b -> SBFree (rbm_snd m) (Some b) = Fault e -> E e) ->
  (forall c b e, rcvbuf (rcvvar s) = Some (c, b) -> RBFree (rbm_rcv m) c b = Fault e -> E e) ->
  wp E (DestroyTCPStream p) (fun _ m' => gone m p m') m.
Proof.
  intros Hw Hp Hs Hr. unfold DestroyTCPStream.
  apply wp_bind, (wp_get_stream p s); [done|]. apply wp_bind.
  destruct (leave_lists_ok m p s Hw Hp) as ([] & m1 & E1 & Hsh). unfold wp at 1. rewrite E1.
  pose proof (shift_lookup _ _ _ _ Hsh) as Hp1. destruct Hsh as (Hw1 & Hs1 & Ht1).
  apply wp_bind, (wp_get_stream p (off_lists s)); [done|].
  apply wp_bind. rewrite (so_hash _ (wf_streams _ Hw1 _ _ Hp1)). apply wp_ret. apply wp_bind.
  eapply wp_mono; [apply (free_sndbuf_wp E m1 p _ Hw1 Hp1)|].
  { intros b e Hb. rewrite (f_equal rbm_snd Ht1 : rbm_snd m1 = rbm_snd m). by apply Hs. }
  intros _ m2 (Hw2 & Hs2 & Hr2 & Ha2 & Hl2). apply wp_bind.
  assert (streams m2 !! p = Some (off_lists s <| sndvar; sndbuf := None |>)) as Hp2
    by (rewrite Hs2; apply lookup_insert_eq).
  eapply wp_mono; [apply (free_rcvbuf_wp E m2 p _ Hw2 Hp2)|].
  { intros c b e Hb. rewrite Hr2, (f_equal rbm_rcv Ht1 : rbm_rcv m1 = rbm_rcv m). by apply Hr. }
  intros _ m3 (Hw3 & Hs3 & Ha3 & Hl3). unfold wp. rewrite unlink_stream_bind. fold (wp E (unlink_stream p (rv_addr (off_lists s)) (sv_addr (off_lists s)) ;;;
     when (is_bound_addr s) (free_address (mkAddr (saddr s) (sport s)))) (fun _ m' => gone m p m') m3).
  assert (exists s3, streams m3 = <[p := s3]> (streams m2) /\ off_lists s3 = s3 /\
    rv_addr s3 = rv_addr (off_lists s) /\ sv_addr s3 = sv_addr (off_lists s)) as (s3 & Hs3' & Hoff & Hrv & Hsv).
  { eexists. split; [exact Hs3|apply freed_off]. }
  clear Hs3. rename Hs3' into Hs3.
  assert (streams m3 !! p = Some s3) as Hp3 by (rewrite Hs3; apply lookup_insert_eq).
  destruct (unlink_stream_ok m3 p s3 Hw3 Hp3 Hoff) as (m4 & E4 & Hw4 & Hs4 & Hn4 & Ha4 & Hl4).
  rewrite Hrv, Hsv in E4.
  apply wp_bind. unfold wp at 1. rewrite E4.
  assert (streams m4 = delete p (streams m)) as Hs5.
  { by rewrite Hs4, Hs3, Hs2, Hs1, !delete_insert_eq. }
  apply wp_when; [|done]. intros Hb. destruct (wf_bound _ Hw p s Hp Hb) as (ap & Hap & Hinv & Huse).
  assert (m_ap m4 = m_ap m) as Em by (rewrite Ha4, Ha3, Ha2; exact (f_equal m_ap Ht1)).
  assert (aps m4 = aps m) as El by (rewrite Hl4, Hl3, Hl2; exact (f_equal aps Ht1)).
  destruct (free_address_ok m4 (bound_to s) ap) as (m5 & E5 & Hw5 & Hs6 & Hl6); try done.
  - unfold ap_of. by rewrite Em, El.
  - intros q t. rewrite Hs5. intros [Hq Hqt]%lookup_delete_Some Hbt Heq. apply Hq.
    by apply (wf_bound_inj _ Hw p q s t).
  - unfold wp. unfold bound_to in E5. rewrite E5. split_and!; [done|congruence|]. intros id. by rewrite Hl6.
Qed.

(** ** [CreateTCPStream] *)

Lemma owns_alloc mp key (ss : gmap ptr tcp_stream) :
  owns mp key ss ->
  (MPAllocateChunk mp = Ok (None, mp) /\ mp_free_chunks mp = 0) \/
  exists a mp', MPAllocateChunk mp = Ok (Some a, mp') /\
    (forall q t, ss !! q = Some t -> key q t <> a) /\
    (forall p s, ss !! p = None -> key p s = a -> owns mp' key (<[p := s]> ss)) /\
    (exists mp'', MPFreeChunk mp' a = Ok mp'' /\ owns mp'' key ss).
Proof.
  intros (free & used & Hr & Hin & Hinj). destruct free as [|a free].
  { left. split; [by eapply MPAllocateChunk_empty|]. by destruct Hr as (_ & _ & -> & _). }
  right.
  destruct (MPAllocateChunk_some _ _ _ _ Hr) as (mp' & E & Hr' & _). exists a, mp'.
  assert (~ a ∈ used) as Hn.
  { destruct Hr as (_ & _ & _ & _ & Hnd & _). simpl in Hnd. apply NoDup_cons in Hnd as [Hnd _]. set_solver. }
  split_and!; [done| | |].
  - intros q t Hq <-. apply Hn, Hin. eauto.
  - intros p s Hp Hk. exists free, (a :: used). split; [done|]. split.
    + intros b. rewrite elem_of_cons, Hin. split.
      * intros [->|(q & t & Hq & <-)]; [exists p, s; by rewrite lookup_insert_eq|].
        exists q, t. rewrite lookup_insert_ne; [done|]. naive_solver congruence.
      * intros (q & t & [[-> ->]|[? Hq]]%lookup_insert_Some & <-); [by left|right; eauto].
    + intros q r t u [[<- <-]|[? Hq]]%lookup_insert_Some [[<- <-]|[? Hr2]]%lookup_insert_Some E2; try done.
      * exfalso. apply Hn, Hin. exists r, u. split; [done|congruence].
      * exfalso. apply Hn, Hin. exists q, t. split; [done|congruence].
      * by apply (Hinj q r t u).
  - destruct (MPFreeChunk_ok mp' a free [] used Hr') as (mp'' & E2 & Hr2 & _). exists mp''. split; [done|].
    by exists (a :: free), used.
Qed.

(** [m'] is [m] with a new stream [p] that is in the flow table only. *)
Record born m p s m' : Prop := {
  bn_fresh : streams m !! p = None;
  bn_streams : streams m' = <[p := s]> (streams m);
  bn_table : tcp_flow_table m' = <[HashFlow (flow_of s) :=
    bucket (tcp_flow_table m) (HashFlow (flow_of s)) ++ [p]]> (tcp_flow_table m);
  bn_lists : forall id, (forall j, id <> LFlow j) -> list_at m' id = list_at m id;
  bn_counts : forall id, cnt_at m' id = cnt_at m id;
  bn_rto : rto_list_cnt m' = rto_list_cnt m;
  bn_flows : flow_cnt m' = u32 (flow_cnt m + 1);
  bn_senders : n_sender m' = n_sender m;
  bn_flow_pool : owns (flow_pool m') (fun p _ => p) (streams m');
  bn_rv_pool : owns (rv_pool m') (fun _ => rv_addr) (streams m');
  bn_sv_pool : owns (sv_pool m') (fun _ => sv_addr) (streams m');
  bn_listeners : listeners m' = listeners m /\ listener_store m' = listener_store m;
  bn_ep : ep m' = ep m /\ epolls m' = epolls m;
  bn_addr : m_ap m' = m_ap m /\ aps m' = aps m;
  bn_off : off_lists s = s;
  bn_ok : stream_ok s;
  bn_bound : is_bound_addr s = false
}.

Lemma enlists_new l P (ss : gmap ptr tcp_stream) p s :
  ss !! p = None -> enlists l P ss -> enlists (if P s then l ++ [p] else l) P (<[p := s]> ss).
Proof.
  intros Hp [Hnd Hin]. assert (~ p ∈ l) as Hn by (intros (t & ? & ?)%Hin; congruence). split.
  - destruct (P s); [|done]. apply NoDup_app. split_and!; [done|set_solver|apply NoDup_singleton].
  - intros q. destruct (decide (q = p)) as [->|Hne].
    + rewrite lookup_insert_eq. destruct (P s) eqn:E; [set_solver|]. split; [done|]. naive_solver congruence.
    + rewrite lookup_insert_ne, <- Hin by done. destruct (P s); set_solver.
Qed.

Lemma born_wf m p s m' : wf m -> born m p s m' -> wf m'.
Proof.
  intros Hw Hb. destruct Hb. constructor; try done.
  - intros id. rewrite bn_streams0. pose proof (enlists_new _ _ _ p s bn_fresh0 (wf_lists _ Hw id)) as Hn.
    destruct (list_id_flow id) as [[j ->]|Hid].
    + simpl in *. rewrite bn_table0. rewrite (so_hash _ bn_ok0) in Hn. simpl in Hn. unfold bucket in *.
      destruct (Z.eqb_spec (HashFlow (flow_of s)) j) as [->|Hne];
        [by rewrite lookup_insert_eq|by rewrite lookup_insert_ne].
    + rewrite bn_lists0 by done. by rewrite <- bn_off0, off_lists_off, bn_off0 in Hn by done.
  - intros id n Hn. rewrite bn_counts0 in Hn. rewrite bn_lists0; [by apply (wf_counts _ Hw)|].
    intros j ->. done.
  - destruct (wf_rto _ Hw) as (l & Hl & E). exists l. rewrite bn_rto0, bn_streams0. split; [|done].
    pose proof (enlists_new _ _ _ p s bn_fresh0 Hl) as Hn. by rewrite <- bn_off0 in Hn at 1.
  - by rewrite bn_flows0, bn_streams0, (wf_flows _ Hw), u32_add_l, map_size_insert_None, Nat2Z.inj_succ by done.
  - rewrite bn_senders0. apply Hw.
  - intros q t. rewrite bn_streams0. intros [[_ <-]|[_ Hq]]%lookup_insert_Some; [done|]. by eapply wf_streams.
  - destruct bn_listeners0 as [-> ->]. apply Hw.
  - destruct bn_ep0 as [-> ->]. apply Hw.
  - intros q t. rewrite bn_streams0. unfold ap_of. destruct bn_addr0 as [-> ->].
    intros [[_ <-]|[_ Hq]]%lookup_insert_Some; [congruence|]. by apply (wf_bound _ Hw q t).
  - intros q r t u. rewrite bn_streams0.
    intros [[_ <-]|[_ Hq]]%lookup_insert_Some [[_ <-]|[_ Hr]]%lookup_insert_Some; try congruence.
    by apply (wf_bound_inj _ Hw).
Qed.

(** The pools of [m] replaced by pools that own the same streams. *)
Lemma wf_pools_eq m fp rp sp :
  wf m -> owns fp (fun p _ => p) (streams m) -> owns rp (fun _ => rv_addr) (streams m) ->
  owns sp (fun _ => sv_addr) (streams m) ->
  wf (m <| flow_pool := fp |> <| rv_pool := rp |> <| sv_pool := sp |>).
Proof. intros Hw ? ? ?. constructor; try apply Hw; done. Qed.

(** The stream after creation. *)
Definition new_stream (sock : option Z) (type sa sp da dp rv sv id seed nif : Z) (ext : bool) : tcp_stream :=
  init_stream type seed nif ext
    (zero_stream <| rv_addr := rv |> <| sv_addr := sv |> <| sid := id mod 16777216 |> <| saddr := sa |>
       <| sport := sp |> <| daddr := da |> <| dport := dp |> <| ht_idx := TCP_AR_CNT |>
       <| on_hash_table := true |> <| socket := sock |>).

(** After the three allocations: [p], [rv] and [sv] are the chunks. *)
Definition fill_stream (sock : option Z) (type sa sp da dp p rv sv : Z) : M (option ptr) :=
  let* id := gets g_id in
  modify (fun m => m <| g_id := u32 (id + 1) |>) ;;;
  upd_stream p (fun s => s <| rv_addr := rv |> <| sv_addr := sv |>
                           <| sid := id mod 16777216 |> <| saddr := sa |> <| sport := sp |>
                           <| daddr := da |> <| dport := dp |>) ;;;
  let* r := StreamHTInsert p in
  if r <? 0 then free_flow p ;;; ret None
  else
    upd_stream p (fun s => s <| on_hash_table := true |>) ;;;
    modify (fun m => m <| flow_cnt := u32 (flow_cnt m + 1) |>) ;;;
    (match sock with
     | Some k =>
         upd_stream p (fun s => s <| socket := Some k |>) ;;;
         upd_socket k (fun x => x <| sk_ref := SockStream p |>)
     | None => ret tt
     end) ;;;
    let* (nif, ext) := lift (GetOutputInterface da) in
    let* seed := gets next_seed in
    let '(v, seed') := rand_r seed in
    modify (fun m => m <| next_seed := seed' |>) ;;;
    upd_stream p (init_stream type v nif ext) ;;;
    ret (Some p).

(** The fields of a manager that creation changes after the allocations. *)
Definition mk6 m ss g t fc sk sd : mtcp_manager :=
  m <| streams := ss |> <| g_id := g |> <| tcp_flow_table := t |> <| flow_cnt := fc |> <| sockets := sk |>
    <| next_seed := sd |>.

Section mk6.
Context (m : mtcp_manager) (ss : gmap ptr tcp_stream) (g : Z) (t : gmap Z (list ptr)) (fc : Z)
  (sk : gmap Z socket_map) (sd : Z).
Lemma mk6_id : m = mk6 m (streams m) (g_id m) (tcp_flow_table m) (flow_cnt m) (sockets m) (next_seed m).
Proof. by destruct m. Qed.
Lemma mk6_streams x : (mk6 m ss g t fc sk sd) <| streams := x |> = mk6 m x g t fc sk sd.
Proof. by destruct m. Qed.
Lemma mk6_id' x : (mk6 m ss g t fc sk sd) <| g_id := x |> = mk6 m ss x t fc sk sd.
Proof. by destruct m. Qed.
Lemma mk6_table x : (mk6 m ss g t fc sk sd) <| tcp_flow_table := x |> = mk6 m ss g x fc sk sd.
Proof. by destruct m. Qed.
Lemma mk6_cnt x : (mk6 m ss g t fc sk sd) <| flow_cnt := x |> = mk6 m ss g t x sk sd.
Proof. by destruct m. Qed.
Lemma mk6_sockets x : (mk6 m ss g t fc sk sd) <| sockets := x |> = mk6 m ss g t fc x sd.
Proof. by destruct m. Qed.
Lemma mk6_seed x : (mk6 m ss g t fc sk sd) <| next_seed := x |> = mk6 m ss g t fc sk x.
Proof. by destruct m. Qed.
End mk6.

Section fill.
Context (sock : option Z) (type sa sp da dp p rv sv : Z) (m : mtcp_manager).
Variable (E : fault -> Prop).

(** Writing the stream [p]. *)
Lemma wp_upd6 f s ss g t fc sk sd Q :
  Q tt (mk6 m (<[p := f s]> ss) g t fc sk sd) -> wp E (upd_stream p f) Q (mk6 m (<[p := s]> ss) g t fc sk sd).
Proof.
  intros HQ. eapply wp_upd_stream; [apply lookup_insert_eq|]. rewrite mk6_streams.
  change (streams (mk6 _ ?x _ _ _ _ _)) with x. by rewrite insert_insert_eq.
Qed.

Lemma wp_mk6 {A} (c : M A) Q :
  wp E c Q (mk6 m (streams m) (g_id m) (tcp_flow_table m) (flow_cnt m) (sockets m) (next_seed m)) -> wp E c Q m.
Proof. by rewrite <- mk6_id. Qed.

Lemma fill_stream_wp ss :
  (forall k, sock = Some k -> sockets m !! k = None -> E NullDeref) -> (forall e, GetOutputInterface da = Fault e -> E e) -> streams m = <[p := zero_stream]> ss ->
  wp E (fill_stream sock type sa sp da dp p rv sv) (fun o m' =>
    exists nif ext sk v seed, let j := HashFlow (mkFlow sa da sp dp) in
    GetOutputInterface da = Ok (nif, ext) /\ o = Some p /\ rand_r (next_seed m) = (v, seed) /\
    m' = mk6 m (<[p := new_stream sock type sa sp da dp rv sv (g_id m) v nif ext]> ss) (u32 (g_id m + 1))
           (<[j := bucket (tcp_flow_table m) j ++ [p]]> (tcp_flow_table m)) (u32 (flow_cnt m + 1)) sk seed) m.
Proof.
  intros He Hg Hs. unfold fill_stream, StreamHTInsert.
  apply wp_bind, wp_gets. apply wp_mk6. rewrite Hs. apply wp_bind, wp_modify. rewrite mk6_id'.
  apply wp_bind, wp_upd6. apply wp_bind. eapply wp_bind, wp_get_stream; [apply lookup_insert_eq|]. cbn zeta.
  match goal with |- context [HashFlow ?x] => change x with (mkFlow sa da sp dp) end.
  pose proof (HashFlow_range (mkFlow sa da sp dp)) as Hj. set (j := HashFlow (mkFlow sa da sp dp)) in *.
  unfold assert. destruct (Z.leb_spec 0 j), (Z.ltb_spec j NUM_BINS_FLOWS); try lia. simpl andb. cbv iota.
  apply wp_bind, wp_ret. apply wp_bind, wp_modify. rewrite mk6_table.
  change (tcp_flow_table (mk6 _ _ _ ?x _ _ _)) with x.
  apply wp_bind, wp_upd6. apply wp_ret. change (0 <? 0) with false. cbv iota.
  apply wp_bind, wp_upd6. apply wp_bind, wp_modify. rewrite mk6_cnt.
  change (flow_cnt (mk6 _ _ _ _ ?x _ _)) with x. apply wp_bind.
  set (t := <[j := bucket (tcp_flow_table m) j ++ [p]]> (tcp_flow_table m)).
  eapply wp_mono with (Q := fun _ m' => exists sk, m' = mk6 m (<[p := zero_stream <| rv_addr := rv |> <| sv_addr := sv |>
    <| sid := g_id m mod 16777216 |> <| saddr := sa |> <| sport := sp |> <| daddr := da |> <| dport := dp |>
    <| ht_idx := TCP_AR_CNT |> <| on_hash_table := true |> <| socket := sock |>]> ss) (u32 (g_id m + 1)) t
    (u32 (flow_cnt m + 1)) sk (next_seed m)).
  { destruct sock as [k|].
    - apply wp_bind, wp_upd6. unfold wp, upd_socket. change (sockets (mk6 _ _ _ _ _ ?x _)) with x.
      destruct (sockets m !! k) eqn:Ek; [|by eapply He]. rewrite mk6_sockets. by eexists.
    - apply wp_ret. by eexists. }
  intros _ m' (sk & ->). apply wp_bind, wp_lift; [|done]. intros [nif ext] Eo. apply wp_bind, wp_gets.
  change (next_seed (mk6 _ _ _ _ _ _ ?x)) with x. destruct (rand_r (next_seed m)) as [v seed] eqn:Er.
  apply wp_bind, wp_modify. rewrite mk6_seed. apply wp_bind, wp_upd6. apply wp_ret.
  exists nif, ext, sk, v, seed. by split_and!.
Qed.
End fill.

(** The outcome of creation: the new stream, in state LISTEN, on no list and
    known to its sender; or no stream, and nothing has changed but ids. *)
Definition created m sock sa sp da dp (o : option ptr) m' : Prop :=
  wf m' /\
  match o with
  | Some p => streams m !! p = None /\ exists s, streams m' = <[p := s]> (streams m) /\
      flow_of s = mkFlow sa da sp dp /\ state s = TCP_ST_LISTEN /\ off_lists s = s /\ socket s = sock /\
      sndbuf (sndvar s) = None /\ rcvbuf (rcvvar s) = None
  | None => streams m' = streams m /\
      (mp_free_chunks (flow_pool m) = 0 \/ mp_free_chunks (rv_pool m) = 0 \/ mp_free_chunks (sv_pool m) = 0)
  end.

Lemma new_stream_ok `{!NetOk} sock type sa sp da dp rv sv id v nif ext :
  GetOutputInterface da = Ok (nif, ext) ->
  let s := new_stream sock type sa sp da dp rv sv id v nif ext in
  stream_ok s /\ off_lists s = s /\ is_bound_addr s = false /\ rv_addr s = rv /\ sv_addr s = sv /\
  flow_of s = mkFlow sa da sp dp /\ state s = TCP_ST_LISTEN /\ socket s = sock /\
  sndbuf (sndvar s) = None /\ rcvbuf (rcvvar s) = None.
Proof.
  intros Hg s. destruct (GetOutputInterface_nif _ _ _ Hg) as [Hn Hs]. split; [|split; [by apply off_lists_id|split_and!; reflexivity]].
  constructor; simpl; rewrite ?s8_small by lia; try done; try lia.
Qed.

Lemma alloc_flow_eq m o fp : MPAllocateChunk (flow_pool m) = Ok (o, fp) -> alloc_flow m = Ok (o, m <| flow_pool := fp |>).
Proof. intros E. unfold alloc_flow, bind, gets, lift. by rewrite E. Qed.
Lemma alloc_rv_eq m o fp : MPAllocateChunk (rv_pool m) = Ok (o, fp) -> alloc_rv m = Ok (o, m <| rv_pool := fp |>).
Proof. intros E. unfold alloc_rv, bind, gets, lift. by rewrite E. Qed.
Lemma alloc_sv_eq m o fp : MPAllocateChunk (sv_pool m) = Ok (o, fp) -> alloc_sv m = Ok (o, m <| sv_pool := fp |>).
Proof. intros E. unfold alloc_sv, bind, gets, lift. by rewrite E. Qed.
Lemma free_flow_eq m p fp : MPFreeChunk (flow_pool m) p = Ok fp ->
  free_flow p m = Ok (tt, m <| flow_pool := fp |> <| streams := delete p (streams m) |>).
Proof. intros E. unfold free_flow, bind, gets, lift. by rewrite E. Qed.
Lemma free_rv_eq m p fp : MPFreeChunk (rv_pool m) p = Ok fp -> free_rv p m = Ok (tt, m <| rv_pool := fp |>).
Proof. intros E. unfold free_rv, bind, gets, lift. by rewrite E. Qed.

(** A manager after a failed creation. *)
Definition back m fp rp ss : mtcp_manager := m <| flow_pool := fp |> <| rv_pool := rp |> <| streams := ss |>.

Lemma CreateTCPStream_wp `{!NetOk} (E : fault -> Prop) m sock type sa sp da dp :
  wf m -> (forall k, sock = Some k -> sockets m !! k = None -> E NullDeref) ->
  (forall e, GetOutputInterface da = Fault e -> E e) ->
  wp E (CreateTCPStream sock type sa sp da dp) (created m sock sa sp da dp) m.
Proof.
  intros Hw He Hg. unfold CreateTCPStream. apply wp_bind.
  destruct (owns_alloc _ _ _ (wf_flow_pool _ Hw)) as [[E1 Hz]|(p & fp & E1 & Hp & Hfp & fp' & F1 & Hfp')];
    unfold wp at 1; erewrite alloc_flow_eq by exact E1.
  { apply wp_ret. split; [|by split; [|left]]. eapply wf_core; [|exact Hw]. by destruct m. }
  assert (streams m !! p = None) as Hn by (apply eq_None_not_Some; intros [t Ht]; by eapply Hp).
  apply wp_bind, wp_modify. apply wp_bind.
  destruct (owns_alloc _ _ _ (wf_rv_pool _ Hw)) as [[E2 Hz]|(rv & rp & E2 & _ & Hrp & rp' & F2 & Hrp')];
    unfold wp at 1; erewrite alloc_rv_eq by exact E2.
  { apply wp_bind. unfold wp at 1. erewrite free_flow_eq by exact F1. apply wp_ret. split.
    - eapply (wf_core (m <| flow_pool := fp' |> <| rv_pool := rv_pool m |> <| sv_pool := sv_pool m |>));
        [|apply wf_pools_eq; done || apply Hw]. unfold core. simpl. by rewrite delete_insert_id.
    - simpl. rewrite delete_insert_id by done. split; [done|]. tauto. }
  apply wp_bind.
  destruct (owns_alloc _ _ _ (wf_sv_pool _ Hw)) as [[E3 Hz]|(sv & spl & E3 & _ & Hsp & _)];
    unfold wp at 1; erewrite alloc_sv_eq by exact E3.
  { apply wp_bind. unfold wp at 1. erewrite free_rv_eq by exact F2.
    apply wp_bind. unfold wp at 1. erewrite free_flow_eq by exact F1. apply wp_ret. split.
    - eapply (wf_core (m <| flow_pool := fp' |> <| rv_pool := rp' |> <| sv_pool := sv_pool m |>));
        [|apply wf_pools_eq; done || apply Hw]. unfold core. simpl. by rewrite delete_insert_id.
    - simpl. rewrite delete_insert_id by done. split; [done|]. tauto. }
  fold (fill_stream sock type sa sp da dp p rv sv).
  eapply wp_mono; [eapply (fill_stream_wp _ _ _ _ _ _ _ _ _ _ E (streams m)); done|].
  intros o m' (nif & ext & sk & v & seed & Eo & -> & _ & ->).
  match goal with |- context [new_stream _ _ _ _ _ _ _ _ ?x _ _ _] =>
    destruct (new_stream_ok sock type sa sp da dp rv sv x v nif ext Eo)
      as (Hok & Hoff & Hb & Hrv & Hsv & Hf & Hst & Hsk & Hsb & Hrb);
    set (s := new_stream sock type sa sp da dp rv sv x v nif ext) in * end.
  split; [|split; [done|by exists s]]. clearbody s.
  apply (born_wf m p s); [done|]. constructor; try done.
  - simpl. by rewrite Hf.
  - intros id Hid. destruct id as [[]|[]|[]| | | |]; try done. by edestruct Hid.
  - by apply Hfp.
  - by apply Hrp.
  - by apply Hsp.
Qed.

(** ** Results *)

(** The buffers of [s] are intact: they can be given back. *)
Definition buffers_ok m s : Prop :=
  (exists l, ring_rep (freeq (rbm_snd m)) l) /\
  (forall c b, rcvbuf (rcvvar s) = Some (c, b) -> exists l rest free u1 u2,
     rb_inv (rbm_rcv m) b l /\ owned (rbm_rcv m) (ptrs l ++ rest) /\
     pool_rep (mp (rbm_rcv m)) free (u1 ++ c :: u2)).

Lemma SBFree_total sbm b l : ring_rep (freeq sbm) l -> exists sbm', SBFree sbm (Some b) = Ok sbm'.
Proof.
  intros Hl. unfold SBFree, SBEnqueue. destruct (decide (zlen l = _capacity (freeq sbm))) as [E|E].
  - rewrite (Enqueue_full _ _ _ Hl E). cbn. eauto.
  - destruct (Enqueue_ok (freeq sbm) l b Hl) as (q & -> & _); [destruct Hl as (_ & ? & _); lia|]. cbn. eauto.
Qed.


(** C21: from a manager that satisfies the invariant, creating a stream for a
    destination with a route never faults; it fails only when one of the
    three pools is exhausted and then changes no stream; otherwise the new
    stream has a fresh address, carries the flow's addresses and ports, is
    in state LISTEN, sits in the flow table and on no other list, and the
    invariant holds. *)
Theorem create_stream `{!NetOk} m sock type sa sp da dp route :
  wf m -> GetOutputInterface da = Ok route -> (forall k, sock = Some k -> is_Some (sockets m !! k)) ->
  exists o m', CreateTCPStream sock type sa sp da dp m = Ok (o, m') /\ created m sock sa sp da dp o m'.
Proof.
  intros Hw Hg Hs. pose proof (CreateTCPStream_wp no_fault m sock type sa sp da dp Hw) as Hc.
  unfold wp in Hc. destruct (CreateTCPStream sock type sa sp da dp m) as [[o m']|e].
  - exists o, m'. split; [done|]. apply Hc; [|congruence]. intros k Hk E. destruct (Hs k Hk). congruence.
  - exfalso. apply Hc; [|congruence]. intros k Hk E. destruct (Hs k Hk). congruence.
Qed.
End streams.

(** *** Examples *)

Import Demo.

Lemma m0_wf : wf m0.
Proof. eapply wf_core; [|exact boot_wf]. reflexivity. Qed.

(** A stream between port 80 here and port 8080 of the peer, made from the
    started manager; ports are in network order. *)
Definition m1 : mtcp_manager :=
  ltac:(let x := eval vm_compute in (CreateTCPStream None 1 ip_me 20480 ip_peer 36895 m0) in
        match x with Ok (_, ?m) => exact m end).
Definition p1 : ptr := 0.

Lemma m1_eq : CreateTCPStream None 1 ip_me 20480 ip_peer 36895 m0 = Ok (Some p1, m1).
Proof. vm_compute. reflexivity. Qed.

Lemma route_eq : GetOutputInterface ip_peer = Ok (0, false).
Proof. reflexivity. Qed.

Lemma m1_created : created m0 None ip_me 20480 ip_peer 36895 (Some p1) m1.
Proof.
  eapply wp_result; [|exact m1_eq]. apply (CreateTCPStream_wp no_fault); [exact m0_wf|done|].
  rewrite route_eq. done.
Qed.

Lemma create_stream_witness :
  exists o m', CreateTCPStream None 1 ip_me 20480 ip_peer 36895 m0 = Ok (o, m') /\
    created m0 None ip_me 20480 ip_peer 36895 o m'.
Proof.
  apply (create_stream m0 None 1 ip_me 20480 ip_peer 36895 (0, false)); [exact m0_wf|exact route_eq|done].
Defined.

