(* ===== verification/Live.v ===== *)
(** * Steps on one stream

    [live Φ p rest]: the invariant of [Invariant] holds, stream [p] is live
    and satisfies [Φ], and the other streams are [rest]. The operations the
    handlers are made of keep it; a handler is then checked by going through
    its text. [over p rest] also allows the stream to be gone: it is what
    holds after a handler that may destroy its stream. *)

From S2P Require Import Prelude SeqNum SpscQueue MemPool RingBuffer SendBuffer AddrPool Rss.
From S2P Require Import Machine Wp Lists TcpOptions FlowTable Network Faults StreamOps Invariant Boot StreamInv.

Section live.
Context `{Env}.
Implicit Types (m : mtcp_manager) (s : tcp_stream) (p q : ptr) (Φ : tcp_stream -> Prop)
  (rest : gmap ptr tcp_stream).

Definition live Φ p rest m : Prop :=
  wf m /\ delete p (streams m) = rest /\ exists s, streams m !! p = Some s /\ Φ s.

Definition over p rest m : Prop := wf m /\ delete p (streams m) = rest.

Lemma live_over Φ p rest m : live Φ p rest m -> over p rest m.
Proof. by intros (? & ? & _). Qed.

Lemma live_weak Φ Φ' p rest m : (forall s, Φ s -> Φ' s) -> live Φ p rest m -> live Φ' p rest m.
Proof. intros HΦ (? & ? & s & ? & ?). split_and!; eauto. Qed.

(** The stream of [p] is [s]. *)
Lemma live_at Φ p rest m : live Φ p rest m -> exists s, Φ s /\ live (eq s) p rest m /\ streams m !! p = Some s.
Proof. intros (? & ? & s & ? & ?). exists s. split; [done|split; [|done]]. split_and!; eauto. Qed.

(** ** Rules *)

Definition T (s : tcp_stream) : Prop := True.

Section rules.
Context (E : fault -> Prop) (HE : forall e, calm e -> E e).

Lemma shift_live Φ p m s rest m' : Φ s -> shift m p s m' -> delete p (streams m) = rest -> live Φ p rest m'.
Proof using. intros HΦ (Hw & Hs & _) <-. split_and!; [done|by rewrite Hs, delete_insert_eq|]. exists s. by rewrite Hs, lookup_insert_eq. Qed.

(** An operation with a run that moves stream [p]. *)
Lemma keeps_runs {A} (c : M A) Φ p rest :
  (forall m s, wf m -> streams m !! p = Some s -> Φ s -> runs_in c m p Φ) -> keeps E (live Φ p rest) c.
Proof using HE.
  intros Hc m (Hw & Hr & s & Hp & HΦ). destruct (Hc m s Hw Hp HΦ) as (s' & HΦ' & a & m' & Eq & Hsh).
  unfold wp. rewrite Eq. by eapply shift_live.
Qed.

Lemma keeps_get {A} (k : tcp_stream -> M A) Φ p rest :
  (forall s, Φ s -> keeps E (live Φ p rest) (k s)) -> keeps E (live Φ p rest) (bind (get_stream p) k).
Proof using HE.
  intros Hk m Hm. destruct (live_at _ _ _ _ Hm) as (s & HΦ & _ & Hp).
  eapply wp_bind, wp_get_stream; [exact Hp|]. by apply Hk.
Qed.

(** An update that changes no list flag, no address and no pool chunk. *)
Definition quiet (f : tcp_stream -> tcp_stream) : Prop := forall s, flags (f s) = flags s /\ identity (f s) = identity s.
Definition quiet_snd (f : tcp_send_vars -> tcp_send_vars) : Prop := forall v,
  (on_control_list (f v), on_send_list (f v), on_ack_list (f v), nif_out (f v)) =
  (on_control_list v, on_send_list v, on_ack_list v, nif_out v).

(** [Φ] is about the sender lists and the queued acknowledgements only. *)
Definition on_lists s :=
  (on_control_list (sndvar s), on_send_list (sndvar s), on_ack_list (sndvar s), nif_out (sndvar s), ack_cnt (sndvar s)).
Definition sendable Φ : Prop := forall s s', on_lists s' = on_lists s -> Φ s -> Φ s'.

Lemma sendable_T : sendable T.
Proof using. done. Qed.

Lemma sendable_at v : sendable (fun s => on_lists s = v).
Proof using. by intros s s' ->. Qed.

Lemma keeps_upd f Φ p rest : (forall s, Φ s -> Φ (f s)) -> quiet f -> keeps E (live Φ p rest) (upd_stream p f).
Proof using HE.
  intros HΦ Hq. apply keeps_runs. intros m s Hw Hp Hs. exists (f s). destruct (Hq s) as [Hf Hi].
  split; [by apply HΦ|by apply runs_upd].
Qed.

Lemma keeps_upd_snd f Φ p rest :
  (forall s, Φ s -> Φ (s <| sndvar := f (sndvar s) |>)) -> quiet_snd f -> keeps E (live Φ p rest) (upd_snd p f).
Proof using HE.
  intros HΦ Hq. apply keeps_upd; [done|]. intros s. pose proof (Hq (sndvar s)) as Hv. injection Hv as E1 E2 E3 E4.
  unfold flags, identity. cbn. by rewrite E1, E2, E3, E4.
Qed.

Lemma keeps_upd_rcv f Φ p rest : (forall s, Φ s -> Φ (s <| rcvvar := f (rcvvar s) |>)) -> keeps E (live Φ p rest) (upd_rcv p f).
Proof using HE. intros HΦ. by apply keeps_upd. Qed.

(** Changes outside the part the invariant reads. *)
Definition core_inv (I : mtcp_manager -> Prop) : Prop := forall m m', core m' = core m -> I m -> I m'.

Lemma live_core Φ p rest : core_inv (live Φ p rest).
Proof using.
  intros m m' Ec (Hw & Hr & Hs). assert (streams m' = streams m) as Es by (unfold core in Ec; congruence).
  split_and!; [by eapply wf_core|by rewrite Es|by rewrite Es].
Qed.

Lemma over_core p rest : core_inv (over p rest).
Proof using.
  intros m m' Ec (Hw & Hr). assert (streams m' = streams m) as Es by (unfold core in Ec; congruence).
  split; [by eapply wf_core|by rewrite Es].
Qed.

Lemma keeps_core f I : core_inv I -> (forall m, core (f m) = core m) -> keeps E I (modify f).
Proof using HE. intros HI Hf. apply keeps_modify. intros m. by apply HI. Qed.

Lemma keeps_faults {A} (r : res A) I : faults_in calm r -> keeps E I (lift r).
Proof using HE. intros Hr. apply keeps_lift. intros e He. by apply HE, Hr. Qed.

Lemma keeps_calm {A} e I : calm e -> keeps E I (throw (A := A) e).
Proof using HE. intros He. by apply keeps_throw, HE. Qed.

Lemma keeps_assert_ b I : keeps E I (assert b).
Proof using HE. apply keeps_assert, HE. calm_fault. Qed.

(** A step from one invariant to another. *)
Definition leads {A} (I J : mtcp_manager -> Prop) (c : M A) : Prop := forall m, I m -> wp E c (fun _ m' => J m') m.

Lemma keeps_leads {A} (I J : mtcp_manager -> Prop) (c : M A) : (forall m, I m -> J m) -> keeps E I c -> leads I J c.
Proof using. intros HIJ Hc m Hm. eapply wp_mono; [by apply Hc|]. intros a m1 ?. by apply HIJ. Qed.

Lemma leads_bind {A B} (I K J : mtcp_manager -> Prop) (c : M A) (k : A -> M B) :
  leads I K c -> (forall a, leads K J (k a)) -> leads I J (bind c k).
Proof using. intros Hc Hk m Hm. apply wp_bind. eapply wp_mono; [by apply Hc|]. intros a m' ?. by apply Hk. Qed.

Lemma leads_get {A} (k : tcp_stream -> M A) Φ p rest J :
  (forall s, Φ s -> leads (live Φ p rest) J (k s)) -> leads (live Φ p rest) J (bind (get_stream p) k).
Proof using.
  intros Hk m Hm. destruct (live_at _ _ _ _ Hm) as (s & HΦ & _ & Hp).
  eapply wp_bind, wp_get_stream; [exact Hp|]. by apply Hk.
Qed.

Lemma leads_when b c I J : (forall m, I m -> J m) -> leads I J c -> leads I J (when b c).
Proof using. intros HIJ Hc. destruct b; [done|]. intros m Hm. by apply wp_ret, HIJ. Qed.

Lemma leads_ret {A} (a : A) (I J : mtcp_manager -> Prop) : (forall m, I m -> J m) -> leads I J (ret a).
Proof using. intros HIJ m Hm. by apply wp_ret, HIJ. Qed.

(** *** Lists *)

Section ops.
Context (p : ptr) (rest : gmap ptr tcp_stream).

Lemma AddtoControlList_keeps ts : keeps E (live T p rest) (AddtoControlList p ts).
Proof using HE. apply keeps_runs. intros m s Hw Hp _. eexists. split; [done|]. by apply AddtoControlList_ok. Qed.

Lemma AddtoSendList_keeps : keeps E (live T p rest) (AddtoSendList p).
Proof using HE.
  intros m (Hw & Hr & s & Hp & _). destruct (sndbuf (sndvar s)) as [b|] eqn:Eb.
  - destruct (AddtoSendList_ok m p s Hw Hp) as (a & m' & Eq & Hsh); [by rewrite Eb|].
    unfold wp. rewrite Eq. by eapply shift_live.
  - destruct (sender_exists m p s Hw Hp) as (i & d & Hi & Hd). unfold wp, AddtoSendList, bind.
    rewrite (the_sender_ok m p s i Hp Hi). unfold get_stream. rewrite Hp, Eb. apply HE. calm_fault.
Qed.

Lemma AddtoACKList_keeps : keeps E (live T p rest) (AddtoACKList p).
Proof using HE. apply keeps_runs. intros m s Hw Hp _. eexists. split; [done|]. by apply AddtoACKList_ok. Qed.

Lemma RemoveFromControlList_keeps : keeps E (live T p rest) (RemoveFromControlList p).
Proof using HE. apply keeps_runs. intros m s Hw Hp _. eexists. split; [done|]. by apply RemoveFromControlList_ok. Qed.

Lemma RemoveFromSendList_keeps : keeps E (live T p rest) (RemoveFromSendList p).
Proof using HE. apply keeps_runs. intros m s Hw Hp _. eexists. split; [done|]. by apply RemoveFromSendList_ok. Qed.

Lemma AddtoRTOList_keeps Φ : sendable Φ -> keeps E (live Φ p rest) (AddtoRTOList p).
Proof using HE.
  intros HΦ. apply keeps_runs. intros m s Hw Hp Hs. destruct (AddtoRTOList_some m p s Hw Hp) as (k & Hk).
  eexists. split; [|exact Hk]. by apply (HΦ s).
Qed.

Lemma RemoveFromRTOList_keeps Φ : sendable Φ -> keeps E (live Φ p rest) (RemoveFromRTOList p).
Proof using HE.
  intros HΦ. apply keeps_runs. intros m s Hw Hp Hs. eexists. split; [|by apply RemoveFromRTOList_ok]. by apply (HΦ s).
Qed.

Lemma AddtoTimewaitList_keeps ts : keeps E (live T p rest) (AddtoTimewaitList p ts).
Proof using HE. apply keeps_runs. intros m s Hw Hp _. eexists. split; [done|]. by apply AddtoTimewaitList_ok. Qed.

Lemma UpdateTimeoutList_keeps Φ : keeps E (live Φ p rest) (UpdateTimeoutList p).
Proof using HE. apply keeps_runs. intros m s Hw Hp Hs. exists s. split; [done|]. by apply UpdateTimeoutList_ok. Qed.

Lemma RemoveFromTimewaitList_keeps : keeps E (live T p rest) (RemoveFromTimewaitList p).
Proof using HE.
  intros m (Hw & Hr & s & Hp & _). destruct (on_timewait_list s) eqn:Et.
  - destruct (RemoveFromTimewaitList_ok m p s Hw Hp Et) as (a & m' & Eq & Hsh).
    unfold wp. rewrite Eq. by eapply shift_live.
  - unfold wp, RemoveFromTimewaitList, bind, get_stream. rewrite Hp, Et. apply HE. calm_fault.
Qed.

Lemma AddtoTimeoutList_keeps : 0 < tcp_timeout -> keeps E (live T p rest) (AddtoTimeoutList p).
Proof using HE.
  intros Ht m (Hw & Hr & s & Hp & _). destruct (on_timeout_list s) eqn:Et.
  - unfold wp, AddtoTimeoutList, bind, get_stream. rewrite Hp, Et. apply HE. calm_fault.
  - destruct (AddtoTimeoutList_ok m p s Hw Hp Ht Et) as (a & m' & Eq & Hsh).
    unfold wp. rewrite Eq. by eapply shift_live.
Qed.

Lemma UpdateRetransmissionTimer_keeps ts : keeps E (live T p rest) (UpdateRetransmissionTimer p ts).
Proof using HE.
  intros m (Hw & Hr & s & Hp & _). destruct (Z.ltb_spec 0 (rto (sndvar s))) as [Hlt|Hge].
  - destruct (UpdateRetransmissionTimer_ok m p s ts Hw Hp Hlt) as (s' & _ & a & m' & Eq & Hsh).
    unfold wp. rewrite Eq. by eapply shift_live.
  - unfold wp, UpdateRetransmissionTimer, bind, get_stream, assert. rewrite Hp.
    destruct (Z.ltb_spec 0 (rto (sndvar s))); [lia|]. apply HE. calm_fault.
Qed.

Lemma start_timeout_keeps : keeps E (live T p rest) (when (0 <? tcp_timeout) (AddtoTimeoutList p)).
Proof using HE. unfold when. destruct (Z.ltb_spec 0 tcp_timeout); [by apply AddtoTimeoutList_keeps|apply keeps_ret]. Qed.

(** [ack_cnt] and [is_wack] are not read by the invariant. *)
Lemma EnqueueACK_keeps ts o : keeps E (live T p rest) (EnqueueACK p ts o).
Proof using HE.
  apply keeps_get. intros s _. apply keeps_bind; [|intros _; apply AddtoACKList_keeps].
  destruct o; try destruct (_ <? _); try destruct (_ =? _); first [apply keeps_ret|by apply keeps_upd_snd].
Qed.

(** *** Destruction *)

Lemma DestroyTCPStream_leads : leads (live T p rest) (over p rest) (DestroyTCPStream p).
Proof using HE.
  intros m (Hw & Hr & s & Hp & _). eapply wp_mono; [apply (DestroyTCPStream_wp E m p s Hw Hp)|].
  - intros b e _ He. by eapply HE, SBFree_faults.
  - intros c b e _ He. by eapply HE, RBFree_faults.
  - intros _ m' (Hw' & Hs' & _). split; [done|]. rewrite Hs', delete_delete_eq. done.
Qed.
End ops.
End rules.
End live.

Lemma keeps_tame {A} (r : res A) I : faults_in tame r -> keeps tame I (lift r).
Proof. apply keeps_lift. Qed.

(** ** Automation *)

Create HintDb live discriminated.
#[export] Hint Resolve sendable_T sendable_at live_core over_core : live.
#[export] Hint Resolve AddtoControlList_keeps AddtoSendList_keeps AddtoACKList_keeps RemoveFromControlList_keeps
  RemoveFromSendList_keeps AddtoRTOList_keeps RemoveFromRTOList_keeps AddtoTimewaitList_keeps
  UpdateTimeoutList_keeps RemoveFromTimewaitList_keeps start_timeout_keeps UpdateRetransmissionTimer_keeps
  EnqueueACK_keeps : live.

Ltac solve_respects :=
  first [ intros; exact I
        | match goal with HΦ : sendable ?Φ |- _ =>
            let s := fresh "s" in intros s; apply (HΦ s); repeat case_match; reflexivity end ].
Ltac solve_quiet := intros ?; repeat case_match; first [reflexivity|split; reflexivity].

(** One step through the text of a handler. *)
Ltac keep_step :=
  lazymatch goal with
  | |- forall _, _ => intros ?
  | |- keeps _ _ (ret _) => apply keeps_ret
  | |- keeps _ _ (gets _) => apply keeps_gets
  | |- keeps _ _ (bind (get_stream ?p) _) => apply keeps_get; [assumption|]
  | |- keeps _ _ (bind _ _) => apply keeps_bind
  | |- keeps _ _ (when (0 <? tcp_timeout) _) => solve [eauto with live]
  | |- keeps _ _ (when _ _) => apply keeps_when
  | |- keeps _ _ (assert _) => apply keeps_assert_; assumption
  | |- keeps _ _ (throw _) => apply keeps_calm; [assumption|calm_fault]
  | |- keeps _ _ (upd_stream _ _) => apply keeps_upd; [assumption|solve_respects|solve_quiet]
  | |- keeps _ _ (set_state _ _) => apply keeps_upd; [assumption|solve_respects|solve_quiet]
  | |- keeps _ _ (upd_snd _ _) => apply keeps_upd_snd; [assumption|solve_respects|solve_quiet]
  | |- keeps _ _ (upd_rcv _ _) => apply keeps_upd_rcv; [assumption|solve_respects]
  | |- keeps _ _ (modify _) => apply keeps_core; [assumption|solve [eauto with live]|reflexivity]
  | |- keeps _ _ (lift _) => first [ apply keeps_faults; [assumption|solve [faults]]
                                   | apply keeps_tame; solve [faults] ]
  | |- keeps _ _ (let _ := _ in _) => cbv zeta
  | |- keeps _ _ (match ?x with _ => _ end) => destruct x
  | |- keeps _ _ _ => solve [eauto with live]
  end.
Ltac keep := repeat keep_step.

Create HintDb ends discriminated.
#[export] Hint Resolve DestroyTCPStream_leads : ends.

(** The same for a handler that may end with the stream destroyed. *)
Ltac lead :=
  lazymatch goal with
  | |- forall _, _ => intros ?; lead
  | |- leads _ _ _ (let _ := _ in _) => cbv zeta; lead
  | |- leads _ ?I ?I (ret _) => apply leads_ret; done
  | |- leads _ (live _ _ _) (over _ _) (ret _) => apply leads_ret; apply live_over
  | |- leads _ (live _ ?p _) _ (bind (get_stream ?p) _) => apply leads_get; lead
  | |- leads ?E ?I ?J (bind _ _) =>
      first [ apply (leads_bind E I I J);
                [match goal with |- leads _ _ _ ?c => change (keeps E I c) end; solve [keep]|lead]
            | apply (leads_bind E I J J); [lead|intros ?; apply leads_ret; done] ]
  | |- leads _ _ _ (match ?x with _ => _ end) => destruct x; lead
  | |- leads _ _ _ (when _ _) =>
      first [ apply keeps_leads; [apply live_over|solve [keep]] | apply leads_when; [apply live_over|lead] ]
  | |- leads _ _ _ _ => first [ solve [eauto with ends] | apply keeps_leads; [apply live_over|solve [keep]] ]
  end.
