(* ===== verification/TcpOut.v ===== *)
(** * Sending: [tcp_out.c]

    Segments are built by [SendTCPPacket] and handed to the interface as
    frames; [FlushTCPSendingBuffer] turns buffered data into segments within
    the window, [SendControlPacket] sends what a state calls for, and the
    three list writers drain the sender's lists. *)

From S2P Require Import Prelude SeqNum SpscQueue MemPool RingBuffer SendBuffer Rss Checksum.
From S2P Require Import Machine Lists TcpOptions FlowTable Network StreamOps.

Definition TCP_MAX_WINDOW : Z := 65535.
Definition be16 (x : Z) : list Z := [x / 256 mod 256; x mod 256].

(** ** The segment in memory *)

Definition flag_bits (k : tcp_packet) : Z :=
  (if pk_fin k then 1 else 0) + (if pk_syn k then 2 else 0) + (if pk_rst k then 4 else 0) +
  (if pk_psh k then 8 else 0) + (if pk_ackf k then 16 else 0).

(** The part of the header before the checksum, and what follows it. The
    ports are kept in network order. *)
Definition tcph_front (k : tcp_packet) : list Z :=
  le_bytes 2 (pk_sport k) ++ le_bytes 2 (pk_dport k) ++ be32 (pk_seq k) ++ be32 (pk_ack k) ++
  [pk_doff k * 16; flag_bits k] ++ be16 (pk_window k).
Definition tcph_back (k : tcp_packet) : list Z := [0; 0] ++ pk_opts k ++ pk_payload k.

(** [tcph->check] is computed with the field still zero. *)
Definition with_checksum `{Env} (len : Z) (k : tcp_packet) : tcp_packet :=
  if hw_checksum then k
  else
    let c := TCPCalcChecksum (tcph_front k ++ 0 :: 0 :: tcph_back k) len (pk_saddr k) (pk_daddr k) in
    mkPkt (pk_saddr k) (pk_daddr k) (pk_sport k) (pk_dport k) (pk_ipid k) (pk_seq k) (pk_ack k)
      (pk_syn k) (pk_fin k) (pk_rst k) (pk_psh k) (pk_ackf k) (pk_window k) (pk_doff k) c
      (pk_opts k) (pk_payload k).

Section out.
Context `{Env}.

(** ** Segments without a stream *)

Definition SendTCPPacketStandalone (sa sp da dp seq ack_seq window flags : Z) (payload : list Z)
    (cur_ts echo_ts : Z) : M Z :=
  let payloadlen := zlen payload in
  let* optlen := lift (CalculateOptionLength flags) in
  if TCP_DEFAULT_MSS <? payloadlen + optlen then throw AssertFailed
  else
    let* o := IPOutputStandalone da in
    match o with
    | None => ret (-1)
    | Some (eidx, haddr) =>
        let os := [TCP_OPT_NOP; TCP_OPT_NOP; TCP_OPT_TIMESTAMP; TCP_OPT_TIMESTAMP_LEN] ++ be32 cur_ts ++ be32 echo_ts in
        let os := os ++ replicate (Z.to_nat (optlen - zlen os)) 0 in
        let k := mkPkt sa da sp dp 0 seq (if has flags TCP_FLAG_ACK then ack_seq else 0)
                   (has flags TCP_FLAG_SYN) (has flags TCP_FLAG_FIN) (has flags TCP_FLAG_RST)
                   (has flags TCP_FLAG_PSH) (has flags TCP_FLAG_ACK) (Z.min window TCP_MAX_WINDOW)
                   (Z.shiftr (TCP_HEADER_LEN + optlen) 2) 0 os payload in
        emit (TcpFrame eidx haddr (with_checksum (TCP_HEADER_LEN + optlen + payloadlen) k)) ;;;
        ret (if pk_syn k || pk_fin k then payloadlen + 1 else payloadlen)
    end.

(** ** Segments of a stream *)

(** The sequence number of the segment: window probes repeat an old byte. *)
Definition seg_seq (s : tcp_stream) (flags : Z) : Z :=
  if has flags TCP_FLAG_WACK then u32 (snd_nxt s - 1)
  else if has flags TCP_FLAG_FIN then fss (sndvar s) else snd_nxt s.

Definition SendTCPPacket (p : ptr) (cur_ts flags : Z) (payload : list Z) : M Z :=
  let* s := get_stream p in
  let payloadlen := zlen payload in
  let* optlen := lift (CalculateOptionLength flags) in
  if mss (sndvar s) <? payloadlen + optlen then ret (-1)
  else
    let* o := IPOutput p in
    match o with
    | None => ret (-2)
    | Some (eidx, haddr, id) =>
        let fin := negb (has flags TCP_FLAG_WACK) && has flags TCP_FLAG_FIN in
        let syn := has flags TCP_FLAG_SYN in
        when fin (upd_snd p (fun v => v <| is_fin_sent := true |>)) ;;;
        when (has flags TCP_FLAG_ACK)
          (upd_snd p (fun v => v <| ts_lastack_sent := cur_ts |>) ;;;
           upd_stream p (fun s => s <| last_active_ts := cur_ts |>) ;;;
           UpdateTimeoutList p) ;;;
        let wscale := if syn then 0 else wscale_mine (sndvar s) in
        let window32 := Z.shiftr (rcv_wnd (rcvvar s)) wscale in
        when (window32 =? 0) (upd_stream p (fun s => s <| need_wnd_adv := true |>)) ;;;
        let* os := lift (GenerateTCPOptions s cur_ts flags optlen) in
        let k := mkPkt (saddr s) (daddr s) (sport s) (dport s) id (seg_seq s flags)
                   (if has flags TCP_FLAG_ACK then rcv_nxt s else 0)
                   syn fin (has flags TCP_FLAG_RST) (has flags TCP_FLAG_PSH) (has flags TCP_FLAG_ACK)
                   (u16 (Z.min window32 TCP_MAX_WINDOW)) (Z.shiftr (TCP_HEADER_LEN + optlen) 2) 0 os payload in
        emit (TcpFrame eidx haddr (with_checksum (TCP_HEADER_LEN + optlen + payloadlen) k)) ;;;
        let ctl := if syn || fin then 1 else 0 in
        upd_stream p (fun s => s <| snd_nxt := u32 (u32 (snd_nxt s + payloadlen) + ctl) |>) ;;;
        let total := u16 (payloadlen + ctl) in
        when (0 <? total)
          (upd_snd p (fun v => v <| ts_rto := u32 (cur_ts + rto v) |>) ;;;
           AddtoRTOList p) ;;;
        ret total
    end.

(** ** Data *)

(** Milliseconds since [ts], in 32-bit arithmetic. *)
Definition msec_since (cur_ts ts : Z) : Z := u32 (u32 (cur_ts - ts) * 1000) / 1000.

(** The loop of [FlushTCPSendingBuffer]; every iteration that continues has
    taken a transmit buffer. *)
Fixpoint flush_loop (fuel : nat) (p : ptr) (cur_ts packets : Z) : M Z :=
  match fuel with
  | O => throw OutOfFuel
  | S fuel =>
      let* s := get_stream p in
      match sndbuf (sndvar s) with
      | None => throw NullDeref
      | Some b =>
          let seq := snd_nxt s in
          let off := u32 (seq - sb_head_seq b) in
          let len := u32 (sb_len b - off) in
          if TCP_SEQ_LT seq (sb_head_seq b) then throw AssertFailed
          else if TCP_SEQ_LT seq (snd_una (sndvar s)) then throw AssertFailed
          else if sb_len b <? off then throw AssertFailed
          else if len =? 0 then ret packets
          else
            let flight := u32 (seq - snd_una (sndvar s)) in
            let remaining_window := s32 (Z.min (cwnd (sndvar s)) (peer_wnd (sndvar s)) - flight) in
            if (remaining_window <=? 0) || ((remaining_window <? mss (sndvar s)) && (0 <? flight)) then
              when ((peer_wnd (sndvar s) <=? cwnd (sndvar s)) &&
                    (500 <? msec_since cur_ts (ts_lastack_sent (sndvar s))))
                (EnqueueACK p cur_ts ACK_OPT_WACK) ;;;
              ret (-3)
            else
              let len := Z.min len (u32 remaining_window) in
              let* optlen := lift (CalculateOptionLength TCP_FLAG_ACK) in
              let pkt_len := u16 (Z.min len (u32 (mss (sndvar s) - optlen))) in
              let* payload := lift (from_option_res OutOfBounds (mem_read (sb_data b) (sb_head b + off) pkt_len)) in
              let* sndlen := SendTCPPacket p cur_ts TCP_FLAG_ACK payload in
              if sndlen <? 0 then ret (-3)
              else flush_loop fuel p cur_ts (packets + 1)
      end
  end.

Definition FlushTCPSendingBuffer (p : ptr) (cur_ts : Z) : M Z :=
  let* s := get_stream p in
  match sndbuf (sndvar s) with
  | None => throw AssertFailed
  | Some b =>
      if sb_len b =? 0 then ret 0
      else
        let* w := gets wptrs in
        flush_loop (S (length w)) p cur_ts 0
  end.

(** ** Control packets *)

Definition SendControlPacket (p : ptr) (cur_ts : Z) : M Z :=
  let* s := get_stream p in
  let busy := on_send_list (sndvar s) || on_ack_list (sndvar s) in
  let finack := Z.lor TCP_FLAG_FIN TCP_FLAG_ACK in
  match state s with
  | TCP_ST_SYN_SENT => SendTCPPacket p cur_ts TCP_FLAG_SYN []
  | TCP_ST_SYN_RCVD =>
      upd_stream p (fun s => s <| snd_nxt := iss (sndvar s) |>) ;;;
      SendTCPPacket p cur_ts (Z.lor TCP_FLAG_SYN TCP_FLAG_ACK) []
  | TCP_ST_ESTABLISHED | TCP_ST_CLOSE_WAIT | TCP_ST_FIN_WAIT_2 | TCP_ST_TIME_WAIT =>
      SendTCPPacket p cur_ts TCP_FLAG_ACK []
  | TCP_ST_LAST_ACK | TCP_ST_FIN_WAIT_1 =>
      if busy then ret (-1) else SendTCPPacket p cur_ts finack []
  | TCP_ST_CLOSING =>
      if is_fin_sent (sndvar s) then
        if snd_nxt s =? fss (sndvar s) then SendTCPPacket p cur_ts finack []
        else SendTCPPacket p cur_ts TCP_FLAG_ACK []
      else SendTCPPacket p cur_ts finack []
  | TCP_ST_CLOSED =>
      if busy then ret (-1)
      else
        let* r := SendTCPPacket p cur_ts TCP_FLAG_RST [] in
        when (0 <=? r) (DestroyTCPStream p) ;;;
        ret r
  | TCP_ST_LISTEN => ret 0
  end.

(** ** Walking a list

    [TAILQ_NEXT] of an element of the list. *)
Fixpoint next_of (p : ptr) (l : list ptr) : res (option ptr) :=
  match l with
  | [] => Fault ListCorrupt
  | q :: l => if decide (q = p) then Ok (hd_error l) else next_of p l
  end.

Fixpoint control_loop (fuel : nat) (i : sender_id) (cur_ts thresh cnt : Z) (cur last : option ptr) : M Z :=
  match cur with
  | None => ret cnt
  | Some p =>
      match fuel with
      | O => throw OutOfFuel
      | S fuel =>
          let cnt := cnt + 1 in
          if thresh <? cnt then ret cnt
          else
            let* d := get_sender i in
            let* next := lift (next_of p (control_list d)) in
            let* l := lift (tailq_remove p (control_list d)) in
            upd_sender i (fun d => d <| control_list := l |> <| control_list_cnt := control_list_cnt d - 1 |>) ;;;
            let* s := get_stream p in
            let* stop :=
              if on_control_list (sndvar s) then
                upd_snd p (fun v => v <| on_control_list := false |>) ;;;
                let* r := SendControlPacket p cur_ts in
                if r =? -2 then
                  upd_sender i (fun d => d <| control_list := p :: control_list d |>
                                           <| control_list_cnt := control_list_cnt d + 1 |>) ;;;
                  upd_snd p (fun v => v <| on_control_list := true |>) ;;;
                  ret true
                else if r <? 0 then
                  upd_sender i (fun d => d <| control_list := control_list d ++ [p] |>
                                           <| control_list_cnt := control_list_cnt d + 1 |>) ;;;
                  upd_snd p (fun v => v <| on_control_list := true |>) ;;;
                  ret false
                else ret false
              else ret false in
            if stop then ret cnt
            else if decide (Some p = last) then ret cnt
            else control_loop fuel i cur_ts thresh cnt next last
      end
  end.

Definition WriteTCPControlList (i : sender_id) (cur_ts thresh : Z) : M Z :=
  let* d := get_sender i in
  let thresh := Z.min thresh (control_list_cnt d) in
  control_loop (S (Z.to_nat thresh)) i cur_ts thresh 0 (hd_error (control_list d)) (last (control_list d)).

(** Send what a stream on the send list may send. *)
Definition send_data (p : ptr) (cur_ts : Z) : M Z :=
  let* s := get_stream p in
  match state s with
  | TCP_ST_ESTABLISHED =>
      if on_control_list (sndvar s) then ret (-1) else FlushTCPSendingBuffer p cur_ts
  | TCP_ST_CLOSE_WAIT | TCP_ST_FIN_WAIT_1 | TCP_ST_LAST_ACK => FlushTCPSendingBuffer p cur_ts
  | _ => ret 0
  end.

(** Bookkeeping after [sent] packets: each carried an acknowledgement. *)
Definition data_sent (i : sender_id) (p : ptr) (cur_ts sent : Z) : M unit :=
  upd_snd p (fun v => v <| on_send_list := false |>) ;;;
  upd_sender i (fun d => d <| send_list_cnt := send_list_cnt d - 1 |>) ;;;
  upd_snd p (fun v => if 0 <? ack_cnt v then
                        v <| ack_cnt := if sent <? ack_cnt v then ack_cnt v - sent else 0 |>
                      else v) ;;;
  let* s := get_stream p in
  when (control_list_waiting s && negb (on_ack_list (sndvar s)))
    (upd_stream p (fun s => s <| control_list_waiting := false |>) ;;; AddtoControlList p cur_ts).

Fixpoint data_loop (fuel : nat) (i : sender_id) (cur_ts thresh cnt : Z) (cur last : option ptr) : M Z :=
  match cur with
  | None => ret cnt
  | Some p =>
      match fuel with
      | O => throw OutOfFuel
      | S fuel =>
          let cnt := cnt + 1 in
          if thresh <? cnt then ret cnt
          else
            let* d := get_sender i in
            let* next := lift (next_of p (send_list d)) in
            let* l := lift (tailq_remove p (send_list d)) in
            upd_sender i (fun d => d <| send_list := l |>) ;;;
            let* s := get_stream p in
            let* stop :=
              if on_send_list (sndvar s) then
                let* r := send_data p cur_ts in
                if r <? 0 then
                  upd_sender i (fun d => d <| send_list := send_list d ++ [p] |>) ;;; ret true
                else data_sent i p cur_ts r ;;; ret false
              else ret false in
            if stop then ret cnt
            else if decide (Some p = last) then ret cnt
            else data_loop fuel i cur_ts thresh cnt next last
      end
  end.

Definition WriteTCPDataList (i : sender_id) (cur_ts thresh : Z) : M Z :=
  let* d := get_sender i in
  data_loop (S (Z.to_nat thresh)) i cur_ts thresh 0 (hd_error (send_list d)) (last (send_list d)).

(** ** Acknowledgements *)

(** Send the [ack_cnt] queued acknowledgements: one iteration for each, and
    one to leave. *)
Fixpoint ack_burst (fuel : nat) (p : ptr) (cur_ts : Z) : M unit :=
  match fuel with
  | O => throw OutOfFuel
  | S fuel =>
      let* s := get_stream p in
      if 0 <? ack_cnt (sndvar s) then
        let* r := SendTCPPacket p cur_ts TCP_FLAG_ACK [] in
        if r <? 0 then ret tt
        else
          upd_snd p (fun v => v <| ack_cnt := ack_cnt v - 1 |>) ;;;
          ack_burst fuel p cur_ts
      else ret tt
  end.

(** Whether the queued acknowledgement is still due. *)
Definition to_ack (s : tcp_stream) : bool :=
  match state s with
  | TCP_ST_ESTABLISHED | TCP_ST_CLOSE_WAIT | TCP_ST_FIN_WAIT_1 | TCP_ST_FIN_WAIT_2 | TCP_ST_TIME_WAIT =>
      match rcvbuf (rcvvar s) with
      | Some (_, b) => TCP_SEQ_LEQ (rcv_nxt s) (u32 (head_seq b + merged_len b))
      | None => false
      end
  | _ => false
  end.

Definition leave_ack_list (i : sender_id) (p : ptr) : M unit :=
  upd_snd p (fun v => v <| on_ack_list := false |>) ;;;
  let* d := get_sender i in
  let* l := lift (tailq_remove p (ack_list d)) in
  upd_sender i (fun d => d <| ack_list := l |> <| ack_list_cnt := ack_list_cnt d - 1 |>).

Definition send_acks (i : sender_id) (p : ptr) (cur_ts : Z) : M unit :=
  let* s := get_stream p in
  (if to_ack s then
     ack_burst (S (Z.to_nat (ack_cnt (sndvar s)))) p cur_ts ;;;
     let* s := get_stream p in
     when (is_wack (sndvar s))
       (upd_snd p (fun v => v <| is_wack := false |>) ;;;
        let* r := SendTCPPacket p cur_ts (Z.lor TCP_FLAG_ACK TCP_FLAG_WACK) [] in
        when (r <? 0) (upd_snd p (fun v => v <| is_wack := true |>))) ;;;
     let* s := get_stream p in
     when (negb (negb (ack_cnt (sndvar s) =? 0) || is_wack (sndvar s))) (leave_ack_list i p)
   else
     upd_snd p (fun v => v <| ack_cnt := 0 |> <| is_wack := false |>) ;;;
     leave_ack_list i p) ;;;
  let* s := get_stream p in
  when (control_list_waiting s && negb (on_send_list (sndvar s)))
    (upd_stream p (fun s => s <| control_list_waiting := false |>) ;;; AddtoControlList p cur_ts).

Fixpoint ack_loop (fuel : nat) (i : sender_id) (cur_ts thresh cnt : Z) (cur last : option ptr) : M Z :=
  match cur with
  | None => ret cnt
  | Some p =>
      match fuel with
      | O => throw OutOfFuel
      | S fuel =>
          let cnt := cnt + 1 in
          if thresh <? cnt then ret cnt
          else
            let* d := get_sender i in
            let* next := lift (next_of p (ack_list d)) in
            let* s := get_stream p in
            (if on_ack_list (sndvar s) then send_acks i p cur_ts
             else
               let* l := lift (tailq_remove p (ack_list d)) in
               upd_sender i (fun d => d <| ack_list := l |> <| ack_list_cnt := ack_list_cnt d - 1 |>)) ;;;
            if decide (Some p = last) then ret cnt
            else ack_loop fuel i cur_ts thresh cnt next last
      end
  end.

Definition WriteTCPACKList (i : sender_id) (cur_ts thresh : Z) : M Z :=
  let* d := get_sender i in
  ack_loop (S (Z.to_nat thresh)) i cur_ts thresh 0 (hd_error (ack_list d)) (last (ack_list d)).

(** ** All senders: [WritePacketsToChunks] of [core.c] *)

Definition write_sender (i : sender_id) (cur_ts : Z) : M unit :=
  let thresh := max_concurrency in
  let* d := get_sender i in
  when (negb (control_list_cnt d =? 0)) (WriteTCPControlList i cur_ts thresh ;;; ret tt) ;;;
  let* d := get_sender i in
  when (negb (ack_list_cnt d =? 0)) (WriteTCPACKList i cur_ts thresh ;;; ret tt) ;;;
  let* d := get_sender i in
  when (negb (send_list_cnt d =? 0)) (WriteTCPDataList i cur_ts thresh ;;; ret tt).

Fixpoint write_senders (l : list nat) (cur_ts : Z) : M unit :=
  match l with
  | [] => ret tt
  | i :: l => write_sender (NSender i) cur_ts ;;; write_senders l cur_ts
  end.

Definition WritePacketsToChunks (cur_ts : Z) : M unit :=
  write_sender GSender cur_ts ;;; write_senders (seq 0 (Z.to_nat eths_num)) cur_ts.
End out.
