(* ===== verification/SafeOut.v ===== *)
(** * Sending keeps the invariant

    The functions of [TcpOut] from a manager that satisfies the invariant:
    none touches a destroyed stream or corrupts a list, and the invariant
    holds again when they return. *)

From S2P Require Import Prelude SeqNum SpscQueue MemPool RingBuffer SendBuffer AddrPool Rss Checksum.
From S2P Require Import Machine Wp Lists TcpOptions FlowTable Network Faults StreamOps Invariant Boot StreamInv Live.
From S2P Require Import TcpOut.

(** The successor of an element is another element. *)
Lemma next_of_ok p l : p ∈ l -> exists nx, next_of p l = Ok nx /\
  forall q, nx = Some q -> q ∈ l /\ (NoDup l -> q <> p).
Proof.
  induction l as [|x l IH]; [by intros ?%not_elem_of_nil|]. simpl. intros Hp. destruct (decide (x = p)) as [->|Hne].
  - exists (hd_error l). split; [done|]. intros q Hq. destruct l as [|y l]; simplify_eq/=. split; [set_solver|].
    intros Hnd. apply NoDup_cons in Hnd as [Hnd _]. set_solver.
  - destruct IH as (nx & Enx & Hnx); [set_solver|]. exists nx. split; [done|]. intros q Hq. destruct (Hnx q Hq).
    split; [set_solver|]. intros [_ ?]%NoDup_cons. tauto.
Qed.

Section out.
Context `{Env} `{!NetOk} (E : fault -> Prop) (HE : forall e, calm e -> E e).
Implicit Types (m : mtcp_manager) (s : tcp_stream) (p q : ptr) (Φ : tcp_stream -> Prop)
  (rest : gmap ptr tcp_stream).

(** ** Below TCP *)

Section network.
Context (I : mtcp_manager -> Prop) (HI : core_inv I).

Lemma get_wptr_keeps : keeps E I get_wptr.
Proof using HI. intros m Hm. unfold wp, get_wptr. destruct (wptrs m) as [|b l]; [done|]. eapply HI; [|exact Hm]. done. Qed.

Lemma emit_keeps f : keeps E I (emit f).
Proof using HE HI. unfold emit. apply keeps_core; [done..|]. done. Qed.

Lemma EthernetOutput_keeps nif : keeps E I (EthernetOutput nif).
Proof using HI. pose proof get_wptr_keeps. unfold EthernetOutput. keep. Qed.

Lemma RequestARP_keeps ip nif ts : keeps E I (RequestARP ip nif ts).
Proof using HE HI.
  pose proof EthernetOutput_keeps. pose proof emit_keeps. unfold RequestARP, ARPOutput. keep.
Qed.

Lemma GetDestinationHWaddr_keeps ip b : keeps E I (GetDestinationHWaddr ip b).
Proof using HI. unfold GetDestinationHWaddr. keep. Qed.

Lemma SendTCPPacketStandalone_keeps sa sp da dp sq ak win fl payload ts ets :
  keeps E I (SendTCPPacketStandalone sa sp da dp sq ak win fl payload ts ets).
Proof using HE HI.
  pose proof EthernetOutput_keeps. pose proof emit_keeps. pose proof GetDestinationHWaddr_keeps.
  pose proof RequestARP_keeps. unfold SendTCPPacketStandalone, IPOutputStandalone. keep.
Qed.
End network.

(** ** Segments *)

Section segment.
Context (p : ptr) (rest : gmap ptr tcp_stream) (Φ : tcp_stream -> Prop) (HΦ : sendable Φ).

(** A live stream has its output interface. *)
Lemma live_nif m s : live Φ p rest m -> streams m !! p = Some s -> 0 <= nif_out (sndvar s).
Proof using. intros (Hw & _) Hp. apply (so_nif _ (wf_streams _ Hw _ _ Hp)). Qed.

Lemma IPOutput_keeps : keeps E (live Φ p rest) (IPOutput p).
Proof using HE HΦ.
  pose proof (GetDestinationHWaddr_keeps _ (live_core Φ p rest)). pose proof (EthernetOutput_keeps _ (live_core Φ p rest)).
  pose proof (RequestARP_keeps _ (live_core Φ p rest)).
  intros m Hm. destruct (live_at _ _ _ _ Hm) as (s & Hs & _ & Hp).
  apply wp_bind. eapply wp_get_stream; [exact Hp|]. pose proof (live_nif m s Hm Hp).
  destruct (Z.leb_spec 0 (nif_out (sndvar s))); [|lia]. apply wp_bind, wp_ret.
  assert (keeps E (live Φ p rest) (ip_output_via p)) as Hk by (unfold ip_output_via; keep). by apply Hk.
Qed.

Lemma SendTCPPacket_keeps ts fl payload : keeps E (live Φ p rest) (SendTCPPacket p ts fl payload).
Proof using HE HΦ. pose proof IPOutput_keeps. pose proof (emit_keeps _ (live_core Φ p rest)). unfold SendTCPPacket. keep. Qed.
End segment.

(** *** Transmit buffers: a segment that is sent takes one *)

Section wptrs.
Lemma the_sender_same {B} (π : mtcp_manager -> B) p : same π (the_sender p).
Proof using. unfold the_sender, GetSender. frame. Qed.

Lemma UpdateTimeoutList_wptrs p : same wptrs (UpdateTimeoutList p).
Proof using. unfold UpdateTimeoutList. frame. Qed.

Lemma AddtoRTOList_wptrs p : same wptrs (AddtoRTOList p).
Proof using. unfold AddtoRTOList, upd_slot. frame. Qed.
Definition fewer (n : nat) m : Prop := (length (wptrs m) < n)%nat.

Lemma fewer_keeps {A} n (c : M A) : same wptrs c -> keeps (fun _ => True) (fewer n) c.
Proof using.
  intros Hs m Hm. eapply wp_mono; [by apply (Hs (wptrs m) m)|]. intros a m' Em. unfold fewer. simpl in Em. by rewrite Em.
Qed.

Lemma EthernetOutput_takes nif m :
  wp (fun _ => True) (EthernetOutput nif) (fun o m' => is_Some o -> (length (wptrs m') < length (wptrs m))%nat) m.
Proof using.
  unfold EthernetOutput. destruct (nif <? 0); [apply wp_ret; by intros []|].
  destruct (_ <? 0); [apply wp_ret; by intros []|]. apply wp_bind. unfold wp at 1, get_wptr.
  destruct (wptrs m) as [|b l]; apply wp_ret; [by intros []|]. destruct b; [|by intros []]. intros _. simpl. lia.
Qed.

Lemma ip_output_via_takes p m :
  wp (fun _ => True) (ip_output_via p) (fun o m' => is_Some o -> (length (wptrs m') < length (wptrs m))%nat) m.
Proof using.
  unfold ip_output_via. apply wp_bind. unfold wp at 1, get_stream. destruct (streams m !! p) as [s|]; [|done].
  apply wp_bind. eapply wp_mono.
  { instantiate (1 := fun _ m' => m' = m). unfold GetDestinationHWaddr. apply wp_bind, wp_gets, wp_bind, wp_gets.
    by destruct (is_external s), (arp_gateway m); apply wp_ret. }
  intros [haddr|] m1 ->.
  - apply wp_bind. eapply wp_mono; [apply EthernetOutput_takes|]. intros [e|] m2 He; [|apply wp_ret; by intros []].
    apply wp_bind. unfold upd_snd, wp at 1, upd_stream. destruct (streams m2 !! p); [|done]. apply wp_ret.
    intros _. simpl. apply He. by eexists.
  - apply wp_bind, wp_lift; [|done]. intros ip _. apply wp_bind, wp_gets. apply wp_bind.
    eapply wp_mono with (Q := fun _ _ => True); [|intros; apply wp_ret; by intros []].
    unfold wp. by destruct (RequestARP _ _ _ _) as [[]|].
Qed.

Lemma IPOutput_takes p m :
  wp (fun _ => True) (IPOutput p) (fun o m' => is_Some o -> (length (wptrs m') < length (wptrs m))%nat) m.
Proof using.
  unfold IPOutput. apply wp_bind. unfold wp at 1, get_stream. destruct (streams m !! p) as [s|]; [|done].
  apply wp_bind. eapply wp_mono with (Q := fun _ m' => wptrs m' = wptrs m); [|cbv beta; intros _ m1 <-; apply ip_output_via_takes].
  destruct (_ <=? _); [by apply wp_ret|].
  assert (same wptrs (let* (nif, ext) := lift (GetOutputInterface (daddr s)) in
    upd_stream p (fun s => s <| sndvar; nif_out := s8 nif |> <| is_external := ext |>))) as Hs by frame.
  by apply (Hs (wptrs m)).
Qed.

Lemma SendTCPPacket_takes p ts fl payload m :
  wp (fun _ => True) (SendTCPPacket p ts fl payload) (fun r m' => 0 <= r -> (length (wptrs m') < length (wptrs m))%nat) m.
Proof using.
  pose proof UpdateTimeoutList_wptrs. pose proof AddtoRTOList_wptrs.
  unfold SendTCPPacket. apply wp_bind. unfold wp at 1, get_stream. destruct (streams m !! p) as [s|]; [|done].
  apply wp_bind, wp_lift; [|done]. intros optlen _. destruct (_ <? _); [apply wp_ret; lia|]. apply wp_bind.
  eapply wp_mono; [apply IPOutput_takes|]. intros [[[eidx haddr] id]|] m1 Hm; [|apply wp_ret; lia].
  eapply wp_mono; [eapply (fewer_keeps (length (wptrs m)))|intros r m2 Hr _; exact Hr].
  - unfold emit. frame.
  - apply Hm. by eexists.
Qed.
End wptrs.

(** ** Data *)

Section data.
Context (p : ptr) (rest : gmap ptr tcp_stream).

Lemma flush_loop_keeps fuel ts n m :
  live T p rest m -> (length (wptrs m) < fuel)%nat ->
  wp E (flush_loop fuel p ts n) (fun _ m' => live T p rest m') m.
Proof using HE.
  revert n m. induction fuel as [|fuel IH]; intros n m Hm Hf; [lia|]. cbn [flush_loop].
  destruct (live_at _ _ _ _ Hm) as (s & _ & _ & Hp). apply wp_bind. eapply wp_get_stream; [exact Hp|].
  destruct (sndbuf (sndvar s)) as [b|]; [|apply wp_throw, HE; calm_fault]. cbv zeta.
  repeat (match goal with |- wp _ (if ?b then throw _ else _) _ _ => destruct b; [apply wp_throw, HE; calm_fault|] end).
  destruct (_ =? _); [by apply wp_ret|]. destruct (_ || _).
  - match goal with |- wp _ ?c _ _ => cut (keeps E (live T p rest) c); [intros Hk; by apply Hk|] end. keep.
  - apply wp_bind, wp_lift; [|intros e He; by eapply HE, CalculateOptionLength_faults]. intros optlen _.
    apply wp_bind, wp_lift; [|intros e He; apply HE; revert He; apply faults_from_option; calm_fault].
    intros payload _. apply wp_bind. eapply wp_mono.
    + eapply wp_conj; [apply (SendTCPPacket_keeps p rest T sendable_T); exact Hm|apply SendTCPPacket_takes].
    + intros r m' [Hm' Hr]. cbv beta in *. destruct (Z.ltb_spec r 0); [by apply wp_ret|]. apply IH; [done|].
      specialize (Hr ltac:(lia)). lia.
Qed.

Lemma FlushTCPSendingBuffer_keeps ts : keeps E (live T p rest) (FlushTCPSendingBuffer p ts).
Proof using HE.
  unfold FlushTCPSendingBuffer. apply keeps_get; [done|]. intros s _.
  destruct (sndbuf (sndvar s)); [|keep]. destruct (_ =? _); [keep|].
  intros m Hm. apply wp_bind, wp_gets. apply flush_loop_keeps; [done|lia].
Qed.
End data.

(** ** Control packets *)

Lemma SendControlPacket_ends Φ p rest ts : sendable Φ -> forall m, live Φ p rest m ->
  wp E (SendControlPacket p ts) (fun r m' => over p rest m' /\ (r < 0 -> live Φ p rest m')) m.
Proof using HE.
  intros HΦ m Hm. pose proof (SendTCPPacket_keeps p rest Φ HΦ) as Hsend.
  assert (forall c : M Z, keeps E (live Φ p rest) c ->
    wp E c (fun r m' => over p rest m' /\ (r < 0 -> live Φ p rest m')) m) as Hk.
  { intros c Hc. eapply wp_mono; [by apply Hc|]. intros r m' Hr. split; [exact (live_over _ _ _ _ Hr)|done]. }
  destruct (live_at _ _ _ _ Hm) as (s & _ & _ & Hp). unfold SendControlPacket. apply wp_bind.
  eapply wp_get_stream; [exact Hp|]. cbv zeta. destruct (state s); try (apply Hk; solve [keep]).
  destruct (_ || _); [apply Hk; keep|]. apply wp_bind. eapply wp_mono; [by apply Hsend|].
  intros r m1 Hm1. cbv beta in Hm1. destruct (Z.leb_spec 0 r); simpl.
  - apply wp_bind. eapply wp_mono; [apply (DestroyTCPStream_leads E HE p rest); by eapply live_weak|].
    intros a m2 Ho. apply wp_ret. split; [done|lia].
  - apply wp_bind, wp_ret, wp_ret. split; [by eapply live_over|done].
Qed.

(** *** Walking a list while its elements change *)

Lemma still_listed m m' p q id :
  wf m -> over p (delete p (streams m)) m' -> q <> p -> q ∈ list_at m id -> q ∈ list_at m' id.
Proof using.
  intros Hw (Hw' & Hs) Hne (t & Ht & Ho)%(wf_lists _ Hw id). apply (wf_lists _ Hw' id). exists t. split; [|done].
  rewrite <- (lookup_delete_ne (streams m') p q), Hs, lookup_delete_ne by done. done.
Qed.

(** The element of a walk: it is on the list, and so is its successor. *)
Lemma walk_next m p id :
  wf m -> p ∈ list_at m id -> exists s nx, streams m !! p = Some s /\ on_list id s = true /\
    next_of p (list_at m id) = Ok nx /\
    forall m' q, over p (delete p (streams m)) m' -> nx = Some q -> q ∈ list_at m' id.
Proof using.
  intros Hw Hp. destruct (next_of_ok p _ Hp) as (nx & Enx & Hnx).
  apply (wf_lists _ Hw id) in Hp as (s & Hs & Ho). exists s, nx. split_and!; try done.
  intros m' q Hov Hq. destruct (Hnx q Hq) as [Hin Hne]. eapply still_listed; [done..| |done].
  apply Hne. apply (wf_lists _ Hw id).
Qed.

(** The sender of an element of its control, send or ACK list. *)
Lemma control_member m p i s : wf m -> streams m !! p = Some s -> on_list (LControl i) s = true ->
  on_control_list (sndvar s) = true /\ sender_of (nif_out (sndvar s)) = Some i /\
  exists d, sender_at m i = Some d /\ list_at m (LControl i) = control_list d.
Proof using.
  intros Hw Hp [Hc Hi%bool_decide_eq_true]%andb_prop. split_and!; try done.
  destruct (sender_exists m p s Hw Hp) as (j & d & Hj & Hd). assert (i = j) as -> by congruence. exists d.
  split; [done|]. simpl. by rewrite Hd.
Qed.

(** Put [p] back on the control list, at either end. *)
Lemma put_back_control i p rest v m (f : list ptr -> list ptr) :
  (forall l, f l ≡ₚ l ++ [p]) -> sender_of (v.1.2) = Some i -> v.1.1.1.1 = false ->
  live (fun s => on_lists s = v) p rest m ->
  wp E (upd_sender i (fun d => d <| control_list := f (control_list d) |>
                                 <| control_list_cnt := control_list_cnt d + 1 |>) ;;;
        upd_snd p (fun v => v <| on_control_list := true |>)) (fun _ m' => over p rest m') m.
Proof using.
  intros Hf Hi Hc (Hw & Hr & s & Hp & Hv). subst v. simpl in Hi, Hc.
  destruct (sender_exists m p s Hw Hp) as (j & d & Hj & Hd). assert (i = j) as -> by congruence.
  apply wp_bind. unfold wp at 1. erewrite upd_sender_ok by done. unfold wp, upd_snd, upd_stream.
  pose proof (attach_control m p s Hw Hp j d Hi Hd (f (control_list d)) Hc (Hf _)) as (Hw' & _).
  destruct j as [|k]; simpl in *; rewrite Hp; (split; [exact Hw'|]);
    rewrite <- Hr; apply delete_insert_eq.
Qed.

(** Take the first step off the control list: the list, then the flag. *)
Lemma take_control m p i s d :
  wf m -> streams m !! p = Some s -> on_control_list (sndvar s) = true -> sender_of (nif_out (sndvar s)) = Some i ->
  sender_at m i = Some d ->
  exists m1, upd_sender i (fun d' => d' <| control_list := filter (fun y => y <> p) (control_list d) |>
                                        <| control_list_cnt := control_list_cnt d' - 1 |>) m = Ok (tt, m1) /\
    streams m1 = streams m /\
    wp E (upd_snd p (fun v => v <| on_control_list := false |>))
      (fun _ => live (fun s' => on_lists s' = (false, on_send_list (sndvar s), on_ack_list (sndvar s), nif_out (sndvar s), ack_cnt (sndvar s)))
         p (delete p (streams m))) m1.
Proof using.
  intros Hw Hp Hc Hi Hd. eexists. split; [by apply upd_sender_ok|].
  pose proof (detach_control m p s Hw Hp i d Hi Hd _ Hc (reflexivity _)) as Hsh.
  unfold wp, upd_snd, upd_stream. destruct i as [|k]; simpl in *; (split; [done|]); rewrite Hp;
    (eapply shift_live; [|exact Hsh|done]; done).
Qed.

Lemma control_loop_wf i ts thresh fuel cnt cur lst m :
  wf m -> (forall p, cur = Some p -> p ∈ list_at m (LControl i)) -> (Z.to_nat (thresh - cnt) < fuel)%nat ->
  wp E (control_loop fuel i ts thresh cnt cur lst) (fun _ m' => wf m') m.
Proof using HE.
  revert cnt cur m. induction fuel as [|fuel IH]; intros cnt cur m Hw Hcur Hf; [lia|].
  destruct cur as [p|]; [|by apply wp_ret]. cbn [control_loop]. cbv zeta.
  destruct (Z.ltb_spec thresh (cnt + 1)); [by apply wp_ret|].
  destruct (walk_next m p (LControl i) Hw (Hcur p eq_refl)) as (s & nx & Hp & Hon & Enx & Hnx).
  destruct (control_member m p i s Hw Hp Hon) as (Hc & Hi & d & Hd & El). rewrite El in Enx.
  specialize (Hcur p eq_refl). rewrite El in Hcur.
  apply wp_bind. unfold wp at 1. rewrite (get_sender_ok _ _ _ Hd). apply wp_bind, wp_lift; [|congruence].
  intros nx' [= <-]%(eq_trans (eq_sym Enx)). rewrite tailq_remove_ok by done. apply wp_bind, wp_lift; [|done].
  intros l [= <-]. apply wp_bind. destruct (take_control m p i s d Hw Hp Hc Hi Hd) as (m1 & E1 & Hs1 & Hwp).
  unfold wp at 1. rewrite E1. apply wp_bind. eapply wp_get_stream; [by rewrite Hs1|]. rewrite Hc.
  apply wp_bind. apply wp_bind. eapply wp_mono; [exact Hwp|]. intros a m2 Hm2. cbv beta in Hm2.
  apply wp_bind. eapply wp_mono; [by apply SendControlPacket_ends; [apply sendable_at|]|].
  intros r m3 [Hov Hneg]. cbv beta in *.
  assert (forall stop m4, over p (delete p (streams m)) m4 -> wp E (if stop : bool then ret (cnt + 1)
    else if decide (Some p = lst) then ret (cnt + 1)
    else control_loop fuel i ts thresh (cnt + 1) nx lst) (fun _ m' => wf m') m4) as Hk.
  { intros stop m4 Ho. destruct stop; [apply wp_ret, Ho|]. destruct (decide _); [apply wp_ret, Ho|].
    apply IH; [apply Ho| |lia]. intros q Hq. by apply (Hnx m4). }
  destruct (Z.eqb_spec r (-2)).
  - apply wp_assoc. apply wp_bind. eapply wp_mono;
      [apply (put_back_control i p (delete p (streams m)) (false, on_send_list (sndvar s), on_ack_list (sndvar s), nif_out (sndvar s), ack_cnt (sndvar s)) _ (cons p)); [|exact Hi|done|apply Hneg; lia]|].
    + intros l. apply Permutation_cons_append.
    + intros b m4 Ho. by apply wp_ret, (Hk true).
  - destruct (Z.ltb_spec r 0).
    + apply wp_assoc. apply wp_bind. eapply wp_mono;
        [apply (put_back_control i p (delete p (streams m)) (false, on_send_list (sndvar s), on_ack_list (sndvar s), nif_out (sndvar s), ack_cnt (sndvar s)) _ (fun l => l ++ [p])); [done|exact Hi|done|by apply Hneg]|].
      intros b m4 Ho. by apply wp_ret, (Hk false).
    + by apply wp_ret, (Hk false).
Qed.

(** ** Acknowledgements *)

(** The sender lists the stream is on, whatever acknowledgements are queued. *)
Definition listed k s : Prop := (on_lists s).1 = k.

Lemma sendable_listed k : sendable (listed k).
Proof using. intros s s' Es. unfold listed. by rewrite Es. Qed.

Lemma ack_burst_keeps p rest k ts fuel m s :
  live (listed k) p rest m -> streams m !! p = Some s -> (Z.to_nat (ack_cnt (sndvar s)) < fuel)%nat ->
  wp E (ack_burst fuel p ts) (fun _ => live (listed k) p rest) m.
Proof using HE.
  revert m s. induction fuel as [|fuel IH]; intros m s Hm Hp Hf; [lia|]. cbn [ack_burst].
  apply wp_bind. eapply wp_get_stream; [exact Hp|]. destruct (Z.ltb_spec 0 (ack_cnt (sndvar s))); [|by apply wp_ret].
  assert (live (fun s' => on_lists s' = on_lists s) p rest m) as Hm0
    by (destruct Hm as (? & ? & _); split_and!; [done..|by exists s]).
  assert (listed k s) as Hk by (destruct Hm as (_ & _ & s' & ? & ?); by simplify_eq).
  apply wp_bind. eapply wp_mono; [apply (SendTCPPacket_keeps p rest _ (sendable_at (on_lists s))); exact Hm0|].
  intros r m1 Hm1. cbv beta in Hm1. destruct (Z.ltb_spec r 0).
  { apply wp_ret. eapply live_weak; [|exact Hm1]. intros s' Es. unfold listed. by rewrite Es. }
  destruct Hm1 as (Hw1 & Hr1 & s1 & Hp1 & Hs1).
  destruct (runs_upd_snd m1 p (fun v => v <| ack_cnt := ack_cnt v - 1 |>) s1) as (a & m2 & E2 & Hsh); try done.
  apply wp_bind. unfold wp at 1. rewrite E2. eapply IH; [|by eapply shift_lookup|].
  - eapply shift_live; [|exact Hsh|done]. unfold listed in *. rewrite <- Hk, <- Hs1. reflexivity.
  - simpl. unfold on_lists in Hs1. assert (ack_cnt (sndvar s1) = ack_cnt (sndvar s)) by congruence. lia.
Qed.

Lemma leave_ack_list_leads p rest i k m :
  live (listed k) p rest m -> sender_of k.2 = Some i -> k.1.2 = true ->
  wp E (leave_ack_list i p) (fun _ => live T p rest) m.
Proof using.
  intros (Hw & Hr & s & Hp & Hk) Hi Ha. unfold listed in Hk. subst k. simpl in Hi, Ha.
  destruct (sender_exists m p s Hw Hp) as (j & d & Hj & Hd). assert (i = j) as -> by congruence.
  destruct (wf_sender_member m p s j d Hw Hp Hi Hd) as (_ & _ & Hin). specialize (Hin Ha).
  pose proof (detach_ack m p s Hw Hp j d Hi Hd _ Ha (reflexivity _)) as Hsh.
  unfold leave_ack_list. apply wp_bind. eapply wp_upd_stream; [exact Hp|].
  assert (sender_at (m <| streams := <[p := s <| sndvar; on_ack_list := false |>]> (streams m) |>) j = Some d) as Hd'
    by (destruct j; exact Hd).
  apply wp_bind. unfold wp at 1. erewrite get_sender_ok by exact Hd'. rewrite tailq_remove_ok by done.
  apply wp_bind, wp_lift; [|done]. intros l [= <-]. unfold wp. erewrite upd_sender_ok by exact Hd'.
  eapply shift_live; [|exact Hsh|done]. done.
Qed.

(** The packets of the acknowledgement loop: those queued, then a window probe. *)
Definition ack_packets i p ts (n : Z) : M unit :=
  ack_burst (S (Z.to_nat n)) p ts ;;;
  let* s := get_stream p in
  when (is_wack (sndvar s))
    (upd_snd p (fun v => v <| is_wack := false |>) ;;;
     let* r := SendTCPPacket p ts (Z.lor TCP_FLAG_ACK TCP_FLAG_WACK) [] in
     when (r <? 0) (upd_snd p (fun v => v <| is_wack := true |>))) ;;;
  let* s := get_stream p in
  when (negb (negb (ack_cnt (sndvar s) =? 0) || is_wack (sndvar s))) (leave_ack_list i p).

Lemma ack_packets_leads p rest k i ts m s :
  live (listed k) p rest m -> sender_of k.2 = Some i -> k.1.2 = true -> streams m !! p = Some s ->
  wp E (ack_packets i p ts (ack_cnt (sndvar s))) (fun _ => live T p rest) m.
Proof using HE.
  intros Hm Hi Ha Hp. pose proof (sendable_listed k) as HΦ. pose proof (SendTCPPacket_keeps p rest _ HΦ) as Hsend.
  apply wp_bind. eapply wp_mono; [by eapply ack_burst_keeps; [..|apply Nat.lt_succ_diag_r]|].
  clear m s Hm Hp. intros a m Hm. cbv beta in Hm. revert m Hm. clear a.
  apply (leads_bind E (live (listed k) p rest) (live (listed k) p rest)); [|intros s].
  { intros m Hm. destruct (live_at _ _ _ _ Hm) as (s & _ & _ & Hp). by eapply wp_get_stream. }
  apply (leads_bind E (live (listed k) p rest) (live (listed k) p rest)); [|intros _].
  { assert (keeps E (live (listed k) p rest) (when (is_wack (sndvar s))
      (upd_snd p (fun v => v <| is_wack := false |>) ;;;
       let* r := SendTCPPacket p ts (Z.lor TCP_FLAG_ACK TCP_FLAG_WACK) [] in
       when (r <? 0) (upd_snd p (fun v => v <| is_wack := true |>))))) as Hk by keep. exact Hk. }
  intros m Hm. destruct (live_at _ _ _ _ Hm) as (s' & _ & _ & Hp). eapply wp_bind, wp_get_stream; [exact Hp|].
  apply wp_when; intros _; [by eapply leave_ack_list_leads|]. by eapply live_weak.
Qed.

Lemma send_acks_leads p rest k i ts m :
  live (listed k) p rest m -> sender_of k.2 = Some i -> k.1.2 = true ->
  wp E (send_acks i p ts) (fun _ => live T p rest) m.
Proof using HE.
  intros Hm Hi Ha. destruct (live_at _ _ _ _ Hm) as (s & _ & _ & Hp).
  unfold send_acks. apply wp_bind. eapply wp_get_stream; [exact Hp|]. apply wp_bind. eapply wp_mono.
  - instantiate (1 := fun _ => live T p rest). destruct (to_ack s); [by eapply ack_packets_leads|].
    pose proof (sendable_listed k) as HΦ. apply wp_bind. eapply wp_mono.
    + assert (keeps E (live (listed k) p rest) (upd_snd p (fun v => v <| ack_cnt := 0 |> <| is_wack := false |>))) as Hk.
      { apply keeps_upd_snd; [done| |done]. intros s' <-. reflexivity. }
      by apply Hk.
    + intros a m1 Hm1. exact (leave_ack_list_leads _ _ _ _ _ Hm1 Hi Ha).
  - intros a m1 Hm1. cbv beta in Hm1.
    match goal with |- wp _ ?c _ _ => assert (keeps E (live T p rest) c) as Hk by keep end. by apply Hk.
Qed.

Lemma ack_member m p i s : wf m -> streams m !! p = Some s -> on_list (LAck i) s = true ->
  on_ack_list (sndvar s) = true /\ sender_of (nif_out (sndvar s)) = Some i /\
  exists d, sender_at m i = Some d /\ list_at m (LAck i) = ack_list d.
Proof using.
  intros Hw Hp [Hc Hi%bool_decide_eq_true]%andb_prop. split_and!; try done.
  destruct (sender_exists m p s Hw Hp) as (j & d & Hj & Hd). assert (i = j) as -> by congruence. exists d.
  split; [done|]. simpl. by rewrite Hd.
Qed.

Lemma ack_loop_wf i ts thresh fuel cnt cur lst m :
  wf m -> (forall p, cur = Some p -> p ∈ list_at m (LAck i)) -> (Z.to_nat (thresh - cnt) < fuel)%nat ->
  wp E (ack_loop fuel i ts thresh cnt cur lst) (fun _ m' => wf m') m.
Proof using HE.
  revert cnt cur m. induction fuel as [|fuel IH]; intros cnt cur m Hw Hcur Hf; [lia|].
  destruct cur as [p|]; [|by apply wp_ret]. cbn [ack_loop]. cbv zeta.
  destruct (Z.ltb_spec thresh (cnt + 1)); [by apply wp_ret|].
  destruct (walk_next m p (LAck i) Hw (Hcur p eq_refl)) as (s & nx & Hp & Hon & Enx & Hnx).
  destruct (ack_member m p i s Hw Hp Hon) as (Hc & Hi & d & Hd & El). rewrite El in Enx.
  apply wp_bind. unfold wp at 1. rewrite (get_sender_ok _ _ _ Hd). apply wp_bind, wp_lift; [|congruence].
  intros nx' [= <-]%(eq_trans (eq_sym Enx)). apply wp_bind. eapply wp_get_stream; [exact Hp|]. rewrite Hc.
  apply wp_bind. eapply wp_mono.
  { eapply (send_acks_leads p (delete p (streams m)) (on_lists s).1); [|exact Hi|exact Hc].
    split_and!; [done..|]. by exists s. }
  intros a m1 Hm1%live_over. destruct (decide _); [apply wp_ret, Hm1|].
  apply IH; [apply Hm1| |lia]. intros q Hq. by apply (Hnx m1).
Qed.
End out.
