(* ===== verification/SendWindow.v ===== *)
(** * The segments that leave the send buffer

    [FlushTCPSendingBuffer] cuts the bytes of the send buffer into segments.
    Each carries the bytes of the stream at its sequence number, the segments
    follow each other without a gap, none is larger than the peer's segment
    size allows, and none reaches beyond the congestion window or the window
    the peer has advertised. *)

From S2P Require Import Prelude SeqNum SpscQueue MemPool RingBuffer SendBuffer AddrPool Rss Checksum.
From S2P Require Import Machine Wp Lists TcpOptions FlowTable Network Faults StreamOps Invariant Boot StreamInv Live.
From S2P Require Import TcpOut SafeOut.

(** The segments among the frames written so far. *)
Definition packets (m : mtcp_manager) : list tcp_packet :=
  omap (fun f => match f with TcpFrame _ _ k => Some k | _ => None end) (tx m).

(** What sending data does not change in a stream. *)
Definition view (s : tcp_stream) :=
  (sndbuf (sndvar s), snd_una (sndvar s), cwnd (sndvar s), peer_wnd (sndvar s), mss (sndvar s),
   (is_external s, saddr s, daddr s, sport s, dport s)).

Section send.
Context `{Env} `{!NetOk} (p : ptr).
Implicit Types (m : mtcp_manager) (s : tcp_stream) (l : list tcp_packet).

Definition sending m s l : Prop := wf m /\ streams m !! p = Some s /\ packets m = l.

Lemma sending_shift m s s' l m' : sending m s l -> shift m p s' m' -> sending m' s' l.
Proof.
  intros (Hw & Hp & Hl) Hsh. pose proof (shift_lookup _ _ _ _ Hsh). destruct Hsh as (Hw' & _ & Ht). split_and!; [done..|].
  assert (tx m' = tx m) as Htx by exact (f_equal tx Ht). unfold packets. by rewrite Htx.
Qed.

(** A step that moves the stream to [s']. *)
Lemma wp_moves {A B} (c : M A) (k : A -> M B) (Q : B -> mtcp_manager -> Prop) m s s' l :
  sending m s l -> runs_to c m p s' -> (forall a m', sending m' s' l -> wp no_fault (k a) Q m') -> wp no_fault (bind c k) Q m.
Proof.
  intros Hm (a & m' & E & Hsh) Hk. apply wp_bind. unfold wp at 1. rewrite E. apply Hk. by eapply sending_shift.
Qed.

Lemma wp_update {B} f (k : unit -> M B) (Q : B -> mtcp_manager -> Prop) m s l :
  sending m s l -> quiet f -> (forall a m', sending m' (f s) l -> wp no_fault (k a) Q m') -> wp no_fault (bind (upd_stream p f) k) Q m.
Proof. intros Hm Hq Hk. eapply wp_moves; [exact Hm| |exact Hk]. destruct Hm as (Hw & Hp & _), (Hq s). by apply runs_upd. Qed.

Lemma wp_update_end f (Q : unit -> mtcp_manager -> Prop) m s l :
  sending m s l -> quiet f -> (forall m', sending m' (f s) l -> Q tt m') -> wp no_fault (upd_stream p f) Q m.
Proof.
  intros Hm Hq HQ. destruct Hm as (Hw & Hp & Hl), (Hq s). unfold wp, upd_stream. rewrite Hp. apply HQ.
  apply (sending_shift m s); [done|]. by apply upd_stream_quiet.
Qed.

Lemma sending_core m m' s l : sending m s l -> core m' = core m -> packets m' = packets m -> sending m' s l.
Proof.
  intros (Hw & Hp & Hl) Hc Ht. assert (streams m' = streams m) as Hs by (unfold core in Hc; congruence).
  split_and!; [by eapply wf_core|by rewrite Hs|congruence].
Qed.

(** The frame of an ARP request is no segment. *)
Lemma packets_app m f : packets (m <| tx := tx m ++ [f] |>) = packets m ++ match f with TcpFrame _ _ k => [k] | _ => [] end.
Proof. unfold packets. simpl. rewrite omap_app. by destruct f. Qed.

Lemma EthernetOutput_sending nif m s l (Q : option Z -> mtcp_manager -> Prop) :
  sending m s l -> (forall o m', sending m' s l -> Q o m') -> wp no_fault (EthernetOutput nif) Q m.
Proof.
  intros Hm HQ. unfold EthernetOutput. destruct (nif <? 0); [by apply wp_ret, HQ|]. destruct (_ <? 0); [by apply wp_ret, HQ|].
  apply wp_bind. unfold wp at 1, get_wptr. destruct (wptrs m); apply wp_ret, HQ; [done|]. by eapply sending_core.
Qed.

Lemma RequestARP_sending ip nif ts m s l (Q : unit -> mtcp_manager -> Prop) :
  sending m s l -> (forall m', sending m' s l -> Q tt m') -> wp no_fault (RequestARP ip nif ts) Q m.
Proof.
  intros Hm HQ. unfold RequestARP. apply wp_bind, wp_gets. destruct (List.existsb _ _); [by apply wp_ret, HQ|].
  apply wp_bind, wp_modify.
  match goal with |- wp _ _ _ ?m1 => assert (sending m1 s l) as Hm1 by (by apply (sending_core m)); revert Hm1; generalize m1 end.
  clear m Hm. intros m Hm.
  apply wp_bind. unfold ARPOutput. apply wp_bind. eapply EthernetOutput_sending; [exact Hm|]. intros [eidx|] m1 Hm1; [|by apply wp_ret, wp_ret, HQ].
  apply wp_bind. unfold emit. apply wp_modify, wp_ret, wp_ret, HQ. eapply sending_core; [exact Hm1|done|]. rewrite packets_app. apply app_nil_r.
Qed.

(** The frame's header, or none and the address is asked for. *)
Lemma IPOutput_sending m s l (Q : option (Z * list Z * Z) -> mtcp_manager -> Prop) :
  sending m s l -> (is_external s = true -> is_Some gateway) ->
  (forall o m' s', sending m' s' l -> view s' = view s -> snd_nxt s' = snd_nxt s -> Q o m') -> wp no_fault (IPOutput p) Q m.
Proof.
  intros Hm Hg HQ. pose proof Hm as (Hw & Hp & _). unfold IPOutput. apply wp_bind. eapply wp_get_stream; [exact Hp|].
  pose proof (so_nif _ (wf_streams _ Hw _ _ Hp)). destruct (Z.leb_spec 0 (nif_out (sndvar s))); [|lia]. apply wp_bind, wp_ret.
  unfold ip_output_via. apply wp_bind. eapply wp_get_stream; [exact Hp|]. apply wp_bind.
  assert (exists o, GetDestinationHWaddr (daddr s) (is_external s) m = Ok (o, m)) as [o Eo].
  { unfold GetDestinationHWaddr, bind, gets. destruct (is_external s), (arp_gateway m); by eexists. }
  unfold wp at 1. rewrite Eo. destruct o as [haddr|].
  - apply wp_bind. eapply EthernetOutput_sending; [exact Hm|]. intros [eidx|] m1 Hm1; [|by apply wp_ret, (HQ _ _ s)].
    eapply wp_moves; [exact Hm1|apply runs_upd_snd; [apply Hm1|apply Hm1|done|done]|]. intros a m2 Hm2. by eapply wp_ret, HQ.
  - apply wp_bind, wp_lift.
    + intros ip _. apply wp_bind, wp_gets. apply wp_bind. eapply RequestARP_sending; [exact Hm|]. intros m1 Hm1. by apply wp_ret, (HQ _ _ s).
    + unfold gateway_addr. destruct (is_external s) eqn:Ee; [|done]. destruct (Hg eq_refl) as [g Hgw]. by rewrite Hgw.
Qed.

(** ** One segment *)

(** The segment [k] of stream [s] with sequence number [sq] and data [d]. *)
Definition segment_of s (sq : Z) (d : list Z) (k : tcp_packet) : Prop :=
  pk_seq k = sq /\ pk_payload k = d /\ (pk_saddr k, pk_daddr k, pk_sport k, pk_dport k) = (saddr s, daddr s, sport s, dport s) /\
  pk_syn k = false /\ pk_fin k = false /\ pk_rst k = false.

Lemma with_checksum_segment n k s sq d : segment_of s sq d k -> segment_of s sq d (with_checksum n k).
Proof. unfold with_checksum, segment_of. by destruct hw_checksum. Qed.

Lemma view_flags s s' : view s' = view s -> mss (sndvar s') = mss (sndvar s) /\ is_external s' = is_external s.
Proof. unfold view. intros Hv. split; congruence. Qed.

Lemma SendTCPPacket_data m s l ts d :
  sending m s l -> (is_external s = true -> is_Some gateway) -> 0 < zlen d -> zlen d + 12 <= mss (sndvar s) -> zlen d < 65536 ->
  wp no_fault (SendTCPPacket p ts TCP_FLAG_ACK d) (fun r m' => exists s', view s' = view s /\
    ((r < 0 /\ sending m' s' l /\ snd_nxt s' = snd_nxt s) \/
     (r = zlen d /\ exists k, sending m' s' (l ++ [k]) /\ segment_of s (snd_nxt s) d k /\ snd_nxt s' = u32 (snd_nxt s + zlen d)))) m.
Proof.
  intros Hm Hg Hd Hmss H16. pose proof Hm as (Hw & Hp & _). unfold SendTCPPacket. apply wp_bind. eapply wp_get_stream; [exact Hp|].
  apply wp_bind, wp_lift; [|done]. intros optlen [= <-]. cbv zeta. change (TCP_OPT_TIMESTAMP_LEN + 2) with 12. destruct (Z.ltb_spec (mss (sndvar s)) (zlen d + 12)); [lia|].
  apply wp_bind. eapply IPOutput_sending; [exact Hm|done|]. intros o m1 s1 Hm1 Hv1 Hn1.
  destruct o as [[[eidx haddr] id]|]; [|apply wp_ret; exists s1; split; [done|]; left; done].
  change (has TCP_FLAG_ACK TCP_FLAG_WACK) with false. change (has TCP_FLAG_ACK TCP_FLAG_FIN) with false.
  change (has TCP_FLAG_ACK TCP_FLAG_SYN) with false. change (has TCP_FLAG_ACK TCP_FLAG_ACK) with true. cbn [negb andb orb when].
  apply wp_bind, wp_ret. apply wp_assoc. unfold upd_snd at 1. eapply wp_update; [exact Hm1|solve_quiet|]. intros _ m2 Hm2.
  apply wp_assoc. eapply wp_update; [exact Hm2|solve_quiet|]. intros _ m3 Hm3.
  eapply wp_moves; [exact Hm3|apply UpdateTimeoutList_ok; apply Hm3|]. intros _ m4 Hm4.
  set (s4 := _ <| last_active_ts := ts |>) in Hm4. assert (view s4 = view s /\ snd_nxt s4 = snd_nxt s) as [Hv4 Hn4] by (rewrite <- Hv1, <- Hn1; done).
  clearbody s4. clear m2 m3 Hm2 Hm3 Hm1 Hv1 Hn1.
  apply wp_bind. eapply wp_mono with (Q := fun _ m' => exists s', sending m' s' l /\ view s' = view s /\ snd_nxt s' = snd_nxt s).
  { apply wp_when; [|intros _; by exists s4]. intros _. eapply wp_update_end; [exact Hm4|solve_quiet|]. intros m' Hm'. by eexists. }
  intros _ m5 (s5 & Hm5 & Hv5 & Hn5). clear m4 s4 Hm4 Hv4 Hn4. apply wp_bind, wp_lift; [|done]. intros os _.
  set (k := with_checksum _ _). assert (segment_of s (snd_nxt s) d k) as Hk by by apply with_checksum_segment.
  clearbody k. apply wp_bind. unfold emit. apply wp_modify.
  match goal with |- wp _ _ _ ?m => assert (sending m s5 (l ++ [k])) as Hm6 end.
  { destruct Hm5 as (Hw5 & Hp5 & Hl5). split_and!; [by apply (wf_core m5)|done|]. rewrite packets_app. by rewrite Hl5. }
  revert Hm6. match goal with |- sending ?m _ _ -> _ => generalize m end. clear m5 Hm5. intros m6 Hm6.
  eapply wp_update; [exact Hm6|solve_quiet|]. clear m6 Hm6. intros _ m7 Hm7.
  assert (u16 (zlen d + 0) = zlen d) as -> by (unfold u16; rewrite Z.mod_small; lia). destruct (Z.ltb_spec 0 (zlen d)); [|lia]. cbn [when].
  apply wp_assoc. unfold upd_snd at 1. eapply wp_update; [exact Hm7|solve_quiet|]. clear m7 Hm7. intros _ m8 Hm8.
  destruct (AddtoRTOList_some m8 p _ (proj1 Hm8) (proj1 (proj2 Hm8))) as [j Hj].
  eapply wp_moves; [exact Hm8|exact Hj|]. intros _ m9 Hm9. apply wp_ret. eexists. split; [|right; split; [done|]; exists k; split; [exact Hm9|split; [done|]]].
  - etrans; [|exact Hv5]. reflexivity.
  - simpl. rewrite Hn5, Z.add_0_r. unfold u32. by rewrite Z.mod_mod by lia.
Qed.

(** ** All segments *)

Section flush.
Context (s0 : tcp_stream) (b : tcp_send_buffer) (c : list Z) (k0 : Z).
Hypothesis (Hbuf : sndbuf (sndvar s0) = Some b) (Hrep : sb_rep b c) (Hhead : 0 <= sb_head_seq b < 4294967296).
Hypothesis (Huna : snd_una (sndvar s0) = sb_head_seq b) (Hmss : 12 < mss (sndvar s0) < 65536).
Hypothesis (Hcwnd : 0 <= cwnd (sndvar s0) < 4294967296) (Hpeer : 0 <= peer_wnd (sndvar s0) < 2147483648).
Hypothesis (Hgate : is_external s0 = true -> is_Some gateway).

Definition window : Z := Z.min (cwnd (sndvar s0)) (peer_wnd (sndvar s0)).

(** [l] carries the bytes [k] to [k'] of the buffer, in order and without a gap. *)
Fixpoint carries (k : Z) l (k' : Z) : Prop :=
  match l with
  | [] => k = k'
  | x :: l =>
      let n := zlen (pk_payload x) in
      segment_of s0 (seq_at (sb_head_seq b) k) (take (Z.to_nat n) (drop (Z.to_nat k) c)) x /\
      0 < n <= mss (sndvar s0) - 12 /\ k + n <= zlen c /\ k + n <= window /\ carries (k + n) l k'
  end.

Lemma carries_snoc l : forall k k1 x k', carries k l k1 -> carries k1 [x] k' -> carries k (l ++ [x]) k'.
Proof.
  induction l as [|y l IH]; intros k k1 x k'; [by intros ->|]. cbn [app]. intros (H1 & H2 & H3 & H4 & H5) Hx.
  do 4 (split; [done|]). by apply (IH _ k1).
Qed.

(** The state of the loop: [k] bytes are out. *)
Definition flushed m (l : list tcp_packet) (k : Z) : Prop :=
  exists s, sending m s l /\ view s = view s0 /\ snd_nxt s = seq_at (sb_head_seq b) k.

(** The window is closed: an acknowledgement may be asked for. *)
Lemma probe_flushed ts (x : bool) m l k (Q : Z -> mtcp_manager -> Prop) :
  flushed m l k -> (forall m', flushed m' l k -> Q (-3) m') ->
  wp no_fault (when x (EnqueueACK p ts ACK_OPT_WACK) ;;; ret (-3)) Q m.
Proof using.
  intros Hf HQ. pose proof Hf as (s & Hm & Hv & Hn). destruct x; cbn [when]; [|by apply wp_bind, wp_ret, wp_ret, HQ].
  unfold EnqueueACK. apply wp_assoc. apply wp_bind. eapply wp_get_stream; [apply Hm|]. cbv zeta. apply wp_assoc. unfold upd_snd.
  eapply wp_update; [exact Hm|solve_quiet|]. intros _ m1 Hm1.
  eapply wp_moves; [exact Hm1|apply AddtoACKList_ok; apply Hm1|]. intros _ m2 Hm2. apply wp_ret, HQ. by eexists.
Qed.

(** The three assertions of the loop, and what is left to send. *)
Lemma flush_tests k : 0 <= k <= zlen c ->
  TCP_SEQ_LT (seq_at (sb_head_seq b) k) (sb_head_seq b) = false /\ u32 (seq_at (sb_head_seq b) k - sb_head_seq b) = k /\
  (sb_len b <? k) = false /\ u32 (sb_len b - k) = zlen c - k.
Proof using Hrep Hhead.
  intros Hk. pose proof (sb_rep_len _ _ Hrep) as Hl. destruct Hrep as ((? & ?) & _ & _ & _ & Hlen & _).
  assert (seq_at (sb_head_seq b) 0 = sb_head_seq b) as H0' by (unfold seq_at; rewrite Z.add_0_r; by apply u32_small).
  split_and!.
  - rewrite <- H0' at 2. rewrite seq_lt_window by lia. apply Z.ltb_ge. lia.
  - apply (seq_off_at (sb_head_seq b) k). lia.
  - rewrite Hlen. apply Z.ltb_ge. lia.
  - rewrite Hlen. apply u32_small. lia.
Qed.

(** The length of the next segment. *)
Lemma next_length k : 0 <= k < zlen c -> 0 < s32 (window - k) -> 
  let n := u16 (Z.min (Z.min (zlen c - k) (u32 (s32 (window - k)))) (u32 (mss (sndvar s0) - 12))) in
  0 < n <= mss (sndvar s0) - 12 /\ k + n <= zlen c /\ k + n <= window.
Proof using Hrep Hmss Hcwnd Hpeer.
  intros Hk Hw. pose proof (sb_rep_len _ _ Hrep) as Hl. destruct Hrep as ((? & ?) & _).
  assert (s32 (window - k) = window - k) as E by (apply s32_small; unfold window in *; lia).
  rewrite E in *. rewrite (u32_small (window - k)), (u32_small (mss _ - 12)) by (unfold window in *; lia).
  unfold u16. rewrite Z.mod_small by lia. cbv zeta. lia.
Qed.

Lemma flush_loop_sends fuel ts : forall n l0 l k m,
  (length (wptrs m) < fuel)%nat -> flushed m (l0 ++ l) k -> 0 <= k <= zlen c -> carries k0 l k ->
  wp no_fault (flush_loop fuel p ts n) (fun r m' => exists l' k', flushed m' (l0 ++ l') k' /\ carries k0 l' k' /\ k <= k' /\
    (0 <= n -> 0 <= r -> k' = zlen c)) m.
Proof.
  induction fuel as [|fuel IH]; intros n l0 l k m Hf Hm Hk Hc; [lia|]. cbn [flush_loop].
  pose proof Hm as (s & Hs & Hv & Hn). assert (sndbuf (sndvar s) = Some b /\ snd_una (sndvar s) = sb_head_seq b /\ cwnd (sndvar s) = cwnd (sndvar s0) /\
    peer_wnd (sndvar s) = peer_wnd (sndvar s0) /\ mss (sndvar s) = mss (sndvar s0)) as (Eb & Eu & Ec & Ep & Em) by (unfold view in Hv; split_and!; congruence).
  apply wp_bind. eapply wp_get_stream; [apply Hs|]. rewrite Eb, Eu, Ec, Ep, Em, Hn. cbv zeta.
  destruct (flush_tests k Hk) as (E1 & E2 & E3 & E4). rewrite E1, E2, E3, E4.
  destruct (Z.eqb_spec (zlen c - k) 0) as [Hz|Hz].
  { apply wp_ret. exists l, k. split_and!; [done|done|lia|]. intros _ _. lia. }
  fold window. destruct (_ || _) eqn:Ew.
  { eapply probe_flushed; [exact Hm|]. intros m' Hm'. exists l, k. split_and!; [done|done|lia|lia]. }
  apply orb_false_elim in Ew as [Hw%Z.leb_gt _]. apply wp_bind, wp_lift; [|done]. intros optlen [= <-].
  change (TCP_OPT_TIMESTAMP_LEN + 2) with 12. destruct (next_length k ltac:(lia) ltac:(lia)) as (Hn1 & Hn2 & Hn3).
  set (len := u16 _) in *. apply wp_bind, wp_lift; [|by rewrite (sb_rep_read b c k len Hrep) by lia].
  intros d Ed. rewrite (sb_rep_read b c k len Hrep) in Ed by lia. injection Ed as <-. set (d := take _ _).
  assert (zlen d = len) as Hd by (unfold d; rewrite zlen_take; [done|]; rewrite zlen_drop by lia; lia).
  apply wp_bind. eapply wp_mono.
  { eapply wp_conj; [apply (SendTCPPacket_data m s (l0 ++ l) ts d Hs); [|lia..]|apply SendTCPPacket_takes].
    assert (is_external s = is_external s0) as -> by (unfold view in Hv; congruence). done. }
  intros r m' [(s' & Hv' & [(Hr & Hs' & Hn')|(Hr & x & Hs' & Hx & Hn')]) Hlt]; cbv beta in Hlt.
  { destruct (Z.ltb_spec r 0); [|lia]. apply wp_ret. exists l, k. split_and!; [|done|lia|lia]. exists s'. split_and!; [done|congruence..]. }
  destruct (Z.ltb_spec r 0); [lia|]. specialize (Hlt ltac:(lia)).
  eapply wp_mono; [apply (IH (n + 1) l0 (l ++ [x]) (k + len) m'); [lia| |lia|]|].
  - exists s'. rewrite app_assoc. split_and!; [done|congruence|]. rewrite Hn', Hn, Hd. apply seq_at_add.
  - apply (carries_snoc _ _ k); [done|]. destruct Hx as (Hx1 & Hx2 & Hx3).
    assert (saddr s = saddr s0 /\ daddr s = daddr s0 /\ sport s = sport s0 /\ dport s = dport s0) as (Ea & Eb' & Ec' & Ed') by (unfold view in Hv; split_and!; congruence).
    rewrite Ea, Eb', Ec', Ed' in Hx3. cbn [carries]. rewrite Hx2, Hd. split; [|by split_and!; lia]. split; [by rewrite Hx1|]. by split.
  - intros r' m'' (l' & k' & G1 & G2 & G3 & G4). exists l', k'. split_and!; [done|done|lia|]. intros ? ?. apply G4; lia.
Qed.

Lemma FlushTCPSendingBuffer_sends ts m : wf m -> streams m !! p = Some s0 -> 0 <= k0 <= zlen c -> snd_nxt s0 = seq_at (sb_head_seq b) k0 ->
  wp no_fault (FlushTCPSendingBuffer p ts) (fun r m' => exists l k', flushed m' (packets m ++ l) k' /\ carries k0 l k' /\ k0 <= k' /\
    (0 <= r -> k' = zlen c)) m.
Proof.
  intros Hw Hp Hk Hn. unfold FlushTCPSendingBuffer. apply wp_bind. eapply wp_get_stream; [exact Hp|]. rewrite Hbuf.
  assert (flushed m (packets m ++ []) k0) as Hm by (exists s0; rewrite app_nil_r; done).
  assert (sb_len b = zlen c) as Hlen by apply Hrep. destruct (Z.eqb_spec (sb_len b) 0).
  - apply wp_ret. exists [], k0. split_and!; [done|done|lia|lia].
  - apply wp_bind, wp_gets. eapply wp_mono; [apply (flush_loop_sends _ ts 0 (packets m) [] k0); [lia|done|lia|done]|].
    intros r m' (l & k' & G1 & G2 & G3 & G4). exists l, k'. split_and!; [done|done|lia|]. intros ?. by apply G4.
Qed.
End flush.
End send.

(** C6: Sending from the buffer is correct and stays within the window. For a
    stream whose send buffer holds the bytes [c] from its unacknowledged
    sequence number on, of which the first [k] have been sent,
    [FlushTCPSendingBuffer] returns without a fault; the segments it has
    written belong to the stream's flow and carry, in order and without a
    gap, the bytes from [k] to some [k'], each segment the bytes at its own
    sequence number; none carries more than the segment size less the options
    and none reaches beyond the congestion window or the peer's window. A
    result that is not negative means that everything was sent. The stream's
    next sequence number is that of byte [k'], the buffer is unchanged and the
    invariant of the manager holds again. *)
Theorem flush_within_window `{Env} `{!NetOk} p s b c k ts m :
  wf m -> streams m !! p = Some s -> sndbuf (sndvar s) = Some b -> sb_rep b c ->
  0 <= sb_head_seq b < 4294967296 -> snd_una (sndvar s) = sb_head_seq b ->
  0 <= k <= zlen c -> snd_nxt s = seq_at (sb_head_seq b) k ->
  12 < mss (sndvar s) < 65536 -> 0 <= cwnd (sndvar s) < 4294967296 -> 0 <= peer_wnd (sndvar s) < 2147483648 ->
  (is_external s = true -> is_Some gateway) ->
  exists r m' s' l k', FlushTCPSendingBuffer p ts m = Ok (r, m') /\
    wf m' /\ packets m' = packets m ++ l /\ carries s b c k l k' /\ k <= k' /\ (0 <= r -> k' = zlen c) /\
    streams m' !! p = Some s' /\ view s' = view s /\ snd_nxt s' = seq_at (sb_head_seq b) k'.
Proof.
  intros Hw Hp Hb Hr Hh Hu Hk Hn Hm Hc Hpw Hg.
  destruct (wp_returns _ _ _ (FlushTCPSendingBuffer_sends p s b c k Hb Hr Hh Hu Hm Hc Hpw Hg ts m Hw Hp Hk Hn)) as (r & m' & E & l & k' & (s' & Hs' & Hv & Hn') & G1 & G2 & G3).
  exists r, m', s', l, k'. destruct Hs' as (? & ? & ?). by split_and!.
Qed.

Import Demo.

(** The stream of [StreamInv]'s example with five bytes in its buffer, two of
    them sent, and a window of four. *)
Definition b_send : tcp_send_buffer := mkSB [7; 1; 2; 3; 4; 5; 0; 0] 1 1 6 5 5 8 100 100.
Definition with_data (s : tcp_stream) : tcp_stream :=
  s <| sndvar := sndvar s <| sndbuf := Some b_send |> <| snd_una := 100 |> <| mss := 14 |> <| cwnd := 2920 |> <| peer_wnd := 4 |> |>
    <| snd_nxt := 102 |>.

Definition s1 : tcp_stream := ltac:(let x := eval vm_compute in (streams m1 !! p1) in match x with Some ?s => exact s end).
Definition m_send : mtcp_manager := m1 <| streams := <[p1 := with_data s1]> (streams m1) |>.

Lemma s1_eq : streams m1 !! p1 = Some s1.
Proof. vm_compute. reflexivity. Qed.

Lemma b_send_rep : sb_rep b_send [1; 2; 3; 4; 5].
Proof.
  split_and!; try done. intros i Hi. change (zlen [1; 2; 3; 4; 5]) with 5 in Hi.
  assert (i = 0 \/ i = 1 \/ i = 2 \/ i = 3 \/ i = 4) as [->|[->|[->|[->| ->]]]] by lia; reflexivity.
Qed.

Lemma flush_within_window_witness : exists r m' s' l k', FlushTCPSendingBuffer p1 9 m_send = Ok (r, m') /\
  wf m' /\ packets m' = packets m_send ++ l /\ carries (with_data s1) b_send [1; 2; 3; 4; 5] 2 l k' /\ 2 <= k' /\ (0 <= r -> k' = 5) /\
  streams m' !! p1 = Some s' /\ view s' = view (with_data s1) /\ snd_nxt s' = seq_at 100 k'.
Proof.
  apply (flush_within_window p1 (with_data s1) b_send [1; 2; 3; 4; 5] 2 9 m_send).
  - destruct m1_created as (Hw & _). apply (upd_stream_quiet m1 p1 with_data s1 Hw s1_eq); reflexivity.
  - apply lookup_insert_eq.
  - reflexivity.
  - exact b_send_rep.
  - simpl. lia.
  - reflexivity.
  - change (zlen [1; 2; 3; 4; 5]) with 5. lia.
  - reflexivity.
  - simpl. lia.
  - simpl. lia.
  - simpl. lia.
  - intros E. vm_compute in E. discriminate.
Defined.
