(* ===== verification/SafeData.v ===== *)
(** * The data list

    [WriteTCPDataList] takes a stream off the send list and clears the
    stream's flag only after its data went out, so the invariant does not
    hold in between. It does for the manager with the stream put back at the
    end of the list, [hold], and what runs in between does not look at the
    send list: it does the same on both. *)

From S2P Require Import Prelude SeqNum SpscQueue MemPool RingBuffer SendBuffer AddrPool Rss Checksum.
From S2P Require Import Machine Wp Lists TcpOptions FlowTable Network Faults StreamOps Invariant Boot StreamInv Live.
From S2P Require Import TcpOut SafeOut.

(** ** Steps that do the same on two managers *)

(** [c] on [f m] does what it does on [m], and the results correspond. *)
Definition commutes {A} (f : mtcp_manager -> mtcp_manager) (c : M A) : Prop :=
  forall m, c (f m) = let! (a, m') := c m in Ok (a, f m').

Section rules.
Context {f : mtcp_manager -> mtcp_manager}.

Lemma commutes_ret {A} (a : A) : commutes f (ret a).
Proof. done. Qed.
Lemma commutes_throw {A} e : commutes f (throw (A := A) e).
Proof. done. Qed.
Lemma commutes_lift {A} (r : res A) : commutes f (lift r).
Proof. intros m. unfold lift. by destruct r. Qed.
Lemma commutes_bind {A B} (c : M A) (k : A -> M B) :
  commutes f c -> (forall a, commutes f (k a)) -> commutes f (bind c k).
Proof. intros Hc Hk m. unfold bind. rewrite Hc. destruct (c m) as [[a m']|e]; simpl; [apply Hk|done]. Qed.
Lemma commutes_when b c : commutes f c -> commutes f (when b c).
Proof. by destruct b. Qed.
Lemma commutes_assert b : commutes f (assert b).
Proof. by destruct b. Qed.
Lemma commutes_gets {A} (g : mtcp_manager -> A) : (forall m, g (f m) = g m) -> commutes f (gets g).
Proof. intros Hg m. unfold gets. by rewrite Hg. Qed.
Lemma commutes_modify g : (forall m, g (f m) = f (g m)) -> commutes f (modify g).
Proof. intros Hg m. unfold modify. by rewrite Hg. Qed.
End rules.

(** ** A stream held back *)

Definition add_send (p : ptr) (d : mtcp_sender) : mtcp_sender := d <| send_list := send_list d ++ [p] |>.

Definition hold (i : sender_id) (p : ptr) (m : mtcp_manager) : mtcp_manager :=
  match i with
  | GSender => m <| g_sender := add_send p (g_sender m) |>
  | NSender k => m <| n_sender := alter (add_send p) k (n_sender m) |>
  end.

Ltac commute_step :=
  lazymatch goal with
  | |- forall _, _ => intros ?
  | |- commutes _ (ret _) => apply commutes_ret
  | |- commutes _ (throw _) => apply commutes_throw
  | |- commutes _ (lift _) => apply commutes_lift
  | |- commutes _ (bind _ _) => apply commutes_bind
  | |- commutes _ (when _ _) => apply commutes_when
  | |- commutes _ (assert _) => apply commutes_assert
  | |- commutes (hold ?i _) (gets _) => apply commutes_gets; intros ?; destruct i; reflexivity
  | |- commutes (hold ?i _) (modify _) => apply commutes_modify; intros ?; destruct i; reflexivity
  | |- commutes (hold ?i _) (get_stream _) => let m := fresh in intros m; unfold get_stream; destruct i; simpl; by destruct (streams m !! _)
  | |- commutes (hold ?i _) (upd_stream _ _) => let m := fresh in intros m; unfold upd_stream; destruct i; simpl; by destruct (streams m !! _)
  | |- commutes _ (upd_snd _ _) => unfold upd_snd
  | |- commutes _ (upd_rcv _ _) => unfold upd_rcv
  | |- commutes _ (let _ := _ in _) => cbv zeta
  | |- commutes _ (match ?x with _ => _ end) => destruct x
  | |- commutes _ _ => match goal with Hc : _ |- _ => apply Hc end
  end.
Ltac commute := repeat commute_step.

Section hold.
Context `{Env} (i : sender_id) (p : ptr).

Lemma upd_ack_commutes j (g : list ptr -> list ptr) h :
  commutes (hold i p) (upd_sender j (fun d => d <| ack_list := g (ack_list d) |> <| ack_list_cnt := h (ack_list_cnt d) |>)).
Proof.
  intros m. destruct i as [|k], j as [|l]; try done; simpl.
  - by destruct (n_sender m !! l).
  - set (F := fun d => d <| ack_list := g (ack_list d) |> <| ack_list_cnt := h (ack_list_cnt d) |>).
    destruct (decide (k = l)) as [->|Hne].
    + rewrite list_lookup_alter_eq. destruct (n_sender m !! l) as [d|] eqn:El; simpl; [|done].
      assert (<[l := F (add_send p d)]> (alter (add_send p) l (n_sender m)) =
        alter (add_send p) l (<[l := F d]> (n_sender m))) as Eq
        by (by rewrite !list_insert_alter, !list_alter_alter_eq).
      do 2 f_equal. etrans; [|etrans; [exact (f_equal (fun x => m <| n_sender := x |>) Eq)|]]; reflexivity.
    + rewrite list_lookup_alter_ne by done. destruct (n_sender m !! l) as [d|]; [|done]. simpl.
      assert (<[l := F d]> (alter (add_send p) k (n_sender m)) =
        alter (add_send p) k (<[l := F d]> (n_sender m))) as Eq
        by (by rewrite !list_insert_alter, list_alter_alter_ne).
      do 2 f_equal. etrans; [|etrans; [exact (f_equal (fun x => m <| n_sender := x |>) Eq)|]]; reflexivity.
Qed.

Lemma the_sender_commutes q : commutes (hold i p) (the_sender q).
Proof. unfold the_sender, GetSender. commute. Qed.

Lemma EnqueueACK_commutes q ts o : commutes (hold i p) (EnqueueACK q ts o).
Proof.
  pose proof the_sender_commutes. unfold EnqueueACK, AddtoACKList. commute.
  exact (upd_ack_commutes _ (fun l => l ++ [q]) (fun n => n + 1)).
Qed.

Lemma UpdateTimeoutList_commutes q : commutes (hold i p) (UpdateTimeoutList q).
Proof. unfold UpdateTimeoutList. commute. Qed.

Lemma AddtoRTOList_commutes q : commutes (hold i p) (AddtoRTOList q).
Proof. unfold AddtoRTOList, upd_slot. commute. Qed.

Lemma get_wptr_commutes : commutes (hold i p) get_wptr.
Proof. intros m. unfold get_wptr. destruct i; simpl; by destruct (wptrs m). Qed.

Lemma IPOutput_commutes q : commutes (hold i p) (IPOutput q).
Proof.
  pose proof get_wptr_commutes. unfold IPOutput, ip_output_via, RequestARP, ARPOutput, EthernetOutput, GetDestinationHWaddr, emit.
  commute.
Qed.

Lemma SendTCPPacket_commutes q ts fl payload : commutes (hold i p) (SendTCPPacket q ts fl payload).
Proof.
  pose proof IPOutput_commutes. pose proof AddtoRTOList_commutes. pose proof UpdateTimeoutList_commutes.
  unfold SendTCPPacket, emit. commute.
Qed.

Lemma flush_loop_commutes fuel q ts n : commutes (hold i p) (flush_loop fuel q ts n).
Proof.
  pose proof SendTCPPacket_commutes. pose proof EnqueueACK_commutes.
  revert n. induction fuel as [|fuel IH]; intros n; cbn [flush_loop]; commute.
Qed.

Lemma send_data_commutes q ts : commutes (hold i p) (send_data q ts).
Proof. pose proof flush_loop_commutes. unfold send_data, FlushTCPSendingBuffer. commute. Qed.

(** The held manager, by its lists. *)
Lemma hold_sender m d : sender_at m i = Some d -> hold i p m = set_sender m i (add_send p d).
Proof.
  destruct i as [|k]; simpl; [by intros [= <-]|]. intros Hd. f_equal.
  by rewrite list_insert_alter; apply (f_equal (fun l => fun _ : list mtcp_sender => l)), list_eq; intros j;
    destruct (decide (k = j)) as [->|]; rewrite ?list_lookup_alter_eq, ?list_lookup_alter_ne, ?Hd by done.
Qed.

Lemma hold_streams m : streams (hold i p m) = streams m.
Proof. by destruct i. Qed.

Lemma hold_at m d : sender_at m i = Some d -> sender_at (hold i p m) i = Some (add_send p d).
Proof. destruct i as [|k]; simpl; [by intros [= <-]|]. intros Hd. by rewrite list_lookup_alter_eq, Hd. Qed.

Lemma hold_sender_back m d : sender_at (hold i p m) i = Some d -> exists d', sender_at m i = Some d' /\ d = add_send p d'.
Proof.
  destruct i as [|k]; simpl; [intros [= <-]; eauto|]. rewrite list_lookup_alter_eq.
  intros (d' & ? & ->)%fmap_Some. eauto.
Qed.
End hold.

(** ** The loop *)

Section data.
Context `{Env} `{!NetOk} (E : fault -> Prop) (HE : forall e, calm e -> E e).
Implicit Types (m : mtcp_manager) (s : tcp_stream) (p q : ptr) (rest : gmap ptr tcp_stream).

Lemma send_data_keeps p rest ts : keeps E (live T p rest) (send_data p ts).
Proof using HE. pose proof (FlushTCPSendingBuffer_keeps E HE p rest). unfold send_data. keep. Qed.

Lemma send_member m p i s : wf m -> streams m !! p = Some s -> on_list (LSend i) s = true ->
  on_send_list (sndvar s) = true /\ sender_of (nif_out (sndvar s)) = Some i /\
  exists d, sender_at m i = Some d /\ list_at m (LSend i) = send_list d.
Proof using.
  intros Hw Hp [Hc Hi%bool_decide_eq_true]%andb_prop. split_and!; try done.
  destruct (sender_exists m p s Hw Hp) as (j & d & Hj & Hd). assert (i = j) as -> by congruence. exists d.
  split; [done|]. simpl. by rewrite Hd.
Qed.

Lemma set_sender_set m i d1 d2 : set_sender (set_sender m i d1) i d2 = set_sender m i d2.
Proof using.
  destruct i as [|k]; [done|]. simpl.
  exact (f_equal (fun x => m <| n_sender := x |>) (list_insert_insert_eq (n_sender m) k d2 d1)).
Qed.

Lemma set_sender_at m i d d' : sender_at m i = Some d -> sender_at (set_sender m i d') i = Some d'.
Proof using. destruct i as [|k]; [done|]. simpl. intros Hk. apply list_lookup_insert_eq. by eapply lookup_lt_Some. Qed.

(** Taking [p] off the list and holding it back leaves the invariant. *)
Lemma take_send m p i s d :
  wf m -> streams m !! p = Some s -> sender_of (nif_out (sndvar s)) = Some i -> sender_at m i = Some d ->
  on_send_list (sndvar s) = true ->
  exists m1, upd_sender i (fun d' => d' <| send_list := filter (fun y => y <> p) (send_list d) |>) m = Ok (tt, m1) /\
    streams m1 = streams m /\ live T p (delete p (streams m)) (hold i p m1).
Proof using.
  intros Hw Hp Hi Hd Ho. eexists. split; [by apply upd_sender_ok|].
  destruct (wf_sender_member m p s i d Hw Hp Hi Hd) as (_ & Hin & _). specialize (Hin Ho).
  assert (NoDup (send_list d)) as Hnd
    by (destruct (wf_lists _ Hw (LSend i)) as [Hnd _]; simpl in Hnd; by rewrite Hd in Hnd).
  pose proof (requeue_send m p s Hw Hp i d Hi Hd _ (symmetry (filter_ne_requeue p _ Hnd Hin))) as (Hw' & _).
  split; [by destruct i|]. split_and!.
  - rewrite insert_id in Hw' by done. erewrite hold_sender by (by eapply set_sender_at).
    rewrite set_sender_set. by destruct i.
  - by rewrite hold_streams; destruct i.
  - exists s. rewrite hold_streams. by destruct i.
Qed.

Lemma set_hold m i p ss d d' : sender_at m i = Some d ->
  set_sender (hold i p m <| streams := ss |>) i d' = set_sender (m <| streams := ss |>) i d'.
Proof using.
  destruct i as [|k]; [reflexivity|]. intros _.
  assert (<[k := d']> (alter (add_send p) k (n_sender m)) = <[k := d']> (n_sender m)) as Eq
    by (by rewrite list_insert_alter, list_alter_alter_eq, list_insert_alter).
  etrans; [|etrans; [exact (f_equal (fun x => m <| streams := ss |> <| n_sender := x |>) Eq)|]]; reflexivity.
Qed.

(** Clearing the flag of the stream held back ends the detour. *)
Lemma release m p rest i d :
  sender_at m i = Some d -> live T p rest (hold i p m) ->
  exists s, streams m !! p = Some s /\
    live T p rest (set_sender (m <| streams := <[p := s <| sndvar; on_send_list := false |>]> (streams m) |>) i
      (d <| send_list_cnt := send_list_cnt d - 1 |>)).
Proof using All.
  intros Hd (Hw & Hr & s & Hp & _). pose proof (hold_at i p m d Hd) as Hd'.
  assert (p ∈ list_at (hold i p m) (LSend i)) as Hin by (simpl; rewrite Hd'; simpl; set_solver).
  destruct (proj1 (proj2 (wf_lists _ Hw (LSend i)) p) Hin) as (s' & Hp' & Ho). simplify_eq.
  destruct (send_member _ p i s Hw Hp Ho) as (Ho' & Hi & _).
  exists s. rewrite hold_streams in Hp. split; [done|].
  assert (NoDup (send_list d ++ [p])) as Hnd.
  { destruct (wf_lists _ Hw (LSend i)) as [Hnd _]. simpl in Hnd. by rewrite Hd' in Hnd. }
  assert (send_list d ≡ₚ filter (fun y => y <> p) (send_list d ++ [p])) as Hl.
  { rewrite filter_app, filter_cons_False by tauto. rewrite app_nil_r, filter_ne_notin; [done|].
    apply NoDup_app in Hnd as (_ & Hnd & _). intros Hx. apply (Hnd p Hx). set_solver. }
  assert (streams (hold i p m) !! p = Some s) as Hp2 by (by rewrite hold_streams).
  pose proof (detach_send _ p s Hw Hp2 i _ Hi Hd' _ Ho' Hl) as Hsh. cbv zeta in Hsh.
  rewrite hold_streams, (set_hold m i p _ d _ Hd) in Hsh.
  replace (add_send p d <| send_list := send_list d |> <| send_list_cnt := send_list_cnt (add_send p d) - 1 |>)
    with (d <| send_list_cnt := send_list_cnt d - 1 |>) in Hsh by (by destruct d).
  eapply shift_live; [done|exact Hsh|done].
Qed.

Lemma data_sent_leads i p rest ts sent m d :
  sender_at m i = Some d -> live T p rest (hold i p m) ->
  wp E (data_sent i p ts sent) (fun _ => live T p rest) m.
Proof using All.
  intros Hd Hm. destruct (release m p rest i d Hd Hm) as (s & Hp & Hl). unfold data_sent.
  apply wp_bind. eapply wp_upd_stream; [exact Hp|]. apply wp_bind. unfold wp at 1.
  erewrite upd_sender_ok by (destruct i; exact Hd).
  match goal with |- wp _ ?c _ _ => assert (keeps E (live T p rest) c) as Hk by keep end. by apply Hk.
Qed.

Lemma data_loop_wf i ts thresh fuel cnt cur lst m :
  wf m -> (forall p, cur = Some p -> p ∈ list_at m (LSend i)) -> (Z.to_nat (thresh - cnt) < fuel)%nat ->
  wp E (data_loop fuel i ts thresh cnt cur lst) (fun _ m' => wf m') m.
Proof using All.
  revert cnt cur m. induction fuel as [|fuel IH]; intros cnt cur m Hw Hcur Hf; [lia|].
  destruct cur as [p|]; [|by apply wp_ret]. cbn [data_loop]. cbv zeta.
  destruct (Z.ltb_spec thresh (cnt + 1)); [by apply wp_ret|].
  destruct (walk_next m p (LSend i) Hw (Hcur p eq_refl)) as (s & nx & Hp & Hon & Enx & Hnx).
  destruct (send_member m p i s Hw Hp Hon) as (Hc & Hi & d & Hd & El). rewrite El in Enx.
  specialize (Hcur p eq_refl). rewrite El in Hcur.
  apply wp_bind. unfold wp at 1. rewrite (get_sender_ok _ _ _ Hd). apply wp_bind, wp_lift; [|congruence].
  intros nx' [= <-]%(eq_trans (eq_sym Enx)). rewrite tailq_remove_ok by done. apply wp_bind, wp_lift; [|done].
  intros l [= <-]. apply wp_bind. destruct (take_send m p i s d Hw Hp Hi Hd Hc) as (m1 & E1 & Hs1 & Hm1).
  unfold wp at 1. rewrite E1. apply wp_bind. eapply wp_get_stream; [by rewrite Hs1|]. rewrite Hc.
  apply wp_bind. apply wp_bind. pose proof (send_data_keeps p _ ts _ Hm1) as Hsd. unfold wp in Hsd.
  rewrite send_data_commutes in Hsd. unfold wp at 1. destruct (send_data p ts m1) as [[r m2]|e]; [|exact Hsd].
  cbn [res_bind] in Hsd.
  assert (exists d2, sender_at m2 i = Some d2) as (d2 & Hd2).
  { destruct Hsd as (Hw2 & _). destruct i as [|k]; [by eexists|]. apply lookup_lt_is_Some.
    pose proof (wf_senders _ Hw2) as Hlen. simpl in Hlen. rewrite length_alter in Hlen. rewrite Hlen, <- (wf_senders _ Hw).
    by eapply lookup_lt_Some. }
  destruct (Z.ltb_spec r 0).
  - apply wp_bind. unfold wp at 1. rewrite (upd_sender_ok _ _ _ _ Hd2). apply wp_ret. cbv iota. apply wp_ret.
    change (set_sender m2 i (d2 <| send_list := send_list d2 ++ [p] |>)) with (set_sender m2 i (add_send p d2)).
    rewrite <- hold_sender by done. apply Hsd.
  - apply wp_bind. eapply wp_mono; [by eapply data_sent_leads|]. intros a m3 Hm3%live_over. apply wp_ret. cbv iota.
    destruct (decide _); [apply wp_ret, Hm3|]. apply IH; [apply Hm3| |lia]. intros q Hq. by apply (Hnx m3).
Qed.

(** ** All lists of all senders *)

Lemma hd_error_in m id p : hd_error (list_at m id) = Some p -> p ∈ list_at m id.
Proof using. destruct (list_at m id); simpl; [done|]. intros [= ->]. apply list_elem_of_here. Qed.

Lemma write_sender_wf i ts : keeps E (fun m => wf m /\ is_Some (sender_at m i)) (write_sender i ts).
Proof using All.
  intros m [Hw [d Hd]].
  assert (forall m', wf m' -> is_Some (sender_at m' i)) as Hex.
  { intros m' Hw'. destruct i as [|k]; [by eexists|]. apply lookup_lt_is_Some.
    rewrite (wf_senders _ Hw'), <- (wf_senders _ Hw). by eapply lookup_lt_Some. }
  unfold write_sender. apply wp_bind. unfold wp at 1. rewrite (get_sender_ok _ _ _ Hd).
  apply wp_bind. eapply wp_mono with (Q := fun _ m' => wf m').
  { apply wp_when; [|done]. intros _. apply wp_bind. eapply wp_mono; [|intros a m' Hw'; exact Hw'].
    unfold WriteTCPControlList. apply wp_bind. unfold wp at 1. rewrite (get_sender_ok _ _ _ Hd).
    apply control_loop_wf; [done..| |lia]. intros p Hp. apply hd_error_in. simpl. by rewrite Hd. }
  clear m Hw d Hd. intros _ m Hw. destruct (Hex m Hw) as [d Hd]. apply wp_bind. unfold wp at 1.
  rewrite (get_sender_ok _ _ _ Hd). apply wp_bind. eapply wp_mono with (Q := fun _ m' => wf m').
  { apply wp_when; [|done]. intros _. apply wp_bind. eapply wp_mono; [|intros a m' Hw'; exact Hw'].
    unfold WriteTCPACKList. apply wp_bind. unfold wp at 1. rewrite (get_sender_ok _ _ _ Hd).
    apply ack_loop_wf; [done..| |lia]. intros p Hp. apply hd_error_in. simpl. by rewrite Hd. }
  clear m Hw d Hd. intros _ m Hw. destruct (Hex m Hw) as [d Hd]. apply wp_bind. unfold wp at 1.
  rewrite (get_sender_ok _ _ _ Hd). apply wp_when; [|by split; [|apply Hex]]. intros _. apply wp_bind.
  eapply wp_mono; [|intros a m' Hw'; split; [exact Hw'|by apply Hex]].
  unfold WriteTCPDataList. apply wp_bind. unfold wp at 1. rewrite (get_sender_ok _ _ _ Hd).
  apply data_loop_wf; [done| |lia]. intros p Hp. apply hd_error_in. simpl. by rewrite Hd.
Qed.

Lemma write_senders_wf l ts : Forall (fun k => Z.of_nat k < eths_num) l -> keeps E wf (write_senders l ts).
Proof using All.
  induction 1 as [|k l Hk _ IH]; [apply keeps_ret|]. apply keeps_bind; [|intros _; exact IH].
  intros m Hw. eapply wp_mono; [apply (write_sender_wf (NSender k)); split; [done|]|intros a m' Hm'; apply Hm'].
  apply lookup_lt_is_Some. rewrite (wf_senders _ Hw). lia.
Qed.

Lemma WritePacketsToChunks_wf ts : keeps E wf (WritePacketsToChunks ts).
Proof using All.
  apply keeps_bind.
  - intros m Hw. eapply wp_mono; [by apply (write_sender_wf GSender)|]. intros a m' Hm'. apply Hm'.
  - intros _. apply write_senders_wf. apply Forall_forall. intros k [_ Hk]%elem_of_seq. lia.
Qed.
End data.

(** C4: from a manager that satisfies the invariant, one round of sending
    over all senders ([WritePacketsToChunks]: control, ACK and data lists,
    each walked with streams leaving, re-entering and being destroyed on the
    way) never touches a destroyed stream, never unlinks a stream from a list
    it is not on, and every loop ends within its bound; when it returns the
    invariant holds again. *)
Theorem transmit_safe `{Env} `{!NetOk} m cur_ts :
  wf m -> wp calm (WritePacketsToChunks cur_ts) (fun _ m' => wf m') m.
Proof. intros Hw. by apply (WritePacketsToChunks_wf calm (fun _ Hc => Hc)). Qed.

(** The stream of [StreamInv]'s example put on the control list. *)
Import Demo.
Definition m2 : mtcp_manager :=
  ltac:(let x := eval vm_compute in (AddtoControlList p1 7 m1) in match x with Ok (_, ?m) => exact m end).

Lemma m2_wf : wf m2.
Proof.
  destruct m1_created as (Hw & _ & s & Hs & _).
  assert (streams m1 !! p1 = Some s) as Hp by (rewrite Hs; apply lookup_insert_eq).
  destruct (AddtoControlList_ok m1 p1 s Hw Hp 7) as (a & m' & Eq & Hw' & _).
  assert (AddtoControlList p1 7 m1 = Ok (tt, m2)) as Eq' by (vm_compute; reflexivity).
  rewrite Eq' in Eq. injection Eq as _ <-. exact Hw'.
Qed.

Lemma transmit_safe_witness :
  wp calm (WritePacketsToChunks 7) (fun _ m' => wf m') m2.
Proof. apply transmit_safe. exact m2_wf. Defined.
