(* ===== verification/Timer.v ===== *)
(** * Timers: [timer.c]

    Retransmission timeouts, the retransmission store's clock, and the expiry
    of TIME_WAIT and of idle connections. *)

From S2P Require Import Prelude SeqNum SpscQueue Machine Lists FlowTable StreamOps TcpOut.

Definition st_ge (a b : tcp_state) : bool := st_code b <=? st_code a.
Definition st_lt (a b : tcp_state) : bool := st_code a <? st_code b.

(** The retransmission timeout after another loss. *)
Definition backoff_rto (s : tcp_stream) (nrtx' : Z) : Z :=
  let old := rto (sndvar s) in
  if st_ge (state s) TCP_ST_ESTABLISHED then
    let backoff := Z.min nrtx' TCP_MAX_BACKOFF in
    let new := u32 (Z.shiftl (u32 (Z.shiftr (srtt (rcvvar s)) 3 + rttvar (rcvvar s))) backoff) in
    if new <=? 0 then old else new
  else if st_ge (state s) TCP_ST_SYN_SENT then
    if nrtx' <? TCP_MAX_BACKOFF then u32 (Z.shiftl old 1) else old
  else old.

(** Congestion window and threshold after a loss. *)
Definition loss_ssthresh (v : tcp_send_vars) : Z :=
  let t := Z.min (cwnd v) (peer_wnd v) / 2 in if t <? 2 * mss v then mss v * 2 else t.

Section timer.
Context `{Env}.

(** Notify the application of the failure, or drop the stream. *)
Definition fail_stream (p : ptr) (r : tcp_close_reason) : M unit :=
  upd_stream p (fun s => s <| state := TCP_ST_CLOSED |> <| close_reason := r |>) ;;;
  let* s := get_stream p in
  match socket s with
  | Some _ => RaiseErrorEvent p
  | None => DestroyTCPStream p
  end.

(** Schedule the retransmission from [snd_una]. *)
Definition retransmit (p : ptr) (cur_ts : Z) : M unit :=
  upd_stream p (fun s => s <| snd_nxt := snd_una (sndvar s) |>) ;;;
  let* s := get_stream p in
  match state s with
  | TCP_ST_ESTABLISHED | TCP_ST_CLOSE_WAIT => AddtoSendList p
  | TCP_ST_FIN_WAIT_1 | TCP_ST_CLOSING | TCP_ST_LAST_ACK =>
      if TCP_SEQ_LT (snd_nxt s) (fss (sndvar s)) then
        when (on_control_list (sndvar s)) (RemoveFromControlList p) ;;;
        upd_stream p (fun s => s <| control_list_waiting := true |>) ;;;
        AddtoSendList p
      else AddtoControlList p cur_ts
  | _ => AddtoControlList p cur_ts
  end.

Definition HandleRTO (p : ptr) (cur_ts : Z) : M Z :=
  let* s := get_stream p in
  assert (0 <? rto (sndvar s)) ;;;
  if negb (bool_decide (close_reason s = TCP_NOT_CLOSED)) then ret 0
  else if negb (nrtx (sndvar s) <? TCP_MAX_RTX) then
    (if st_lt (state s) TCP_ST_ESTABLISHED then
       upd_stream p (fun s => s <| state := TCP_ST_CLOSED |> <| close_reason := TCP_CONN_FAIL |>) ;;;
       DestroyTCPStream p
     else fail_stream p TCP_CONN_LOST) ;;;
    ret (-1)
  else
    let n := nrtx (sndvar s) + 1 in
    upd_snd p (fun v => v <| nrtx := n |> <| max_nrtx := Z.max (max_nrtx v) n |>
                          <| rto := backoff_rto s n |> <| ssthresh := loss_ssthresh v |>
                          <| cwnd := mss v |>) ;;;
    match state s with
    | TCP_ST_SYN_SENT =>
        if TCP_MAX_SYN_RETRY <? n then fail_stream p TCP_CONN_FAIL ;;; ret (-1)
        else retransmit p cur_ts ;;; ret 0
    | TCP_ST_SYN_RCVD =>
        if have_reset s then DestroyTCPStream p ;;; ret 0 else retransmit p cur_ts ;;; ret 0
    | TCP_ST_ESTABLISHED | TCP_ST_CLOSE_WAIT | TCP_ST_LAST_ACK | TCP_ST_FIN_WAIT_1 | TCP_ST_CLOSING =>
        retransmit p cur_ts ;;; ret 0
    | TCP_ST_FIN_WAIT_2 | TCP_ST_TIME_WAIT | TCP_ST_LISTEN | TCP_ST_CLOSED => throw AssertFailed
    end.

(** ** The clock of the store *)

(** Walk the overflow list and move entries into slots. *)
Fixpoint rearrange_walk (fuel : nat) (walk : option ptr) : M unit :=
  match walk with
  | None => ret tt
  | Some p =>
      match fuel with
      | O => throw OutOfFuel
      | S fuel =>
          let* l := gets (fun m => rto_slot m RTO_HASH) in
          let* next := lift (next_of p l) in
          let* s := get_stream p in
          let* st := gets rto_store in
          let diff := s32 (rto_now_ts st - ts_rto (sndvar s)) in
          (if diff <? RTO_HASH then
             let offset := u32 (diff + rto_now_idx st) mod RTO_HASH in
             let* l := lift (tailq_remove p l) in
             upd_slot RTO_HASH l ;;;
             upd_stream p (fun s => s <| on_rto_idx := offset |>) ;;;
             let* l := gets (fun m => rto_slot m offset) in
             upd_slot offset (l ++ [p])
           else ret tt) ;;;
          rearrange_walk fuel next
      end
  end.

Definition RearrangeRTOStore : M unit :=
  let* l := gets (fun m => rto_slot m RTO_HASH) in
  rearrange_walk (length l) (hd_error l).

(** One slot: fire the streams on it, at most [thresh] in all. *)
Fixpoint rto_slot_walk (fuel : nat) (idx cur_ts thresh cnt : Z) (walk : option ptr) : M Z :=
  match walk with
  | None => ret cnt
  | Some p =>
      match fuel with
      | O => throw OutOfFuel
      | S fuel =>
          let cnt := cnt + 1 in
          if thresh <? cnt then ret cnt
          else
            let* l := gets (fun m => rto_slot m idx) in
            let* next := lift (next_of p l) in
            let* s := get_stream p in
            (if 0 <=? on_rto_idx s then
               let* l := lift (tailq_remove p l) in
               upd_slot idx l ;;;
               modify (fun m => m <| rto_list_cnt := rto_list_cnt m - 1 |>) ;;;
               upd_stream p (fun s => s <| on_rto_idx := -1 |>) ;;;
               HandleRTO p cur_ts ;;; ret tt
             else ret tt) ;;;
            rto_slot_walk fuel idx cur_ts thresh cnt next
      end
  end.

Fixpoint rtm_loop (fuel : nat) (cur_ts thresh cnt : Z) : M unit :=
  match fuel with
  | O => throw OutOfFuel
  | S fuel =>
      let* st := gets rto_store in
      if s32 (cur_ts - rto_now_ts st) <? 0 then ret tt
      else
        let* l := gets (fun m => rto_slot m (rto_now_idx st)) in
        let* cnt := rto_slot_walk (S (Z.to_nat thresh)) (rto_now_idx st) cur_ts thresh cnt (hd_error l) in
        if thresh <? cnt then ret tt
        else
          modify (fun m => m <| rto_store; rto_now_idx := (rto_now_idx (rto_store m) + 1) mod RTO_HASH |>
                             <| rto_store; rto_now_ts := u32 (rto_now_ts (rto_store m) + 1) |>) ;;;
          let* st := gets rto_store in
          when (rto_now_idx st mod 1000 =? 0) RearrangeRTOStore ;;;
          rtm_loop fuel cur_ts thresh cnt
  end.

(** One iteration per tick since the store's time, and one to leave. *)
Definition CheckRtmTimeout (cur_ts thresh : Z) : M unit :=
  let* n := gets rto_list_cnt in
  if n =? 0 then ret tt
  else
    let* st := gets rto_store in
    rtm_loop (S (S (Z.to_nat (s32 (cur_ts - rto_now_ts st))))) cur_ts thresh 0.

(** ** TIME_WAIT and idle connections *)

Fixpoint timewait_walk (fuel : nat) (cur_ts thresh cnt : Z) (walk : option ptr) : M unit :=
  match walk with
  | None => ret tt
  | Some p =>
      match fuel with
      | O => throw OutOfFuel
      | S fuel =>
          let cnt := cnt + 1 in
          if thresh <? cnt then ret tt
          else
            let* l := gets timewait_list in
            let* next := lift (next_of p l) in
            let* s := get_stream p in
            if on_timewait_list s then
              if 0 <=? s32 (cur_ts - ts_tw_expire (rcvvar s)) then
                when (negb (on_control_list (sndvar s)))
                  (let* l := lift (tailq_remove p l) in
                   modify (fun m => m <| timewait_list := l |>) ;;;
                   upd_stream p (fun s => s <| on_timewait_list := false |>) ;;;
                   modify (fun m => m <| timewait_list_cnt := timewait_list_cnt m - 1 |>) ;;;
                   upd_stream p (fun s => s <| state := TCP_ST_CLOSED |> <| close_reason := TCP_ACTIVE_CLOSE |>) ;;;
                   DestroyTCPStream p) ;;;
                timewait_walk fuel cur_ts thresh cnt next
              else ret tt
            else timewait_walk fuel cur_ts thresh cnt next
      end
  end.

Definition CheckTimewaitExpire (cur_ts thresh : Z) : M unit :=
  let* l := gets timewait_list in timewait_walk (S (Z.to_nat thresh)) cur_ts thresh 0 (hd_error l).

Fixpoint timeout_walk (fuel : nat) (cur_ts thresh cnt : Z) (walk : option ptr) : M unit :=
  match walk with
  | None => ret tt
  | Some p =>
      match fuel with
      | O => throw OutOfFuel
      | S fuel =>
          let cnt := cnt + 1 in
          if thresh <? cnt then ret tt
          else
            let* l := gets timeout_list in
            let* next := lift (next_of p l) in
            let* s := get_stream p in
            if tcp_timeout <=? s32 (cur_ts - last_active_ts s) then
              upd_stream p (fun s => s <| on_timeout_list := false |>) ;;;
              let* l := lift (tailq_remove p l) in
              modify (fun m => m <| timeout_list := l |> <| timeout_list_cnt := timeout_list_cnt m - 1 |>) ;;;
              fail_stream p TCP_TIMEDOUT ;;;
              timeout_walk fuel cur_ts thresh cnt next
            else ret tt
      end
  end.

Definition CheckConnectionTimeout (cur_ts thresh : Z) : M unit :=
  let* l := gets timeout_list in timeout_walk (S (Z.to_nat thresh)) cur_ts thresh 0 (hd_error l).
End timer.
