(* ===== verification/SafeTimer.v ===== *)
(** * Timers keep the invariant

    Events, retransmission timeouts, and the expiry of TIME_WAIT and of idle
    connections, from a manager that satisfies the invariant. *)

From S2P Require Import Prelude SeqNum SpscQueue MemPool RingBuffer SendBuffer AddrPool Rss Checksum.
From S2P Require Import Machine Wp Lists TcpOptions FlowTable Network Faults StreamOps Invariant Boot StreamInv Live.
From S2P Require Import TcpOut SafeOut SafeData Timer.

Section timer.
Context `{Env} (E : fault -> Prop) (HE : forall e, calm e -> E e).
Implicit Types (m : mtcp_manager) (s : tcp_stream) (p q : ptr) (rest : gmap ptr tcp_stream).

(** ** Events *)

Lemma wf_set_epoll m e x : wf m -> wf (m <| epolls := <[e := x]> (epolls m) |>).
Proof using.
  intros Hw. constructor; try apply Hw. intros e' He. destruct (decide (e' = e)) as [->|Hne]; simpl.
  - by rewrite lookup_insert_eq.
  - rewrite lookup_insert_ne by done. by apply (wf_ep _ Hw).
Qed.

Lemma live_set_epoll Φ p rest m e x : live Φ p rest m -> live Φ p rest (m <| epolls := <[e := x]> (epolls m) |>).
Proof using. intros (Hw & Hr & Hs). split_and!; [by apply wf_set_epoll|done|done]. Qed.

Lemma get_socket_keeps I k : keeps E I (get_socket k).
Proof using HE. intros m Hm. unfold wp, get_socket. destruct (sockets m !! k); [done|]. apply HE. calm_fault. Qed.

Lemma upd_socket_keeps I k f : core_inv I -> keeps E I (upd_socket k f).
Proof using HE.
  intros HI m Hm. unfold wp, upd_socket. destruct (sockets m !! k); [|apply HE; calm_fault].
  eapply HI; [|exact Hm]. done.
Qed.

Lemma set_epoll_keeps Φ p rest e x : keeps E (live Φ p rest) (set_epoll e x).
Proof using. intros m Hm. by apply wp_modify, live_set_epoll. Qed.

Lemma raise_event_keeps Φ p rest t k ev : keeps E (live Φ p rest) (raise_event t k ev).
Proof using HE.
  intros m Hm. unfold raise_event. apply wp_bind, wp_gets. apply wp_bind.
  eapply wp_mono with (Q := fun _ => live Φ p rest); [|done].
  pose proof (set_epoll_keeps Φ p rest) as Hse. pose proof (get_socket_keeps (live Φ p rest)) as Hgs.
  pose proof (fun k f => upd_socket_keeps (live Φ p rest) k f (live_core Φ p rest)) as Hus.
  destruct (ep m) as [a|] eqn:Ee; [|by apply wp_ret]. simpl. destruct (ev =? 0); [by apply wp_ret|].
  apply wp_bind. unfold wp at 1, get_socket. destruct (sockets m !! k) as [sk|]; [|apply HE; calm_fault].
  apply wp_bind. unfold wp at 1, get_epoll. pose proof Hm as (Hw & _). destruct (wf_ep _ Hw a Ee) as [e He]. rewrite He.
  match goal with |- wp _ ?c _ _ => assert (keeps E (live Φ p rest) c) as Hk by keep end. by apply Hk.
Qed.
Hint Resolve raise_event_keeps get_socket_keeps : live.

Lemma RaiseReadEvent_keeps Φ p rest : keeps E (live Φ p rest) (RaiseReadEvent p).
Proof using HE. unfold RaiseReadEvent. keep. Qed.
Lemma RaiseWriteEvent_keeps Φ p rest : keeps E (live Φ p rest) (RaiseWriteEvent p).
Proof using HE. unfold RaiseWriteEvent. keep. Qed.
Lemma RaiseCloseEvent_keeps Φ p rest : keeps E (live Φ p rest) (RaiseCloseEvent p).
Proof using HE. unfold RaiseCloseEvent. keep. Qed.
Lemma RaiseErrorEvent_keeps Φ p rest : keeps E (live Φ p rest) (RaiseErrorEvent p).
Proof using HE. unfold RaiseErrorEvent. keep. Qed.
Hint Resolve RaiseReadEvent_keeps RaiseWriteEvent_keeps RaiseCloseEvent_keeps RaiseErrorEvent_keeps : live.

(** ** Retransmission *)

Lemma fail_stream_leads p rest r : leads E (live T p rest) (over p rest) (fail_stream p r).
Proof using HE. unfold fail_stream. lead. Qed.
Hint Resolve fail_stream_leads : ends.

Lemma retransmit_keeps p rest ts : keeps E (live T p rest) (retransmit p ts).
Proof using HE. unfold retransmit. keep. Qed.
Hint Resolve retransmit_keeps : live.

Lemma HandleRTO_leads p rest ts : leads E (live T p rest) (over p rest) (HandleRTO p ts).
Proof using HE. unfold HandleRTO. lead. Qed.

(** ** The TIME_WAIT and timeout lists *)

(** The managers after [p] left the TIME_WAIT list, the timeout list and its
    slot in the retransmission store. *)
Definition no_timewait m p s : mtcp_manager :=
  m <| timewait_list := filter (fun y => y <> p) (timewait_list m) |>
    <| streams := <[p := s <| on_timewait_list := false |>]> (streams m) |>
    <| timewait_list_cnt := timewait_list_cnt m - 1 |>.
Definition no_timeout m p s : mtcp_manager :=
  m <| streams := <[p := s <| on_timeout_list := false |>]> (streams m) |>
    <| timeout_list := filter (fun y => y <> p) (timeout_list m) |> <| timeout_list_cnt := timeout_list_cnt m - 1 |>.
Definition no_rto m p s : mtcp_manager :=
  m <| rto_store; rto_list := <[on_rto_idx s := filter (fun y => y <> p) (rto_slot m (on_rto_idx s))]> (rto_list (rto_store m)) |>
    <| rto_list_cnt := rto_list_cnt m - 1 |> <| streams := <[p := s <| on_rto_idx := -1 |>]> (streams m) |>.

Lemma no_timewait_live m p s : wf m -> streams m !! p = Some s -> on_timewait_list s = true ->
  p ∈ timewait_list m /\ live T p (delete p (streams m)) (no_timewait m p s).
Proof using.
  intros Hw Hp Ht. pose proof (wf_member m p s LTimewait Hw Hp Ht) as Hin. split; [exact Hin|].
  destruct (RemoveFromTimewaitList_ok m p s Hw Hp Ht) as (a & m' & Eq & Hsh).
  assert (RemoveFromTimewaitList p m = Ok (tt, no_timewait m p s)) as Eq'.
  { unfold RemoveFromTimewaitList, bind, get_stream, gets, lift, modify, upd_stream. rewrite Hp, Ht. cbn -[tailq_remove].
    rewrite tailq_remove_ok by exact Hin. cbn. by rewrite Hp. }
  rewrite Eq in Eq'. injection Eq' as _ ->. by eapply shift_live.
Qed.

Lemma no_timeout_live m p s : wf m -> streams m !! p = Some s -> on_timeout_list s = true ->
  p ∈ timeout_list m /\ live T p (delete p (streams m)) (no_timeout m p s).
Proof using.
  intros Hw Hp Ht. pose proof (wf_member m p s LTimeout Hw Hp Ht) as Hin. split; [exact Hin|].
  destruct (RemoveFromTimeoutList_ok m p s Hw Hp) as (a & m' & Eq & Hsh).
  assert (RemoveFromTimeoutList p m = Ok (tt, no_timeout m p s)) as Eq'.
  { unfold RemoveFromTimeoutList, bind, get_stream, gets, lift, modify, upd_stream. rewrite Hp, Ht. cbn -[tailq_remove].
    rewrite Hp. cbn -[tailq_remove]. rewrite tailq_remove_ok by exact Hin. done. }
  rewrite Eq in Eq'. injection Eq' as _ ->. by eapply shift_live.
Qed.

Lemma no_rto_live m p s : wf m -> streams m !! p = Some s -> 0 <= on_rto_idx s ->
  p ∈ rto_slot m (on_rto_idx s) /\ live T p (delete p (streams m)) (no_rto m p s).
Proof using.
  intros Hw Hp Ht. assert (p ∈ rto_slot m (on_rto_idx s)) as Hin.
  { apply (wf_member m p s (LRto (on_rto_idx s)) Hw Hp). simpl. unfold on_rto.
    destruct (Z.leb_spec 0 (on_rto_idx s)); [|lia]. by rewrite Z.eqb_refl. }
  split; [exact Hin|]. destruct (RemoveFromRTOList_ok m p s Hw Hp) as (a & m' & Eq & Hsh).
  assert (RemoveFromRTOList p m = Ok (tt, no_rto m p s)) as Eq'.
  { unfold RemoveFromRTOList, bind, get_stream, gets, lift, modify, upd_stream. rewrite Hp.
    destruct (Z.ltb_spec (on_rto_idx s) 0); [lia|]. rewrite tailq_remove_ok by exact Hin. cbn. by rewrite Hp. }
  rewrite Eq in Eq'. injection Eq' as _ ->. by eapply shift_live.
Qed.

Lemma timewait_walk_wf ts thresh fuel cnt walk m :
  wf m -> (forall p, walk = Some p -> p ∈ list_at m LTimewait) -> (Z.to_nat (thresh - cnt) < fuel)%nat ->
  wp E (timewait_walk fuel ts thresh cnt walk) (fun _ => wf) m.
Proof using HE.
  revert cnt walk m. induction fuel as [|fuel IH]; intros cnt walk m Hw Hwalk Hf; [lia|].
  destruct walk as [p|]; [|by apply wp_ret]. cbn [timewait_walk]. cbv zeta.
  destruct (Z.ltb_spec thresh (cnt + 1)); [by apply wp_ret|].
  destruct (walk_next m p LTimewait Hw (Hwalk p eq_refl)) as (s & nx & Hp & Hon & Enx & Hnx). simpl in Hon, Enx.
  apply wp_bind, wp_gets. apply wp_bind, wp_lift; [|congruence]. intros nx' [= <-]%(eq_trans (eq_sym Enx)).
  apply wp_bind. eapply wp_get_stream; [exact Hp|]. rewrite Hon. destruct (_ <=? _); [|by apply wp_ret].
  assert (forall m', over p (delete p (streams m)) m' -> wp E (timewait_walk fuel ts thresh (cnt + 1) nx) (fun _ => wf) m') as Hk.
  { intros m' Ho. apply IH; [apply Ho| |lia]. intros q Hq. by apply (Hnx m'). }
  apply wp_bind. apply wp_when; [|intros _; by apply Hk].
  intros _. destruct (no_timewait_live m p s Hw Hp Hon) as [Hin Hl]. rewrite tailq_remove_ok by done.
  apply wp_bind, wp_lift; [|done]. intros l [= <-]. apply wp_bind, wp_modify. apply wp_bind.
  eapply wp_upd_stream; [exact Hp|]. apply wp_bind, wp_modify.
  match goal with |- wp _ ?c _ _ => assert (leads E (live T p (delete p (streams m))) (over p (delete p (streams m))) c) as Hc by lead end.
  eapply wp_mono; [apply Hc, Hl|]. intros a m' Ho. by apply Hk.
Qed.

Lemma timeout_walk_wf ts thresh fuel cnt walk m :
  wf m -> (forall p, walk = Some p -> p ∈ list_at m LTimeout) -> (Z.to_nat (thresh - cnt) < fuel)%nat ->
  wp E (timeout_walk fuel ts thresh cnt walk) (fun _ => wf) m.
Proof using HE.
  revert cnt walk m. induction fuel as [|fuel IH]; intros cnt walk m Hw Hwalk Hf; [lia|].
  destruct walk as [p|]; [|by apply wp_ret]. cbn [timeout_walk]. cbv zeta.
  destruct (Z.ltb_spec thresh (cnt + 1)); [by apply wp_ret|].
  destruct (walk_next m p LTimeout Hw (Hwalk p eq_refl)) as (s & nx & Hp & Hon & Enx & Hnx). simpl in Hon, Enx.
  apply wp_bind, wp_gets. apply wp_bind, wp_lift; [|congruence]. intros nx' [= <-]%(eq_trans (eq_sym Enx)).
  apply wp_bind. eapply wp_get_stream; [exact Hp|]. destruct (_ <=? _); [|by apply wp_ret].
  destruct (no_timeout_live m p s Hw Hp Hon) as [Hin Hl].
  apply wp_bind. eapply wp_upd_stream; [exact Hp|]. rewrite tailq_remove_ok by done.
  apply wp_bind, wp_lift; [|done]. intros l [= <-]. apply wp_bind, wp_modify. apply wp_bind.
  eapply wp_mono; [eapply fail_stream_leads, Hl|]. intros a m' Ho.
  apply IH; [apply Ho| |lia]. intros q Hq. by apply (Hnx m').
Qed.

(** ** The retransmission store *)

Notation clock := (fun m => rto_now_ts (rto_store m)).

Section clock.
Lemma get_socket_clock k : same clock (get_socket k).
Proof using. intros v m Hm. unfold wp, get_socket. by destruct (sockets m !! k). Qed.

Lemma raise_event_clock t k ev : same clock (raise_event t k ev).
Proof using.
  pose proof get_socket_clock.
  assert (forall k f, same clock (upd_socket k f)) by (intros ? ? v m <-; unfold wp, upd_socket; by destruct (sockets m !! _)).
  assert (forall e, same clock (get_epoll e)) by (intros ? v m <-; unfold wp, get_epoll; by destruct (epolls m !! _)).
  unfold raise_event, AddEpollEvent, set_epoll. frame.
Qed.

Lemma the_sender_clock p : same clock (the_sender p).
Proof using. apply the_sender_same. Qed.

Lemma RemoveFromRTOList_clock p : same clock (RemoveFromRTOList p).
Proof using. unfold RemoveFromRTOList, upd_slot. frame. Qed.

Lemma RemoveFromControlList_clock p : same clock (RemoveFromControlList p).
Proof using. pose proof the_sender_clock. unfold RemoveFromControlList. frame. Qed.

Lemma leave_lists_clock p : same clock (leave_lists p).
Proof using.
  pose proof RemoveFromRTOList_clock. pose proof RemoveFromControlList_clock. pose proof the_sender_clock.
  unfold leave_lists, RemoveFromSendList, RemoveFromACKList, RemoveFromTimewaitList, RemoveFromTimeoutList. frame.
Qed.

Lemma DestroyTCPStream_clock p : same clock (DestroyTCPStream p).
Proof using.
  pose proof leave_lists_clock.
  unfold DestroyTCPStream, free_sndbuf, free_rcvbuf, StreamHTRemove, free_rv, free_sv, free_flow, free_address. frame.
Qed.

Lemma HandleRTO_clock p ts : same clock (HandleRTO p ts).
Proof using.
  pose proof DestroyTCPStream_clock. pose proof RemoveFromControlList_clock. pose proof raise_event_clock.
  pose proof get_socket_clock. pose proof the_sender_clock.
  unfold HandleRTO, fail_stream, retransmit, RaiseErrorEvent, AddtoSendList, AddtoControlList. frame.
Qed.

Lemma rto_slot_walk_clock fuel idx ts thresh cnt walk : same clock (rto_slot_walk fuel idx ts thresh cnt walk).
Proof using.
  pose proof HandleRTO_clock.
  revert cnt walk. induction fuel as [|fuel IH]; intros cnt [p|]; cbn [rto_slot_walk]; unfold upd_slot; frame; apply IH.
Qed.
End clock.

Lemma rto_slot_walk_wf idx ts thresh fuel cnt walk m :
  wf m -> 0 <= cnt -> (forall p, walk = Some p -> p ∈ list_at m (LRto idx)) -> (Z.to_nat (thresh - cnt) < fuel)%nat ->
  wp E (rto_slot_walk fuel idx ts thresh cnt walk) (fun n m' => wf m' /\ 0 <= n) m.
Proof using HE.
  revert cnt walk m. induction fuel as [|fuel IH]; intros cnt walk m Hw Hcnt Hwalk Hf; [lia|].
  destruct walk as [p|]; [|by apply wp_ret]. cbn [rto_slot_walk]. cbv zeta.
  destruct (Z.ltb_spec thresh (cnt + 1)); [apply wp_ret; split; [done|lia]|].
  destruct (walk_next m p (LRto idx) Hw (Hwalk p eq_refl)) as (s & nx & Hp & Hon & Enx & Hnx). simpl in Hon, Enx.
  apply andb_prop in Hon as [Hon <-%Z.eqb_eq].
  apply wp_bind, wp_gets. apply wp_bind, wp_lift; [|congruence]. intros nx' [= <-]%(eq_trans (eq_sym Enx)).
  apply wp_bind. eapply wp_get_stream; [exact Hp|]. fold (on_rto s). rewrite Hon. unfold on_rto in Hon. apply Z.leb_le in Hon.
  destruct (no_rto_live m p s Hw Hp Hon) as [Hin Hl]. apply wp_bind. rewrite tailq_remove_ok by done.
  apply wp_bind, wp_lift; [|done]. intros l [= <-]. apply wp_bind, wp_modify. apply wp_bind, wp_modify.
  apply wp_bind. eapply wp_upd_stream; [exact Hp|]. apply wp_bind.
  eapply wp_mono; [eapply HandleRTO_leads, Hl|]. intros a m' Ho. apply wp_ret.
  apply IH; [apply Ho|lia| |lia]. intros q Hq. by apply (Hnx m').
Qed.

(** *** Moving entries of the overflow list into slots *)

(** The manager after [p] moved from the overflow list to slot [k]. *)
Definition reslot m p s k : mtcp_manager :=
  let st := rto_store m in
  let t := <[RTO_HASH := filter (fun y => y <> p) (rto_slot m RTO_HASH)]> (rto_list st) in
  m <| streams := <[p := s <| on_rto_idx := k |>]> (streams m) |>
    <| rto_store; rto_list := <[k := default [] (t !! k) ++ [p]]> t |>.

Lemma reslot_wf m p s k :
  wf m -> streams m !! p = Some s -> on_rto_idx s = RTO_HASH -> 0 <= k < RTO_HASH ->
  wf (reslot m p s k) /\ rto_slot (reslot m p s k) RTO_HASH = filter (fun y => y <> p) (rto_slot m RTO_HASH).
Proof using.
  intros Hw Hp Hs Hk. assert (on_rto s = true) as Ho by (unfold on_rto; by rewrite Hs).
  destruct (so_timer _ (wf_streams _ Hw _ _ Hp)) as (_ & Htw & _).
  split; [|unfold rto_slot, reslot; simpl; rewrite lookup_insert_ne, lookup_insert_eq by lia; done].
  set (st := rto_store m <| rto_list := rto_list (rto_store (reslot m p s k)) |>).
  assert (shift m p (s <| on_rto_idx := k |>) (m <| streams := <[p := s <| on_rto_idx := k |>]> (streams m) |>
    <| rto_store := st |> <| rto_list_cnt := rto_list_cnt m |>)) as (Hw' & _); [|exact Hw'].
  apply rto_moved; [done|done|unfold RTO_HASH in *; lia|intros Ht; unfold RTO_HASH in *; specialize (Htw Ht); lia| |].
  - intros j. destruct (decide (j = k)) as [->|Hjk]; [|destruct (decide (j = RTO_HASH)) as [->|Hj]].
    + apply lc_add; simpl; [|done| |].
      * unfold rto_slot, st, reslot; simpl. by rewrite lookup_insert_eq, lookup_insert_ne by lia.
      * rewrite Hs. destruct (Z.eqb_spec RTO_HASH k); [lia|]. by rewrite andb_false_r.
      * unfold on_rto; simpl. rewrite Z.eqb_refl. by destruct (Z.leb_spec 0 k); [|lia].
    + apply lc_remove; simpl; [|done|by rewrite Ho, Hs, Z.eqb_refl|].
      * unfold rto_slot at 1, st, reslot; simpl. by rewrite lookup_insert_ne, lookup_insert_eq by lia.
      * destruct (Z.eqb_spec k RTO_HASH); [lia|]. by rewrite andb_false_r.
    + apply lc_same; simpl; [|done|].
      * unfold rto_slot at 2, st, reslot; simpl. by rewrite !lookup_insert_ne by done.
      * rewrite Hs. destruct (Z.eqb_spec k j), (Z.eqb_spec RTO_HASH j); try congruence. by rewrite !andb_false_r.
  - rewrite Ho. destruct (Z.leb_spec 0 k); simpl; lia.
Qed.

Lemma next_of_split p l1 l2 : ~ p ∈ l1 -> next_of p (l1 ++ p :: l2) = Ok (hd_error l2).
Proof using.
  induction l1 as [|x l1 IH]; simpl; intros Hn; [by rewrite decide_True|].
  rewrite decide_False; [|intros ->; apply Hn, list_elem_of_here]. apply IH. intros Hx. by apply Hn, list_elem_of_further.
Qed.

Lemma filter_ne_split p (l1 l2 : list ptr) : NoDup (l1 ++ p :: l2) -> filter (fun y => y <> p) (l1 ++ p :: l2) = l1 ++ l2.
Proof using.
  intros (_ & Hd & [Hn _]%NoDup_cons)%NoDup_app. rewrite filter_app, filter_cons_False by (intros Hx; by apply Hx).
  rewrite !filter_ne_notin; [done|done|]. intros Hx. apply (Hd p Hx). apply list_elem_of_here.
Qed.

Lemma rearrange_walk_wf pre suf m :
  wf m -> rto_slot m RTO_HASH = pre ++ suf ->
  wp E (rearrange_walk (length suf) (hd_error suf)) (fun _ m' => wf m' /\ clock m' = clock m) m.
Proof using HE.
  revert pre m. induction suf as [|p suf IH]; intros pre m Hw Hl; [by apply wp_ret|].
  assert (NoDup (pre ++ p :: suf)) as Hnd by (rewrite <- Hl; apply (wf_lists _ Hw (LRto RTO_HASH))).
  assert (~ p ∈ pre) as Hn.
  { apply NoDup_app in Hnd as (_ & Hd & _). intros Hx. apply (Hd p Hx), list_elem_of_here. }
  assert (p ∈ list_at m (LRto RTO_HASH)) as Hin by (simpl; rewrite Hl; apply elem_of_app; right; apply list_elem_of_here).
  destruct (proj1 (proj2 (wf_lists _ Hw (LRto RTO_HASH)) p) Hin) as (s & Hp & [_ Hs%Z.eqb_eq]%andb_prop).
  cbn [length hd_error rearrange_walk]. apply wp_bind, wp_gets. rewrite Hl, next_of_split by done.
  apply wp_bind, wp_lift; [|done]. intros nx [= <-]. apply wp_bind. eapply wp_get_stream; [exact Hp|].
  apply wp_bind, wp_gets. cbv zeta. apply wp_bind. destruct (_ <? _).
  - rewrite tailq_remove_ok by (apply elem_of_app; right; apply list_elem_of_here). rewrite filter_ne_split by done.
    apply wp_bind, wp_lift; [|done]. intros l [= <-]. apply wp_bind, wp_modify. apply wp_bind.
    eapply wp_upd_stream; [exact Hp|]. apply wp_bind, wp_gets. apply wp_modify.
    match goal with |- context [field_upd on_rto_idx (fun _ => ?k)] => set (off := k) end.
    destruct (reslot_wf m p s off) as [Hw' Hl']; [done..|by apply Z.mod_pos_bound|].
    rewrite Hl, filter_ne_split in Hl' by done.
    eapply wp_mono; [|intros a m' Hm'; exact Hm'].
    assert (forall m', m' = reslot m p s off -> wp E (rearrange_walk (length suf) (hd_error suf))
      (fun _ m2 => wf m2 /\ clock m2 = clock m) m') as Hk by (intros m' ->; exact (IH pre _ Hw' Hl')).
    apply Hk. unfold reslot. cbv zeta. rewrite Hl, filter_ne_split by done. unfold rto_slot. reflexivity.
  - apply wp_ret. apply (IH (pre ++ [p])); [done|]. by rewrite Hl, <- app_assoc.
Qed.

Lemma wf_tick m i t : wf m -> wf (m <| rto_store; rto_now_idx := i |> <| rto_store; rto_now_ts := t |>).
Proof using. apply wf_core. done. Qed.

Lemma rtm_loop_wf ts thresh fuel cnt m :
  wf m -> 0 <= cnt -> (Z.to_nat (s32 (ts - clock m) + 1) < fuel)%nat ->
  wp E (rtm_loop fuel ts thresh cnt) (fun _ => wf) m.
Proof using HE.
  revert cnt m. induction fuel as [|fuel IH]; intros cnt m Hw Hcnt Hf; [lia|]. cbn [rtm_loop].
  apply wp_bind, wp_gets. destruct (Z.ltb_spec (s32 (ts - clock m)) 0) as [|Hge]; [by apply wp_ret|].
  apply wp_bind, wp_gets. apply wp_bind.
  eapply wp_mono; [eapply wp_conj; [apply rto_slot_walk_wf|by apply (rto_slot_walk_clock _ _ _ _ _ _ (clock m))]|]; [done..| |lia|].
  { intros p Hp. exact (hd_error_in m (LRto _) p Hp). }
  intros n m1 [[Hw1 Hn] Hc1]. cbv beta in Hc1. destruct (Z.ltb_spec thresh n); [by apply wp_ret|].
  apply wp_bind, wp_modify. apply wp_bind, wp_gets. apply wp_bind.
  set (m2 := m1 <| rto_store; rto_now_idx := _ |> <| rto_store; rto_now_ts := _ |>).
  assert (wf m2) as Hw2 by (by apply wf_tick).
  assert (clock m2 = u32 (clock m + 1)) as Hc2 by (simpl; by rewrite Hc1).
  eapply wp_mono with (Q := fun _ m' => wf m' /\ clock m' = u32 (clock m + 1)).
  { apply wp_when; [|done]. intros _. unfold RearrangeRTOStore. apply wp_bind, wp_gets.
    eapply wp_mono; [apply (rearrange_walk_wf [])|]; [done|done|]. intros a m3 [? E3]. by rewrite E3. }
  intros a m3 [Hw3 Hc3]. apply IH; [done|done|]. rewrite Hc3.
  assert (s32 (ts - u32 (clock m + 1)) = s32 (ts - clock m) - 1) as ->; [|lia].
  pose proof (s32_range (ts - clock m)). rewrite <- (s32_small (s32 (ts - clock m) - 1)) by lia.
  apply s32_eq. rewrite u32_sub_r. unfold s32. destruct (_ <? _); wrap_lia.
Qed.

(** ** The three checks of the main loop *)

Lemma CheckRtmTimeout_wf ts thresh : keeps E wf (CheckRtmTimeout ts thresh).
Proof using HE.
  intros m Hw. unfold CheckRtmTimeout. apply wp_bind, wp_gets. destruct (_ =? _); [by apply wp_ret|].
  apply wp_bind, wp_gets. apply rtm_loop_wf; [done..|]. lia.
Qed.

Lemma CheckTimewaitExpire_wf ts thresh : keeps E wf (CheckTimewaitExpire ts thresh).
Proof using HE.
  intros m Hw. unfold CheckTimewaitExpire. apply wp_bind, wp_gets. apply timewait_walk_wf; [done| |lia].
  intros p Hp. exact (hd_error_in m LTimewait p Hp).
Qed.

Lemma CheckConnectionTimeout_wf ts thresh : keeps E wf (CheckConnectionTimeout ts thresh).
Proof using HE.
  intros m Hw. unfold CheckConnectionTimeout. apply wp_bind, wp_gets. apply timeout_walk_wf; [done| |lia].
  intros p Hp. exact (hd_error_in m LTimeout p Hp).
Qed.
End timer.

(** The timer part of one iteration of the main loop. *)
Definition timer_round `{Env} (cur_ts thresh : Z) : M unit :=
  CheckRtmTimeout cur_ts thresh ;;;
  CheckTimewaitExpire cur_ts thresh ;;;
  when (0 <? tcp_timeout) (CheckConnectionTimeout cur_ts thresh).


Import Demo.
(** The stream of [StreamInv]'s example with its timer running. *)
Definition m3 : mtcp_manager :=
  ltac:(let x := eval vm_compute in (AddtoRTOList p1 m1) in match x with Ok (_, ?m) => exact m end).

Lemma m3_wf : wf m3.
Proof.
  destruct m1_created as (Hw & _ & s & Hs & _).
  assert (streams m1 !! p1 = Some s) as Hp by (rewrite Hs; apply lookup_insert_eq).
  destruct (AddtoRTOList_some m1 p1 s Hw Hp) as (k & a & m' & Eq & Hw' & _).
  assert (AddtoRTOList p1 m1 = Ok (tt, m3)) as Eq' by (vm_compute; reflexivity).
  rewrite Eq' in Eq. injection Eq as _ <-. exact Hw'.
Qed.

