(* ===== verification/TcpIn.v ===== *)
(** * Receiving: [tcp_in.c]

    [ProcessTCPPacket] decodes a segment, finds or creates its stream,
    validates the sequence number and runs the handler of the stream's state. *)

From S2P Require Import Prelude SeqNum SpscQueue MemPool RingBuffer SendBuffer Rss AddrPool Checksum.
From S2P Require Import Machine Lists TcpOptions FlowTable Network StreamOps TcpOut Timer.

(** ** Headers *)

(** The IP header fields used; addresses in network order. *)
Record iphdr := mkIph { ih_saddr : Z; ih_daddr : Z; ih_ihl : Z }.

(** The TCP header: ports in network order, numbers as [ntohl]/[ntohs] give
    them. [th_mem] are the bytes behind the fixed header, up to the end of the
    packet buffer. *)
Record tcphdr := mkTcph {
  th_source : Z; th_dest : Z; th_seq : Z; th_ack_seq : Z; th_doff : Z;
  th_fin : bool; th_syn : bool; th_rst : bool; th_ack : bool;
  th_window : Z; th_mem : list Z
}.

Definition rd16le (mem : list Z) (i : Z) : res Z :=
  let! a := rd mem i in let! b := rd mem (i + 1) in Ok (a + 256 * b).
Definition rd16be (mem : list Z) (i : Z) : res Z :=
  let! a := rd mem i in let! b := rd mem (i + 1) in Ok (256 * a + b).

(** Decode the segment that starts with the bytes [seg]. *)
Definition parse_tcph (seg : list Z) : res tcphdr :=
  let! src := rd16le seg 0 in
  let! dst := rd16le seg 2 in
  let! sq := rd32 seg 4 in
  let! ak := rd32 seg 8 in
  let! off := rd seg 12 in
  let! fl := rd seg 13 in
  let! win := rd16be seg 14 in
  Ok (mkTcph src dst sq ak (off / 16) (has fl TCP_FLAG_FIN) (has fl TCP_FLAG_SYN)
        (has fl TCP_FLAG_RST) (has fl TCP_FLAG_ACK) win (drop 20 seg)).

Definition optarea (t : tcphdr) : Z := th_doff t * 4 - TCP_HEADER_LEN.

(** ** Round trip time *)

(** [mrtt] is the measured time; the arithmetic on [m] is done in [long]. *)
Definition EstimateRTT (una nxt mrtt : Z) (r : tcp_recv_vars) : tcp_recv_vars :=
  let m := if mrtt =? 0 then 1 else mrtt in
  if negb (srtt r =? 0) then
    let m := m - Z.shiftr (srtt r) 3 in
    let r := r <| srtt := u32 (srtt r + m) |> in
    let m :=
      if m <? 0 then
        let m := - m in
        let m := m - Z.shiftr (mdev r) 2 in
        if 0 <? m then Z.shiftr m 3 else m
      else m - Z.shiftr (mdev r) 2 in
    let r := r <| mdev := u32 (mdev r + m) |> in
    let r :=
      if mdev_max r <? mdev r then
        let r := r <| mdev_max := mdev r |> in
        if rttvar r <? mdev_max r then r <| rttvar := mdev_max r |> else r
      else r in
    if TCP_SEQ_GT una (rtt_seq r) then
      let r := if mdev_max r <? rttvar r
               then r <| rttvar := u32 (rttvar r - Z.shiftr (rttvar r - mdev_max r) 2) |> else r in
      r <| rtt_seq := nxt |> <| mdev_max := 0 |>
    else r
  else
    let d := u32 (Z.shiftl m 1) in
    r <| srtt := u32 (Z.shiftl m 3) |> <| mdev := d |> <| mdev_max := d |> <| rttvar := d |>
      <| rtt_seq := nxt |>.

(** ** Parts of [ProcessACK] on the stream's variables *)

(** The peer's window: [wnd] is the scaled window of the segment. *)
Definition window_update (s : tcp_stream) (seq ack_seq wnd : Z) : bool :=
  let r := rcvvar s in
  TCP_SEQ_LT (snd_wl1 r) seq ||
  ((snd_wl1 r =? seq) && TCP_SEQ_LT (snd_wl2 r) ack_seq) ||
  ((snd_wl2 r =? ack_seq) && (peer_wnd (sndvar s) <? wnd)).

(** Congestion window after an acknowledgement of [packets] segments; faults
    on a division by a zero window. *)
Definition grow_cwnd (v : tcp_send_vars) (packets : Z) : res Z :=
  if cwnd v <? ssthresh v then
    Ok (if cwnd v <? u32 (cwnd v + mss v) then u32 (cwnd v + mss v * packets) else cwnd v)
  else if cwnd v =? 0 then Fault DivByZero
  else
    let new_cwnd := u32 (cwnd v + u32 (packets * mss v * mss v) / cwnd v) in
    Ok (if cwnd v <? new_cwnd then new_cwnd else cwnd v).

(** Segments an acknowledgement of [rmlen] bytes counts for. *)
Definition acked_packets (rmlen eff : Z) : res Z :=
  if eff =? 0 then Fault DivByZero
  else
    let packets := u16 (rmlen / eff) in
    Ok (if rmlen <? u32 (rmlen / eff * eff) then u16 (packets + 1) else packets).

Section input.
Context `{Env}.

(** ** Opening *)

Definition FilterSYNPacket (ip port : Z) : M bool :=
  let* o := ListenerHTSearch port in
  match o with
  | None => ret false
  | Some l =>
      let* x := get_listener l in
      let* sk := get_socket (l_socket x) in
      if sk_port sk =? port then
        if negb (sk_addr sk =? INADDR_ANY) then ret (ip =? sk_addr sk)
        else ret (List.existsb (fun e => ip =? fst e) eths)
      else ret false
  end.

Definition parse_into (p : ptr) (cur_ts : Z) (t : tcphdr) : M unit :=
  let* s := get_stream p in
  let* s' := lift (ParseTCPOptions cur_ts (th_mem t) (optarea t) s) in
  upd_stream p (fun _ => s').

Definition HandlePassiveOpen (cur_ts : Z) (ih : iphdr) (t : tcphdr) (seq window : Z) : M (option ptr) :=
  let* o := CreateTCPStream None MTCP_SOCK_STREAM (ih_daddr ih) (th_dest t) (ih_saddr ih) (th_source t) in
  match o with
  | None => ret None
  | Some p =>
      upd_stream p (fun s => s <| rcvvar; irs := seq |> <| sndvar; peer_wnd := window |>
                               <| rcv_nxt := seq |> <| sndvar; cwnd := 1 |>) ;;;
      parse_into p cur_ts t ;;;
      ret (Some p)
  end.

Definition HandleActiveOpen (p : ptr) (cur_ts : Z) (t : tcphdr) (seq ack_seq window : Z) : M bool :=
  upd_stream p (fun s => s <| rcvvar; irs := seq |> <| snd_nxt := ack_seq |>
                           <| sndvar; peer_wnd := window |> <| rcvvar; snd_wl1 := u32 (seq - 1) |>
                           <| rcv_nxt := u32 (seq + 1) |> <| rcvvar; last_ack_seq := ack_seq |>) ;;;
  parse_into p cur_ts t ;;;
  upd_snd p (fun v => v <| cwnd := if cwnd v =? 1 then mss v * 2 else mss v |>
                        <| ssthresh := mss v * 10 |>) ;;;
  UpdateRetransmissionTimer p cur_ts ;;;
  ret true.

(** ** Sequence validation *)

(** The timestamp check; true lets the segment pass. *)
Definition check_paws (p : ptr) (cur_ts : Z) (t : tcphdr) : M bool :=
  let* s := get_stream p in
  if negb (th_rst t) && saw_timestamp s then
    let* o := lift (ParseTCPTimestamp (th_mem t) (optarea t)) in
    match o with
    | None => ret false
    | Some (ts_val, ts_ref) =>
        if TCP_SEQ_LT ts_val (ts_recent (rcvvar s)) then
          EnqueueACK p cur_ts ACK_OPT_NOW ;;; ret false
        else
          upd_rcv p (fun r => r <| ts_last_ts_upd := if TCP_SEQ_GT ts_val (ts_recent r) then cur_ts
                                                     else ts_last_ts_upd r |>
                                <| ts_recent := ts_val |> <| ts_lastack_rcvd := ts_ref |>) ;;;
          ret true
    end
  else ret true.

Definition ValidateSequence (p : ptr) (cur_ts : Z) (t : tcphdr) (seq ack_seq payloadlen : Z) : M bool :=
  let* ok := check_paws p cur_ts t in
  if negb ok then ret false
  else
    let* s := get_stream p in
    if TCP_SEQ_BETWEEN (u32 (seq + payloadlen)) (rcv_nxt s) (u32 (rcv_nxt s + rcv_wnd (rcvvar s)))
    then ret true
    else if th_rst t then ret false
    else
      (match state s with
       | TCP_ST_ESTABLISHED =>
           if u32 (seq + 1) =? rcv_nxt s then EnqueueACK p cur_ts ACK_OPT_AGGREGATE
           else if TCP_SEQ_LEQ seq (rcv_nxt s) then EnqueueACK p cur_ts ACK_OPT_AGGREGATE
           else EnqueueACK p cur_ts ACK_OPT_NOW
       | st =>
           when (bool_decide (st = TCP_ST_TIME_WAIT)) (AddtoTimewaitList p cur_ts) ;;;
           AddtoControlList p cur_ts
       end) ;;;
      ret false.

(** ** Resets *)

Definition ProcessRST (p : ptr) (ack_seq : Z) : M bool :=
  let* s := get_stream p in
  match state s with
  | TCP_ST_CLOSED | TCP_ST_LISTEN | TCP_ST_SYN_SENT => ret false
  | TCP_ST_SYN_RCVD =>
      when (ack_seq =? snd_nxt s)
        (upd_stream p (fun s => s <| state := TCP_ST_CLOSED |> <| close_reason := TCP_RESET |>) ;;;
         DestroyTCPStream p) ;;;
      ret true
  | TCP_ST_FIN_WAIT_1 | TCP_ST_FIN_WAIT_2 | TCP_ST_LAST_ACK | TCP_ST_CLOSING | TCP_ST_TIME_WAIT =>
      upd_stream p (fun s => s <| state := TCP_ST_CLOSED |> <| close_reason := TCP_ACTIVE_CLOSE |>) ;;;
      DestroyTCPStream p ;;;
      ret true
  | TCP_ST_ESTABLISHED | TCP_ST_CLOSE_WAIT =>
      let v := sndvar s in
      when (negb (on_closeq v || on_closeq_int v || on_resetq v || on_resetq_int v))
        (upd_stream p (fun s => s <| state := TCP_ST_CLOSE_WAIT |> <| close_reason := TCP_RESET |>) ;;;
         RaiseCloseEvent p) ;;;
      ret true
  end.

(** ** Acknowledgements *)

(** The acknowledgement of the FIN does not concern the send buffer. *)
Definition data_ack (s : tcp_stream) (ack_seq : Z) : Z :=
  match state s with
  | TCP_ST_FIN_WAIT_1 | TCP_ST_FIN_WAIT_2 | TCP_ST_CLOSING | TCP_ST_CLOSE_WAIT | TCP_ST_LAST_ACK =>
      if is_fin_sent (sndvar s) && (ack_seq =? u32 (fss (sndvar s) + 1)) then u32 (ack_seq - 1) else ack_seq
  | _ => ack_seq
  end.

Definition ack_window (p : ptr) (seq ack_seq wnd : Z) : M unit :=
  let* s := get_stream p in
  when (window_update s seq ack_seq wnd)
    (let prev := peer_wnd (sndvar s) in
     let flight := u32 (snd_nxt s - snd_una (sndvar s)) in
     upd_stream p (fun s => s <| sndvar; peer_wnd := wnd |> <| rcvvar; snd_wl1 := seq |>
                              <| rcvvar; snd_wl2 := ack_seq |>) ;;;
     when ((prev <? flight) && (flight <=? wnd)) (RaiseWriteEvent p)).

(** Duplicate acknowledgement detection; [edge] is the right window edge
    before the window update. The counter has 8 bits. *)
Definition is_dup (s : tcp_stream) (ack_seq payloadlen edge : Z) : bool :=
  TCP_SEQ_LT ack_seq (snd_nxt s) && (ack_seq =? last_ack_seq (rcvvar s)) && (payloadlen =? 0) &&
  (u32 (snd_wl2 (rcvvar s) + peer_wnd (sndvar s)) =? edge).

Definition count_dup (p : ptr) (ack_seq payloadlen edge : Z) : M bool :=
  let* s := get_stream p in
  let dup := is_dup s ack_seq payloadlen edge in
  upd_rcv p (fun r => if dup then
                        (if dup_acks r <? dup_acks r + 1 then r <| dup_acks := u8 (dup_acks r + 1) |> else r)
                      else r <| dup_acks := 0 |> <| last_ack_seq := ack_seq |>) ;;;
  ret dup.

Definition fast_retransmit (p : ptr) (ack_seq : Z) (dup : bool) : M unit :=
  let* s := get_stream p in
  if dup && (dup_acks (rcvvar s) =? 3) then
    when (TCP_SEQ_LT ack_seq (snd_nxt s)) (upd_stream p (fun s => s <| snd_nxt := ack_seq |>)) ;;;
    upd_snd p (fun v => let th := loss_ssthresh v in
                        v <| ssthresh := th |> <| cwnd := u32 (th + 3 * mss v) |>
                          <| nrtx := if nrtx v <? TCP_MAX_RTX then nrtx v + 1 else nrtx v |>) ;;;
    AddtoSendList p
  else if 3 <? dup_acks (rcvvar s) then
    upd_snd p (fun v => if cwnd v <? u32 (cwnd v + mss v) then v <| cwnd := u32 (cwnd v + mss v) |> else v)
  else ret tt.

Definition send_buffer_of (p : ptr) : M tcp_send_buffer :=
  let* s := get_stream p in
  match sndbuf (sndvar s) with Some b => ret b | None => throw NullDeref end.

(** Catch up with an acknowledgement past [snd_nxt]. *)
Definition recover_nxt (p : ptr) (ack_seq : Z) : M unit :=
  let* s := get_stream p in
  when (TCP_SEQ_GT ack_seq (snd_nxt s))
    (upd_stream p (fun s => s <| snd_nxt := ack_seq |>) ;;;
     let* b := send_buffer_of p in
     when (sb_len b =? 0) (RemoveFromSendList p)).

(** Round trip time, retransmission timeout and congestion window. *)
Definition ack_estimate (p : ptr) (cur_ts rmlen : Z) : M unit :=
  let* s := get_stream p in
  let* packets := lift (acked_packets rmlen (eff_mss (sndvar s))) in
  when (saw_timestamp s)
    (upd_stream p (fun s =>
       let r := EstimateRTT (snd_una (sndvar s)) (snd_nxt s)
                  (u32 (cur_ts - ts_lastack_rcvd (rcvvar s))) (rcvvar s) in
       s <| rcvvar := r |> <| sndvar; rto := u32 (Z.shiftr (srtt r) 3 + rttvar r) |>) ;;;
     let* s := get_stream p in
     assert (0 <? rto (sndvar s))) ;;;
  let* s := get_stream p in
  when (st_ge (state s) TCP_ST_ESTABLISHED)
    (let* c := lift (grow_cwnd (sndvar s) packets) in
     upd_snd p (fun v => v <| cwnd := c |>)).

(** Drop the acknowledged bytes and restart the timer. *)
Definition ack_remove (p : ptr) (cur_ts ack_seq rmlen : Z) : M unit :=
  let* b := send_buffer_of p in
  let '(_, b') := SBRemove b rmlen in
  let* s := get_stream p in
  let prev := snd_wnd (sndvar s) in
  upd_snd p (fun v => v <| sndbuf := Some b' |> <| snd_una := ack_seq |>
                        <| snd_wnd := u32 (sb_size b' - sb_len b') |>) ;;;
  when (prev <=? 0) (RaiseWriteEvent p) ;;;
  UpdateRetransmissionTimer p cur_ts.

Definition ProcessACK (p : ptr) (cur_ts : Z) (t : tcphdr) (seq ack_seq0 window payloadlen : Z) : M unit :=
  let* s := get_stream p in
  let cwindow := if th_syn t then window else u32 (Z.shiftl window (wscale_peer (sndvar s))) in
  let edge := u32 (peer_wnd (sndvar s) + snd_wl2 (rcvvar s)) in
  let ack_seq := data_ack s ack_seq0 in
  let* b := send_buffer_of p in
  if TCP_SEQ_GT ack_seq (u32 (sb_head_seq b + sb_len b)) then ret tt
  else
    ack_window p seq ack_seq cwindow ;;;
    let* dup := count_dup p ack_seq payloadlen edge in
    fast_retransmit p ack_seq dup ;;;
    recover_nxt p ack_seq ;;;
    if TCP_SEQ_GEQ (sb_head_seq b) ack_seq then ret tt
    else
      let rmlen := u32 (ack_seq - sb_head_seq b) in
      when (0 <? rmlen)
        (ack_estimate p cur_ts rmlen ;;;
         ack_remove p cur_ts ack_seq rmlen).

(** ** Payload *)

(** The receive buffer, allocated on first use; [None] when there is no memory. *)
Definition ensure_rcvbuf (p : ptr) : M (option (Z * tcp_ring_buffer)) :=
  let* s := get_stream p in
  match rcvbuf (rcvvar s) with
  | Some b => ret (Some b)
  | None =>
      let* ok := next_malloc in
      let* rbm := gets rbm_rcv in
      let* (o, rbm) := lift (RBInit ok (fresh_mem (chunk_size rbm)) rbm (u32 (irs (rcvvar s) + 1))) in
      modify (fun m => m <| rbm_rcv := rbm |>) ;;;
      upd_rcv p (fun r => r <| rcvbuf := o |>) ;;;
      ret o
  end.

(** Put the payload; discard it at once when the application has closed. *)
Definition store_payload (p : ptr) (cb : Z * tcp_ring_buffer) (payload : list Z) (seq : Z) : M unit :=
  let '(c, b) := cb in
  let* s := get_stream p in
  let* rbm := gets rbm_rcv in
  let* (_, rbm, b) := lift (RBPut rbm b payload (zlen payload) seq) in
  let* (rbm, b) :=
    match state s with
    | TCP_ST_FIN_WAIT_1 | TCP_ST_FIN_WAIT_2 =>
        let* (_, rbm, b) := lift (RBRemove rbm b (u64 (merged_len b)) AT_MTCP) in ret (rbm, b)
    | _ => ret (rbm, b)
    end in
  modify (fun m => m <| rbm_rcv := rbm |>) ;;;
  upd_stream p (fun s => s <| rcvvar; rcvbuf := Some (c, b) |>
                           <| rcv_nxt := u32 (head_seq b + merged_len b) |>
                           <| rcvvar; rcv_wnd := u32 (size b - merged_len b) |>).

(** 0: an immediate acknowledgement is required; other values: not. *)
Definition ProcessTCPPayload (p : ptr) (cur_ts : Z) (payload : list Z) (seq : Z) : M Z :=
  let* s := get_stream p in
  let payloadlen := zlen payload in
  if TCP_SEQ_LT (u32 (seq + payloadlen)) (rcv_nxt s) then ret 0
  else if TCP_SEQ_GT (u32 (seq + payloadlen)) (u32 (rcv_nxt s + rcv_wnd (rcvvar s))) then ret 0
  else
    let* o := ensure_rcvbuf p in
    match o with
    | None =>
        upd_stream p (fun s => s <| state := TCP_ST_CLOSED |> <| close_reason := TCP_NO_MEM |>) ;;;
        RaiseErrorEvent p ;;;
        ret (-1)
    | Some cb =>
        let prev_rcv_nxt := rcv_nxt s in
        store_payload p cb payload seq ;;;
        let* s := get_stream p in
        if TCP_SEQ_LEQ (rcv_nxt s) prev_rcv_nxt then ret 0
        else
          when (bool_decide (state s = TCP_ST_ESTABLISHED)) (RaiseReadEvent p) ;;;
          ret 1
    end.

(** [if (payloadlen > 0) ...]: store the payload and queue its acknowledgement. *)
Definition payload_ack (p : ptr) (cur_ts : Z) (payload : list Z) (seq : Z) : M unit :=
  when (0 <? zlen payload)
    (let* r := ProcessTCPPayload p cur_ts payload seq in
     if negb (r =? 0) then EnqueueACK p cur_ts ACK_OPT_AGGREGATE else EnqueueACK p cur_ts ACK_OPT_NOW).

(** [if (cur_stream->sndvar->sndbuf) ProcessACK(...)] *)
Definition process_ack (p : ptr) (cur_ts : Z) (t : tcphdr) (seq ack_seq window payloadlen : Z) : M unit :=
  let* s := get_stream p in
  match sndbuf (sndvar s) with
  | Some _ => ProcessACK p cur_ts t seq ack_seq window payloadlen
  | None => ret tt
  end.

(** ** Segments without a stream *)

Definition CreateNewFlowHTEntry (cur_ts : Z) (ih : iphdr) (t : tcphdr) (seq ack_seq payloadlen window : Z)
  : M (option ptr) :=
  let reply sq ak flags :=
    SendTCPPacketStandalone (ih_daddr ih) (th_dest t) (ih_saddr ih) (th_source t) sq ak 0 flags [] cur_ts 0 in
  let rstack := Z.lor TCP_FLAG_RST TCP_FLAG_ACK in
  if th_syn t && negb (th_ack t) then
    let* ok := FilterSYNPacket (ih_daddr ih) (th_dest t) in
    if negb ok then reply 0 (u32 (seq + payloadlen + 1)) rstack ;;; ret None
    else
      let* o := HandlePassiveOpen cur_ts ih t seq window in
      match o with
      | None => reply 0 (u32 (seq + payloadlen + 1)) rstack ;;; ret None
      | Some p => ret (Some p)
      end
  else if th_rst t then ret None
  else
    (if th_ack t then reply ack_seq 0 TCP_FLAG_RST else reply 0 (u32 (seq + payloadlen)) rstack) ;;;
    ret None.

(** ** State handlers *)

Definition Handle_TCP_ST_LISTEN (p : ptr) (cur_ts : Z) (t : tcphdr) : M unit :=
  when (th_syn t)
    (upd_stream p (fun s => s <| rcv_nxt := if bool_decide (state s = TCP_ST_LISTEN)
                                            then u32 (rcv_nxt s + 1) else rcv_nxt s |>
                              <| state := TCP_ST_SYN_RCVD |>) ;;;
     AddtoControlList p cur_ts).

(** The connection is established by an acceptable SYN/ACK. *)
Definition active_open_done (p : ptr) (cur_ts : Z) (ih : iphdr) (t : tcphdr) (seq ack_seq payloadlen window : Z)
  : M unit :=
  let* ok := HandleActiveOpen p cur_ts t seq ack_seq window in
  if negb ok then ret tt
  else
    upd_stream p (fun s => s <| sndvar; nrtx := 0 |> <| rcv_nxt := u32 (irs (rcvvar s) + 1) |>) ;;;
    RemoveFromRTOList p ;;;
    set_state p TCP_ST_ESTABLISHED ;;;
    let* s := get_stream p in
    match socket s with
    | Some _ =>
        RaiseWriteEvent p ;;;
        AddtoControlList p cur_ts ;;;
        when (0 <? tcp_timeout) (AddtoTimeoutList p)
    | None =>
        SendTCPPacketStandalone (ih_daddr ih) (th_dest t) (ih_saddr ih) (th_source t)
          0 (u32 (seq + payloadlen + 1)) 0 (Z.lor TCP_FLAG_RST TCP_FLAG_ACK) [] cur_ts 0 ;;;
        upd_stream p (fun s => s <| close_reason := TCP_ACTIVE_CLOSE |>) ;;;
        DestroyTCPStream p
    end.

(** A reset that answers the SYN. *)
Definition syn_refused (p : ptr) : M unit :=
  upd_stream p (fun s => s <| state := TCP_ST_CLOSE_WAIT |> <| close_reason := TCP_RESET |>) ;;;
  let* s := get_stream p in
  match socket s with Some _ => RaiseErrorEvent p | None => DestroyTCPStream p end.

Definition Handle_TCP_ST_SYN_SENT (p : ptr) (cur_ts : Z) (ih : iphdr) (t : tcphdr)
    (seq ack_seq payloadlen window : Z) : M unit :=
  let* s := get_stream p in
  if th_ack t && (TCP_SEQ_LEQ ack_seq (iss (sndvar s)) || TCP_SEQ_GT ack_seq (snd_nxt s)) then
    when (negb (th_rst t))
      (SendTCPPacketStandalone (ih_daddr ih) (th_dest t) (ih_saddr ih) (th_source t)
         ack_seq 0 0 TCP_FLAG_RST [] cur_ts 0 ;;; ret tt)
  else
    when (th_ack t) (upd_snd p (fun v => v <| snd_una := u32 (snd_una v + 1) |>)) ;;;
    if th_rst t then when (th_ack t) (syn_refused p)
    else if th_syn t then
      if th_ack t then active_open_done p cur_ts ih t seq ack_seq payloadlen window
      else
        upd_stream p (fun s => s <| state := TCP_ST_SYN_RCVD |> <| snd_nxt := iss (sndvar s) |>) ;;;
        AddtoControlList p cur_ts
    else ret tt.

(** Hand an established stream to its listener. *)
Definition accept_stream (p : ptr) (cur_ts : Z) (t : tcphdr) : M unit :=
  let* o := ListenerHTSearch (th_dest t) in
  match o with
  | None => throw NullDeref
  | Some l =>
      let* x := get_listener l in
      let* (r, q) := lift (StreamEnqueue (acceptq x) p) in
      upd_listener l (fun x => x <| acceptq := q |>) ;;;
      when (r <? 0)
        (upd_stream p (fun s => s <| close_reason := TCP_NOT_ACCEPTED |> <| state := TCP_ST_CLOSED |>) ;;;
         AddtoControlList p cur_ts) ;;;
      when (0 <? tcp_timeout) (AddtoTimeoutList p) ;;;
      let* sk := get_socket (l_socket x) in
      when (has (epoll sk) MTCP_EPOLLIN)
        (raise_event MTCP_EVENT_QUEUE (l_socket x) MTCP_EPOLLIN)
  end.

Definition Handle_TCP_ST_SYN_RCVD (p : ptr) (cur_ts : Z) (t : tcphdr) (ack_seq : Z) : M unit :=
  let* s := get_stream p in
  if th_ack t then
    if negb (ack_seq =? u32 (iss (sndvar s) + 1)) then ret tt
    else
      upd_stream p (fun s => s <| sndvar; snd_una := u32 (snd_una (sndvar s) + 1) |>
                               <| snd_nxt := ack_seq |>
                               <| sndvar; cwnd := if cwnd (sndvar s) =? 1 then mss (sndvar s) * 2 else mss (sndvar s) |>
                               <| sndvar; nrtx := 0 |> <| rcv_nxt := u32 (irs (rcvvar s) + 1) |>) ;;;
      RemoveFromRTOList p ;;;
      set_state p TCP_ST_ESTABLISHED ;;;
      accept_stream p cur_ts t
  else
    upd_stream p (fun s => s <| snd_nxt := iss (sndvar s) |>) ;;;
    AddtoControlList p cur_ts.

Definition Handle_TCP_ST_ESTABLISHED (p : ptr) (cur_ts : Z) (t : tcphdr) (seq ack_seq : Z)
    (payload : list Z) (window : Z) : M unit :=
  if th_syn t then
    upd_stream p (fun s => s <| snd_nxt := ack_seq |>) ;;;
    AddtoControlList p cur_ts
  else
    payload_ack p cur_ts payload seq ;;;
    when (th_ack t) (process_ack p cur_ts t seq ack_seq window (zlen payload)) ;;;
    when (th_fin t)
      (let* s := get_stream p in
       if u32 (seq + zlen payload) =? rcv_nxt s then
         upd_stream p (fun s => s <| state := TCP_ST_CLOSE_WAIT |> <| rcv_nxt := u32 (rcv_nxt s + 1) |>) ;;;
         AddtoControlList p cur_ts ;;;
         RaiseReadEvent p
       else EnqueueACK p cur_ts ACK_OPT_NOW).

Definition Handle_TCP_ST_CLOSE_WAIT (p : ptr) (cur_ts : Z) (t : tcphdr) (seq ack_seq payloadlen window : Z)
  : M unit :=
  let* s := get_stream p in
  if TCP_SEQ_LT seq (rcv_nxt s) then AddtoControlList p cur_ts
  else process_ack p cur_ts t seq ack_seq window payloadlen.

Definition Handle_TCP_ST_LAST_ACK (p : ptr) (cur_ts : Z) (t : tcphdr) (seq ack_seq payloadlen window : Z)
  : M unit :=
  let* s := get_stream p in
  if TCP_SEQ_LT seq (rcv_nxt s) then ret tt
  else if th_ack t then
    process_ack p cur_ts t seq ack_seq window payloadlen ;;;
    let* s := get_stream p in
    if negb (is_fin_sent (sndvar s)) then ret tt
    else if ack_seq =? u32 (fss (sndvar s) + 1) then
      upd_snd p (fun v => v <| snd_una := u32 (snd_una v + 1) |>) ;;;
      UpdateRetransmissionTimer p cur_ts ;;;
      upd_stream p (fun s => s <| state := TCP_ST_CLOSED |> <| close_reason := TCP_PASSIVE_CLOSE |>) ;;;
      DestroyTCPStream p
    else AddtoControlList p cur_ts
  else AddtoControlList p cur_ts.

(** The acknowledgement of the FIN in FIN_WAIT_1. *)
Definition fin_acked (p : ptr) (ack_seq : Z) : M unit :=
  let* s := get_stream p in
  when (is_fin_sent (sndvar s) && (ack_seq =? u32 (fss (sndvar s) + 1)))
    (upd_stream p (fun s => s <| sndvar; snd_una := ack_seq |>
                              <| snd_nxt := if TCP_SEQ_GT ack_seq (snd_nxt s) then ack_seq else snd_nxt s |>
                              <| sndvar; nrtx := 0 |>) ;;;
     RemoveFromRTOList p ;;;
     set_state p TCP_ST_FIN_WAIT_2).

Definition Handle_TCP_ST_FIN_WAIT_1 (p : ptr) (cur_ts : Z) (t : tcphdr) (seq ack_seq : Z)
    (payload : list Z) (window : Z) : M unit :=
  let* s := get_stream p in
  if TCP_SEQ_LT seq (rcv_nxt s) then AddtoControlList p cur_ts
  else if negb (th_ack t) then ret tt
  else
    process_ack p cur_ts t seq ack_seq window (zlen payload) ;;;
    fin_acked p ack_seq ;;;
    payload_ack p cur_ts payload seq ;;;
    when (th_fin t)
      (let* s := get_stream p in
       when (u32 (seq + zlen payload) =? rcv_nxt s)
         (upd_stream p (fun s => s <| rcv_nxt := u32 (rcv_nxt s + 1) |>) ;;;
          (match state s with
           | TCP_ST_FIN_WAIT_1 => set_state p TCP_ST_CLOSING
           | TCP_ST_FIN_WAIT_2 => set_state p TCP_ST_TIME_WAIT ;;; AddtoTimewaitList p cur_ts
           | _ => ret tt
           end) ;;;
          AddtoControlList p cur_ts)).

Definition Handle_TCP_ST_FIN_WAIT_2 (p : ptr) (cur_ts : Z) (t : tcphdr) (seq ack_seq : Z)
    (payload : list Z) (window : Z) : M unit :=
  if negb (th_ack t) then ret tt
  else
    process_ack p cur_ts t seq ack_seq window (zlen payload) ;;;
    payload_ack p cur_ts payload seq ;;;
    when (th_fin t)
      (let* s := get_stream p in
       when (u32 (seq + zlen payload) =? rcv_nxt s)
         (upd_stream p (fun s => s <| state := TCP_ST_TIME_WAIT |> <| rcv_nxt := u32 (rcv_nxt s + 1) |>) ;;;
          AddtoTimewaitList p cur_ts ;;;
          AddtoControlList p cur_ts)).

Definition Handle_TCP_ST_CLOSING (p : ptr) (cur_ts : Z) (t : tcphdr) (seq ack_seq payloadlen window : Z)
  : M unit :=
  if negb (th_ack t) then ret tt
  else
    process_ack p cur_ts t seq ack_seq window payloadlen ;;;
    let* s := get_stream p in
    if negb (is_fin_sent (sndvar s)) then ret tt
    else if negb (ack_seq =? u32 (fss (sndvar s) + 1)) then ret tt
    else
      upd_stream p (fun s => s <| sndvar; snd_una := ack_seq |> <| snd_nxt := ack_seq |>) ;;;
      UpdateRetransmissionTimer p cur_ts ;;;
      set_state p TCP_ST_TIME_WAIT ;;;
      AddtoTimewaitList p cur_ts.

Definition Handle_TCP_ST_TIME_WAIT (p : ptr) (cur_ts : Z) : M unit :=
  let* s := get_stream p in
  when (on_timewait_list s) (RemoveFromTimewaitList p ;;; AddtoTimewaitList p cur_ts) ;;;
  AddtoControlList p cur_ts.

(** The [switch] on the state. *)
Definition handle_segment (p : ptr) (cur_ts : Z) (ih : iphdr) (t : tcphdr) (seq ack_seq : Z)
    (payload : list Z) (window : Z) : M unit :=
  let* s := get_stream p in
  let payloadlen := zlen payload in
  match state s with
  | TCP_ST_LISTEN => Handle_TCP_ST_LISTEN p cur_ts t
  | TCP_ST_SYN_SENT => Handle_TCP_ST_SYN_SENT p cur_ts ih t seq ack_seq payloadlen window
  | TCP_ST_SYN_RCVD =>
      if th_syn t && (seq =? irs (rcvvar s)) then Handle_TCP_ST_LISTEN p cur_ts t
      else
        Handle_TCP_ST_SYN_RCVD p cur_ts t ack_seq ;;;
        let* s := get_stream p in
        when ((0 <? payloadlen) && bool_decide (state s = TCP_ST_ESTABLISHED))
          (Handle_TCP_ST_ESTABLISHED p cur_ts t seq ack_seq payload window)
  | TCP_ST_ESTABLISHED => Handle_TCP_ST_ESTABLISHED p cur_ts t seq ack_seq payload window
  | TCP_ST_CLOSE_WAIT => Handle_TCP_ST_CLOSE_WAIT p cur_ts t seq ack_seq payloadlen window
  | TCP_ST_LAST_ACK => Handle_TCP_ST_LAST_ACK p cur_ts t seq ack_seq payloadlen window
  | TCP_ST_FIN_WAIT_1 => Handle_TCP_ST_FIN_WAIT_1 p cur_ts t seq ack_seq payload window
  | TCP_ST_FIN_WAIT_2 => Handle_TCP_ST_FIN_WAIT_2 p cur_ts t seq ack_seq payload window
  | TCP_ST_CLOSING => Handle_TCP_ST_CLOSING p cur_ts t seq ack_seq payloadlen window
  | TCP_ST_TIME_WAIT => Handle_TCP_ST_TIME_WAIT p cur_ts
  | TCP_ST_CLOSED => ret tt
  end.

(** A decoded segment for stream [p]. *)
Definition process_stream (p : ptr) (cur_ts : Z) (ih : iphdr) (t : tcphdr) (payload : list Z) : M unit :=
  let seq := th_seq t in
  let ack_seq := th_ack_seq t in
  let window := th_window t in
  let* s := get_stream p in
  let* ok := if st_lt TCP_ST_SYN_RCVD (state s)
             then ValidateSequence p cur_ts t seq ack_seq (zlen payload) else ret true in
  if negb ok then ret tt
  else
    upd_stream p (fun s => s <| sndvar; peer_wnd := if th_syn t then window
                                          else u32 (Z.shiftl window (wscale_peer (sndvar s))) |>
                             <| last_active_ts := cur_ts |>) ;;;
    UpdateTimeoutList p ;;;
    let* done :=
      if th_rst t then
        upd_stream p (fun s => s <| have_reset := true |>) ;;;
        let* s := get_stream p in
        if st_lt TCP_ST_SYN_SENT (state s) then ProcessRST p ack_seq else ret false
      else ret false in
    if done then ret tt
    else handle_segment p cur_ts ih t seq ack_seq payload window.

(** [seg] are the bytes from the TCP header on; 1 is TRUE, -1 is ERROR. *)
Definition ProcessTCPPacket (cur_ts : Z) (ih : iphdr) (ip_len : Z) (seg : list Z) : M Z :=
  let* t := lift (parse_tcph seg) in
  let payloadlen := ip_len - ih_ihl ih * 4 - th_doff t * 4 in
  if ip_len <? (ih_ihl ih + th_doff t) * 4 then ret (-1)
  else if negb hw_checksum &&
          negb (TCPCalcChecksum seg (u16 (th_doff t * 4 + payloadlen)) (ih_saddr ih) (ih_daddr ih) =? 0)
  then ret (-1)
  else
    let* payload := lift (from_option_res OutOfBounds (mem_read seg (th_doff t * 4) payloadlen)) in
    let key := mkFlow (ih_daddr ih) (ih_saddr ih) (th_dest t) (th_source t) in
    let* o := StreamHTSearch key in
    let* o := match o with
              | Some p => ret (Some p)
              | None => CreateNewFlowHTEntry cur_ts ih t (th_seq t) (th_ack_seq t) payloadlen (th_window t)
              end in
    match o with
    | None => ret 1
    | Some p => process_stream p cur_ts ih t payload ;;; ret 1
    end.
End input.
