(* ===== verification/SafeIn.v ===== *)
(** * Receiving keeps the invariant

    Whatever bytes arrive, [ProcessTCPPacket] run from a manager that
    satisfies the invariant touches no destroyed stream or listener and
    corrupts no list; when it returns the invariant holds again, and at most
    one stream has changed, appeared or gone. *)

From S2P Require Import Prelude SeqNum SpscQueue MemPool RingBuffer SendBuffer AddrPool Rss Checksum.
From S2P Require Import Machine Wp Lists TcpOptions FlowTable Network Faults StreamOps Invariant Boot StreamInv Live.
From S2P Require Import TcpOut SafeOut Timer SafeTimer TcpIn.

#[export] Hint Resolve RaiseReadEvent_keeps RaiseWriteEvent_keeps RaiseCloseEvent_keeps RaiseErrorEvent_keeps
  raise_event_keeps get_socket_keeps : live.

Section input.
Context `{Env} `{!NetOk}.
Implicit Types (m : mtcp_manager) (s : tcp_stream) (p q : ptr) (rest : gmap ptr tcp_stream).
Let HE : forall e, calm e -> tame e := calm_tame.

(** ** Options *)

Lemma parse_options_quiet fuel ts mem len i s s' :
  parse_options fuel ts mem len i s = Ok s' -> flags s' = flags s /\ identity s' = identity s.
Proof.
  revert i s. induction fuel as [|fuel IH]; intros i s; cbn [parse_options]; [done|].
  destruct (negb _); [by intros [= <-]|]. destruct (rd mem i) as [o|]; [cbn [res_bind]|done].
  destruct (_ =? _); [by intros [= <-]|]. destruct (_ =? _); [apply IH|].
  destruct (rd mem _) as [n|]; [cbn [res_bind]|done]. destruct (_ <? _); [by intros [= <-]|].
  destruct (_ =? _).
  { destruct (rd mem _) as [x|]; [cbn [res_bind]|done]. destruct (rd mem _) as [y|]; [cbn [res_bind]|done].
    intros [-> ->]%IH. done. }
  destruct (_ =? _).
  { destruct (rd mem _) as [x|]; [cbn [res_bind]|done]. intros [-> ->]%IH. done. }
  destruct (_ =? _); [intros [-> ->]%IH; done|]. destruct (_ =? _); [|apply IH].
  destruct (rd32 mem _) as [x|]; [cbn [res_bind]|done]. intros [-> ->]%IH. done.
Qed.

Lemma parse_into_keeps p rest ts t : keeps tame (live T p rest) (parse_into p ts t).
Proof.
  intros m (Hw & Hr & s & Hp & _). unfold parse_into. apply wp_bind. eapply wp_get_stream; [exact Hp|].
  apply wp_bind, wp_lift; [|apply ParseTCPOptions_faults]. intros s' Hs. eapply wp_upd_stream; [exact Hp|].
  apply parse_options_quiet in Hs as [Hf Hi].
  eapply shift_live; [|exact (upd_stream_quiet m p (fun _ => s') s Hw Hp Hf Hi)|done]. done.
Qed.
Hint Resolve parse_into_keeps : live.

(** ** Established streams *)

Lemma ValidateSequence_keeps p rest ts t sq ak n : keeps tame (live T p rest) (ValidateSequence p ts t sq ak n).
Proof. unfold ValidateSequence, check_paws. keep. Qed.

Lemma acked_packets_faults a b : faults_in calm (acked_packets a b).
Proof. unfold acked_packets. faults. Qed.
Lemma grow_cwnd_faults v n : faults_in calm (grow_cwnd v n).
Proof. unfold grow_cwnd. faults. Qed.
Hint Resolve acked_packets_faults grow_cwnd_faults : faults.

Lemma send_buffer_of_keeps p rest : keeps tame (live T p rest) (send_buffer_of p).
Proof. unfold send_buffer_of. keep. Qed.
Hint Resolve send_buffer_of_keeps : live.

Lemma ProcessACK_keeps p rest ts t sq ak win n : keeps tame (live T p rest) (ProcessACK p ts t sq ak win n).
Proof.
  unfold ProcessACK, ack_window, count_dup, fast_retransmit, recover_nxt, ack_estimate, ack_remove. keep.
Qed.
Hint Resolve ProcessACK_keeps ValidateSequence_keeps : live.

Lemma next_malloc_keeps I : core_inv I -> keeps tame I next_malloc.
Proof. intros HI m Hm. unfold wp, next_malloc. destruct (mallocs m) as [|b l]; [done|]. eapply HI; [|exact Hm]. done. Qed.
Hint Resolve next_malloc_keeps : live.

Lemma ProcessTCPPayload_keeps p rest ts payload sq : keeps tame (live T p rest) (ProcessTCPPayload p ts payload sq).
Proof. unfold ProcessTCPPayload, ensure_rcvbuf, store_payload. keep. Qed.
Hint Resolve ProcessTCPPayload_keeps : live.

Lemma payload_ack_keeps p rest ts payload sq : keeps tame (live T p rest) (payload_ack p ts payload sq).
Proof. unfold payload_ack. keep. Qed.
Lemma process_ack_keeps p rest ts t sq ak win n : keeps tame (live T p rest) (process_ack p ts t sq ak win n).
Proof. unfold process_ack. keep. Qed.
Hint Resolve payload_ack_keeps process_ack_keeps : live.

(** ** Listeners *)

Lemma live_set_listener Φ p rest m l x :
  live Φ p rest m -> live Φ p rest (m <| listener_store := <[l := x]> (listener_store m) |>).
Proof.
  intros (Hw & Hr & Hs). split_and!; [|done|done]. constructor; try apply Hw. intros j k Hk. simpl.
  destruct (decide (k = l)) as [->|Hne]; [by rewrite lookup_insert_eq|].
  rewrite lookup_insert_ne by done. by apply (wf_listeners _ Hw j).
Qed.

(** A search of the listener table reads only listeners that exist. *)
Lemma ListenerHTSearch_wp m port :
  wf m -> wp tame (ListenerHTSearch port) (fun o m' => m' = m /\ forall l, o = Some l -> is_Some (listener_store m !! l)) m.
Proof.
  intros Hw. unfold ListenerHTSearch. apply wp_bind, wp_gets.
  assert (forall l, l ∈ bucket (listeners m) (HashListener port) -> is_Some (listener_store m !! l)) as Hl
    by (intros l; apply (wf_listeners _ Hw)).
  induction (bucket (listeners m) (HashListener port)) as [|l ls IH]; cbn [lt_walk]; [by apply wp_ret|].
  destruct (Hl l) as [x Hx]; [apply list_elem_of_here|]. apply wp_bind. unfold listener_port.
  apply wp_bind. unfold wp at 1, get_listener. rewrite Hx. apply wp_bind.
  unfold wp at 1, get_socket. destruct (sockets m !! l_socket x) as [sk|]; [|by apply HE; calm_fault].
  apply wp_ret. destruct (EqualListener _ _).
  - apply wp_ret. split; [done|]. by intros ? [= <-].
  - apply IH. intros k Hk. by apply Hl, list_elem_of_further.
Qed.

Lemma accept_stream_keeps p rest ts t : keeps tame (live T p rest) (accept_stream p ts t).
Proof.
  intros m Hm. unfold accept_stream. apply wp_bind. eapply wp_mono; [apply ListenerHTSearch_wp, Hm|].
  intros [l|] m' [-> Hl]; [|apply wp_throw, HE; calm_fault]. destruct (Hl l eq_refl) as [x Hx].
  apply wp_bind. unfold wp at 1, get_listener. rewrite Hx. apply wp_bind, wp_lift; [|intros e He; by eapply HE, Enqueue_faults].
  intros [r q] _. apply wp_bind. unfold wp at 1, upd_listener. rewrite Hx.
  pose proof (live_set_listener T p rest m l (x <| acceptq := q |>) Hm) as Hm'.
  match goal with |- wp _ ?c _ _ => assert (keeps tame (live T p rest) c) as Hk by keep end. by apply Hk.
Qed.
Hint Resolve accept_stream_keeps : live.

(** ** State handlers *)

Lemma SendTCPPacketStandalone_keeps' p rest sa sp da dp sq ak win fl payload ts ets :
  keeps tame (live T p rest) (SendTCPPacketStandalone sa sp da dp sq ak win fl payload ts ets).
Proof. apply SendTCPPacketStandalone_keeps; [done|apply live_core]. Qed.
Hint Resolve SendTCPPacketStandalone_keeps' : live.

Lemma Handle_LISTEN_keeps p rest ts t : keeps tame (live T p rest) (Handle_TCP_ST_LISTEN p ts t).
Proof. unfold Handle_TCP_ST_LISTEN. keep. Qed.

Lemma HandleActiveOpen_keeps p rest ts t sq ak win : keeps tame (live T p rest) (HandleActiveOpen p ts t sq ak win).
Proof. unfold HandleActiveOpen. keep. Qed.
Hint Resolve Handle_LISTEN_keeps HandleActiveOpen_keeps : live.

Lemma Handle_SYN_SENT_leads p rest ts ih t sq ak n win :
  leads tame (live T p rest) (over p rest) (Handle_TCP_ST_SYN_SENT p ts ih t sq ak n win).
Proof. unfold Handle_TCP_ST_SYN_SENT, syn_refused, active_open_done. lead. Qed.

Lemma Handle_SYN_RCVD_keeps p rest ts t ak : keeps tame (live T p rest) (Handle_TCP_ST_SYN_RCVD p ts t ak).
Proof. unfold Handle_TCP_ST_SYN_RCVD. keep. Qed.

Lemma Handle_ESTABLISHED_keeps p rest ts t sq ak payload win :
  keeps tame (live T p rest) (Handle_TCP_ST_ESTABLISHED p ts t sq ak payload win).
Proof. unfold Handle_TCP_ST_ESTABLISHED. keep. Qed.
Hint Resolve Handle_SYN_RCVD_keeps Handle_ESTABLISHED_keeps : live.

Lemma Handle_CLOSE_WAIT_keeps p rest ts t sq ak n win :
  keeps tame (live T p rest) (Handle_TCP_ST_CLOSE_WAIT p ts t sq ak n win).
Proof. unfold Handle_TCP_ST_CLOSE_WAIT. keep. Qed.

Lemma Handle_LAST_ACK_leads p rest ts t sq ak n win :
  leads tame (live T p rest) (over p rest) (Handle_TCP_ST_LAST_ACK p ts t sq ak n win).
Proof. unfold Handle_TCP_ST_LAST_ACK. lead. Qed.

Lemma Handle_FIN_WAIT_1_keeps p rest ts t sq ak payload win :
  keeps tame (live T p rest) (Handle_TCP_ST_FIN_WAIT_1 p ts t sq ak payload win).
Proof. unfold Handle_TCP_ST_FIN_WAIT_1, fin_acked. keep. Qed.

Lemma Handle_FIN_WAIT_2_keeps p rest ts t sq ak payload win :
  keeps tame (live T p rest) (Handle_TCP_ST_FIN_WAIT_2 p ts t sq ak payload win).
Proof. unfold Handle_TCP_ST_FIN_WAIT_2. keep. Qed.

Lemma Handle_CLOSING_keeps p rest ts t sq ak n win :
  keeps tame (live T p rest) (Handle_TCP_ST_CLOSING p ts t sq ak n win).
Proof. unfold Handle_TCP_ST_CLOSING. keep. Qed.

Lemma Handle_TIME_WAIT_keeps p rest ts : keeps tame (live T p rest) (Handle_TCP_ST_TIME_WAIT p ts).
Proof. unfold Handle_TCP_ST_TIME_WAIT. keep. Qed.
Hint Resolve Handle_CLOSE_WAIT_keeps Handle_FIN_WAIT_1_keeps Handle_FIN_WAIT_2_keeps Handle_CLOSING_keeps
  Handle_TIME_WAIT_keeps : live.
Hint Resolve Handle_SYN_SENT_leads Handle_LAST_ACK_leads : ends.

Lemma handle_segment_leads p rest ts ih t sq ak payload win :
  leads tame (live T p rest) (over p rest) (handle_segment p ts ih t sq ak payload win).
Proof. unfold handle_segment. lead. Qed.

Lemma ProcessRST_wp p rest ak m :
  live T p rest m -> wp tame (ProcessRST p ak) (fun b m' => over p rest m' /\ (b = false -> live T p rest m')) m.
Proof.
  intros Hm. destruct (live_at _ _ _ _ Hm) as (s & _ & _ & Hp). unfold ProcessRST. apply wp_bind.
  eapply wp_get_stream; [exact Hp|].
  assert (forall c : M bool, leads tame (live T p rest) (over p rest) c -> (forall m, wp (fun _ => True) c (fun b _ => b = true) m) ->
    wp tame c (fun b m' => over p rest m' /\ (b = false -> live T p rest m')) m) as Hk.
  { intros c Hc Hb. eapply wp_mono; [eapply wp_conj; [by apply Hc|by apply Hb]|]. intros b m' [Ho Eb].
    cbv beta in Ho, Eb. split; [exact Ho|]. intros Ef. congruence. }
  assert (forall (c : M unit) m, wp (fun _ => True) (c ;;; ret true) (fun b _ => b = true) m) as Ht
    by (intros c m0; unfold wp, bind; by destruct (c m0) as [[]|]).
  destruct (state s); try (apply wp_ret; split; [by eapply live_over|done]).
  all: apply Hk; [lead|].
  all: try (apply Ht).
  all: intros m0; unfold wp, bind; by destruct (upd_stream _ _ m0) as [[]|]; [destruct (DestroyTCPStream _ _) as [[]|]|].
Qed.

Lemma process_stream_leads p rest ts ih t payload :
  leads tame (live T p rest) (over p rest) (process_stream p ts ih t payload).
Proof.
  unfold process_stream. cbv zeta. apply leads_get. intros s _.
  apply (leads_bind tame _ (live T p rest)); [|intros ok].
  { match goal with |- leads _ ?I _ ?c => change (keeps tame I c) end. keep. }
  destruct (negb ok); [apply leads_ret; apply live_over|].
  apply (leads_bind tame _ (live T p rest)); [|intros _].
  { match goal with |- leads _ ?I _ ?c => change (keeps tame I c) end. keep. }
  apply (leads_bind tame _ (live T p rest)); [|intros _].
  { match goal with |- leads _ ?I _ ?c => change (keeps tame I c) end. keep. }
  intros m Hm. apply wp_bind.
  eapply wp_mono with (Q := fun b m' => over p rest m' /\ (b = false -> live T p rest m')).
  - destruct (th_rst t); [|by apply wp_ret; split; [eapply live_over|]].
    apply wp_bind. eapply wp_mono.
    { match goal with |- wp _ ?c _ _ => assert (keeps tame (live T p rest) c) as Hk by keep end. by apply Hk. }
    clear m Hm. intros a m Hm. cbv beta in Hm. destruct (live_at _ _ _ _ Hm) as (s' & _ & _ & Hp). apply wp_bind. eapply wp_get_stream; [exact Hp|].
    destruct (st_lt _ _); [by apply ProcessRST_wp|]. apply wp_ret. by split; [eapply live_over|].
  - intros b m' [Ho Hl]. destruct b; [by apply wp_ret|]. by apply handle_segment_leads, Hl.
Qed.

(** ** Finding or making the stream *)

Lemma EqualFlow_eq f g : EqualFlow f g = true <-> f = g.
Proof.
  unfold EqualFlow. rewrite !andb_true_iff, !Z.eqb_eq. destruct f, g; simpl. split; [|by intros [= -> -> -> ->]].
  by intros [[[-> ->] ->] ->].
Qed.

(** The search answers with the live stream of the flow, if there is one. *)
Lemma StreamHTSearch_wp m f :
  wf m -> wp no_fault (StreamHTSearch f) (fun o m' => m' = m /\
    match o with
    | Some p => exists s, streams m !! p = Some s /\ flow_of s = f
    | None => forall p s, streams m !! p = Some s -> flow_of s <> f
    end) m.
Proof.
  intros Hw. unfold StreamHTSearch. apply wp_bind, wp_gets.
  pose proof (wf_lists _ Hw (LFlow (HashFlow f))) as [_ Hin]. simpl in Hin.
  set (l := bucket _ _) in *.
  assert (forall p, p ∈ l -> is_Some (streams m !! p)) as Hlive by (intros p (s & Hs & _)%Hin; eauto).
  assert (forall p s, streams m !! p = Some s -> flow_of s = f -> p ∈ l) as Hall.
  { intros p s Hs Hf. apply Hin. exists s. split; [done|].
    by rewrite (so_hash _ (wf_streams _ Hw _ _ Hs)), Hf, Z.eqb_refl. }
  clearbody l. clear Hin. induction l as [|q l IH]; cbn [ht_walk].
  { apply wp_ret. split; [done|]. intros p s Hs Hf. by apply (not_elem_of_nil p), (Hall p s). }
  destruct (Hlive q) as [s Hs]; [apply list_elem_of_here|]. apply wp_bind. eapply wp_get_stream; [exact Hs|].
  destruct (EqualFlow (flow_of s) f) eqn:Ef.
  - apply wp_ret. split; [done|]. apply EqualFlow_eq in Ef. eauto.
  - apply IH; [intros p Hp; by apply Hlive, list_elem_of_further|]. intros p s' Hs' Hf'.
    pose proof (Hall p s' Hs' Hf') as Hp. apply elem_of_cons in Hp as [->|]; [|done]. simplify_eq.
    exfalso. assert (EqualFlow (flow_of s) (flow_of s) = true) by (by apply EqualFlow_eq). congruence.
Qed.

Lemma FilterSYNPacket_wp m ip port : wf m -> wp tame (FilterSYNPacket ip port) (fun _ m' => m' = m) m.
Proof.
  intros Hw. unfold FilterSYNPacket. apply wp_bind. eapply wp_mono; [by apply ListenerHTSearch_wp|].
  intros [l|] m' [-> Hl]; [|by apply wp_ret]. destruct (Hl l eq_refl) as [x Hx].
  apply wp_bind. unfold wp at 1, get_listener. rewrite Hx. apply wp_bind.
  unfold wp at 1, get_socket. destruct (sockets m !! l_socket x); [|by apply HE; calm_fault].
  destruct (_ =? _); [|by apply wp_ret]. destruct (negb _); by apply wp_ret.
Qed.

Lemma wf_streams_core ss : core_inv (fun m => wf m /\ streams m = ss).
Proof. intros m m' Ec [Hw Hs]. split; [by eapply wf_core|]. unfold core in Ec. congruence. Qed.

Lemma HandlePassiveOpen_wp m ts ih t sq win :
  wf m -> wp tame (HandlePassiveOpen ts ih t sq win) (fun o m' =>
    match o with
    | Some p => streams m !! p = None /\ live T p (streams m) m'
    | None => wf m' /\ streams m' = streams m
    end) m.
Proof.
  intros Hw. unfold HandlePassiveOpen. apply wp_bind.
  eapply wp_mono; [apply (CreateTCPStream_wp tame); [done..|]|].
  { intros e He. by eapply HE, GetOutputInterface_faults. }
  intros [p|] m1; unfold created.
  - intros (Hw1 & Hn & s & Hs & _). assert (live T p (streams m) m1) as Hl.
    { split; [done|]. rewrite Hs, delete_insert_id by done. split; [done|]. exists s. by rewrite lookup_insert_eq. }
    apply wp_bind. eapply wp_mono.
    { match goal with |- wp _ ?c _ _ => assert (keeps tame (live T p (streams m)) c) as Hk by keep end. by apply Hk. }
    intros a m2 Hl2. apply wp_bind. eapply wp_mono; [apply parse_into_keeps; exact Hl2|]. intros b m3 Hl3. by apply wp_ret.
  - intros (Hw1 & Hs & _). by apply wp_ret.
Qed.

Lemma CreateNewFlowHTEntry_wp m ts ih t sq ak n win :
  wf m -> wp tame (CreateNewFlowHTEntry ts ih t sq ak n win) (fun o m' =>
    match o with
    | Some p => streams m !! p = None /\ live T p (streams m) m'
    | None => wf m' /\ streams m' = streams m
    end) m.
Proof.
  intros Hw. unfold CreateNewFlowHTEntry. cbv zeta.
  assert (forall a b c m1, wf m1 /\ streams m1 = streams m ->
    wp tame (SendTCPPacketStandalone (ih_daddr ih) (th_dest t) (ih_saddr ih) (th_source t) a b 0 c [] ts 0)
      (fun _ m' => wf m' /\ streams m' = streams m) m1) as Hsend.
  { intros a b c. apply (SendTCPPacketStandalone_keeps tame HE _ (wf_streams_core (streams m))). }
  destruct (_ && _); [|destruct (th_rst t); [by apply wp_ret|]].
  - apply wp_bind. eapply wp_mono; [by apply FilterSYNPacket_wp|]. intros ok m1 ->. destruct (negb ok).
    { apply wp_bind. eapply wp_mono; [by apply Hsend|]. intros a m1 Hm1. by apply wp_ret. }
    apply wp_bind. eapply wp_mono; [by apply HandlePassiveOpen_wp|]. intros [p|] m1 Hm1; [by apply wp_ret|].
    apply wp_bind. eapply wp_mono; [by apply Hsend|]. intros a m2 Hm2. by apply wp_ret.
  - apply wp_bind. eapply wp_mono; [destruct (th_ack t); by apply Hsend|]. intros a m1 Hm1. by apply wp_ret.
Qed.

(** ** A packet *)

(** The flow a segment belongs to, seen from this side. *)
Definition seg_flow (ih : iphdr) (t : tcphdr) : flow_key := mkFlow (ih_daddr ih) (ih_saddr ih) (th_dest t) (th_source t).

(** At most one stream differs, and it is the stream of the segment's flow. *)
Definition only_flow (ih : iphdr) (seg : list Z) m m' : Prop :=
  exists p, delete p (streams m') = delete p (streams m) /\
    forall t s, parse_tcph seg = Ok t -> streams m !! p = Some s -> flow_of s = seg_flow ih t.

Lemma parse_tcph_faults seg : faults_in calm (parse_tcph seg).
Proof. unfold parse_tcph, rd16le, rd16be, rd. faults. Qed.

Lemma only_flow_refl ih seg m m' p : streams m !! p = None -> streams m' = streams m -> only_flow ih seg m m'.
Proof. intros Hn Hs. exists p. split; [by rewrite Hs|]. intros t s _ Hp. congruence. Qed.

Lemma fresh_key (ss : gmap ptr tcp_stream) : exists p, ss !! p = None.
Proof. exists (fresh (dom ss)). apply not_elem_of_dom, is_fresh. Qed.

Lemma ProcessTCPPacket_wp m ts ih len seg :
  wf m -> wp tame (ProcessTCPPacket ts ih len seg) (fun _ m' => wf m' /\ only_flow ih seg m m') m.
Proof.
  intros Hw. unfold ProcessTCPPacket. destruct (fresh_key (streams m)) as [p0 Hp0].
  assert (forall m', wf m' -> streams m' = streams m -> wf m' /\ only_flow ih seg m m') as Hsame
    by (intros m' ? ?; split; [done|by eapply only_flow_refl]).
  apply wp_bind, wp_lift; [|intros e He; by eapply HE, parse_tcph_faults]. intros t Et. cbv zeta.
  destruct (_ <? _); [by apply wp_ret, Hsame|]. destruct (_ && _); [by apply wp_ret, Hsame|].
  apply wp_bind, wp_lift; [|intros e He; apply HE; revert He; apply faults_from_option; calm_fault]. intros payload _.
  apply wp_bind. eapply wp_mono; [eapply wp_conj; [|exact (StreamHTSearch_wp m _ Hw)]|].
  { instantiate (1 := fun _ _ => True). pose proof (StreamHTSearch_wp m (mkFlow (ih_daddr ih) (ih_saddr ih) (th_dest t) (th_source t)) Hw) as Hs.
    unfold wp in *. destruct (StreamHTSearch _ m) as [[]|]; done. }
  intros o m1 [_ [-> Ho]]. apply wp_bind. destruct o as [p|].
  - destruct Ho as (s & Hs & Hf). apply wp_ret. apply wp_bind.
    eapply wp_mono; [apply (process_stream_leads p (delete p (streams m))); split_and!; [done..|by exists s]|].
    intros a m2 [Hw2 Hs2]. apply wp_ret. split; [done|]. exists p. split; [done|]. intros t' s' Et' Hs'. rewrite Et in Et'. injection Et' as <-. rewrite Hs in Hs'. injection Hs' as <-. exact Hf.
  - eapply wp_mono; [by apply CreateNewFlowHTEntry_wp|]. intros [p|] m2.
    + intros (Hn & Hl). apply wp_bind. eapply wp_mono; [by apply (process_stream_leads p (streams m))|].
      intros a m3 [Hw3 Hs3]. apply wp_ret. split; [done|]. exists p. split; [by rewrite Hs3, delete_id|].
      intros t' s' _ Hs'. congruence.
    + intros [Hw2 Hs2]. by apply wp_ret, Hsame.
Qed.
End input.


(** In a manager that satisfies the invariant a search of the flow table
    always returns; it answers with a live stream of exactly the flow asked
    for, and with none only when no live stream has that flow. *)
Theorem flow_lookup `{Env} m f :
  wf m -> exists o, StreamHTSearch f m = Ok (o, m) /\
    match o with
    | Some p => exists s, streams m !! p = Some s /\ flow_of s = f
    | None => forall p s, streams m !! p = Some s -> flow_of s <> f
    end.
Proof.
  intros Hw. pose proof (StreamHTSearch_wp m f Hw) as Hs. unfold wp in Hs.
  destruct (StreamHTSearch f m) as [[o m']|e]; [|done]. destruct Hs as [-> Hs]. by exists o.
Qed.

Import Demo.
(** A SYN from port 8080 of the peer to port 80. *)
Definition syn_bytes : list Z := [31; 144; 0; 80; 0; 0; 0; 100; 0; 0; 0; 0; 80; 2; 16; 0; 0; 0; 0; 0].
Definition ih1 : iphdr := mkIph ip_peer ip_me 5.


Lemma flow_lookup_witness :
  exists o, StreamHTSearch (mkFlow ip_me ip_peer 20480 36895) m1 = Ok (o, m1) /\
    match o with
    | Some p => exists s, streams m1 !! p = Some s /\ flow_of s = mkFlow ip_me ip_peer 20480 36895
    | None => forall p s, streams m1 !! p = Some s -> flow_of s <> mkFlow ip_me ip_peer 20480 36895
    end.
Proof. apply flow_lookup. exact (proj1 m1_created). Defined.
