(* ===== verification/Ring.v ===== *)
(** * Rings in memory

    A ring of cells [b] holds the list [l] from position [off] on, wrapping
    at the end of [b]. The pipes and the event queues are such rings. *)

From S2P Require Import Prelude.

Section ring.
Context {A : Type}.
Implicit Types (b l d : list A).

Definition ring_at b (off : Z) l : Prop :=
  0 <= off < zlen b /\ zlen l <= zlen b /\
  forall i, 0 <= i < zlen l -> znth b ((off + i) mod zlen b) = znth l i.

(** The position behind the last element. *)
Definition ring_end b (off : Z) l : Z := (off + zlen l) mod zlen b.

Lemma ring_end_range b off l : ring_at b off l -> 0 <= ring_end b off l < zlen b.
Proof. intros (? & _). apply Z.mod_pos_bound. lia. Qed.

(** A write that does not pass the end of the memory. *)
Lemma ring_write b off l d :
  ring_at b off l -> zlen l + zlen d <= zlen b -> ring_end b off l + zlen d <= zlen b ->
  exists b', mem_write b (ring_end b off l) d = Some b' /\ zlen b' = zlen b /\ ring_at b' off (l ++ d).
Proof.
  intros Hr Hfit Hend. pose proof (ring_end_range _ _ _ Hr) as Ht. destruct Hr as (Hoff & Hl & Hc).
  pose proof (zlen_nonneg l). pose proof (zlen_nonneg d).
  destruct (mem_write_is_Some b (ring_end b off l) d) as [b' Hb]; [lia..|]. exists b'. split; [done|].
  apply mem_write_Some in Hb as (_ & _ & Hlen & Hb). split; [done|]. unfold ring_at. rewrite Hlen.
  split; [done|]. split; [rewrite zlen_app; lia|]. intros i Hi. rewrite zlen_app in Hi. rewrite Hb, znth_app.
  unfold ring_end in *. rewrite !mod_ring in * by lia.
  destruct (Z.ltb_spec (off + i) (zlen b)), (Z.ltb_spec (off + zlen l) (zlen b)), (Z.ltb_spec i (zlen l));
    try (rewrite <- Hc by lia; rewrite mod_ring by lia);
    repeat match goal with
    | |- context [?a <? ?c] => destruct (Z.ltb_spec a c); try lia
    | |- context [?a <=? ?c] => destruct (Z.leb_spec a c); try lia
    end; simpl; try done; f_equal; lia.
Qed.

(** A read that does not pass the end of the memory. *)
Lemma ring_read b off l k :
  ring_at b off l -> 0 <= k <= zlen l -> off + k <= zlen b -> mem_read b off k = Some (take (Z.to_nat k) l).
Proof.
  intros (Hoff & Hl & Hc) Hk Hend. destruct (mem_read_is_Some b off k) as [d Hd]; [lia..|]. rewrite Hd. f_equal.
  apply mem_read_Some in Hd as (_ & _ & _ & Hlen & Hd). apply list_eq_znth; [rewrite zlen_take; lia|].
  intros i Hi. rewrite Hd, znth_take by lia. destruct (Z.ltb_spec i k); [|lia]. rewrite <- Hc by lia. f_equal.
  symmetry. apply Z.mod_small. lia.
Qed.

Lemma ring_skip b off l k : ring_at b off l -> 0 <= k <= zlen l -> ring_at b ((off + k) mod zlen b) (drop (Z.to_nat k) l).
Proof.
  intros (Hoff & Hl & Hc) Hk. split; [apply Z.mod_pos_bound; lia|]. rewrite zlen_drop by lia. split; [lia|].
  intros i Hi. rewrite znth_drop, <- Hc by lia. f_equal. rewrite Zplus_mod_idemp_l. f_equal. lia.
Qed.

Lemma ring_end_skip b off l k :
  ring_at b off l -> 0 <= k <= zlen l ->
  ring_end b ((off + k) mod zlen b) (drop (Z.to_nat k) l) = ring_end b off l.
Proof.
  intros (Hoff & Hl & _) Hk. unfold ring_end. rewrite zlen_drop by lia. rewrite Zplus_mod_idemp_l. f_equal. lia.
Qed.

Lemma ring_end_app b b' off l d : zlen b' = zlen b -> ring_end b' off (l ++ d) = (ring_end b off l + zlen d) mod zlen b.
Proof. intros Hlen. unfold ring_end. rewrite Hlen, zlen_app, Zplus_mod_idemp_l. f_equal. lia. Qed.

Lemma ring_front b off x l : ring_at b off (x :: l) -> znth b off = Some x.
Proof.
  intros (Hoff & Hl & Hc). pose proof (zlen_nonneg l). specialize (Hc 0). rewrite zlen_cons in Hc.
  rewrite Z.add_0_r, Z.mod_small in Hc by lia. rewrite Hc by lia. done.
Qed.

Lemma ring_empty b off : 0 <= off < zlen b -> ring_at b off [].
Proof. intros ?. split; [done|]. change (zlen []) with 0. split; [lia|]. intros i Hi. lia. Qed.
End ring.
