(* ===== verification/Sockets.v ===== *)
(** * Sockets and event queues: [socket.c], [CreateEventQueue] of
    [eventpoll.c] and [FlushEpollEvents] of [core.c]

    Also the conventions of the application interface: a call returns a value,
    or -1 with an error number, or waits on a condition variable. *)

From S2P Require Import Prelude SeqNum SpscQueue Machine FlowTable Boot.

(** ** Results of application calls *)

Inductive errno :=
| EBADF | EINVAL | ENFILE | EEXIST | ENOENT | EINTR | EAGAIN | EPIPE | EPERM | ENOTSOCK | ENOTCONN
| ENOSYS | EFAULT | EAFNOSUPPORT | EADDRINUSE | ENOMEM | EACCES | EISCONN | EALREADY | EINPROGRESS
| ETIMEDOUT | ECONNRESET.
#[global] Instance errno_eq_dec : EqDecision errno.
Proof. solve_decision. Defined.

(** [Fail None] is -1 with [errno] left as it was. *)
Inductive out (A : Type) := Done (a : A) | Fail (e : option errno) | Blocked.
Arguments Done {A} a.
Arguments Fail {A} e.
Arguments Blocked {A}.

Definition finish {A} (a : A) : M (out A) := ret (Done a).
Definition fail {A} (e : errno) : M (out A) := ret (Fail (Some e)).

(** [if (b) { errno = e; return -1; }] *)
Definition check {A} (b : bool) (e : errno) (k : M (out A)) : M (out A) := if b then fail e else k.

(** ** The pointer in the union of a socket *)

Definition as_stream (r : sock_ref) : M (option ptr) :=
  match r with SockNull => ret None | SockStream p => ret (Some p) | _ => throw TypeConfusion end.
Definition as_listener (r : sock_ref) : M (option ptr) :=
  match r with SockNull => ret None | SockListener p => ret (Some p) | _ => throw TypeConfusion end.
Definition as_epoll (r : sock_ref) : M (option ptr) :=
  match r with SockNull => ret None | SockEpoll p => ret (Some p) | _ => throw TypeConfusion end.
Definition as_pipe (r : sock_ref) : M (option ptr) :=
  match r with SockNull => ret None | SockPipe p => ret (Some p) | _ => throw TypeConfusion end.

(** ** The socket map *)

(** Take sockets from the front of the free list; one with events left goes
    to the back and the next one is tried. *)
Fixpoint allocate_loop (fuel : nat) (socktype' : Z) : M (option Z) :=
  match fuel with
  | O => throw OutOfFuel
  | S fuel =>
      let* l := gets free_smap in
      match l with
      | [] => ret None
      | k :: l =>
          modify (fun m => m <| free_smap := l |>) ;;;
          let* sk := get_socket k in
          if negb (events sk =? 0) then
            modify (fun m => m <| free_smap := free_smap m ++ [k] |>) ;;;
            allocate_loop fuel socktype'
          else
            upd_socket k (fun s => s <| socktype := socktype' |> <| opts := 0 |> <| sk_ref := SockNull |>
                                     <| epoll := 0 |> <| events := 0 |> <| sk_addr := 0 |> <| sk_port := 0 |>
                                     <| ep_data := 0 |>) ;;;
            ret (Some k)
      end
  end.

(** One round over the free list decides: with events on every free socket
    the code would search for ever. *)
Definition AllocateSocket (socktype' : Z) : M (option Z) :=
  let* l := gets free_smap in allocate_loop (S (length l)) socktype'.

Definition FreeSocket (sockid : Z) : M unit :=
  let* sk := get_socket sockid in
  if socktype sk =? MTCP_SOCK_UNUSED then ret tt
  else
    upd_socket sockid (fun s => s <| socktype := MTCP_SOCK_UNUSED |> <| epoll := MTCP_EPOLLNONE |>
                                  <| events := 0 |> <| sk_ref := SockNull |>) ;;;
    modify (fun m => m <| free_smap := free_smap m ++ [sockid] |>).

Section sockets.
Context `{Env}.

Definition bad_id (sockid : Z) : bool := (sockid <? 0) || (max_concurrency <=? sockid).

Definition GetSocket (sockid : Z) : M (out socket_map) :=
  check (bad_id sockid) EBADF (let* s := get_socket sockid in finish s).

(** The context is that of a running thread. *)
Definition GetMTCPManager {A} (k : M (out A)) : M (out A) :=
  let* d := gets ctx_done in
  let* x := gets ctx_exit in
  check (d || x) EPERM k.

Definition mtcp_setsock_nonblock (sockid : Z) : M (out Z) :=
  GetMTCPManager (check (bad_id sockid) EBADF
    (let* sk := get_socket sockid in
     check (socktype sk =? MTCP_SOCK_UNUSED) EBADF
       (upd_socket sockid (fun s => s <| opts := Z.lor (opts s) MTCP_NONBLOCK |>) ;;; finish 0))).
End sockets.

(** ** Event queues *)

Definition no_event : epoll_event_int := mkEv 0 0 0.

(** [size] is positive. *)
Definition CreateEventQueue (ok1 ok2 : bool) (size : Z) : option event_queue :=
  if ok1 && ok2 then Some (mkEQ (replicate (Z.to_nat size) no_event) 0 0 size 0) else None.

(** The event at the start, and the queue after it was taken. *)
Definition eq_front (q : event_queue) : res epoll_event_int :=
  from_option_res OutOfBounds (znth (eq_events q) (eq_start q)).
Definition eq_drop (q : event_queue) : event_queue :=
  let st := eq_start q + 1 in
  q <| eq_start := if eq_size q <=? st then 0 else st |> <| num_events := num_events q - 1 |>.

(** ** From the thread's queue to the user's *)

Fixpoint flush_events (fuel : nat) (usrq mtcpq : event_queue) : res (event_queue * event_queue) :=
  match fuel with
  | O => Fault OutOfFuel
  | S fuel =>
      if (0 <? num_events mtcpq) && (num_events usrq <? eq_size usrq) then
        let! ev := eq_front mtcpq in
        let! usrq := eq_push usrq ev in
        flush_events fuel usrq (eq_drop mtcpq)
      else Ok (usrq, mtcpq)
  end.

Definition FlushEpollEvents (cur_ts : Z) : M unit :=
  let* o := gets ep in
  match o with
  | None => throw NullDeref
  | Some a =>
      let* e := get_epoll a in
      let* (u, q) := lift (flush_events (S (Z.to_nat (num_events (mtcp_queue e)))) (usr_queue e) (mtcp_queue e)) in
      let e := e <| usr_queue := u |> <| mtcp_queue := q |> in
      set_epoll a (if waiting e && ((0 <? num_events (usr_queue e)) || (0 <? num_events (usr_shadow_queue e)))
                   then e <| wakes := u64 (wakes e + 1) |> else e)
  end.
