(* ===== verification/SocketTable.v ===== *)
(** * The socket table is a free-list allocator

    [sockets_ok]: the free list holds exactly the unused slots, each once. It
    holds at start-up; allocation and release keep it, whatever happens to
    the sockets in use. So a socket is never handed out twice, and allocation
    answers in one step instead of searching. *)

From S2P Require Import Prelude SeqNum SpscQueue MemPool Machine Wp FlowTable Network Invariant Boot Sockets.

Section table.
Context `{Env}.

Record sockets_ok (m : mtcp_manager) : Prop := {
  so_nodup : NoDup (free_smap m);
  so_range : forall i, is_Some (sockets m !! i) <-> 0 <= i < max_concurrency;
  so_id : forall i s, sockets m !! i = Some s -> sk_id s = i;
  so_free : forall i, i ∈ free_smap m <-> exists s, sockets m !! i = Some s /\ socktype s = MTCP_SOCK_UNUSED;
  so_quiet : forall i s, i ∈ free_smap m -> sockets m !! i = Some s -> events s = 0
}.

(** The slot after an allocation. *)
Definition fresh_socket (k t : Z) : socket_map := mkSock k t 0 0 0 SockNull 0 0 0.

(** What can happen to the table: allocation and release, any change of a
    socket in use, anything that does not concern the table. *)
Inductive table_reach : mtcp_manager -> Prop :=
| tr_boot ok a m : InitializeMTCPManager ok a = Ok (Some m) -> table_reach m
| tr_alloc m t o m' : table_reach m -> t <> MTCP_SOCK_UNUSED -> AllocateSocket t m = Ok (o, m') -> table_reach m'
| tr_free m k m' : table_reach m -> FreeSocket k m = Ok (tt, m') -> table_reach m'
| tr_use m k s s' : table_reach m -> sockets m !! k = Some s -> socktype s <> MTCP_SOCK_UNUSED ->
    sk_id s' = sk_id s -> socktype s' <> MTCP_SOCK_UNUSED -> table_reach (m <| sockets := <[k := s']> (sockets m) |>)
| tr_other m m' : table_reach m -> sockets m' = sockets m -> free_smap m' = free_smap m -> table_reach m'.

(** One step: the head of the free list, or none. *)
Lemma AllocateSocket_spec m t : sockets_ok m ->
  AllocateSocket t m = match free_smap m with
    | [] => Ok (None, m)
    | k :: l => Ok (Some k, m <| free_smap := l |> <| sockets := <[k := fresh_socket k t]> (sockets m) |>)
    end.
Proof.
  intros Hm. unfold AllocateSocket, bind, gets. simpl. unfold bind, gets, modify, get_socket, upd_socket.
  destruct (free_smap m) as [|k l] eqn:Hf; simpl; [done|].
  destruct (proj1 (so_free _ Hm k)) as (s & Hs & Hu); [rewrite Hf; by left|]. rewrite Hs.
  rewrite (so_quiet _ Hm k s) by (done || rewrite Hf; by left). simpl. rewrite Hs. unfold ret, fresh_socket.
  pose proof (so_id _ Hm _ _ Hs) as Hid. destruct s; simpl in *. by subst.
Qed.

Lemma AllocateSocket_ok m t k l : sockets_ok m -> t <> MTCP_SOCK_UNUSED -> free_smap m = k :: l ->
  sockets_ok (m <| free_smap := l |> <| sockets := <[k := fresh_socket k t]> (sockets m) |>).
Proof.
  intros [Hn Hr Hi Hf Hq] Ht E. rewrite E in *. apply NoDup_cons in Hn as [Hk Hn].
  assert (forall i, i ∈ l -> k <> i) as Hne by (intros i ? ->; done). split; simpl; [done| | | |].
  - intros i. destruct (decide (k = i)) as [->|]; [|by rewrite lookup_insert_ne]. rewrite lookup_insert_eq, <- Hr.
    destruct (proj1 (Hf i)) as (s & -> & _); [by left|]. split; eauto.
  - intros i s. destruct (decide (k = i)) as [->|]; [rewrite lookup_insert_eq; by intros [= <-]|rewrite lookup_insert_ne; auto].
  - intros i. destruct (decide (k = i)) as [->|Hki].
    + rewrite lookup_insert_eq. split; [done|]. by intros (s & [= <-] & ?).
    + rewrite lookup_insert_ne, <- Hf by done. rewrite elem_of_cons. naive_solver.
  - intros i s Hil. rewrite lookup_insert_ne by auto. apply Hq. by right.
Qed.

Lemma FreeSocket_ok m k s : sockets_ok m -> sockets m !! k = Some s ->
  exists m', FreeSocket k m = Ok (tt, m') /\ sockets_ok m' /\
    m' = if socktype s =? MTCP_SOCK_UNUSED then m
         else m <| sockets := <[k := s <| socktype := MTCP_SOCK_UNUSED |> <| epoll := MTCP_EPOLLNONE |>
                                       <| events := 0 |> <| sk_ref := SockNull |>]> (sockets m) |>
                <| free_smap := free_smap m ++ [k] |>.
Proof.
  intros Hm Hs. unfold FreeSocket, bind, get_socket, upd_socket. rewrite Hs.
  destruct (Z.eqb_spec (socktype s) MTCP_SOCK_UNUSED) as [Hu|Hu]; [by exists m|]. rewrite Hs. eexists. split; [done|].
  split; [|done]. destruct Hm as [Hn Hr Hi Hf Hq].
  assert (k ∉ free_smap m) as Hk by (rewrite Hf; intros (? & ? & ?); by simplify_eq). split; simpl.
  - apply NoDup_app. split_and!; [done| |apply NoDup_singleton]. intros i Hi' ->%list_elem_of_singleton. done.
  - intros i. destruct (decide (k = i)) as [->|]; [|by rewrite lookup_insert_ne]. rewrite lookup_insert_eq, <- Hr, Hs. split; eauto.
  - intros i s'. destruct (decide (k = i)) as [->|]; [rewrite lookup_insert_eq; intros [= <-]; simpl; auto|rewrite lookup_insert_ne; auto].
  - intros i. rewrite elem_of_app, list_elem_of_singleton. destruct (decide (k = i)) as [->|Hki].
    + rewrite lookup_insert_eq. naive_solver.
    + rewrite lookup_insert_ne, <- Hf by done. naive_solver.
  - intros i s' Hil. destruct (decide (k = i)) as [->|Hki]; [rewrite lookup_insert_eq; by intros [= <-]|].
    rewrite lookup_insert_ne by done. apply Hq. apply elem_of_app in Hil as [?| ->%list_elem_of_singleton]; done.
Qed.

(** Whatever else happens to a socket in use. *)
Lemma sockets_ok_upd m k s s' : sockets_ok m -> sockets m !! k = Some s -> socktype s <> MTCP_SOCK_UNUSED ->
  sk_id s' = sk_id s -> socktype s' <> MTCP_SOCK_UNUSED -> sockets_ok (m <| sockets := <[k := s']> (sockets m) |>).
Proof.
  intros [Hn Hr Hi Hf Hq] Hs Hu Hid Hu'.
  assert (k ∉ free_smap m) as Hk by (rewrite Hf; intros (? & ? & ?); by simplify_eq). split; simpl; [done| | | |].
  - intros i. destruct (decide (k = i)) as [->|]; [|by rewrite lookup_insert_ne]. rewrite lookup_insert_eq, <- Hr, Hs. split; eauto.
  - intros i x. destruct (decide (k = i)) as [->|]; [rewrite lookup_insert_eq; intros [= <-]; rewrite Hid; auto|rewrite lookup_insert_ne; auto].
  - intros i. destruct (decide (k = i)) as [->|Hki]; [|by rewrite lookup_insert_ne].
    rewrite lookup_insert_eq. split; [done|]. by intros (? & [= <-] & ?).
  - intros i x Hil. rewrite lookup_insert_ne by (intros ->; done). by apply Hq.
Qed.

Lemma init_sockets_ok ok a m : 0 < max_concurrency -> InitializeMTCPManager ok a = Ok (Some m) -> sockets_ok m.
Proof.
  intros Hn Hi. unfold InitializeMTCPManager in Hi. boot_inv Hi. injection Hi as <-.
  set (ids := Z.of_nat <$> seq 0 (Z.to_nat max_concurrency)).
  assert (NoDup ids) as Hnd by (apply NoDup_fmap; [apply _|apply NoDup_seq]).
  assert (forall i, i ∈ ids <-> 0 <= i < max_concurrency) as Hids.
  { intros i. unfold ids. rewrite list_elem_of_fmap. setoid_rewrite elem_of_seq. split; [intros (? & -> & ?); lia|].
    intros ?. exists (Z.to_nat i). lia. }
  assert (forall i s, (list_to_map ((fun i => (i, empty_socket i)) <$> ids) : gmap Z socket_map) !! i = Some s <->
                      i ∈ ids /\ s = empty_socket i) as Hl.
  { intros i s. rewrite <- elem_of_list_to_map by (rewrite <- list_fmap_compose; by rewrite list_fmap_id).
    rewrite list_elem_of_fmap. split; [intros (? & [= -> ->] & ?)|intros [? ->]]; eauto. }
  split; simpl; fold ids; [done| | | |].
  - intros i. rewrite <- Hids. split; [intros (s & [? _]%Hl); done|]. intros ?. eexists. by apply Hl.
  - by intros i s [_ ->]%Hl.
  - intros i. split; [intros ?; eexists; by rewrite Hl|]. by intros (s & [? _]%Hl & _).
  - by intros i s _ [_ ->]%Hl.
Qed.

Lemma reach_ok m : 0 < max_concurrency -> table_reach m -> sockets_ok m.
Proof.
  intros Hn. induction 1 as [ok a m Hi|m t o m' _ IH Ht Ha|m k m' _ IH Hf|m k s s' _ IH Hs Hu Hid Hu'|m m' _ IH Es Ef].
  - by eapply init_sockets_ok.
  - rewrite AllocateSocket_spec in Ha by done. destruct (free_smap m) as [|k l] eqn:E; injection Ha as <- <-; [done|].
    by apply AllocateSocket_ok.
  - destruct (sockets m !! k) as [s|] eqn:Hs.
    + destruct (FreeSocket_ok m k s IH Hs) as (m1 & Hf' & Hok & _). rewrite Hf in Hf'. injection Hf' as <-. done.
    + revert Hf. unfold FreeSocket, bind, get_socket. by rewrite Hs.
  - by apply (sockets_ok_upd m k s).
  - destruct IH as [? ? ? ? ?]. split; rewrite ?Es, ?Ef; done.
Qed.

Lemma AllocateSocket_cases m t : sockets_ok m ->
  (AllocateSocket t m = Ok (None, m) /\ (forall i s, sockets m !! i = Some s -> socktype s <> MTCP_SOCK_UNUSED)) \/
  exists k s m', AllocateSocket t m = Ok (Some k, m') /\ 0 <= k < max_concurrency /\
    sockets m !! k = Some s /\ socktype s = MTCP_SOCK_UNUSED /\ sockets m' = <[k := fresh_socket k t]> (sockets m).
Proof.
  intros Hm. rewrite AllocateSocket_spec by done. destruct (free_smap m) as [|k l] eqn:E.
  - left. split; [done|]. intros i s Hs Hu. apply (not_elem_of_nil i). rewrite <- E. apply (so_free _ Hm). eauto.
  - right. destruct (proj1 (so_free _ Hm k)) as (s & Hs & Hu); [rewrite E; by left|].
    exists k, s. eexists. split; [done|]. split_and!; [| |done|done|done]; apply (so_range _ Hm); eauto.
Qed.

End table.

Import Demo.

