(* ===== verification/Events.v ===== *)
(** * Event queues as lists of events

    An event queue represents the list of its pending events; pushing
    appends, taking removes the front, and the thread's queue is flushed in
    order. [events_ok] is the invariant of the queues of all instances. *)

From S2P Require Import Prelude SeqNum SpscQueue Machine Wp FlowTable Boot Ring Sockets.

Definition eq_rep (q : event_queue) (l : list epoll_event_int) : Prop :=
  ring_at (eq_events q) (eq_start q) l /\ eq_size q = zlen (eq_events q) /\
  num_events q = zlen l /\ eq_end q = ring_end (eq_events q) (eq_start q) l.

Lemma eq_rep_room q l : eq_rep q l -> zlen l <= eq_size q.
Proof. intros ((_ & ? & _) & -> & _). done. Qed.

(** A queue represents one list. *)
Lemma eq_rep_unique q l l' : eq_rep q l -> eq_rep q l' -> l = l'.
Proof.
  intros ((_ & _ & Hc) & _ & Hn & _) ((_ & _ & Hc') & _ & Hn' & _). apply list_eq_znth; [congruence|].
  intros i Hi. rewrite <- Hc by done. apply Hc'. lia.
Qed.

Lemma eq_create_rep size q : 0 < size -> CreateEventQueue true true size = Some q -> eq_rep q [] /\ eq_size q = size.
Proof.
  unfold CreateEventQueue. intros Hs [= <-]. assert (zlen (replicate (Z.to_nat size) no_event) = size) as Hl
    by (unfold zlen; rewrite length_replicate; lia).
  split; [|done]. split_and!; simpl; [apply ring_empty; lia|done|done|]. unfold ring_end. rewrite Hl. by rewrite Z.mod_0_l by lia.
Qed.

(** The position after [i], back to 0 at the end. *)
Lemma succ_mod i n : 0 <= i < n -> (if n <=? i + 1 then 0 else i + 1) = (i + 1) mod n.
Proof. intros ?. rewrite mod_ring by lia. repeat bdestruct_one; lia. Qed.

Lemma eq_push_rep q l ev : eq_rep q l -> zlen l < eq_size q ->
  exists q', eq_push q ev = Ok q' /\ eq_rep q' (l ++ [ev]) /\ eq_size q' = eq_size q.
Proof.
  intros (Hr & Hs & Hn & He) Hroom. pose proof (ring_end_range _ _ _ Hr) as Hend.
  destruct (ring_write _ _ _ [ev] Hr) as (b & Hw & Hlen & Hr'); [change (zlen [ev]) with 1; lia..|].
  unfold eq_push. rewrite He, Hw. cbn [from_option_res res_bind]. eexists. split; [done|]. split; [|done].
  split_and!; simpl; [done|congruence|rewrite zlen_app; change (zlen [ev]) with 1; lia|].
  rewrite Hs, succ_mod by lia. rewrite (ring_end_app (eq_events q)) by done. done.
Qed.

Lemma eq_front_rep q x l : eq_rep q (x :: l) -> eq_front q = Ok x.
Proof. intros (Hr & _). unfold eq_front. by rewrite (ring_front _ _ _ _ Hr). Qed.

Lemma eq_drop_rep q x l : eq_rep q (x :: l) -> eq_rep (eq_drop q) l /\ eq_size (eq_drop q) = eq_size q.
Proof.
  intros (Hr & Hs & Hn & He). split; [|done]. pose proof (zlen_nonneg l). rewrite zlen_cons in Hn.
  pose proof (ring_skip _ _ _ 1 Hr) as Hk. pose proof (ring_end_skip _ _ _ 1 Hr) as Hes. rewrite zlen_cons in Hk, Hes.
  pose proof Hr as (Hoff & _). unfold eq_drop. rewrite Hs, succ_mod by done.
  split_and!; simpl; [apply Hk; lia|done|lia|]. rewrite He. symmetry. apply Hes. lia.
Qed.

(** As many events as fit are moved, in order. *)
Lemma flush_events_rep fuel u q lu lq :
  eq_rep u lu -> eq_rep q lq -> (length lq < fuel)%nat ->
  exists u' q', let n := Z.to_nat (Z.min (zlen lq) (eq_size u - zlen lu)) in
    flush_events fuel u q = Ok (u', q') /\ eq_rep u' (lu ++ take n lq) /\ eq_rep q' (drop n lq) /\
    eq_size u' = eq_size u /\ eq_size q' = eq_size q.
Proof.
  revert u q lu lq. induction fuel as [|fuel IH]; intros u q lu lq Hu Hq Hf; [lia|]. cbv zeta. simpl.
  pose proof (eq_rep_room _ _ Hu). pose proof Hu as (_ & _ & Hnu & _). pose proof Hq as (_ & _ & Hnq & _).
  rewrite Hnu, Hnq. destruct lq as [|x lq].
  - change (zlen []) with 0. rewrite Z.min_l by lia. exists u, q. simpl. rewrite app_nil_r. done.
  - rewrite zlen_cons in *. pose proof (zlen_nonneg lq). destruct (Z.ltb_spec 0 (zlen lq + 1)); [|lia].
    destruct (Z.ltb_spec (zlen lu) (eq_size u)); simpl.
    + rewrite (eq_front_rep _ _ _ Hq). destruct (eq_push_rep _ _ x Hu) as (u1 & Hp & Hu1 & Hs1); [done|]. simpl. rewrite Hp. simpl.
      destruct (eq_drop_rep _ _ _ Hq) as [Hq1 Hsq]. destruct (IH _ _ _ _ Hu1 Hq1) as (u' & q' & Hfl & Hu' & Hq' & Hsu & Hsq'); [simpl in *; lia|].
      exists u', q'. rewrite Hs1, zlen_app in *. change (zlen [x]) with 1 in *.
      replace (Z.to_nat (Z.min (zlen lq + 1) (eq_size u - zlen lu))) with (S (Z.to_nat (Z.min (zlen lq) (eq_size u - (zlen lu + 1))))) by lia.
      cbn [take drop]. rewrite <- app_assoc in Hu'. split_and!; [done|done|done|congruence|congruence].
    + rewrite Z.min_r by lia. replace (Z.to_nat (eq_size u - zlen lu)) with 0%nat by lia. exists u, q. simpl. rewrite app_nil_r. done.
Qed.

(** ** The queues of the instances *)

Definition queues_ok (e : mtcp_epoll) : Prop := forall t, exists l, eq_rep (get_queue e t) l.

Definition events_ok (m : mtcp_manager) : Prop :=
  (forall a e, epolls m !! a = Some e -> queues_ok e) /\ (forall a, ep m = Some a -> is_Some (epolls m !! a)).

#[global] Instance queue_type_eq_dec : EqDecision queue_type.
Proof. solve_decision. Defined.

Lemma get_set_queue e t t' q : get_queue (set_queue e t q) t' = if decide (t' = t) then q else get_queue e t'.
Proof. by destruct t, t'. Qed.

(** Raising an event leaves alone everything but the [events] fields of the
    sockets and the instances. *)
Definition quiesce (s : socket_map) : socket_map := s <| events := 0 |>.
Definition event_step (m m' : mtcp_manager) : Prop :=
  events_ok m' /\ exists sks es, m' = m <| sockets := sks |> <| epolls := es |> /\
    (forall i, quiesce <$> sks !! i = quiesce <$> sockets m !! i).

Lemma event_step_refl m : events_ok m -> event_step m m.
Proof. intros ?. split; [done|]. exists (sockets m), (epolls m). split; [by destruct m|done]. Qed.

Lemma event_step_trans m1 m2 m3 : event_step m1 m2 -> event_step m2 m3 -> event_step m1 m3.
Proof.
  intros (_ & s2 & e2 & -> & H2) (? & s3 & e3 & -> & H3). split; [done|]. exists s3, e3. split; [done|].
  intros i. by rewrite H3, <- H2.
Qed.

(** The socket is still there, with at most its pending events changed. *)
Lemma event_step_socket m m' i sk : event_step m m' -> sockets m !! i = Some sk ->
  exists sk', sockets m' !! i = Some sk' /\ quiesce sk' = quiesce sk.
Proof.
  intros (_ & sks & es & -> & Hs) Hi. specialize (Hs i). rewrite Hi in Hs. simpl in *.
  destruct (sks !! i) as [sk'|]; [|done]. exists sk'. split; [done|]. by apply (inj Some) in Hs.
Qed.

Lemma events_ok_set m a e sks :
  events_ok m -> queues_ok e -> events_ok (m <| sockets := sks |> <| epolls := <[a := e]> (epolls m) |>).
Proof.
  intros [Hq Ho] He. split; simpl.
  - intros b e'. destruct (decide (a = b)) as [->|]; [rewrite lookup_insert_eq; by intros [= <-]|].
    rewrite lookup_insert_ne by done. apply Hq.
  - intros b Hb. destruct (decide (a = b)) as [->|]; [by rewrite lookup_insert_eq|].
    rewrite lookup_insert_ne by done. by apply Ho.
Qed.

Lemma queues_ok_count e n : queues_ok e -> queues_ok (e <| issued := n |>).
Proof. intros He []; [apply (He USR_EVENT_QUEUE)|apply (He USR_SHADOW_EVENT_QUEUE)|apply (He MTCP_EVENT_QUEUE)]. Qed.

Lemma queues_ok_push e t q l n : queues_ok e -> eq_rep q l -> queues_ok (set_queue e t q <| registered := n |>).
Proof.
  intros He Hq t'. assert (get_queue (set_queue e t q <| registered := n |>) t' = get_queue (set_queue e t q) t') as -> by by destruct t'.
  rewrite get_set_queue. destruct (decide (t' = t)); eauto.
Qed.

(** What raising an event does: nothing but counting if it is pending
    already or the queue is full; otherwise it is queued and marked. *)
Lemma AddEpollEvent_cases a t k ev m e sk l :
  epolls m !! a = Some e -> sockets m !! k = Some sk -> eq_rep (get_queue e t) l -> ev <> 0 ->
  let e1 := e <| issued := u64 (issued e + 1) |> in
  (exists r, AddEpollEvent (Some a) t k ev m = Ok (r, m <| epolls := <[a := e1]> (epolls m) |>) /\
     if r =? 0 then has (events sk) ev = true else zlen l = eq_size (get_queue e t)) \/
  (exists q, eq_rep q (l ++ [mkEv ev (ep_data sk) (sk_id sk)]) /\
     AddEpollEvent (Some a) t k ev m =
       Ok (0, m <| sockets := <[k := sk <| events := Z.lor (events sk) ev |>]> (sockets m) |>
                <| epolls := <[a := set_queue e1 t q <| registered := u64 (registered e1 + 1) |>]> (epolls m) |>)).
Proof.
  intros He Hk Hl Hev. cbv zeta. set (e1 := e <| issued := _ |>). pose proof (eq_rep_room _ _ Hl).
  pose proof Hl as (_ & _ & Hn & _).
  assert (AddEpollEvent (Some a) t k ev m =
    if has (events sk) ev then Ok (0, m <| epolls := <[a := e1]> (epolls m) |>)
    else if eq_size (get_queue e t) <=? zlen l then Ok (-1, m <| epolls := <[a := e1]> (epolls m) |>)
    else let! q := eq_push (get_queue e t) (mkEv ev (ep_data sk) (sk_id sk)) in
      Ok (0, m <| sockets := <[k := sk <| events := Z.lor (events sk) ev |>]> (sockets m) |>
               <| epolls := <[a := set_queue e1 t q <| registered := u64 (registered e1 + 1) |>]> (epolls m) |>)) as ->.
  { assert (get_queue e1 t = get_queue e t) as Hq by by destruct t. unfold AddEpollEvent.
    destruct (Z.eqb_spec ev 0); [done|]. unfold bind, get_socket, get_epoll. rewrite Hk, He.
    fold e1. rewrite Hq, Hn. fold (has (events sk) ev). destruct (has (events sk) ev); [done|].
    destruct (_ <=? _); [done|]. unfold lift, upd_socket. destruct (eq_push _ _); [|done]. simpl. by rewrite Hk. }
  destruct (has (events sk) ev) eqn:Hh; [left; by exists 0|].
  destruct (Z.leb_spec (eq_size (get_queue e t)) (zlen l)); [left; exists (-1); split; [done|simpl; lia]|].
  destruct (eq_push_rep _ _ (mkEv ev (ep_data sk) (sk_id sk)) Hl) as (q & -> & Hl' & _); [lia|].
  right. by exists q.
Qed.

Lemma AddEpollEvent_ok o t k ev m : events_ok m -> (forall a, o = Some a -> is_Some (epolls m !! a)) ->
  is_Some (sockets m !! k) -> wp no_fault (AddEpollEvent o t k ev) (fun _ => event_step m) m.
Proof.
  intros Hm Ho [sk Hk]. destruct o as [a|]; [|by apply wp_ret, event_step_refl].
  destruct (decide (ev = 0)) as [->|Hev]; [by apply wp_ret, event_step_refl|]. destruct (Ho a eq_refl) as [e He].
  pose proof (proj1 Hm _ _ He) as Hq. destruct (Hq t) as [l Hl]. unfold wp.
  destruct (AddEpollEvent_cases a t k ev m e sk l He Hk Hl Hev) as [(r & -> & _)|(q & Hq' & ->)].
  - split; [by apply (events_ok_set m a _ (sockets m) Hm), queues_ok_count|]. exists (sockets m). eexists. split; [by destruct m|done].
  - split; [by eapply (events_ok_set m a _ _ Hm), queues_ok_push; [apply queues_ok_count|]|]. eexists _, _. split; [done|].
    intros i. destruct (decide (i = k)) as [->|]; [by rewrite lookup_insert_eq, Hk|by rewrite lookup_insert_ne].
Qed.

Lemma raise_event_ok t k ev m : events_ok m -> is_Some (sockets m !! k) ->
  wp no_fault (raise_event t k ev) (fun _ => event_step m) m.
Proof.
  intros Hm Hk. unfold raise_event. apply wp_bind, wp_gets, wp_bind.
  eapply wp_mono; [by apply (AddEpollEvent_ok (ep m)); [|apply Hm|]|]. intros a m' He. cbv beta in He. by apply wp_ret.
Qed.

Lemma init_events_ok `{Env} ok a m : InitializeMTCPManager ok a = Ok (Some m) -> events_ok m.
Proof.
  intros Hi. unfold InitializeMTCPManager in Hi. boot_inv Hi. injection Hi as <-.
  split; simpl; [by intros ? ? ?%lookup_empty_Some|done].
Qed.
