(* ===== verification/Pipe.v ===== *)
(** * Pipes: [pipe.c]

    A pipe is a ring of bytes between two sockets. Locks make the operations
    atomic; a call that would wait on the condition variable answers
    [Blocked] and has changed nothing. *)

From S2P Require Import Prelude SeqNum SpscQueue Machine Wp FlowTable Boot Ring Sockets SocketTable Events.

Definition PIPE_BUF_SIZE : Z := 10240.

Definition pipe_code (s : pipe_state) : Z :=
  match s with PIPE_CLOSED => 0 | PIPE_ACTIVE => 1 | PIPE_CLOSE_WAIT => 2 end.

Definition get_pipe (a : ptr) : M pipe :=
  fun m => match pipes m !! a with Some x => Ok (x, m) | None => Fault UseAfterFree end.
Definition set_pipe (a : ptr) (x : pipe) : M unit := modify (fun m => m <| pipes := <[a := x]> (pipes m) |>).

(** ** The ring of bytes *)

(** [to_read] bytes from the front. *)
Definition ring_get (pp : pipe) (to_read : Z) : res (list Z * pipe) :=
  let rest := buf_len pp - to_read in
  if buf_off pp + to_read <? buf_size pp then
    let! d := from_option_res OutOfBounds (mem_read (p_buf pp) (buf_off pp) to_read) in
    Ok (d, pp <| buf_off := buf_off pp + to_read |> <| buf_len := rest |>)
  else
    let temp_read := buf_size pp - buf_off pp in
    let! d1 := from_option_res OutOfBounds (mem_read (p_buf pp) (buf_off pp) temp_read) in
    let! d2 := from_option_res OutOfBounds (mem_read (p_buf pp) 0 (to_read - temp_read)) in
    Ok (d1 ++ d2, pp <| buf_off := to_read - temp_read |> <| buf_len := rest |>).

(** [d], of length [to_write], behind the last byte. *)
Definition ring_put (pp : pipe) (d : list Z) (to_write : Z) : res pipe :=
  let n := buf_len pp + to_write in
  if buf_tail pp + to_write <? buf_size pp then
    let! b := from_option_res OutOfBounds (mem_write (p_buf pp) (buf_tail pp) d) in
    Ok (pp <| p_buf := b |> <| buf_tail := buf_tail pp + to_write |> <| buf_len := n |>)
  else
    let temp_write := buf_size pp - buf_tail pp in
    let! d1 := from_option_res OutOfBounds (mem_read d 0 temp_write) in
    let! d2 := from_option_res OutOfBounds (mem_read d temp_write (to_write - temp_write)) in
    let! b := from_option_res OutOfBounds (mem_write (p_buf pp) (buf_tail pp) d1) in
    let! b := from_option_res OutOfBounds (mem_write b 0 d2) in
    Ok (pp <| p_buf := b |> <| buf_tail := to_write - temp_write |> <| buf_len := n |>).

Section pipes.
Context `{Env}.

(** The two identifiers. *)
Definition mtcp_pipe : M (out (Z * Z)) :=
  let* o0 := AllocateSocket MTCP_SOCK_PIPE in
  match o0 with
  | None => fail ENFILE
  | Some s0 =>
      let* o1 := AllocateSocket MTCP_SOCK_PIPE in
      match o1 with
      | None => FreeSocket s0 ;;; fail ENFILE
      | Some s1 =>
          let* ok := next_malloc in
          if negb ok then FreeSocket s0 ;;; FreeSocket s1 ;;; fail ENOMEM
          else
            let* ok := next_malloc in
            if negb ok then FreeSocket s0 ;;; FreeSocket s1 ;;; fail ENOMEM
            else
              let* a := gets heap_next in
              modify (fun m => m <| heap_next := a + 1 |>) ;;;
              set_pipe a (mkPipe PIPE_ACTIVE s0 s1 (fresh_mem PIPE_BUF_SIZE) 0 0 0 PIPE_BUF_SIZE) ;;;
              upd_socket s0 (fun s => s <| sk_ref := SockPipe a |>) ;;;
              upd_socket s1 (fun s => s <| sk_ref := SockPipe a |>) ;;;
              let* k0 := get_socket s0 in
              let* k1 := get_socket s1 in
              finish (sk_id k0, sk_id k1)
      end
  end.

(** A reader or writer that waits is signalled; a non-blocking one gets an
    event if it registered. *)
Definition RaiseEventToPair (pp : pipe) (sockid event : Z) : M unit :=
  let pair_socket := if p_sock0 pp =? sockid then p_sock1 pp else p_sock0 pp in
  let* sk := get_socket pair_socket in
  if has (opts sk) MTCP_NONBLOCK then
    when (negb (epoll sk =? 0)) (raise_event USR_EVENT_QUEUE pair_socket event)
  else ret tt.

(** The pipe of a socket, with the error for a socket that has none. *)
Definition pipe_of {A} (pipeid : Z) (e : errno) (none : M (out A)) (k : socket_map -> ptr -> pipe -> M (out A)) : M (out A) :=
  check (bad_id pipeid) EBADF
    (let* sk := get_socket pipeid in
     check (negb (socktype sk =? MTCP_SOCK_PIPE)) e
       (let* o := as_pipe (sk_ref sk) in
        match o with
        | None => none
        | Some a => let* pp := get_pipe a in k sk a pp
        end)).

Definition level_in (sk : socket_map) : bool := has (epoll sk) MTCP_EPOLLIN && negb (has (epoll sk) MTCP_EPOLLET).
Definition level_out (sk : socket_map) : bool := has (epoll sk) MTCP_EPOLLOUT && negb (has (epoll sk) MTCP_EPOLLET).

Definition PipeRead (pipeid len : Z) : M (out (list Z)) :=
  GetMTCPManager (pipe_of pipeid EBADF (fail EBADF) (fun sk a pp =>
    check (bool_decide (p_state pp = PIPE_CLOSED)) EINVAL
      (if bool_decide (p_state pp = PIPE_CLOSE_WAIT) && (buf_len pp =? 0) then finish []
       else if len <=? 0 then
         if has (opts sk) MTCP_NONBLOCK then fail EAGAIN else finish []
       else if negb (has (opts sk) MTCP_NONBLOCK) && (buf_len pp =? 0) then ret Blocked
       else
         let to_read := Z.min len (buf_len pp) in
         if (to_read <=? 0) && bool_decide (p_state pp = PIPE_ACTIVE) then fail EAGAIN
         else if (to_read <=? 0) && bool_decide (p_state pp = PIPE_CLOSE_WAIT) then finish []
         else
           let to_notify := buf_len pp =? buf_size pp in
           let* (d, pp') := lift (ring_get pp to_read) in
           set_pipe a pp' ;;;
           when to_notify (RaiseEventToPair pp' pipeid MTCP_EPOLLOUT) ;;;
           (if 0 <? buf_len pp' then
              when (level_in sk) (raise_event USR_SHADOW_EVENT_QUEUE pipeid MTCP_EPOLLIN)
            else
              when (bool_decide (p_state pp' = PIPE_CLOSE_WAIT) && (buf_len pp' =? 0))
                (raise_event USR_SHADOW_EVENT_QUEUE pipeid MTCP_EPOLLIN)) ;;;
           finish d))).

(** [buf] holds the [len] bytes to write; the number of bytes written. *)
Definition PipeWrite (pipeid : Z) (buf : list Z) (len : Z) : M (out Z) :=
  GetMTCPManager (pipe_of pipeid EBADF (fail EBADF) (fun sk a pp =>
    check (bool_decide (p_state pp = PIPE_CLOSED)) EINVAL
      (check (bool_decide (p_state pp = PIPE_CLOSE_WAIT)) EPIPE
        (if len <=? 0 then
           if has (opts sk) MTCP_NONBLOCK then fail EAGAIN else finish 0
         else if negb (has (opts sk) MTCP_NONBLOCK) && (buf_len pp =? buf_size pp) then ret Blocked
         else
           let to_write := Z.min len (buf_size pp - buf_len pp) in
           check (to_write <=? 0) EAGAIN
             (let to_notify := buf_len pp =? 0 in
              let* src := lift (from_option_res OutOfBounds (mem_read buf 0 to_write)) in
              let* pp' := lift (ring_put pp src to_write) in
              set_pipe a pp' ;;;
              when to_notify (RaiseEventToPair pp' pipeid MTCP_EPOLLIN) ;;;
              when (buf_len pp' <? buf_size pp')
                (when (level_out sk) (raise_event USR_SHADOW_EVENT_QUEUE pipeid MTCP_EPOLLOUT)) ;;;
              finish to_write))))).

(** [e] is the instance the socket is registered with. *)
Definition RaisePendingPipeEvents (e : option ptr) (pipeid : Z) : M Z :=
  let* sk := get_socket pipeid in
  let* o := as_pipe (sk_ref sk) in
  match o with
  | None => ret (-1)
  | Some a =>
      let* pp := get_pipe a in
      if pipe_code (p_state pp) <? pipe_code PIPE_ACTIVE then ret (-1)
      else
        when (has (epoll sk) MTCP_EPOLLIN)
          (when ((0 <? buf_len pp) || bool_decide (p_state pp = PIPE_CLOSE_WAIT))
            (AddEpollEvent e USR_SHADOW_EVENT_QUEUE pipeid MTCP_EPOLLIN ;;; ret tt)) ;;;
        when (has (epoll sk) MTCP_EPOLLOUT)
          (when (buf_len pp <? buf_size pp)
            (AddEpollEvent e USR_SHADOW_EVENT_QUEUE pipeid MTCP_EPOLLOUT ;;; ret tt)) ;;;
        ret 0
  end.

(** The first end to close leaves the pipe to the other; the second frees it. *)
Definition PipeClose (pipeid : Z) : M (out Z) :=
  GetMTCPManager (pipe_of pipeid EINVAL (finish 0) (fun sk a pp =>
    match p_state pp with
    | PIPE_CLOSED => finish 0
    | PIPE_ACTIVE =>
        let pp' := pp <| p_state := PIPE_CLOSE_WAIT |> in
        set_pipe a pp' ;;;
        RaiseEventToPair pp' pipeid MTCP_EPOLLIN ;;;
        finish 0
    | PIPE_CLOSE_WAIT =>
        upd_socket (p_sock0 pp) (fun s => s <| sk_ref := SockNull |>) ;;;
        upd_socket (p_sock1 pp) (fun s => s <| sk_ref := SockNull |>) ;;;
        modify (fun m => m <| pipes := delete a (pipes m) |>) ;;;
        finish 0
    end)).
End pipes.

(** ** The ring represents the bytes in the pipe *)

Definition pipe_rep (pp : pipe) (l : list Z) : Prop :=
  ring_at (p_buf pp) (buf_off pp) l /\ buf_size pp = zlen (p_buf pp) /\
  buf_len pp = zlen l /\ buf_tail pp = ring_end (p_buf pp) (buf_off pp) l.

(** What reads and writes leave alone. *)
Definition same_pipe (pp pp' : pipe) : Prop :=
  (p_state pp', p_sock0 pp', p_sock1 pp', buf_size pp') = (p_state pp, p_sock0 pp, p_sock1 pp, buf_size pp).

Lemma ring_get_rep pp l k : pipe_rep pp l -> 0 <= k <= zlen l ->
  exists pp', ring_get pp k = Ok (take (Z.to_nat k) l, pp') /\ pipe_rep pp' (drop (Z.to_nat k) l) /\ same_pipe pp pp'.
Proof.
  intros (Hr & Hs & Hn & Ht) Hk. pose proof Hr as (Hoff & Hl & _).
  pose proof (ring_skip _ _ _ k Hr Hk) as Hsk. pose proof (ring_end_skip _ _ _ k Hr Hk) as Hes.
  assert (forall off, off = (buf_off pp + k) mod zlen (p_buf pp) ->
    pipe_rep (pp <| buf_off := off |> <| buf_len := buf_len pp - k |>) (drop (Z.to_nat k) l)) as Hrep.
  { intros off ->. split_and!; simpl; [done|done|rewrite zlen_drop by lia; lia|by rewrite Hes]. }
  unfold ring_get. rewrite Hs. rewrite mod_ring in Hrep by lia. revert Hrep.
  destruct (Z.ltb_spec (buf_off pp + k) (zlen (p_buf pp))); intros Hrep.
  - rewrite (ring_read _ _ _ _ Hr) by lia. simpl. eexists. split; [done|]. split; [by apply Hrep|done].
  - remember (zlen (p_buf pp) - buf_off pp) as k1 eqn:Hk1. rewrite (ring_read _ _ _ k1 Hr) by lia. cbn [from_option_res res_bind].
    pose proof (ring_skip _ _ _ k1 Hr) as Hr1. replace (buf_off pp + k1) with (zlen (p_buf pp)) in Hr1 by lia.
    rewrite Z_mod_same_full in Hr1. rewrite (ring_read _ _ _ (k - k1) (Hr1 ltac:(lia))) by (rewrite ?zlen_drop by lia; lia).
    cbn [from_option_res res_bind].
    assert (take (Z.to_nat k1) l ++ take (Z.to_nat (k - k1)) (drop (Z.to_nat k1) l) = take (Z.to_nat k) l) as ->.
    { rewrite take_take_drop. f_equal. lia. }
    eexists. split; [done|]. split; [apply Hrep; lia|done].
Qed.

Lemma ring_put_rep pp l d : pipe_rep pp l -> zlen l + zlen d <= buf_size pp ->
  exists pp', ring_put pp d (zlen d) = Ok pp' /\ pipe_rep pp' (l ++ d) /\ same_pipe pp pp'.
Proof.
  intros (Hr & Hs & Hn & Ht) Hfit. pose proof (ring_end_range _ _ _ Hr) as Hend. pose proof (zlen_nonneg d). pose proof (zlen_nonneg l).
  assert (forall b tl, zlen b = zlen (p_buf pp) -> ring_at b (buf_off pp) (l ++ d) ->
    tl = (buf_tail pp + zlen d) mod zlen (p_buf pp) ->
    pipe_rep (pp <| p_buf := b |> <| buf_tail := tl |> <| buf_len := buf_len pp + zlen d |>) (l ++ d)) as Hrep.
  { intros b tl Hb Hr' ->. split_and!; simpl; [done|congruence|rewrite zlen_app; lia|].
    rewrite (ring_end_app (p_buf pp)), <- Ht by done. done. }
  rewrite mod_ring in Hrep by lia. unfold ring_put. rewrite Hs. revert Hrep.
  destruct (Z.ltb_spec (buf_tail pp + zlen d) (zlen (p_buf pp))); intros Hrep.
  - destruct (ring_write _ _ _ d Hr) as (b & Hw & Hlen & Hr'); [lia..|]. rewrite Ht, Hw. cbn [from_option_res res_bind].
    eexists. split; [done|]. split; [|done]. rewrite <- Ht. by apply Hrep.
  - remember (zlen (p_buf pp) - buf_tail pp) as k1 eqn:Hk1. rewrite !mem_read_eq by lia. cbn [from_option_res res_bind].
    rewrite drop_0. set (d1 := take (Z.to_nat k1) d). set (d2 := take _ _).
    assert (d1 ++ d2 = d /\ zlen d1 = k1 /\ zlen d2 = zlen d - k1) as (Hd & Hd1 & Hd2).
    { unfold d1, d2. rewrite (take_ge (drop _ _)) by (rewrite length_drop; unfold zlen; lia).
      rewrite take_drop, zlen_take, zlen_drop by lia. done. }
    destruct (ring_write _ _ _ d1 Hr) as (b & Hw & Hlen & Hr'); [lia..|]. rewrite Ht, Hw. cbn [from_option_res res_bind].
    assert (ring_end b (buf_off pp) (l ++ d1) = 0) as He.
    { rewrite (ring_end_app (p_buf pp)), <- Ht by done. replace (buf_tail pp + zlen d1) with (zlen (p_buf pp)) by lia.
      apply Z_mod_same_full. }
    destruct (ring_write _ _ _ d2 Hr') as (b2 & Hw2 & Hlen2 & Hr2); [rewrite zlen_app; lia|lia|].
    rewrite He in Hw2. rewrite Hw2. cbn [from_option_res res_bind]. eexists. split; [done|]. split; [|done].
    rewrite <- app_assoc, Hd in Hr2. apply Hrep; [congruence|done|lia].
Qed.
