(* ===== verification/PipeFifo.v ===== *)
(** * A pipe is a bounded FIFO of bytes between two ends

    The abstract pipe has a list of bytes of bounded length, the state of its
    ends and their blocking modes. Every sequence of reads, writes, closes and
    changes of mode on the two sockets of a pipe has the results and the
    effects of the abstract pipe; no step faults. *)

From S2P Require Import Prelude SeqNum SpscQueue Machine Wp FlowTable Boot Ring Sockets SocketTable Events Pipe.

(** ** The abstract pipe *)

(** [sp_nb e]: end [e] does not block. *)
Record pipe_spec := mkSpec { sp_state : pipe_state; sp_bytes : list Z; sp_nb : bool -> bool }.
#[export] Instance pipe_spec_rebuild : Rebuild pipe_spec := fun s => mkSpec (sp_state s) (sp_bytes s) (sp_nb s).

Inductive pipe_op :=
| PWrite (e : bool) (buf : list Z) (len : Z)
| PRead (e : bool) (len : Z)
| PClose (e : bool)
| PNonblock (e : bool).

Inductive pipe_out := Num (o : out Z) | Bytes (o : out (list Z)).

Definition spec_write (st : pipe_spec) (e : bool) (buf : list Z) (len : Z) : out Z * pipe_spec :=
  match sp_state st with
  | PIPE_CLOSED => (Fail (Some EBADF), st)
  | PIPE_CLOSE_WAIT => (Fail (Some EPIPE), st)
  | PIPE_ACTIVE =>
      let room := PIPE_BUF_SIZE - zlen (sp_bytes st) in
      if len <=? 0 then (if sp_nb st e then Fail (Some EAGAIN) else Done 0, st)
      else if room =? 0 then (if sp_nb st e then Fail (Some EAGAIN) else Blocked, st)
      else let n := Z.min len room in
           (Done n, st <| sp_bytes := sp_bytes st ++ take (Z.to_nat n) buf |>)
  end.

Definition spec_read (st : pipe_spec) (e : bool) (len : Z) : out (list Z) * pipe_spec :=
  let l := sp_bytes st in
  match sp_state st with
  | PIPE_CLOSED => (Fail (Some EBADF), st)
  | s =>
      if bool_decide (s = PIPE_CLOSE_WAIT) && (zlen l =? 0) then (Done [], st)
      else if len <=? 0 then (if sp_nb st e then Fail (Some EAGAIN) else Done [], st)
      else if zlen l =? 0 then (if sp_nb st e then Fail (Some EAGAIN) else Blocked, st)
      else let n := Z.to_nat (Z.min len (zlen l)) in (Done (take n l), st <| sp_bytes := drop n l |>)
  end.

Definition spec_close (st : pipe_spec) : out Z * pipe_spec :=
  (Done 0, st <| sp_state := match sp_state st with PIPE_ACTIVE => PIPE_CLOSE_WAIT | _ => PIPE_CLOSED end |>).

Definition spec_op (st : pipe_spec) (o : pipe_op) : pipe_out * pipe_spec :=
  match o with
  | PWrite e buf len => let '(r, st) := spec_write st e buf len in (Num r, st)
  | PRead e len => let '(r, st) := spec_read st e len in (Bytes r, st)
  | PClose _ => let '(r, st) := spec_close st in (Num r, st)
  | PNonblock e => (Num (Done 0), st <| sp_nb := fun e' => if decide (e' = e) then true else sp_nb st e' |>)
  end.

Fixpoint spec_run (st : pipe_spec) (ops : list pipe_op) : list pipe_out * pipe_spec :=
  match ops with
  | [] => ([], st)
  | o :: ops => let '(r, st) := spec_op st o in let '(rs, st) := spec_run st ops in (r :: rs, st)
  end.

(** The caller's buffer holds the bytes it announces. *)
Definition op_ok (o : pipe_op) : Prop := match o with PWrite _ buf len => len <= zlen buf | _ => True end.

Section fifo.
Context `{Env} (k : bool -> Z).

(** ** The same operations on the sockets [k false] and [k true] *)

Definition pipe_do (o : pipe_op) : M pipe_out :=
  match o with
  | PWrite e buf len => let* r := PipeWrite (k e) buf len in ret (Num r)
  | PRead e len => let* r := PipeRead (k e) len in ret (Bytes r)
  | PClose e => let* r := PipeClose (k e) in ret (Num r)
  | PNonblock e => let* r := mtcp_setsock_nonblock (k e) in ret (Num r)
  end.

Fixpoint pipe_run (ops : list pipe_op) : M (list pipe_out) :=
  match ops with
  | [] => ret []
  | o :: ops => let* r := pipe_do o in let* rs := pipe_run ops in ret (r :: rs)
  end.

(** ** The invariant *)

Record pipe_inv (a : ptr) (st : pipe_spec) (m : mtcp_manager) : Prop := {
  pi_run : ctx_done m = false /\ ctx_exit m = false;
  pi_ev : events_ok m;
  pi_id : forall e, 0 <= k e < max_concurrency;
  pi_two : k false <> k true;
  pi_sock : forall e, exists sk, sockets m !! k e = Some sk /\ socktype sk = MTCP_SOCK_PIPE /\
    has (opts sk) MTCP_NONBLOCK = sp_nb st e /\
    sk_ref sk = if decide (sp_state st = PIPE_CLOSED) then SockNull else SockPipe a;
  pi_pipe : sp_state st <> PIPE_CLOSED -> exists pp, pipes m !! a = Some pp /\ pipe_rep pp (sp_bytes st) /\
    p_state pp = sp_state st /\ p_sock0 pp = k false /\ p_sock1 pp = k true /\ buf_size pp = PIPE_BUF_SIZE
}.

(** Events do not concern the pipe. *)
Lemma inv_event a st m m' : event_step m m' -> pipe_inv a st m -> pipe_inv a st m'.
Proof.
  intros Hev [Hr He Hi Ht Hs Hp]. pose proof Hev as (Hok & sks & es & -> & _). split; try done.
  intros e. destruct (Hs e) as (sk & Hk & Hty & Hnb & Href).
  destruct (event_step_socket _ _ _ _ Hev Hk) as (sk' & Hk' & Hq). exists sk'.
  assert (socktype sk' = socktype sk /\ opts sk' = opts sk /\ sk_ref sk' = sk_ref sk) as (-> & -> & ->); [|done].
  destruct sk, sk'; unfold quiesce in Hq; cbn in Hq |- *. by injection Hq as -> -> -> -> -> -> -> ->.
Qed.

(** The pipe behind an end, or the answer for one that is gone. *)
Lemma wp_pipe_of {A} a st e err none f (Q : out A -> mtcp_manager -> Prop) m :
  pipe_inv a st m ->
  (sp_state st = PIPE_CLOSED -> wp no_fault none Q m) ->
  (forall sk pp, sp_state st <> PIPE_CLOSED -> sockets m !! k e = Some sk -> has (opts sk) MTCP_NONBLOCK = sp_nb st e ->
     pipes m !! a = Some pp -> pipe_rep pp (sp_bytes st) -> p_state pp = sp_state st -> p_sock0 pp = k false ->
     p_sock1 pp = k true -> buf_size pp = PIPE_BUF_SIZE -> wp no_fault (f sk a pp) Q m) ->
  wp no_fault (GetMTCPManager (pipe_of (k e) err none f)) Q m.
Proof.
  intros [[Hd Hx] _ Hi _ Hs Hp] Hc Ho. destruct (Hs e) as (sk & Hk & Hty & Hnb & Href). specialize (Hi e).
  unfold GetMTCPManager, pipe_of, bad_id, wp, bind, gets, get_socket. rewrite Hd, Hx. simpl.
  destruct (Z.ltb_spec (k e) 0), (Z.leb_spec max_concurrency (k e)); try lia. simpl. rewrite Hk, Hty. simpl. rewrite Href.
  destruct (decide (sp_state st = PIPE_CLOSED)) as [Hcl|Hcl]; simpl; [by apply Hc|].
  destruct (Hp Hcl) as (pp & Hpp & Hrep & Hst & H0' & H1' & Hsz). unfold get_pipe. rewrite Hpp. by apply Ho.
Qed.

Lemma wp_raise a st t e ev m : pipe_inv a st m -> wp no_fault (raise_event t (k e) ev) (fun _ => pipe_inv a st) m.
Proof.
  intros Hm. destruct (pi_sock _ _ _ Hm e) as (sk & Hk & _).
  eapply wp_mono; [by eapply raise_event_ok; [apply Hm|eauto]|]. intros ? m' Hev. cbv beta in Hev. by eapply inv_event.
Qed.

Lemma wp_pair a st pp e ev m : pipe_inv a st m -> p_sock0 pp = k false -> p_sock1 pp = k true ->
  wp no_fault (RaiseEventToPair pp (k e) ev) (fun _ => pipe_inv a st) m.
Proof.
  intros Hm H0' H1'. unfold RaiseEventToPair. rewrite H0', H1'.
  assert (exists e', (if k false =? k e then k true else k false) = k e') as [e' ->] by (destruct (_ =? _); eauto).
  destruct (pi_sock _ _ _ Hm e') as (sk & Hk & _). apply wp_bind. unfold wp at 1, get_socket. rewrite Hk.
  destruct (has _ _); [|by apply wp_ret]. apply wp_when; [|done]. intros _. by apply wp_raise.
Qed.

Lemma inv_set_pipe a st l m pp pp' :
  pipe_inv a st m -> sp_state st <> PIPE_CLOSED -> pipes m !! a = Some pp -> pipe_rep pp' l -> same_pipe pp pp' ->
  pipe_inv a (st <| sp_bytes := l |>) (m <| pipes := <[a := pp']> (pipes m) |>).
Proof.
  intros [Hr He Hi Ht Hs Hp] Hcl Hpp Hrep [= E1 E2 E3 E4]. split; try done. intros _. exists pp'. cbn.
  rewrite lookup_insert_eq, E1, E2, E3, E4. split; [done|]. split; [done|].
  destruct (Hp Hcl) as (pp0 & Hpp0 & _ & ?). by simplify_eq.
Qed.

(** ** Each operation *)

Lemma spec_read_open st e len : sp_state st <> PIPE_CLOSED ->
  spec_read st e len =
    let l := sp_bytes st in
    if bool_decide (sp_state st = PIPE_CLOSE_WAIT) && (zlen l =? 0) then (Done [], st)
    else if len <=? 0 then (if sp_nb st e then Fail (Some EAGAIN) else Done [], st)
    else if zlen l =? 0 then (if sp_nb st e then Fail (Some EAGAIN) else Blocked, st)
    else let n := Z.to_nat (Z.min len (zlen l)) in (Done (take n l), st <| sp_bytes := drop n l |>).
Proof. unfold spec_read. by destruct (sp_state st). Qed.

Lemma read_refines a st e len m : pipe_inv a st m ->
  wp no_fault (PipeRead (k e) len) (fun r m' => r = fst (spec_read st e len) /\ pipe_inv a (snd (spec_read st e len)) m') m.
Proof.
  intros Hm. eapply wp_pipe_of; [done|intros Hc; unfold spec_read; by rewrite Hc|].
  intros sk pp Hcl Hk Hnb Hpp Hrep Hst H0' H1' Hsz. pose proof Hrep as (_ & _ & Hlen & _). rewrite Hst, Hlen, Hnb.
  rewrite spec_read_open by done. unfold check. rewrite (bool_decide_eq_false_2 (sp_state st = PIPE_CLOSED)) by done.
  pose proof (zlen_nonneg (sp_bytes st)). cbv zeta. destruct (bool_decide (sp_state st = PIPE_CLOSE_WAIT) && _) eqn:Hw; [done|].
  destruct (Z.leb_spec len 0); [by destruct (sp_nb st e)|].
  destruct (Z.eqb_spec (zlen (sp_bytes st)) 0) as [Hz|Hz].
  { rewrite andb_true_r in *. apply bool_decide_eq_false in Hw. rewrite Hz, Z.min_r by lia.
    destruct (sp_nb st e); simpl; [|done]. rewrite bool_decide_eq_true_2 by by destruct (sp_state st). done. }
  rewrite andb_false_r. set (n := Z.min len (zlen (sp_bytes st))).
  destruct (Z.leb_spec n 0); [lia|]. simpl. destruct (ring_get_rep pp (sp_bytes st) n) as (pp' & Hg & Hrep' & Hsame); [done|lia|].
  pose proof (inv_set_pipe a st _ m pp pp' Hm Hcl Hpp Hrep' Hsame) as Hm'. pose proof Hsame as [= E1 E2 E3 E4].
  apply wp_bind. unfold wp at 1, lift. rewrite Hg. cbn [res_bind]. apply wp_bind, wp_modify, wp_bind.
  eapply wp_mono with (Q := fun _ => pipe_inv a (st <| sp_bytes := drop (Z.to_nat n) (sp_bytes st) |>)).
  { apply wp_when; [intros _; by apply wp_pair; [|congruence|congruence]|done]. }
  intros ? m1 Hm1. apply wp_bind.
  eapply wp_mono with (Q := fun _ => pipe_inv a (st <| sp_bytes := drop (Z.to_nat n) (sp_bytes st) |>)).
  { destruct (0 <? buf_len pp'); (apply wp_when; [intros _; by apply wp_raise|done]). }
  intros ? m2 Hm2. by apply wp_ret.
Qed.

Lemma write_refines a st e buf len m : len <= zlen buf -> pipe_inv a st m ->
  wp no_fault (PipeWrite (k e) buf len)
    (fun r m' => r = fst (spec_write st e buf len) /\ pipe_inv a (snd (spec_write st e buf len)) m') m.
Proof.
  intros Hbuf Hm. eapply wp_pipe_of; [done|intros Hc; unfold spec_write; by rewrite Hc|].
  intros sk pp Hcl Hk Hnb Hpp Hrep Hst H0' H1' Hsz. pose proof Hrep as (_ & _ & Hlen & _). rewrite Hst, Hlen, Hnb, Hsz.
  unfold spec_write, check. destruct (sp_state st) eqn:Es; [done| |done]. simpl.
  pose proof (zlen_nonneg (sp_bytes st)). assert (zlen (sp_bytes st) <= PIPE_BUF_SIZE) as Hcap.
  { rewrite <- Hsz. destruct Hrep as ((_ & ? & _) & -> & _). done. }
  destruct (Z.leb_spec len 0); [by destruct (sp_nb st e)|]. remember (PIPE_BUF_SIZE - zlen (sp_bytes st)) as room eqn:Hroom.
  replace (zlen (sp_bytes st) =? PIPE_BUF_SIZE) with (room =? 0) by (repeat bdestruct_one; done || lia).
  destruct (Z.eqb_spec room 0) as [Hz|Hz].
  { rewrite Hz, Z.min_r by lia. by destruct (sp_nb st e). }
  rewrite andb_false_r. set (n := Z.min len room). destruct (Z.leb_spec n 0); [lia|].
  rewrite mem_read_eq by lia. rewrite drop_0. cbn [from_option_res].
  assert (zlen (take (Z.to_nat n) buf) = n) as Hn by (rewrite zlen_take; lia).
  destruct (ring_put_rep pp (sp_bytes st) (take (Z.to_nat n) buf)) as (pp' & Hg & Hrep' & Hsame); [done|lia|].
  pose proof (inv_set_pipe a st _ m pp pp' Hm ltac:(congruence) Hpp Hrep' Hsame) as Hm'. pose proof Hsame as [= E1 E2 E3 E4].
  apply wp_bind, wp_ret. cbv beta. apply wp_bind. unfold wp at 1, lift. rewrite Hn in Hg. rewrite Hg. cbn [res_bind].
  apply wp_bind, wp_modify, wp_bind. set (st' := st <| sp_bytes := _ |>) in *.
  eapply wp_mono with (Q := fun _ => pipe_inv a st').
  { apply wp_when; [intros _; by apply wp_pair; [|congruence|congruence]|done]. }
  intros ? m1 Hm1. apply wp_bind. eapply wp_mono with (Q := fun _ => pipe_inv a st').
  { do 2 (apply wp_when; [intros _|done]). by apply wp_raise. }
  intros ? m2 Hm2. by apply wp_ret.
Qed.

Lemma close_refines a st e m : pipe_inv a st m ->
  wp no_fault (PipeClose (k e)) (fun r m' => r = fst (spec_close st) /\ pipe_inv a (snd (spec_close st)) m') m.
Proof.
  intros Hm. unfold spec_close. eapply wp_pipe_of; [done| |].
  - intros Hc. apply wp_ret. split; [done|]. rewrite Hc. destruct st; simpl in *; by subst.
  - intros sk pp Hcl Hk Hnb Hpp Hrep Hst H0' H1' Hsz. rewrite Hst. destruct (sp_state st) eqn:Es; [done| |].
    + apply wp_bind, wp_modify, wp_bind. set (st' := st <| sp_state := PIPE_CLOSE_WAIT |>).
      eapply wp_mono with (Q := fun _ => pipe_inv a st'); [apply wp_pair; [|done|done]|intros ? m1 Hm1; by apply wp_ret].
      destruct Hm as [? ? ? ? Hs _]. split; try done.
      * intros e'. destruct (Hs e') as (sk' & Hsk'). exists sk'. by rewrite Es in Hsk'.
      * intros _. eexists. simpl. by rewrite lookup_insert_eq.
    + rewrite H0', H1'. destruct Hm as [? Hev ? Htwo Hs _].
      destruct (Hs false) as (s0 & Hs0 & Ht0 & Hn0 & _), (Hs true) as (s1 & Hs1 & Ht1 & Hn1 & _).
      apply wp_bind. unfold wp at 1, upd_socket. rewrite Hs0. apply wp_bind. unfold wp at 1. simpl.
      rewrite lookup_insert_ne, Hs1 by done. apply wp_bind, wp_modify, wp_ret. split; [done|].
      split; try done. intros [] ; simpl.
      * eexists. by rewrite lookup_insert_eq.
      * eexists. by rewrite lookup_insert_ne, lookup_insert_eq by done.
Qed.

Lemma nonblock_refines a st e m : pipe_inv a st m ->
  wp no_fault (mtcp_setsock_nonblock (k e))
    (fun r m' => r = Done 0 /\ pipe_inv a (st <| sp_nb := fun e' => if decide (e' = e) then true else sp_nb st e' |>) m') m.
Proof.
  intros [[Hd Hx] Hev Hi Htwo Hs Hp]. destruct (Hs e) as (sk & Hk & Hty & Hnb & Href). specialize (Hi e) as Hie.
  unfold mtcp_setsock_nonblock, GetMTCPManager, bad_id, wp, bind, gets, get_socket. rewrite Hd, Hx. simpl.
  destruct (Z.ltb_spec (k e) 0), (Z.leb_spec max_concurrency (k e)); try lia. simpl. rewrite Hk, Hty. simpl.
  unfold bind, upd_socket. rewrite Hk. simpl. split; [done|]. split; try done.
  intros e'. simpl. destruct (decide (e' = e)) as [->|Hne].
  - eexists. rewrite lookup_insert_eq. split; [done|]. split_and!; [done| |done]. simpl. unfold has, MTCP_NONBLOCK.
    rewrite Z.land_comm, Z.land_lor_distr_r. change (Z.land 1 1) with 1.
    destruct (Z.eqb_spec (Z.lor (Z.land 1 (opts sk)) 1) 0) as [[_ ?]%Z.lor_eq_0_iff|]; done.
  - rewrite lookup_insert_ne; [apply Hs|]. destruct e, e'; done || auto.
Qed.

Lemma op_refines a st o m : op_ok o -> pipe_inv a st m ->
  wp no_fault (pipe_do o) (fun r m' => r = fst (spec_op st o) /\ pipe_inv a (snd (spec_op st o)) m') m.
Proof.
  intros Ho Hm. destruct o as [e buf len|e len|e|e]; apply wp_bind; simpl.
  - eapply wp_mono; [by apply write_refines|]. intros ? m' [-> ?]. apply wp_ret. by destruct (spec_write st e buf len).
  - eapply wp_mono; [by apply read_refines|]. intros ? m' [-> ?]. apply wp_ret. by destruct (spec_read st e len).
  - eapply wp_mono; [by apply close_refines|]. intros ? m' [-> ?]. by apply wp_ret.
  - eapply wp_mono; [by apply nonblock_refines|]. intros ? m' [-> ?]. by apply wp_ret.
Qed.

Lemma run_refines a ops : forall st m, Forall op_ok ops -> pipe_inv a st m ->
  wp no_fault (pipe_run ops) (fun rs m' => rs = fst (spec_run st ops) /\ pipe_inv a (snd (spec_run st ops)) m') m.
Proof.
  induction ops as [|o ops IH]; intros st m Hok Hm; simpl; [by apply wp_ret|]. apply Forall_cons in Hok as [Ho Hok].
  apply wp_bind. eapply wp_mono; [by apply op_refines|]. intros r m1 [-> Hm1].
  destruct (spec_op st o) as [r st1]. simpl in *. apply wp_bind. eapply wp_mono; [by apply IH|]. intros rs m2 [-> Hm2].
  destruct (spec_run st1 ops) as [rs st2]. by apply wp_ret.
Qed.
End fifo.

(** ** A new pipe *)

Section create.
Context `{Env}.

(** The thread runs and its sockets and events are in order. *)
Definition running (m : mtcp_manager) : Prop :=
  (ctx_done m = false /\ ctx_exit m = false) /\ events_ok m /\ sockets_ok m.

Definition ends (i j : Z) (e : bool) : Z := if e then j else i.
Definition new_pipe : pipe_spec := mkSpec PIPE_ACTIVE [] (fun _ => false).

Lemma next_malloc_cases m : exists b l, next_malloc m = Ok (b, m <| mallocs := l |>) /\ (b = true -> mallocs m = true :: l).
Proof. unfold next_malloc. destruct (mallocs m) as [|b l] eqn:E; [exists false, []|exists b, l]; split; try done; [destruct m; simpl in *; by subst|by intros ->]. Qed.

Lemma FreeSocket_returns k m : is_Some (sockets m !! k) ->
  wp no_fault (FreeSocket k) (fun _ m' => forall i, is_Some (sockets m !! i) -> is_Some (sockets m' !! i)) m.
Proof.
  intros [s Hs]. unfold wp, FreeSocket, bind, get_socket, upd_socket. rewrite Hs. destruct (socktype s =? _); [by simpl|]. rewrite Hs. simpl.
  intros i. destruct (decide (k = i)) as [->|]; [rewrite lookup_insert_eq; eauto|by rewrite lookup_insert_ne].
Qed.

(** Both sockets are given back. *)
Lemma give_back {A} i j e m (Q : out A -> mtcp_manager -> Prop) :
  is_Some (sockets m !! i) -> is_Some (sockets m !! j) -> (forall m', Q (Fail (Some e)) m') ->
  wp no_fault (FreeSocket i ;;; FreeSocket j ;;; fail e)%mtcp Q m.
Proof.
  intros Hi Hj HQ. apply wp_bind. eapply wp_mono; [by apply FreeSocket_returns|]. intros ? m1 H1. cbv beta in H1.
  apply wp_bind. eapply wp_mono; [by apply FreeSocket_returns, H1|]. intros ? m2 _. by apply wp_ret.
Qed.

Lemma running_pipe_inv m i j l a n sks :
  running m -> free_smap m = i :: j :: l -> zlen (fresh_mem PIPE_BUF_SIZE) = PIPE_BUF_SIZE ->
  (forall e, sks !! ends i j e = Some (fresh_socket (ends i j e) MTCP_SOCK_PIPE <| sk_ref := SockPipe a |>)) ->
  pipe_inv (ends i j) a new_pipe
    (m <| free_smap := l |> <| mallocs := n |> <| heap_next := a + 1 |> <| sockets := sks |>
       <| pipes := <[a := mkPipe PIPE_ACTIVE i j (fresh_mem PIPE_BUF_SIZE) 0 0 0 PIPE_BUF_SIZE]> (pipes m) |>).
Proof.
  intros (Hc & He & Hs) Hf Hmem Hsks. pose proof (so_nodup _ Hs) as Hnd. rewrite Hf in Hnd.
  apply NoDup_cons in Hnd as [Hij _]. assert (i <> j) as Hne by (intros ->; apply Hij; by left).
  assert (forall x, x ∈ free_smap m -> 0 <= x < max_concurrency) as Hr.
  { intros x (s & Hx & _)%(so_free _ Hs). apply (so_range _ Hs). eauto. }
  rewrite Hf in Hr. split; simpl; try done.
  - intros []; apply Hr; set_solver.
  - intros e. eexists. by rewrite Hsks.
  - intros _. eexists. rewrite lookup_insert_eq. split; [done|]. split_and!; try done. split_and!; simpl; try done.
    apply ring_empty. rewrite Hmem. done.
Qed.

(** C25: A new pipe is a bounded FIFO of bytes. [mtcp_pipe] answers ENFILE only
    when fewer than two sockets are free, ENOMEM only when an allocation
    failed, and otherwise two sockets; every sequence of writes, reads,
    closes and switches to non-blocking mode on the two then returns exactly
    what the abstract pipe returns: bytes come out in the order they went in,
    none is lost or invented, at most [PIPE_BUF_SIZE] are held, reads of an
    empty and writes to a full pipe wait or fail, and the ends see the other
    end close. No step faults. *)
Theorem pipe_fifo m : running m -> zlen (fresh_mem PIPE_BUF_SIZE) = PIPE_BUF_SIZE ->
  wp no_fault mtcp_pipe (fun r m' =>
    match r with
    | Done (i, j) => forall ops, Forall op_ok ops ->
        exists m'', pipe_run (ends i j) ops m' = Ok (fst (spec_run new_pipe ops), m'')
    | Fail e => (e = Some ENFILE /\ (length (free_smap m) < 2)%nat) \/ (e = Some ENOMEM /\ forall l, mallocs m <> true :: true :: l)
    | Blocked => False
    end) m.
Proof.
  intros Hrun Hmem. pose proof Hrun as (Hc & He & Hs). unfold mtcp_pipe. apply wp_bind.
  unfold wp at 1. rewrite AllocateSocket_spec by done. destruct (free_smap m) as [|i l0] eqn:Hf; [by left; split; [|simpl; lia]|].
  pose proof (AllocateSocket_ok _ MTCP_SOCK_PIPE _ _ Hs ltac:(done) Hf) as Hs1. apply wp_bind.
  unfold wp at 1. rewrite AllocateSocket_spec by done. cbn -[PIPE_BUF_SIZE wp].
  destruct l0 as [|j l]; cbn -[PIPE_BUF_SIZE wp].
  { apply wp_bind. eapply wp_mono; [apply FreeSocket_returns; simpl; rewrite lookup_insert_eq; eauto|].
    intros ? m1 _. apply wp_ret. left. split; [done|]. lia. }
  assert (i <> j) as Hne. { pose proof (so_nodup _ Hs) as Hnd. rewrite Hf in Hnd. apply NoDup_cons in Hnd as [Hij _]. intros ->. apply Hij. by left. }
  match goal with |- wp _ _ _ ?x => set (m2 := x) end.
  assert (is_Some (sockets m2 !! i) /\ is_Some (sockets m2 !! j)) as [Hi Hj].
  { simpl. rewrite lookup_insert_eq, lookup_insert_ne, lookup_insert_eq by done. eauto. }
  destruct (next_malloc_cases m2) as (b1 & n1 & Hm1 & Hb1). apply wp_bind. unfold wp at 1. rewrite Hm1. destruct b1; simpl negb; cbv iota.
  2:{ apply give_back; [done|done|]. intros ?. right. split; [done|]. intros l' E. revert Hm1. unfold next_malloc.
      change (mallocs m2) with (mallocs m). rewrite E. intros [=]. }
  set (m3 := m2 <| mallocs := n1 |>). specialize (Hb1 eq_refl). change (mallocs m2) with (mallocs m) in Hb1.
  destruct (next_malloc_cases m3) as (b2 & n2 & Hm2 & Hb2). apply wp_bind. unfold wp at 1. rewrite Hm2. destruct b2; simpl negb; cbv iota.
  2:{ apply give_back; [done|done|]. intros ?. right. split; [done|]. intros l' E. revert Hm2. unfold next_malloc.
      change (mallocs m3) with n1. rewrite E in Hb1. injection Hb1 as <-. intros [=]. }
  apply wp_bind, wp_gets, wp_bind, wp_modify, wp_bind, wp_modify, wp_bind.
  unfold wp at 1, upd_socket. cbn -[PIPE_BUF_SIZE wp]. rewrite lookup_insert_ne, lookup_insert_eq by done.
  apply wp_bind. unfold wp at 1. cbn -[PIPE_BUF_SIZE wp]. rewrite lookup_insert_ne, lookup_insert_eq by done.
  apply wp_bind. unfold wp at 1, get_socket. cbn -[PIPE_BUF_SIZE wp]. rewrite lookup_insert_ne, lookup_insert_eq by done.
  apply wp_bind. unfold wp at 1. cbn -[PIPE_BUF_SIZE wp]. rewrite lookup_insert_eq. apply wp_ret. simpl sk_id.
  intros ops Hops. match goal with |- exists _, _ ?x = _ => set (m4 := x) end.
  assert (pipe_inv (ends i j) (heap_next m) new_pipe m4) as Hinv.
  { apply (running_pipe_inv m i j l (heap_next m) n2 (sockets m4)); [done|done|done|].
    intros []; simpl; [by rewrite lookup_insert_eq|]. by rewrite lookup_insert_ne, lookup_insert_eq. }
  pose proof (run_refines _ _ ops _ _ Hops Hinv) as Hw. unfold wp in Hw.
  destruct (pipe_run (ends i j) ops m4) as [[rs m5]|]; [|done]. destruct Hw as [-> _]. eauto.
Qed.
End create.

Import Demo.

Lemma demo_running : running m_boot.
Proof.
  split; [done|]. split; [eapply init_events_ok|eapply init_sockets_ok]; first [exact boot_eq|done].
Qed.

(** Through a new pipe: two bytes written at one end are read at the other. *)
Lemma pipe_fifo_witness : exists i j m1 m2, mtcp_pipe m_boot = Ok (Done (i, j), m1) /\
  pipe_run (ends i j) [PWrite false [7; 8] 2; PRead true 10; PClose false; PRead true 1] m1 =
    Ok ([Num (Done 2); Bytes (Done [7; 8]); Num (Done 0); Bytes (Done [])], m2).
Proof.
  assert (zlen (fresh_mem PIPE_BUF_SIZE) = PIPE_BUF_SIZE) as Hmem by (vm_compute; reflexivity).
  destruct (wp_returns _ _ _ (pipe_fifo m_boot demo_running Hmem)) as ([[i j]|e|] & m1 & E & Hw); [| |done].
  - exists i, j, m1. destruct (Hw [PWrite false [7; 8] 2; PRead true 10; PClose false; PRead true 1]) as [m2 Hr].
    { repeat constructor; by vm_compute. }
    exists m2. split; [done|]. rewrite Hr.
    match goal with |- Ok (?x, _) = Ok (?y, _) => assert (x = y) as -> by (vm_compute; reflexivity) end. reflexivity.
  - exfalso. destruct Hw as [[_ Hl]|[_ Hl]]; [|eapply Hl; vm_compute; reflexivity].
    revert Hl. vm_compute. lia.
Defined.
