(* ===== verification/Epoll.v ===== *)
(** * The event interface: [eventpoll.c]

    A thread that waits in [mtcp_epoll_wait] gives up the lock of its
    instance, so the call is modelled in two parts: [mtcp_epoll_wait] up to
    the wait, and [epoll_resume] from the wake-up on; between the two the
    state may change. *)

From S2P Require Import Prelude SeqNum SpscQueue RingBuffer Machine FlowTable Boot Sockets Pipe.

Definition MTCP_EPOLL_CTL_ADD : Z := 1.
Definition MTCP_EPOLL_CTL_DEL : Z := 2.
Definition MTCP_EPOLL_CTL_MOD : Z := 3.
Definition O_CLOEXEC : Z := 524288.

(** What a call to [mtcp_epoll_wait] comes to: a result, or a wait with the
    timeout given. *)
Inductive wait_res := Returned (o : out (list (Z * Z))) | Waiting (timeout : Z).

(** How a wait ended: [true] if the condition variable reported an error
    other than a timeout. *)
Definition wait_error := bool.

(** ** Creation and destruction *)

Definition new_epoll (u s q : event_queue) : mtcp_epoll := mkEpoll u s q false 0 0 0 0 0 0 0.

(** The outcomes of [pthread_mutex_init] and [pthread_cond_init] are taken
    with those of the allocations. *)
Definition create_queue (size : Z) : M (option event_queue) :=
  let* ok1 := next_malloc in
  if ok1 then let* ok2 := next_malloc in ret (CreateEventQueue true ok2 size) else ret None.

Definition no_queue (sockid : Z) : M (out Z) := FreeSocket sockid ;;; ret (Fail None).

Definition mtcp_epoll_create (size : Z) : M (out Z) :=
  check (size <=? 0) EINVAL
    (let* o := AllocateSocket MTCP_SOCK_EPOLL in
     match o with
     | None => fail ENFILE
     | Some k =>
         let* ok := next_malloc in
         if negb ok then no_queue k
         else
           let* u := create_queue size in
           match u with None => no_queue k | Some u =>
           let* s := create_queue size in
           match s with None => no_queue k | Some s =>
           let* q := create_queue size in
           match q with None => no_queue k | Some q =>
             let* a := gets heap_next in
             modify (fun m => m <| heap_next := a + 1 |>) ;;;
             set_epoll a (new_epoll u s q) ;;;
             modify (fun m => m <| ep := Some a |>) ;;;
             upd_socket k (fun x => x <| sk_ref := SockEpoll a |>) ;;;
             let* ok1 := next_malloc in
             let* ok2 := if ok1 then next_malloc else ret false in
             if ok2 then let* sk := get_socket k in finish (sk_id sk)
             else modify (fun m => m <| epolls := delete a (epolls m) |>) ;;; no_queue k
           end end end
     end).

Section epoll.
Context `{Env}.

Definition mtcp_epoll_create1 (flags : Z) : M (out Z) :=
  if (flags =? 0) || (flags =? O_CLOEXEC) then mtcp_epoll_create (s32 (max_concurrency * 3)) else fail EINVAL.

Definition CloseEpollSocket (epid : Z) : M (out Z) :=
  GetMTCPManager
    (let* sk := get_socket epid in
     let* o := as_epoll (sk_ref sk) in
     match o with
     | None => fail EINVAL
     | Some a =>
         let* _ := get_epoll a in
         modify (fun m => m <| ep := None |>) ;;;
         upd_socket epid (fun s => s <| sk_ref := SockNull |>) ;;;
         modify (fun m => m <| epolls := delete a (epolls m) |>) ;;;
         finish 0
     end).

(** ** Registration *)

(** Events for what the stream already has. *)
Definition RaisePendingStreamEvents (a : ptr) (k : Z) : M Z :=
  let* sk := get_socket k in
  let* o := as_stream (sk_ref sk) in
  match o with
  | None => ret (-1)
  | Some p =>
      let* s := get_stream p in
      if st_code (state s) <? st_code TCP_ST_ESTABLISHED then ret (-1)
      else
        when (has (epoll sk) MTCP_EPOLLIN)
          (let readable := match rcvbuf (rcvvar s) with Some (_, b) => 0 <? merged_len b | None => false end in
           when (readable || bool_decide (state s = TCP_ST_CLOSE_WAIT))
             (AddEpollEvent (Some a) USR_SHADOW_EVENT_QUEUE k MTCP_EPOLLIN ;;; ret tt)) ;;;
        when (has (epoll sk) MTCP_EPOLLOUT)
          (when (match sndbuf (sndvar s) with None => true | Some _ => 0 <? snd_wnd (sndvar s) end)
            (let* sk := get_socket k in
             when (negb (has (events sk) MTCP_EPOLLOUT))
               (AddEpollEvent (Some a) USR_SHADOW_EVENT_QUEUE k MTCP_EPOLLOUT ;;; ret tt))) ;;;
        ret 0
  end.

(** The socket of an instance. *)
Definition epoll_of {A} (epid : Z) (k : option ptr -> M (out A)) : M (out A) :=
  let* s := get_socket epid in
  check (socktype s =? MTCP_SOCK_UNUSED) EBADF
    (check (negb (socktype s =? MTCP_SOCK_EPOLL)) EINVAL (let* o := as_epoll (sk_ref s) in k o)).

(** Record the events asked for, and raise those that hold already. *)
Definition register (a : ptr) (sockid : Z) (evs dat : Z) : M (out Z) :=
  upd_socket sockid (fun s => s <| ep_data := dat |> <| epoll := Z.lor evs (Z.lor MTCP_EPOLLERR MTCP_EPOLLHUP) |>) ;;;
  let* sk := get_socket sockid in
  (if socktype sk =? MTCP_SOCK_STREAM then RaisePendingStreamEvents a sockid ;;; ret tt
   else if socktype sk =? MTCP_SOCK_PIPE then RaisePendingPipeEvents (Some a) sockid ;;; ret tt
   else ret tt) ;;;
  finish 0.

(** [event] is the pointed-to pair of events and data. *)
Definition mtcp_epoll_ctl (epid op sockid : Z) (event : option (Z * Z)) : M (out Z) :=
  GetMTCPManager
    (check (bad_id epid) EBADF (check (bad_id sockid) EBADF (epoll_of epid (fun o =>
      match o with
      | None => fail EINVAL
      | Some a =>
          check (bool_decide (event = None) && negb (op =? MTCP_EPOLL_CTL_DEL)) EINVAL
            (let* sk := get_socket sockid in
             if op =? MTCP_EPOLL_CTL_ADD then
               check (negb (epoll sk =? 0)) EEXIST
                 (match event with Some (evs, dat) => register a sockid evs dat | None => throw NullDeref end)
             else if op =? MTCP_EPOLL_CTL_MOD then
               check (epoll sk =? 0) ENOENT
                 (match event with Some (evs, dat) => register a sockid evs dat | None => throw NullDeref end)
             else if op =? MTCP_EPOLL_CTL_DEL then
               check (epoll sk =? 0) ENOENT
                 (upd_socket sockid (fun s => s <| epoll := MTCP_EPOLLNONE |>) ;;; finish 0)
             else finish 0)
      end)))).

(** ** Waiting *)

(** An event is delivered if its socket is in use, registered for it, and
    has it pending. *)
Definition valid_event (sk : socket_map) (ev : epoll_event_int) : bool :=
  negb (socktype sk =? MTCP_SOCK_UNUSED) && has (epoll sk) (ev_events ev) && has (events sk) (ev_events ev).

(** [n] events of one queue at most, [acc] already fetched. *)
Fixpoint fetch_events (n : nat) (a : ptr) (t : queue_type) (maxevents : Z) (acc : list (Z * Z)) : M (list (Z * Z)) :=
  match n with
  | O => ret acc
  | S n =>
      if zlen acc <? maxevents then
        let* e := get_epoll a in
        let q := get_queue e t in
        let* ev := lift (eq_front q) in
        let* sk := get_socket (ev_sockid ev) in
        let v := valid_event sk ev in
        when v (assert (0 <=? ev_sockid ev)) ;;;
        let e := if v then e <| handled := u64 (handled e + 1) |> else e <| invalidated := u64 (invalidated e + 1) |> in
        upd_socket (ev_sockid ev) (fun s => s <| events := Z.ldiff (events s) (ev_events ev) |>) ;;;
        set_epoll a (set_queue e t (eq_drop q)) ;;;
        fetch_events n a t maxevents (if v then acc ++ [(ev_events ev, ev_data ev)] else acc)
      else ret acc
  end.

Definition fetch_queue (a : ptr) (t : queue_type) (maxevents : Z) (acc : list (Z * Z)) : M (list (Z * Z)) :=
  let* e := get_epoll a in fetch_events (Z.to_nat (num_events (get_queue e t))) a t maxevents acc.

(** From the label [wait]: with the lock held nothing else happens, so a
    round that delivers nothing leaves both queues empty and the next one
    waits; two rounds are enough. *)
Fixpoint wait_loop (fuel : nat) (a : ptr) (maxevents timeout : Z) : M wait_res :=
  match fuel with
  | O => throw OutOfFuel
  | S fuel =>
      let* e := get_epoll a in
      if (num_events (usr_queue e) =? 0) && (num_events (usr_shadow_queue e) =? 0) && negb (timeout =? 0) then
        set_epoll a (e <| waits := u64 (waits e + 1) |> <| waiting := true |>) ;;;
        ret (Waiting timeout)
      else
        let* l := fetch_queue a USR_EVENT_QUEUE maxevents [] in
        let* l := fetch_queue a USR_SHADOW_EVENT_QUEUE maxevents l in
        if (zlen l =? 0) && negb (timeout =? 0) then wait_loop fuel a maxevents timeout
        else ret (Returned (Done l))
  end.

Definition as_wait (c : M (out wait_res)) : M wait_res :=
  let* o := c in
  ret (match o with Done w => w | Fail e => Returned (Fail e) | Blocked => Returned Blocked end).

(** [has_buf]: the caller's array is not null. *)
Definition mtcp_epoll_wait (epid : Z) (has_buf : bool) (maxevents timeout : Z) : M wait_res :=
  as_wait (GetMTCPManager (check (bad_id epid) EBADF (epoll_of epid (fun o =>
    match o with
    | None => fail EINVAL
    | Some a =>
        check (negb has_buf || (maxevents <=? 0)) EINVAL
          (let* e := get_epoll a in
           set_epoll a (e <| calls := u64 (calls e + 1) |>) ;;;
           let* w := wait_loop 2 a maxevents timeout in finish w)
    end)))).

(** The absolute deadline of a wait of [timeout] > 0 milliseconds from the
    time [sec], [nsec]. *)
Definition wait_deadline (sec nsec timeout : Z) : Z * Z :=
  let '(sec, timeout) := if 1000 <=? timeout then (sec + timeout / 1000, timeout - timeout / 1000 * 1000) else (sec, timeout) in
  let nsec := nsec + timeout * 1000000 in
  if 1000000000 <=? nsec then (sec + 1, nsec - 1000000000) else (sec, nsec).

(** After the wake-up of a wait on instance [a]. *)
Definition epoll_resume (a : ptr) (maxevents timeout : Z) (err : wait_error) : M wait_res :=
  if err then ret (Returned (Fail None))
  else
    let timeout := if 0 <? timeout then 0 else timeout in
    let* e := get_epoll a in
    set_epoll a (e <| waiting := false |>) ;;;
    let* d := gets ctx_done in
    let* x := gets ctx_exit in
    let* i := gets ctx_interrupt in
    if d || x || i then
      modify (fun m => m <| ctx_interrupt := false |>) ;;;
      ret (Returned (Fail (Some EINTR)))
    else wait_loop 2 a maxevents timeout.
End epoll.
