(* ===== verification/EpollSpec.v ===== *)
(** * Events are delivered in order, and none is lost

    [deliver] is what waiting does to the lists of pending events. The ring
    queues of an instance implement it. The invariant [pending_ok] says that
    an event marked pending on a socket is in a queue; so a thread waits only
    when nothing is pending. *)

From S2P Require Import Prelude SeqNum SpscQueue Machine Wp FlowTable Boot Ring Sockets SocketTable Events Pipe Epoll.

(** ** Delivery on lists *)

Definition clear_event (sks : gmap Z socket_map) (ev : epoll_event_int) : gmap Z socket_map :=
  alter (fun s => s <| events := Z.ldiff (events s) (ev_events ev) |>) (ev_sockid ev) sks.

Definition valid_in (sks : gmap Z socket_map) (ev : epoll_event_int) : bool :=
  match sks !! ev_sockid ev with Some sk => valid_event sk ev | None => false end.

(** What was fetched, the sockets, and the events left. *)
Fixpoint deliver (maxevents : Z) (acc : list (Z * Z)) (sks : gmap Z socket_map) (l : list epoll_event_int) :
    list (Z * Z) * gmap Z socket_map * list epoll_event_int :=
  match l with
  | [] => (acc, sks, [])
  | ev :: l' =>
      if zlen acc <? maxevents then
        deliver maxevents (if valid_in sks ev then acc ++ [(ev_events ev, ev_data ev)] else acc) (clear_event sks ev) l'
      else (acc, sks, l)
  end.

(** The events name existing sockets. *)
Definition known (sks : gmap Z socket_map) (l : list epoll_event_int) : Prop :=
  Forall (fun ev => 0 <= ev_sockid ev /\ is_Some (sks !! ev_sockid ev)) l.

Lemma known_clear sks ev l : known sks l -> known (clear_event sks ev) l.
Proof.
  intros Hl. eapply Forall_impl; [exact Hl|]. intros x [? Hx]. split; [done|]. unfold clear_event.
  destruct (decide (ev_sockid ev = ev_sockid x)) as [->|]; [by rewrite lookup_alter_eq, fmap_is_Some|by rewrite lookup_alter_ne].
Qed.

(** [e'] is [e] with another queue [t] and other counters. *)
Definition requeued (t : queue_type) (e e' : mtcp_epoll) : Prop :=
  (forall t', t' <> t -> get_queue e' t' = get_queue e t') /\ waiting e' = waiting e.

Lemma requeued_trans t e1 e2 e3 : requeued t e1 e2 -> requeued t e2 e3 -> requeued t e1 e3.
Proof. intros [H1 ?] [H2 ?]. split; [intros t' Ht; by rewrite H2, H1|congruence]. Qed.

Lemma fetch_events_refines a t maxevents l : forall acc m e,
  epolls m !! a = Some e -> eq_rep (get_queue e t) l -> known (sockets m) l ->
  let '(acc', sks', rest) := deliver maxevents acc (sockets m) l in
  exists e', fetch_events (length l) a t maxevents acc m =
    Ok (acc', m <| sockets := sks' |> <| epolls := <[a := e']> (epolls m) |>) /\
    eq_rep (get_queue e' t) rest /\ requeued t e e'.
Proof.
  induction l as [|ev l IH]; intros acc m e He Hl Hk; simpl.
  - exists e. split; [|done]. rewrite insert_id by done. by destruct m.
  - destruct (zlen acc <? maxevents).
    + apply Forall_cons in Hk as [[Hpos [sk Hsk]] Hk]. unfold bind, get_epoll, lift. rewrite He, (eq_front_rep _ _ _ Hl). simpl.
      unfold bind, get_socket. rewrite Hsk. unfold valid_in. rewrite Hsk.
      destruct (Z.leb_spec 0 (ev_sockid ev)); [|lia].
      assert ((when (valid_event sk ev) (assert true) : M unit) = ret tt) as -> by by destruct (valid_event sk ev).
      unfold ret at 1, bind, upd_socket. rewrite Hsk. unfold set_epoll, modify.
      match goal with |- context [set_queue ?x t _] => set (e1 := x) end.
      destruct (eq_drop_rep _ _ _ Hl) as [Hl1 _].
      assert (get_queue e1 t = get_queue e t) as Hq by (unfold e1; by destruct (valid_event sk ev), t).
      set (m1 := m <| sockets := <[ev_sockid ev := _]> (sockets m) |>).
      set (e2 := set_queue e1 t (eq_drop (get_queue e t))).
      specialize (IH (if valid_event sk ev then acc ++ [(ev_events ev, ev_data ev)] else acc)
        (m1 <| epolls := <[a := e2]> (epolls m1) |>) e2).
      assert (sockets m1 = clear_event (sockets m) ev) as Hs1.
      { unfold m1, clear_event. simpl. symmetry. apply map_eq. intros i. destruct (decide (ev_sockid ev = i)) as [<-|].
        - by rewrite lookup_alter_eq, lookup_insert_eq, Hsk.
        - by rewrite lookup_alter_ne, lookup_insert_ne. }
      change (sockets (m1 <| epolls := <[a := e2]> (epolls m1) |>)) with (sockets m1) in IH. rewrite Hs1 in IH.
      destruct (deliver _ _ _ l) as [[acc' sks'] rest]. destruct IH as (e' & Hf & Hr & Hq').
      * simpl. by rewrite lookup_insert_eq.
      * unfold e2. rewrite get_set_queue. by rewrite decide_True.
      * by apply known_clear.
      * exists e'. split; [|split; [done|]].
        -- rewrite Hf. simpl. by rewrite insert_insert_eq.
        -- eapply requeued_trans; [|done]. split; [|by unfold e2, e1; destruct (valid_event sk ev), t].
           intros t' Ht. unfold e2. rewrite get_set_queue, decide_False by done. unfold e1. by destruct (valid_event sk ev), t'.
    + exists e. split; [|done]. rewrite insert_id by done. by destruct m.
Qed.

(** Fetching stops early only when the caller's array is full. *)
Lemma deliver_full maxevents l : forall acc sks,
  let '(acc', _, rest) := deliver maxevents acc sks l in
  zlen acc <= zlen acc' /\ (zlen acc' < maxevents -> rest = []) /\ (zlen acc <= maxevents -> zlen acc' <= maxevents).
Proof.
  induction l as [|ev l IH]; intros acc sks; simpl; [split; [lia|done]|].
  destruct (Z.ltb_spec (zlen acc) maxevents); [|split; [lia|split; [lia|done]]].
  specialize (IH (if valid_in sks ev then acc ++ [(ev_events ev, ev_data ev)] else acc) (clear_event sks ev)).
  destruct (deliver _ _ _ l) as [[acc' sks'] rest]. destruct (valid_in sks ev); [|done]. rewrite zlen_app in IH.
  change (zlen [_]) with 1 in IH. split; [lia|]. split; [tauto|]. intros _. apply IH. lia.
Qed.

Lemma deliver_known maxevents l l' : forall acc sks, known sks l' -> known (deliver maxevents acc sks l).1.2 l'.
Proof.
  induction l as [|ev l IH]; intros acc sks Hk; simpl; [done|]. destruct (zlen acc <? maxevents); [|done].
  apply IH. by apply known_clear.
Qed.

(** ** Waiting on lists

    [None]: the thread waits. *)
Definition wait_spec (maxevents timeout : Z) (sks : gmap Z socket_map) (lu ls : list epoll_event_int) :
    option (list (Z * Z)) * gmap Z socket_map * list epoll_event_int * list epoll_event_int :=
  if (zlen lu =? 0) && (zlen ls =? 0) && negb (timeout =? 0) then (None, sks, lu, ls)
  else
    let '(acc, sks, lu) := deliver maxevents [] sks lu in
    let '(acc, sks, ls) := deliver maxevents acc sks ls in
    (if (zlen acc =? 0) && negb (timeout =? 0) then None else Some acc, sks, lu, ls).

Lemma zlen_0 {A} (l : list A) : zlen l = 0 -> l = [].
Proof. destruct l; [done|]. rewrite zlen_cons. pose proof (zlen_nonneg l). lia. Qed.

(** When the thread waits the queues are empty. *)
Lemma wait_spec_none maxevents timeout sks lu ls sks' lu' ls' : 0 < maxevents ->
  wait_spec maxevents timeout sks lu ls = (None, sks', lu', ls') -> lu' = [] /\ ls' = [].
Proof.
  intros Hm. unfold wait_spec. destruct ((zlen lu =? 0) && (zlen ls =? 0) && negb (timeout =? 0)) eqn:E.
  - apply andb_true_iff in E as [[?%Z.eqb_eq%zlen_0 ?%Z.eqb_eq%zlen_0]%andb_true_iff _]. by intros [= <- <- <-].
  - pose proof (deliver_full maxevents lu [] sks) as H1. destruct (deliver _ _ _ lu) as [[acc1 sks1] lu1].
    pose proof (deliver_full maxevents ls acc1 sks1) as H2. destruct (deliver _ _ _ ls) as [[acc2 sks2] ls2].
    destruct ((zlen acc2 =? 0) && _) eqn:E2; [|done]. apply andb_true_iff in E2 as [?%Z.eqb_eq _]. intros [= <- <- <-].
    pose proof (zlen_nonneg acc1). split; [apply H1; lia|apply H2; lia].
Qed.

(** Both queues are fetched from, in turn. *)
Lemma fetch_both a maxevents m e lu ls :
  epolls m !! a = Some e -> eq_rep (usr_queue e) lu -> eq_rep (usr_shadow_queue e) ls ->
  known (sockets m) lu -> known (sockets m) ls ->
  let '(acc1, sks1, lu') := deliver maxevents [] (sockets m) lu in
  let '(acc2, sks2, ls') := deliver maxevents acc1 sks1 ls in
  exists m1 e', fetch_queue a USR_EVENT_QUEUE maxevents [] m = Ok (acc1, m1) /\
    fetch_queue a USR_SHADOW_EVENT_QUEUE maxevents acc1 m1 =
      Ok (acc2, m <| sockets := sks2 |> <| epolls := <[a := e']> (epolls m) |>) /\
    eq_rep (usr_queue e') lu' /\ eq_rep (usr_shadow_queue e') ls' /\ mtcp_queue e' = mtcp_queue e /\ waiting e' = waiting e.
Proof.
  intros He Hu Hs Hku Hks. unfold fetch_queue, bind, get_epoll. rewrite He. simpl.
  pose proof Hu as (_ & _ & -> & _). pose proof Hs as (_ & _ & Hns & _).
  pose proof (fetch_events_refines a USR_EVENT_QUEUE maxevents lu [] m e He Hu Hku) as H1.
  pose proof (deliver_known maxevents lu ls [] (sockets m) Hks) as Hks1.
  destruct (deliver _ _ _ lu) as [[acc1 sks1] lu']. destruct H1 as (e1 & Hf1 & Hr1 & Hq1 & Hw1). simpl in Hks1.
  set (m1 := m <| sockets := sks1 |> <| epolls := <[a := e1]> (epolls m) |>) in *.
  assert (usr_shadow_queue e1 = usr_shadow_queue e) as Hsh by (apply (Hq1 USR_SHADOW_EVENT_QUEUE); done).
  assert (epolls m1 !! a = Some e1) as He1 by (simpl; by rewrite lookup_insert_eq).
  pose proof (fetch_events_refines a USR_SHADOW_EVENT_QUEUE maxevents ls acc1 m1 e1 He1) as H2. simpl in H2. rewrite Hsh in H2.
  destruct (deliver _ _ _ ls) as [[acc2 sks2] ls']. destruct H2 as (e2 & Hf2 & Hr2 & Hq2 & Hw2); [done|done|].
  exists m1, e2. unfold zlen. rewrite Nat2Z.id. split; [done|]. change (epolls m1) with (<[a:=e1]> (epolls m)) in *.
  rewrite He1. simpl. rewrite Hsh, Hns. unfold zlen. rewrite Nat2Z.id, Hf2. simpl. rewrite insert_insert_eq.
  split; [done|]. split; [|split; [done|split; [|congruence]]].
  - pose proof (Hq2 USR_EVENT_QUEUE ltac:(done)) as Hx. simpl in Hx. by rewrite Hx.
  - etrans; [by apply (Hq2 MTCP_EVENT_QUEUE)|]. by apply (Hq1 MTCP_EVENT_QUEUE).
Qed.

Definition wait_result (timeout : Z) (o : option (list (Z * Z))) : wait_res :=
  match o with Some l => Returned (Done l) | None => Waiting timeout end.

Lemma wait_loop_refines a maxevents timeout m e lu ls :
  0 < maxevents -> epolls m !! a = Some e -> eq_rep (usr_queue e) lu -> eq_rep (usr_shadow_queue e) ls ->
  known (sockets m) lu -> known (sockets m) ls ->
  let '(o, sks', lu', ls') := wait_spec maxevents timeout (sockets m) lu ls in
  exists e', wait_loop 2 a maxevents timeout m =
    Ok (wait_result timeout o, m <| sockets := sks' |> <| epolls := <[a := e']> (epolls m) |>) /\
    eq_rep (usr_queue e') lu' /\ eq_rep (usr_shadow_queue e') ls' /\ mtcp_queue e' = mtcp_queue e /\
    waiting e' = (bool_decide (o = None) || waiting e).
Proof.
  intros Hmax He Hu Hs Hku Hks. pose proof (wait_spec_none maxevents timeout (sockets m) lu ls) as Hnone. unfold wait_spec in *.
  cbn [wait_loop]. unfold bind at 1, get_epoll at 1. rewrite He.
  pose proof Hu as (_ & _ & -> & _). pose proof Hs as (_ & _ & -> & _).
  destruct (_ && negb (timeout =? 0)) eqn:E.
  - eexists. split; [by destruct m|]. done.
  - pose proof (fetch_both a maxevents m e lu ls He Hu Hs Hku Hks) as Hf.
    destruct (deliver _ _ _ lu) as [[acc1 sks1] lu1], (deliver _ _ _ ls) as [[acc2 sks2] ls2].
    destruct Hf as (m1 & e1 & Hf1 & Hf2 & Hu1 & Hs1 & Hq1 & Hw1). unfold bind at 1. rewrite Hf1. unfold bind at 1. rewrite Hf2.
    destruct ((zlen acc2 =? 0) && _) eqn:E2; [|exists e1; split; [done|]; by rewrite Hw1].
    specialize (Hnone _ _ _ Hmax eq_refl) as [-> ->]. apply andb_true_iff in E2 as [_ ->].
    unfold bind, get_epoll, set_epoll, modify. simpl. rewrite lookup_insert_eq.
    pose proof Hu1 as (_ & _ & -> & _). pose proof Hs1 as (_ & _ & -> & _). simpl.
    eexists. rewrite insert_insert_eq. split; [done|]. done.
Qed.

(** ** No event is lost *)

(** [ev] waits in a queue of the instance, or of some instance. *)
Definition in_epoll (e : mtcp_epoll) (ev : epoll_event_int) : Prop :=
  exists t l, eq_rep (get_queue e t) l /\ ev ∈ l.
Definition queued (m : mtcp_manager) (ev : epoll_event_int) : Prop := exists a e, epolls m !! a = Some e /\ in_epoll e ev.

(** [ev] is about bit [b] of socket [k]. *)
Definition about (k b : Z) (ev : epoll_event_int) : Prop := ev_sockid ev = k /\ Z.testbit (ev_events ev) b = true.

(** Bit [b] is pending on socket [k]. *)
Definition pending (sks : gmap Z socket_map) (k b : Z) : Prop :=
  exists sk, sks !! k = Some sk /\ Z.testbit (events sk) b = true.

Record ev_inv (m : mtcp_manager) : Prop := {
  ei_queues : events_ok m;
  ei_ids : forall k sk, sockets m !! k = Some sk -> sk_id sk = k /\ 0 <= k;
  ei_known : forall ev, queued m ev -> 0 <= ev_sockid ev /\ is_Some (sockets m !! ev_sockid ev);
  ei_pending : forall k b, pending (sockets m) k b ->
    exists ev, queued m ev /\ about k b ev;
  ei_heap : forall a e, epolls m !! a = Some e -> a < heap_next m
}.

Lemma pending_clear sks ev k b : pending (clear_event sks ev) k b ->
  pending sks k b /\ ~ about k b ev.
Proof.
  intros (sk & Hk & Hb). unfold clear_event in Hk. destruct (decide (ev_sockid ev = k)) as [<-|Hne].
  - rewrite lookup_alter_eq in Hk. destruct (sks !! ev_sockid ev) as [s|] eqn:Hs; [|done]. injection Hk as <-. simpl in Hb.
    rewrite Z.ldiff_spec in Hb. apply andb_true_iff in Hb as [Hb Hn]. apply negb_true_iff in Hn.
    split; [by exists s|]. intros [_ ?]. congruence.
  - rewrite lookup_alter_ne in Hk by done. split; [by exists sk|]. by intros [? _].
Qed.

(** An event still pending after a delivery was not taken from the queue. *)
Lemma deliver_pending maxevents l k b : forall acc sks,
  let '(_, sks', rest) := deliver maxevents acc sks l in
  pending sks' k b -> pending sks k b /\
    forall ev, ev ∈ l -> about k b ev -> ev ∈ rest.
Proof.
  induction l as [|ev l IH]; intros acc sks; simpl; [done|]. destruct (zlen acc <? maxevents); [|done].
  match goal with |- context [deliver _ ?x ?y l] => specialize (IH x y) end.
  destruct (deliver _ _ _ l) as [[acc' sks'] rest]. intros Hp. destruct (IH Hp) as [[Hp1 Hn]%pending_clear Hr].
  split; [done|]. intros ev' [->|Hin]%elem_of_cons Hb; [tauto|auto].
Qed.

Lemma clear_ids sks ev k : sk_id <$> clear_event sks ev !! k = sk_id <$> sks !! k.
Proof.
  unfold clear_event. destruct (decide (ev_sockid ev = k)) as [<-|]; [|by rewrite lookup_alter_ne].
  rewrite lookup_alter_eq. by destruct (sks !! ev_sockid ev).
Qed.

Lemma deliver_ids maxevents l k : forall acc sks, sk_id <$> (deliver maxevents acc sks l).1.2 !! k = sk_id <$> sks !! k.
Proof.
  induction l as [|ev l IH]; intros acc sks; simpl; [done|]. destruct (zlen acc <? maxevents); [|done].
  by rewrite IH, clear_ids.
Qed.

Lemma deliver_suffix maxevents l : forall acc sks, (deliver maxevents acc sks l).2 `suffix_of` l.
Proof.
  induction l as [|ev l IH]; intros acc sks; simpl; [done|]. destruct (zlen acc <? maxevents); [|done].
  by apply suffix_cons_r.
Qed.

(** A step that changes one instance and the pending events of sockets. *)
Lemma ev_inv_step m a e e' sks' : ev_inv m -> epolls m !! a = Some e -> queues_ok e' ->
  (forall k, sk_id <$> sks' !! k = sk_id <$> sockets m !! k) ->
  (forall ev, in_epoll e' ev -> in_epoll e ev \/ (0 <= ev_sockid ev /\ is_Some (sockets m !! ev_sockid ev))) ->
  (forall k b, pending sks' k b -> (exists ev, in_epoll e' ev /\ about k b ev) \/
    (pending (sockets m) k b /\ forall ev, about k b ev -> in_epoll e ev -> in_epoll e' ev)) ->
  ev_inv (m <| sockets := sks' |> <| epolls := <[a := e']> (epolls m) |>).
Proof.
  intros [Hq Hi Hk Hp Hh] He He' Hid Hold Hnew.
  assert (forall k, is_Some (sks' !! k) <-> is_Some (sockets m !! k)) as Hdom.
  { intros k. rewrite <- (fmap_is_Some sk_id), Hid. by rewrite fmap_is_Some. }
  split.
  - by apply events_ok_set.
  - intros k sk Hsk. simpl in Hsk. specialize (Hid k). rewrite Hsk in Hid. simpl in Hid.
    destruct (sockets m !! k) as [sk0|] eqn:E; [|done]. injection Hid as ->. by apply Hi.
  - intros ev (b & eb & Hb & Hin). simpl in *. rewrite Hdom. destruct (decide (a = b)) as [->|].
    + rewrite lookup_insert_eq in Hb. injection Hb as <-. destruct (Hold ev Hin) as [?|?]; [|done]. apply Hk. by exists b, e.
    + rewrite lookup_insert_ne in Hb by done. apply Hk. by exists b, eb.
  - intros k b [(ev & Hin & Hab)|[Hpm Hkeep]]%Hnew; [exists ev; split; [|done]; exists a, e'; split; [simpl; by rewrite lookup_insert_eq|done]|].
    destruct (Hp k b Hpm) as (ev & (c & ec & Hc & Hin) & Hab). exists ev. split; [|done]. destruct (decide (a = c)) as [->|Hne].
    + exists c, e'. split; [simpl; by rewrite lookup_insert_eq|]. apply Hkeep; [done|]. congruence.
    + exists c, ec. split; [simpl; by rewrite lookup_insert_ne|done].
  - intros b eb Hb. simpl in Hb. destruct (decide (a = b)) as [->|]; [by eapply Hh|]. rewrite lookup_insert_ne in Hb by done. by eapply Hh.
Qed.

Lemma wait_spec_facts maxevents timeout sks lu ls :
  let '(_, sks', lu', ls') := wait_spec maxevents timeout sks lu ls in
  (forall k, sk_id <$> sks' !! k = sk_id <$> sks !! k) /\ lu' `suffix_of` lu /\ ls' `suffix_of` ls /\
  forall k b, pending sks' k b -> pending sks k b /\
    forall ev, about k b ev -> (ev ∈ lu -> ev ∈ lu') /\ (ev ∈ ls -> ev ∈ ls').
Proof.
  unfold wait_spec. destruct (_ && negb (timeout =? 0)); [done|].
  pose proof (fun k => deliver_ids maxevents lu k [] sks) as Hi1. pose proof (deliver_suffix maxevents lu [] sks) as Hs1.
  pose proof (fun k b => deliver_pending maxevents lu k b [] sks) as Hp1.
  destruct (deliver _ _ _ lu) as [[acc1 sks1] lu'].
  pose proof (fun k => deliver_ids maxevents ls k acc1 sks1) as Hi2. pose proof (deliver_suffix maxevents ls acc1 sks1) as Hs2.
  pose proof (fun k b => deliver_pending maxevents ls k b acc1 sks1) as Hp2.
  destruct (deliver _ _ _ ls) as [[acc2 sks2] ls']. simpl in *. split_and!; [intros k; by rewrite Hi2|done|done|].
  intros k b Hp. destruct (Hp2 _ _ Hp) as [Hpm Hl2]. destruct (Hp1 _ _ Hpm) as [Hpm' Hl1]. eauto.
Qed.

Lemma wait_keeps a maxevents timeout m w m' : 0 < maxevents -> ev_inv m -> is_Some (epolls m !! a) ->
  wait_loop 2 a maxevents timeout m = Ok (w, m') -> ev_inv m'.
Proof.
  intros Hmax Hm [e He] Hw. pose proof (proj1 (ei_queues _ Hm) _ _ He) as Hq.
  destruct (Hq USR_EVENT_QUEUE) as [lu Hu], (Hq USR_SHADOW_EVENT_QUEUE) as [ls Hs], (Hq MTCP_EVENT_QUEUE) as [lq Hlq].
  assert (forall t l, eq_rep (get_queue e t) l -> known (sockets m) l) as Hkn.
  { intros t l Hl. apply Forall_forall. intros ev Hin. apply (ei_known _ Hm). exists a, e. split; [done|by exists t, l]. }
  pose proof (wait_loop_refines a maxevents timeout m e lu ls Hmax He Hu Hs (Hkn _ _ Hu) (Hkn _ _ Hs)) as Hr.
  pose proof (wait_spec_facts maxevents timeout (sockets m) lu ls) as Hf.
  destruct (wait_spec _ _ _ _ _) as [[[o sks'] lu'] ls']. destruct Hr as (e' & Hr & Hu' & Hs' & Hq' & _).
  rewrite Hw in Hr. injection Hr as -> ->. destruct Hf as (Hid & Hsu & Hss & Hp).
  assert (eq_rep (get_queue e' MTCP_EVENT_QUEUE) lq) as Hlq' by (simpl; by rewrite Hq').
  apply (ev_inv_step m a e); [done|done|intros []; eauto|done| |].
  - intros ev (t & l & Hl & Hin). left. destruct t.
    + exists USR_EVENT_QUEUE, lu. split; [done|]. rewrite (eq_rep_unique _ _ _ Hl Hu') in Hin. by eapply elem_of_suffix.
    + exists USR_SHADOW_EVENT_QUEUE, ls. split; [done|]. rewrite (eq_rep_unique _ _ _ Hl Hs') in Hin. by eapply elem_of_suffix.
    + exists MTCP_EVENT_QUEUE, lq. by rewrite (eq_rep_unique _ _ _ Hl Hlq') in Hin.
  - intros k b (Hpm & Hl)%Hp. right. split; [done|]. intros ev Hab (t & l & Hl' & Hin). destruct (Hl ev Hab) as [H1 H2]. destruct t.
    + exists USR_EVENT_QUEUE, lu'. split; [done|]. apply H1. by rewrite (eq_rep_unique _ _ _ Hu Hl').
    + exists USR_SHADOW_EVENT_QUEUE, ls'. split; [done|]. apply H2. by rewrite (eq_rep_unique _ _ _ Hs Hl').
    + exists MTCP_EVENT_QUEUE, l. split; [|done]. simpl. by rewrite Hq'.
Qed.

Lemma in_epoll_push e t q l ev0 n ev : eq_rep (get_queue e t) l -> eq_rep q (l ++ [ev0]) ->
  in_epoll (set_queue e t q <| registered := n |>) ev <-> in_epoll e ev \/ ev = ev0.
Proof.
  intros Hl Hq. assert (forall t', get_queue (set_queue e t q <| registered := n |>) t' = get_queue (set_queue e t q) t') as Hg
    by by intros []. split.
  - intros (t' & l' & Hl' & Hin). rewrite Hg, get_set_queue in Hl'. destruct (decide (t' = t)) as [->|].
    + rewrite (eq_rep_unique _ _ _ Hl' Hq) in Hin. apply elem_of_app in Hin as [?| ->%list_elem_of_singleton]; [left; by exists t, l|by right].
    + left. by exists t', l'.
  - intros [(t' & l' & Hl' & Hin)| ->].
    + exists t'. destruct (decide (t' = t)) as [->|Hne].
      * exists (l ++ [ev0]). rewrite Hg, get_set_queue, decide_True by done. split; [done|].
        rewrite (eq_rep_unique _ _ _ Hl Hl'). apply elem_of_app. by left.
      * exists l'. by rewrite Hg, get_set_queue, decide_False.
    + exists t, (l ++ [ev0]). rewrite Hg, get_set_queue, decide_True by done. split; [done|]. apply elem_of_app. right. by left.
Qed.

Lemma in_epoll_issued e n ev : in_epoll (e <| issued := n |>) ev <-> in_epoll e ev.
Proof. split; intros (t & l & Hl & Hin); exists t, l; (split; [|done]); by destruct t. Qed.

(** [events] only grow by the event raised. *)
Lemma pending_raise sks k0 sk ev k b : sks !! k0 = Some sk ->
  pending (<[k0 := sk <| events := Z.lor (events sk) ev |>]> sks) k b ->
  pending sks k b \/ (k = k0 /\ Z.testbit ev b = true).
Proof.
  intros Hsk (sk' & Hk' & Hb). destruct (decide (k = k0)) as [->|]; [|rewrite lookup_insert_ne in Hk' by done; left; by exists sk'].
  rewrite lookup_insert_eq in Hk'. injection Hk' as <-. simpl in Hb. rewrite Z.lor_spec in Hb.
  apply orb_true_iff in Hb as [?|?]; [left; by exists sk|by right].
Qed.

Lemma raise_keeps a t k ev m r m' : ev_inv m -> is_Some (epolls m !! a) ->
  AddEpollEvent (Some a) t k ev m = Ok (r, m') -> ev_inv m'.
Proof.
  intros Hm [e He] Ha. destruct (decide (ev = 0)) as [->|Hev]; [by injection Ha as <- <-|].
  destruct (sockets m !! k) as [sk|] eqn:Hk.
  2:{ exfalso. revert Ha. unfold AddEpollEvent, bind, get_socket. destruct (Z.eqb_spec ev 0); [done|]. by rewrite Hk. }
  pose proof (proj1 (ei_queues _ Hm) _ _ He) as Hq. destruct (Hq t) as [l Hl]. destruct (ei_ids _ Hm _ _ Hk) as [Hid Hpos].
  destruct (AddEpollEvent_cases a t k ev m e sk l He Hk Hl Hev) as [(r' & Eq & _)|(q & Hq' & Eq)]; rewrite Eq in Ha; injection Ha as <- <-.
  - assert (m <| epolls := <[a := e <| issued := u64 (issued e + 1) |>]> (epolls m) |> =
      m <| sockets := sockets m |> <| epolls := <[a := e <| issued := u64 (issued e + 1) |>]> (epolls m) |>) as -> by by destruct m.
    apply (ev_inv_step m a e); [done|done|by apply queues_ok_count|done|setoid_rewrite in_epoll_issued; by left|].
    intros k' b Hp. right. split; [done|]. intros ev' _. by rewrite in_epoll_issued.
  - apply (ev_inv_step m a e); [done|done|by eapply queues_ok_push; [apply queues_ok_count|]| | |].
    + intros k'. destruct (decide (k = k')) as [<-|]; [by rewrite lookup_insert_eq, Hk|by rewrite lookup_insert_ne].
    + intros ev'. rewrite in_epoll_push, in_epoll_issued by (eauto || by destruct t). intros [?| ->]; [by left|right].
      simpl. rewrite Hid. eauto.
    + intros k' b [Hp|[-> Hb]]%pending_raise; [|left|done].
      * right. split; [done|]. intros ev' _ Hin. rewrite in_epoll_push, in_epoll_issued by (eauto || by destruct t). by left.
      * eexists. split; [rewrite in_epoll_push by (eauto || by destruct t); by right|]. done.
Qed.

(** Flushing moves events from one queue to another. *)
Lemma in_epoll_flush e e' lu lq n ev :
  eq_rep (usr_queue e) lu -> eq_rep (mtcp_queue e) lq -> usr_shadow_queue e' = usr_shadow_queue e ->
  eq_rep (usr_queue e') (lu ++ take n lq) -> eq_rep (mtcp_queue e') (drop n lq) -> in_epoll e' ev <-> in_epoll e ev.
Proof.
  intros Hu Hlq E2 Hu' Hq'. rewrite <- (take_drop n lq) in Hlq. split.
  - intros ([] & l & Hl & Hi); simpl in Hl.
    + rewrite (eq_rep_unique _ _ _ Hl Hu') in Hi. apply elem_of_app in Hi as [?|?]; [by exists USR_EVENT_QUEUE, lu|].
      exists MTCP_EVENT_QUEUE. eexists. split; [exact Hlq|]. apply elem_of_app. by left.
    + rewrite E2 in Hl. by exists USR_SHADOW_EVENT_QUEUE, l.
    + rewrite (eq_rep_unique _ _ _ Hl Hq') in Hi. exists MTCP_EVENT_QUEUE. eexists. split; [exact Hlq|]. apply elem_of_app. by right.
  - intros ([] & l & Hl & Hi); simpl in Hl.
    + rewrite (eq_rep_unique _ _ _ Hl Hu) in Hi. exists USR_EVENT_QUEUE. eexists. split; [exact Hu'|]. apply elem_of_app. by left.
    + exists USR_SHADOW_EVENT_QUEUE, l. simpl. by rewrite E2.
    + rewrite (eq_rep_unique _ _ _ Hl Hlq) in Hi. apply elem_of_app in Hi as [?|?].
      * exists USR_EVENT_QUEUE. eexists. split; [exact Hu'|]. apply elem_of_app. by right.
      * exists MTCP_EVENT_QUEUE. eexists. by split; [exact Hq'|].
Qed.

Lemma flush_keeps ts m m' : ev_inv m -> FlushEpollEvents ts m = Ok (tt, m') -> ev_inv m'.
Proof.
  intros Hm. unfold FlushEpollEvents, bind, gets. destruct (ep m) as [a|] eqn:Ho; [|done].
  destruct (proj2 (ei_queues _ Hm) _ Ho) as [e He]. unfold get_epoll. rewrite He. pose proof (proj1 (ei_queues _ Hm) _ _ He) as Hq.
  destruct (Hq USR_EVENT_QUEUE) as [lu Hu], (Hq USR_SHADOW_EVENT_QUEUE) as [ls Hs], (Hq MTCP_EVENT_QUEUE) as [lq Hlq].
  pose proof Hlq as (_ & _ & Hn & _). simpl in Hn.
  destruct (flush_events_rep (S (Z.to_nat (num_events (mtcp_queue e)))) _ _ _ _ Hu Hlq) as (u' & q' & Hf & Hu' & Hq' & _).
  { rewrite Hn. unfold zlen. lia. }
  cbv zeta in *. set (n := Z.to_nat _) in Hu', Hq'. unfold lift. cbn [get_queue] in Hf. rewrite Hf. simpl. intros [= <-].
  match goal with |- ev_inv (m <| epolls := <[a := ?x]> _ |>) => set (e' := x) end.
  assert (usr_queue e' = u' /\ usr_shadow_queue e' = usr_shadow_queue e /\ mtcp_queue e' = q') as (E1 & E2 & E3)
    by (unfold e'; by destruct (_ && _)). clearbody e'.
  assert (m <| epolls := <[a := e']> (epolls m) |> = m <| sockets := sockets m |> <| epolls := <[a := e']> (epolls m) |>) as -> by by destruct m.
  assert (forall ev, in_epoll e' ev <-> in_epoll e ev) as Hin.
  { intros ev. apply (in_epoll_flush e e' lu lq n); congruence || done. }
  apply (ev_inv_step m a e); [done|done| |done| |].
  - intros []; simpl; rewrite ?E1, ?E2, ?E3; eauto.
  - intros ev. rewrite Hin. by left.
  - intros k b Hp. right. split; [done|]. intros ev _. by rewrite Hin.
Qed.

(** Steps that raise no event. *)
Definition quiet_sk (o o' : option socket_map) : Prop :=
  match o, o' with
  | Some s, Some s' => sk_id s' = sk_id s /\ (events s' = events s \/ events s' = 0)
  | None, None => True
  | _, _ => False
  end.
Definition quiet (m m' : mtcp_manager) : Prop :=
  (epolls m', ep m', heap_next m') = (epolls m, ep m, heap_next m) /\ forall k, quiet_sk (sockets m !! k) (sockets m' !! k).

Lemma quiet_keeps m m' : ev_inv m -> quiet m m' -> ev_inv m'.
Proof.
  intros [Hq Hi Hk Hp Hh] [[= E1 E2 E3] Hs].
  assert (forall ev, queued m' ev <-> queued m ev) as Hqd by (unfold queued; by rewrite E1).
  assert (forall k, is_Some (sockets m' !! k) <-> is_Some (sockets m !! k)) as Hdom.
  { intros k. specialize (Hs k). destruct (sockets m !! k), (sockets m' !! k); try done; split; eauto. }
  split.
  - unfold events_ok. by rewrite E1, E2.
  - intros k sk Hsk. specialize (Hs k). rewrite Hsk in Hs. destruct (sockets m !! k) as [s|] eqn:E; [|done].
    destruct Hs as [-> _]. by apply Hi.
  - intros ev. rewrite Hqd, Hdom. apply Hk.
  - intros k b (sk & Hsk & Hb). specialize (Hs k). rewrite Hsk in Hs. destruct (sockets m !! k) as [s|] eqn:E; [|done].
    destruct Hs as [_ [Eq|Eq]]; [|by rewrite Eq, Z.testbit_0_l in Hb]. setoid_rewrite Hqd. apply Hp. exists s. by rewrite <- Eq.
  - rewrite E1, E3. done.
Qed.

Lemma quiet_refl m : quiet m m.
Proof. split; [done|]. intros k. destruct (sockets m !! k); simpl; eauto. Qed.

Lemma quiet_trans m1 m2 m3 : quiet m1 m2 -> quiet m2 m3 -> quiet m1 m3.
Proof.
  intros [H1 S1] [H2 S2]. split; [congruence|]. intros k. specialize (S1 k). specialize (S2 k). unfold quiet_sk in *.
  destruct (sockets m1 !! k), (sockets m2 !! k), (sockets m3 !! k); try done. destruct S1 as [? ?], S2 as [? ?]. split; [congruence|].
  intuition congruence.
Qed.

Lemma quiet_upd m0 k f : (forall s, sk_id (f s) = sk_id s /\ (events (f s) = events s \/ events (f s) = 0)) ->
  keeps (fun _ => True) (quiet m0) (upd_socket k f).
Proof.
  intros Hf m Hm. unfold wp, upd_socket. destruct (sockets m !! k) as [s|] eqn:E; [|done]. eapply quiet_trans; [done|].
  split; [done|]. intros i. simpl. destruct (decide (k = i)) as [<-|]; [by rewrite lookup_insert_eq, E; apply Hf|].
  rewrite lookup_insert_ne by done. destruct (sockets m !! i); simpl; eauto.
Qed.

Lemma quiet_modify m0 f : (forall m, (epolls (f m), ep (f m), heap_next (f m), sockets (f m)) = (epolls m, ep m, heap_next m, sockets m)) ->
  keeps (fun _ => True) (quiet m0) (modify f).
Proof.
  intros Hf. apply keeps_modify. intros m Hm. eapply quiet_trans; [done|]. specialize (Hf m). injection Hf as E1 E2 E3 E4.
  split; [congruence|]. rewrite E4. intros i. destruct (sockets m !! i); simpl; eauto.
Qed.

Lemma quiet_get_socket m0 k : keeps (fun _ => True) (quiet m0) (get_socket k).
Proof. intros m Hm. unfold wp, get_socket. by destruct (sockets m !! k). Qed.

Ltac quiet_solve :=
  repeat first [apply keeps_bind; [|intros ?]|apply keeps_gets|apply keeps_ret|apply keeps_when|apply quiet_get_socket
    |apply quiet_modify; done|apply quiet_upd; intros ?; simpl; by auto|case_match].

Lemma AllocateSocket_quiet m0 t : keeps (fun _ => True) (quiet m0) (AllocateSocket t).
Proof.
  unfold AllocateSocket. apply keeps_bind; [apply keeps_gets|]. intros l. generalize (S (length l)). intros fuel.
  induction fuel as [|fuel IH]; [by apply keeps_throw|]. simpl. quiet_solve. done.
Qed.

Lemma FreeSocket_quiet m0 k : keeps (fun _ => True) (quiet m0) (FreeSocket k).
Proof. unfold FreeSocket. quiet_solve. Qed.

Lemma next_malloc_quiet m0 : keeps (fun _ => True) (quiet m0) next_malloc.
Proof.
  intros m Hm. unfold wp, next_malloc. destruct (mallocs m) as [|b l]; [done|].
  assert (keeps (fun _ => True) (quiet m0) (modify (fun m => m <| mallocs := l |>))) as Hk by by apply quiet_modify.
  exact (Hk m Hm).
Qed.

(** A new instance starts with empty queues. *)
Lemma create_queue_spec m0 size m : 0 < size -> quiet m0 m ->
  wp (fun _ => True) (create_queue size) (fun o m' => quiet m0 m' /\ forall q, o = Some q -> eq_rep q []) m.
Proof.
  intros Hs Hm. unfold create_queue. apply wp_bind. eapply wp_mono; [by apply (next_malloc_quiet m0)|]. intros ok1 m1 H1. cbv beta in H1.
  destruct ok1; [|by apply wp_ret]. apply wp_bind. eapply wp_mono; [by apply (next_malloc_quiet m0)|]. intros ok2 m2 H2. cbv beta in H2.
  apply wp_ret. split; [done|]. destruct ok2; [|done]. intros q Hq. by apply (eq_create_rep size).
Qed.

Lemma ev_inv_new m u s q : ev_inv m -> eq_rep u [] -> eq_rep s [] -> eq_rep q [] ->
  ev_inv (m <| heap_next := heap_next m + 1 |> <| epolls := <[heap_next m := new_epoll u s q]> (epolls m) |>
            <| ep := Some (heap_next m) |>).
Proof.
  intros [[Hq Ho] Hi Hk Hp Hh] Hu Hs Hq'. set (a := heap_next m).
  assert (epolls m !! a = None) as Hn by (destruct (epolls m !! a) as [e|] eqn:E; [apply Hh in E; unfold a in *; lia|done]).
  set (m' := m <| heap_next := a + 1 |> <| epolls := _ |> <| ep := _ |>).
  assert (forall ev, queued m' ev <-> queued m ev) as Hqd.
  { intros ev. split; intros (b & e & Hb & Hin).
    - simpl in Hb. destruct (decide (a = b)) as [<-|]; [|rewrite lookup_insert_ne in Hb by done; by exists b, e].
      rewrite lookup_insert_eq in Hb. injection Hb as <-. exfalso. destruct Hin as ([] & l & Hl & Hin); simpl in Hl;
        [rewrite (eq_rep_unique _ _ _ Hl Hu) in Hin|rewrite (eq_rep_unique _ _ _ Hl Hs) in Hin|rewrite (eq_rep_unique _ _ _ Hl Hq') in Hin];
        by apply not_elem_of_nil in Hin.
    - exists b, e. split; [|done]. simpl. rewrite lookup_insert_ne; [done|]. intros <-. congruence. }
  split; [split| | | |]; simpl.
  - intros b e. destruct (decide (a = b)) as [<-|]; [rewrite lookup_insert_eq; intros [= <-]; intros []; by exists []|].
    rewrite lookup_insert_ne by done. apply Hq.
  - intros b [= <-]. rewrite lookup_insert_eq. eauto.
  - done.
  - intros ev. rewrite Hqd. apply Hk.
  - setoid_rewrite Hqd. apply Hp.
  - intros b e. destruct (decide (a = b)) as [<-|]; [lia|]. rewrite lookup_insert_ne by done. intros ?%Hh. lia.
Qed.

Lemma create_keeps size m k m' : ev_inv m -> mtcp_epoll_create size m = Ok (Done k, m') -> ev_inv m'.
Proof.
  intros Hm Hc. pose proof (quiet_refl m) as H0. unfold mtcp_epoll_create, check in Hc. destruct (Z.leb_spec size 0); [done|].
  revert Hc. match goal with |- ?c m = _ -> _ => enough (wp (fun _ => True) c (fun r m' => match r with Done _ => ev_inv m' | _ => True end) m) as Hw end.
  { intros Hc. exact (wp_result _ _ _ _ _ Hw Hc). }
  apply wp_bind. eapply wp_mono; [by apply (AllocateSocket_quiet m)|]. intros [i|] m1 H1; [|by apply wp_ret]. cbv beta in H1.
  assert (forall (k : Z) (m : mtcp_manager), wp (fun _ => True) (no_queue k) (fun r m' => match r with Done _ => ev_inv m' | _ => True end) m) as Hno.
  { intros k' m''. unfold no_queue. apply wp_bind. eapply wp_mono; [by apply (FreeSocket_quiet m''), quiet_refl|]. intros. by apply wp_ret. }
  apply wp_bind. eapply wp_mono; [by apply (next_malloc_quiet m)|]. intros ok m2 H2. cbv beta in H2. destruct ok; [|by apply Hno]. simpl negb. cbv iota.
  apply wp_bind. eapply wp_mono; [by apply (create_queue_spec m)|]. intros [u|] m3 [H3 Hu]; [|by apply Hno].
  apply wp_bind. eapply wp_mono; [by apply (create_queue_spec m)|]. intros [s|] m4 [H4 Hs]; [|by apply Hno].
  apply wp_bind. eapply wp_mono; [by apply (create_queue_spec m)|]. intros [q|] m5 [H5 Hq]; [|by apply Hno].
  pose proof (quiet_keeps _ _ Hm H5) as Hm5.
  apply wp_bind, wp_gets, wp_bind, wp_modify, wp_bind, wp_modify, wp_bind, wp_modify, wp_bind.
  match goal with |- wp _ _ _ ?x => set (m6 := x) end. pose proof (ev_inv_new _ _ _ _ Hm5 (Hu _ eq_refl) (Hs _ eq_refl) (Hq _ eq_refl)) as Hm6.
  change (ev_inv m6) in Hm6. pose proof (quiet_refl m6) as H6.
  eapply wp_mono; [apply (quiet_upd m6); [intros ?; simpl; by auto|done]|]. intros ? m7 H7. cbv beta in H7.
  apply wp_bind. eapply wp_mono; [by apply (next_malloc_quiet m6)|]. intros ok1 m8 H8. cbv beta in H8.
  apply wp_bind. eapply wp_mono with (Q := fun _ => quiet m6); [destruct ok1; [by apply (next_malloc_quiet m6)|by apply wp_ret]|].
  intros ok2 m9 H9. destruct ok2.
  - apply wp_bind. eapply wp_mono; [by apply (quiet_get_socket m6)|]. intros sk m10 H10. cbv beta in H10. apply wp_ret. by eapply quiet_keeps.
  - apply wp_bind, wp_modify. apply Hno.
Qed.

(** What can happen to events: instances are created, events raised, flushed
    to the user and waited for, sockets allocated and released; anything else
    that leaves the instances alone and raises no event. *)
Inductive ev_reach `{Env} : mtcp_manager -> Prop :=
| er_boot ok a m : InitializeMTCPManager ok a = Ok (Some m) -> ev_reach m
| er_create size m k m' : ev_reach m -> mtcp_epoll_create size m = Ok (Done k, m') -> ev_reach m'
| er_raise a t k ev m r m' : ev_reach m -> is_Some (epolls m !! a) -> AddEpollEvent (Some a) t k ev m = Ok (r, m') -> ev_reach m'
| er_flush ts m m' : ev_reach m -> FlushEpollEvents ts m = Ok (tt, m') -> ev_reach m'
| er_wait a maxevents timeout m w m' : ev_reach m -> 0 < maxevents -> is_Some (epolls m !! a) ->
    wait_loop 2 a maxevents timeout m = Ok (w, m') -> ev_reach m'
| er_alloc t m o m' : ev_reach m -> AllocateSocket t m = Ok (o, m') -> ev_reach m'
| er_free k m m' : ev_reach m -> FreeSocket k m = Ok (tt, m') -> ev_reach m'
| er_other m m' : ev_reach m -> quiet m m' -> ev_reach m'.

Section claims.
Context `{Env}.

Lemma init_ev_inv ok a m : InitializeMTCPManager ok a = Ok (Some m) -> ev_inv m.
Proof.
  intros Hi. pose proof (init_events_ok ok a m Hi) as Hev. unfold InitializeMTCPManager in Hi. boot_inv Hi. injection Hi as <-.
  assert (forall k sk, (list_to_map ((fun i => (i, empty_socket i)) <$> (Z.of_nat <$> seq 0 (Z.to_nat max_concurrency))) : gmap Z socket_map) !! k = Some sk ->
    sk = empty_socket k /\ 0 <= k) as Hs.
  { intros k sk Hk%elem_of_list_to_map_2. apply list_elem_of_fmap in Hk as (i & [= -> ->] & Hi). split; [done|].
    apply list_elem_of_fmap in Hi as (? & -> & _). lia. }
  split; simpl; [done| | | |].
  - by intros k sk [-> ?]%Hs.
  - intros ev (a' & e & Hx & _). simpl in Hx. by apply lookup_empty_Some in Hx.
  - intros k b (sk & [-> _]%Hs & Hb). by rewrite Z.testbit_0_l in Hb.
  - by intros a' e ?%lookup_empty_Some.
Qed.

Lemma ev_reach_inv m : ev_reach m -> ev_inv m.
Proof.
  induction 1; eauto using init_ev_inv, create_keeps, raise_keeps, flush_keeps, wait_keeps, quiet_keeps.
  - eapply quiet_keeps; [done|]. exact (wp_result _ _ _ _ _ (AllocateSocket_quiet m t m (quiet_refl m)) H1).
  - eapply quiet_keeps; [done|]. exact (wp_result _ _ _ _ _ (FreeSocket_quiet m k m (quiet_refl m)) H1).
Qed.

Lemma wait_spec_some maxevents timeout sks lu ls l sks' lu' ls' : 0 < maxevents ->
  wait_spec maxevents timeout sks lu ls = (Some l, sks', lu', ls') -> zlen l <= maxevents /\ (l = [] -> timeout = 0).
Proof.
  intros Hm. unfold wait_spec. destruct (_ && negb (timeout =? 0)); [done|].
  pose proof (deliver_full maxevents lu [] sks) as H1. destruct (deliver _ _ _ lu) as [[acc1 sks1] lu1].
  pose proof (deliver_full maxevents ls acc1 sks1) as H2. destruct (deliver _ _ _ ls) as [[acc2 sks2] ls2].
  change (zlen []) with 0 in H1. destruct (Z.eqb_spec (zlen acc2) 0) as [E|E], (Z.eqb_spec timeout 0); simpl; try done; intros [= <- <- <- <-];
    (split; [lia|]); intros ->; done.
Qed.

(** With empty queues in the only instance nothing is pending. *)
Lemma nothing_pending m a e : ev_inv m -> epolls m = {[a := e]} -> (forall t, eq_rep (get_queue e t) []) ->
  forall k sk, sockets m !! k = Some sk -> events sk = 0.
Proof.
  intros Hm Hes Hq k sk Hk. apply Z.bits_inj_0. intros b. destruct (Z.testbit (events sk) b) eqn:Hb; [|done]. exfalso.
  destruct (ei_pending _ Hm k b) as (ev & (a' & e' & Ha & t & l & Hl & Hin) & _); [by exists sk|].
  rewrite Hes in Ha. apply lookup_singleton_Some in Ha as [_ <-]. rewrite (eq_rep_unique _ _ _ Hl (Hq t)) in Hin.
  by apply not_elem_of_nil in Hin.
Qed.


(** The socket [epid] is the instance [a], whose user queues hold [lu] and
    [ls]; the events name sockets of the table. *)
Record instance_at (epid : Z) (a : ptr) (e : mtcp_epoll) (lu ls : list epoll_event_int) (m : mtcp_manager) : Prop := {
  ia_run : ctx_done m = false /\ ctx_exit m = false;
  ia_id : 0 <= epid < max_concurrency;
  ia_sock : exists sk, sockets m !! epid = Some sk /\ socktype sk = MTCP_SOCK_EPOLL /\ sk_ref sk = SockEpoll a;
  ia_epoll : epolls m !! a = Some e;
  ia_user : eq_rep (usr_queue e) lu /\ eq_rep (usr_shadow_queue e) ls;
  ia_known : known (sockets m) lu /\ known (sockets m) ls
}.

(** C19: [mtcp_epoll_wait] implements delivery on lists: it hands out, oldest
    first, the pending events of the user queue and then of the shadow queue
    whose socket is in use, registered for the event and still marked, at
    most [maxevents] of them; events it passes over are discarded, the marks
    of those it took are cleared, the others stay queued in order. With
    nothing to deliver it sleeps, unless [timeout] is 0. *)
Theorem epoll_wait_refines epid a e lu ls maxevents timeout m :
  instance_at epid a e lu ls m -> 0 < maxevents ->
  let '(o, sks', lu', ls') := wait_spec maxevents timeout (sockets m) lu ls in
  exists e', mtcp_epoll_wait epid true maxevents timeout m =
    Ok (wait_result timeout o, m <| sockets := sks' |> <| epolls := <[a := e']> (epolls m) |>) /\
    eq_rep (usr_queue e') lu' /\ eq_rep (usr_shadow_queue e') ls' /\ mtcp_queue e' = mtcp_queue e /\
    waiting e' = (bool_decide (o = None) || waiting e).
Proof.
  intros [[Hd Hx] Hid (sk & Hsk & Hty & Href) He [Hu Hs] [Hku Hks]] Hmax.
  set (e1 := e <| calls := u64 (calls e + 1) |>). set (m1 := m <| epolls := <[a := e1]> (epolls m) |>).
  pose proof (wait_loop_refines a maxevents timeout m1 e1 lu ls Hmax) as Hw.
  change (sockets m1) with (sockets m) in Hw. destruct (wait_spec _ _ _ _ _) as [[[o sks'] lu'] ls'].
  destruct Hw as (e' & Hw & ?); [by simpl; rewrite lookup_insert_eq|done..|]. exists e'. split; [|done].
  assert (mtcp_epoll_wait epid true maxevents timeout m =
    match wait_loop 2 a maxevents timeout m1 with Ok (w, m') => Ok (w, m') | Fault f => Fault f end) as ->.
  { unfold mtcp_epoll_wait. generalize (wait_loop 2). intros c.
    unfold as_wait, GetMTCPManager, check, epoll_of, bad_id, bind, gets, get_socket. rewrite Hd, Hx.
    destruct (Z.ltb_spec epid 0), (Z.leb_spec max_concurrency epid); try lia. simpl. rewrite Hsk, Hty. simpl. rewrite Href. simpl.
    destruct (Z.leb_spec maxevents 0); [lia|]. unfold bind, get_epoll. rewrite He.
    unfold set_epoll, modify, finish, ret. fold e1 m1. by destruct (c a maxevents timeout m1) as [[]|]. }
  rewrite Hw. simpl. by rewrite insert_insert_eq.
Qed.
End claims.

(** ** An example *)

Module Demo_epoll.
Import Demo.

Definition after {A} (c : M A) (m : mtcp_manager) : mtcp_manager := match c m with Ok (_, m') => m' | _ => m end.
Definition m_ep : mtcp_manager := Eval vm_compute in after (mtcp_epoll_create 4) m_boot.
Definition m_sk : mtcp_manager := Eval vm_compute in after (AllocateSocket MTCP_SOCK_STREAM) m_ep.
Definition reg (s : socket_map) : socket_map := s <| epoll := MTCP_EPOLLIN |> <| ep_data := 77 |>.
Definition m_reg : mtcp_manager := Eval vm_compute in after (upd_socket 1 reg) m_sk.
Definition m_ev : mtcp_manager := Eval vm_compute in after (AddEpollEvent (Some 1) MTCP_EVENT_QUEUE 1 MTCP_EPOLLIN) m_reg.
Definition m_fl : mtcp_manager := Eval vm_compute in after (FlushEpollEvents 0) m_ev.

Lemma m_fl_reach : ev_reach m_fl.
Proof.
  eapply (er_flush 0 m_ev); [|vm_compute; reflexivity].
  eapply (er_raise 1 MTCP_EVENT_QUEUE 1 MTCP_EPOLLIN m_reg 0); [|vm_compute; eauto|vm_compute; reflexivity].
  eapply (er_other m_sk).
  { eapply (er_alloc MTCP_SOCK_STREAM m_ep (Some 1)); [|vm_compute; reflexivity].
    eapply (er_create 4 m_boot 0); [|vm_compute; reflexivity]. eapply er_boot, boot_eq. }
  assert (upd_socket 1 reg m_sk = Ok (tt, m_reg)) as Hu by (vm_compute; reflexivity).
  refine (wp_result _ _ _ _ _ (quiet_upd m_sk 1 reg _ m_sk (quiet_refl m_sk)) Hu). intros s. simpl. by auto.
Qed.

Definition e_fl : mtcp_epoll := Eval vm_compute in match epolls m_fl !! 1 with Some e => e | None => new_epoll (mkEQ [] 0 0 0 0) (mkEQ [] 0 0 0 0) (mkEQ [] 0 0 0 0) end.


Lemma epoll_wait_refines_witness : exists e', mtcp_epoll_wait 0 true 10 0 m_fl =
  Ok (Returned (Done [(MTCP_EPOLLIN, 77)]),
      m_fl <| sockets := clear_event (sockets m_fl) (mkEv MTCP_EPOLLIN 77 1) |> <| epolls := <[1 := e']> (epolls m_fl) |>).
Proof.
  destruct (epoll_wait_refines 0 1 e_fl [mkEv MTCP_EPOLLIN 77 1] [] 10 0 m_fl) as (e' & Hw & _); [|done|exists e'; exact Hw].
  split; [done|done|eexists; split; [vm_compute; reflexivity|done]|vm_compute; reflexivity| |].
  - split; (split; [|done]); split; try done; (split; [done|]); intros i Hi; [|change (zlen []) with 0 in Hi; lia].
    change (zlen _) with 1 in Hi. assert (i = 0) as -> by lia. vm_compute. reflexivity.
  - split; [|by constructor]. constructor; [|by constructor]. split; [done|]. eexists. vm_compute. reflexivity.
Defined.

(** Closing an instance leaves the marks of its undelivered events on the
    sockets. After the instance of [m_ev] is closed and another one is
    created and the socket registered with it, a further event of the same
    kind is taken for one already pending: it is reported as added, but no
    queue of the new instance receives it. *)
Theorem close_epoll_loses_event : exists m1 m2 m3 m4 a e,
  CloseEpollSocket 0 m_ev = Ok (Done 0, m1) /\ mtcp_epoll_create 4 m1 = Ok (Done 2, m2) /\
  mtcp_epoll_ctl 2 MTCP_EPOLL_CTL_MOD 1 (Some (MTCP_EPOLLIN, 77)) m2 = Ok (Done 0, m3) /\
  ep m3 = Some a /\ AddEpollEvent (Some a) MTCP_EVENT_QUEUE 1 MTCP_EPOLLIN m3 = Ok (0, m4) /\
  epolls m4 !! a = Some e /\ (forall t, num_events (get_queue e t) = 0).
Proof.
  eexists _, _, _, _, _, _. split; [vm_compute; reflexivity|]. split; [vm_compute; reflexivity|].
  split; [vm_compute; reflexivity|]. split; [reflexivity|]. split; [vm_compute; reflexivity|].
  split; [vm_compute; reflexivity|]. by intros [].
Qed.
End Demo_epoll.
