(* ===== verification/Api.v ===== *)
(** * The socket interface: [api.c], connections

    Each call begins with the checks of its arguments in the order of the
    code; [used_socket] and its variants are the prefixes the calls share.
    Locks are taken and released inside one call. A blocking call that would
    wait answers [Blocked]; [accept_resume] and [connect_poll] are what it
    does when it goes on. *)

From S2P Require Import Prelude SeqNum SpscQueue MemPool RingBuffer SendBuffer Reassembly AddrPool Rss.
From S2P Require Import Machine FlowTable Network StreamOps Boot Sockets Pipe Epoll.

Definition AF_INET : Z := 2.
Definition SOCK_STREAM : Z := 1.
Definition SOL_SOCKET : Z := 1.
Definition SO_ERROR : Z := 4.
Definition FIONREAD : Z := 21531.
Definition FIONBIO : Z := 21537.
Definition sizeof_sockaddr_in : Z := 16.

(** [-1] with [errno] unchanged. *)
Definition error {A} : M (out A) := ret (Fail None).

(** The outcome of [n] allocations, up to the first that fails. *)
Fixpoint all_malloc (n : nat) : M bool :=
  match n with
  | O => ret true
  | S n => let* ok := next_malloc in if ok then all_malloc n else ret false
  end.

Section api.
Context `{Env}.

(** ** Argument checks *)

(** The socket [sockid], in use. *)
Definition used_socket {A} (sockid : Z) (k : socket_map -> M (out A)) : M (out A) :=
  GetMTCPManager (check (bad_id sockid) EBADF
    (let* sk := get_socket sockid in check (socktype sk =? MTCP_SOCK_UNUSED) EBADF (k sk))).

Definition is_tcp (sk : socket_map) : bool :=
  (socktype sk =? MTCP_SOCK_STREAM) || (socktype sk =? MTCP_SOCK_LISTENER).

(** [mtcp_is_connected] *)
Definition mtcp_is_connected (o : option ptr) : M bool :=
  match o with
  | None => ret false
  | Some p => let* s := get_stream p in ret (bool_decide (state s = TCP_ST_ESTABLISHED))
  end.

(** ** Queries and options *)

(** What is stored in [*optval], if anything, and the result. [cur_errno] is
    the caller's [errno]. *)
Definition GetSocketError (sk : socket_map) (cur_errno : option errno) : M (option (option errno) * out Z) :=
  let* o := as_stream (sk_ref sk) in
  match o with
  | None => ret (None, Fail (Some EBADF))
  | Some p =>
      let* s := get_stream p in
      let st := state s in
      let r := close_reason s in
      if bool_decide (st = TCP_ST_CLOSED) &&
         (bool_decide (r = TCP_TIMEDOUT) || bool_decide (r = TCP_CONN_FAIL) || bool_decide (r = TCP_CONN_LOST))
      then ret (Some (Some ETIMEDOUT), Done 0)
      else if (bool_decide (st = TCP_ST_CLOSE_WAIT) || bool_decide (st = TCP_ST_CLOSED)) && bool_decide (r = TCP_RESET)
      then ret (Some (Some ECONNRESET), Done 0)
      else if bool_decide (st = TCP_ST_SYN_SENT) && bool_decide (cur_errno = Some EINPROGRESS)
      then ret (Some (Some EINPROGRESS), Fail None)
      else if bool_decide (r = TCP_NOT_CLOSED) then ret (Some None, Done 0)
      else ret (None, Fail (Some ENOSYS))
  end.

Definition mtcp_getsockname (sockid addrlen : Z) : M (out sockaddr_in) :=
  used_socket sockid (fun sk =>
    check (addrlen <=? 0) EINVAL (check (negb (is_tcp sk)) ENOTSOCK (finish (mkAddr (sk_addr sk) (sk_port sk))))).

Definition mtcp_getpeername (sockid addrlen : Z) : M (out sockaddr_in) :=
  used_socket sockid (fun sk =>
    check (addrlen <=? 0) EINVAL (check (negb (is_tcp sk)) ENOTSOCK
      (let* o := as_stream (sk_ref sk) in
       let* c := mtcp_is_connected o in
       check (negb c) ENOTCONN
         (match o with
          | Some p => let* s := get_stream p in finish (mkAddr (daddr s) (dport s))
          | None => throw NullDeref
          end)))).

Definition mtcp_getsockopt (sockid level optname : Z) (cur_errno : option errno) : M (option (option errno) * out Z) :=
  let err (e : errno) := (@None (option errno), Fail (A := Z) (Some e)) in
  let* d := gets ctx_done in
  let* x := gets ctx_exit in
  if d || x then ret (err EPERM)
  else if bad_id sockid then ret (err EBADF)
  else
    let* sk := get_socket sockid in
    if socktype sk =? MTCP_SOCK_UNUSED then ret (err EBADF)
    else if negb (is_tcp sk) then ret (err ENOTSOCK)
    else if (level =? SOL_SOCKET) && (optname =? SO_ERROR) && (socktype sk =? MTCP_SOCK_STREAM)
    then GetSocketError sk cur_errno
    else ret (err ENOSYS).

Definition mtcp_setsockopt (sockid : Z) : M (out Z) :=
  used_socket sockid (fun sk => check (negb (is_tcp sk)) ENOTSOCK (finish 0)).

(** [argp] is the integer pointed to; the result pairs the return value with
    what is stored through [argp], if anything. *)
Definition mtcp_socket_ioctl (sockid request : Z) (argp : option Z) : M (out (Z * option Z)) :=
  GetMTCPManager (check (bad_id sockid) EBADF
    (let* sk := get_socket sockid in
     check (negb (is_tcp sk)) EBADF
       (match argp with
        | None => fail EFAULT
        | Some arg =>
            if request =? FIONREAD then
              let* o := as_stream (sk_ref sk) in
              match o with
              | None => fail EBADF
              | Some p =>
                  let* s := get_stream p in
                  finish (0, Some (match rcvbuf (rcvvar s) with Some (_, b) => merged_len b | None => 0 end))
              end
            else if request =? FIONBIO then
              if negb (arg =? 0) then
                let* o := mtcp_setsock_nonblock sockid in
                match o with Done r => finish (r, None) | Fail e => ret (Fail e) | Blocked => ret Blocked end
              else finish (0, None)
            else fail EINVAL
        end))).

(** ** Creation, binding, listening *)

Definition mtcp_socket (domain type : Z) : M (out Z) :=
  GetMTCPManager (check (negb (domain =? AF_INET)) EAFNOSUPPORT
    (check (negb (type =? SOCK_STREAM)) EINVAL
      (let* o := AllocateSocket MTCP_SOCK_STREAM in
       match o with None => fail ENFILE | Some k => let* sk := get_socket k in finish (sk_id sk) end))).

(** [addr]: the family and the address pointed to. *)
Definition mtcp_bind (sockid : Z) (addr : option (Z * sockaddr_in)) (addrlen : Z) : M (out Z) :=
  used_socket sockid (fun sk =>
    check (negb (is_tcp sk)) ENOTSOCK
      (match addr with
       | None => fail EINVAL
       | Some (family, a) =>
           check (has (opts sk) MTCP_ADDR_BIND) EINVAL
             (check (negb (family =? AF_INET) || (addrlen <? sizeof_sockaddr_in)) EINVAL
               (upd_socket sockid (fun s => s <| sk_addr := sin_addr a |> <| sk_port := sin_port a |>
                                             <| opts := Z.lor (opts s) MTCP_ADDR_BIND |>) ;;;
                finish 0))
       end)).

(** A new listener on the heap, of which [q] is the accept queue. *)
Definition new_listener (sockid backlog : Z) (q : ring_queue ptr) : M ptr :=
  let* l := gets heap_next in
  modify (fun m => m <| heap_next := l + 1 |>
                     <| listener_store := <[l := mkListener sockid sockid backlog q]> (listener_store m) |>) ;;;
  ret l.

Definition mtcp_listen (sockid backlog : Z) : M (out Z) :=
  used_socket sockid (fun sk =>
    when (socktype sk =? MTCP_SOCK_STREAM)
      (upd_socket sockid (fun s => s <| socktype := MTCP_SOCK_LISTENER |>)) ;;;
    let* sk := get_socket sockid in
    check (negb (socktype sk =? MTCP_SOCK_LISTENER)) ENOTSOCK
      (check ((backlog <=? 0) || (max_concurrency <? backlog)) EINVAL
        (let* o := ListenerHTSearch (sk_port sk) in
         check (bool_decide (o <> None)) EADDRINUSE
           (let* ok := all_malloc 3 in        (* the listener, its condition and its lock *)
            if negb ok then error
            else
              let* ok := all_malloc 2 in
              match CreateStreamQueue ok ok backlog with
              | None => fail ENOMEM
              | Some q =>
                  let* l := new_listener sockid backlog q in
                  upd_socket sockid (fun s => s <| sk_ref := SockListener l |>) ;;;
                  ListenerHTInsert l ;;;
                  finish 0
              end)))).

(** ** Accepting *)

(** The dequeued stream [p] gets a socket. *)
Definition accept_finish (l : ptr) (p : ptr) : M (out (Z * sockaddr_in)) :=
  let* s := get_stream p in
  let* ok :=
    match socket s with
    | Some _ => ret true
    | None =>
        let* o := AllocateSocket MTCP_SOCK_STREAM in
        match o with
        | None => ret false
        | Some k =>
            upd_socket k (fun x => x <| sk_ref := SockStream p |>) ;;;
            upd_stream p (fun s => s <| socket := Some k |>) ;;;
            upd_socket k (fun x => x <| sk_port := dport s |> <| sk_addr := daddr s |>) ;;;
            ret true
        end
    end in
  check (negb ok) ENFILE
    (let* x := get_listener l in
     let* ls := get_socket (l_socket x) in
     when (negb (has (epoll ls) MTCP_EPOLLET) && negb (StreamQueueIsEmpty (acceptq x)))
       (raise_event USR_SHADOW_EVENT_QUEUE (l_socket x) MTCP_EPOLLIN) ;;;
     let* s := get_stream p in
     match socket s with
     | None => throw NullDeref
     | Some k => let* sk := get_socket k in finish (sk_id sk, mkAddr (daddr s) (dport s))
     end).

(** Dequeue, or wait. *)
Definition accept_try (l : ptr) : M (out (Z * sockaddr_in)) :=
  let* x := get_listener l in
  let* (o, q) := lift (StreamDequeue (acceptq x)) in
  upd_listener l (fun x => x <| acceptq := q |>) ;;;
  match o with
  | Some p => accept_finish l p
  | None =>
      let* ls := get_socket (l_socket x) in
      if has (opts ls) MTCP_NONBLOCK then fail EAGAIN else ret Blocked
  end.

Definition mtcp_accept (sockid : Z) : M (out (Z * sockaddr_in)) :=
  GetMTCPManager (check (bad_id sockid) EBADF
    (let* sk := get_socket sockid in
     check (negb (socktype sk =? MTCP_SOCK_LISTENER)) EINVAL
       (let* o := as_listener (sk_ref sk) in
        match o with None => throw NullDeref | Some l => accept_try l end))).

(** After the condition variable was signalled. *)
Definition accept_resume (l : ptr) : M (out (Z * sockaddr_in)) :=
  let* d := gets ctx_done in
  let* x := gets ctx_exit in
  check (d || x) EINTR (accept_try l).

(** ** Connecting *)

Definition mtcp_init_rss (saddr_base num da dp : Z) : M (out Z) :=
  let* d := gets ctx_done in
  let* x := gets ctx_exit in
  check (d || x) EACCES
    (modify (fun m => m <| m_ap := None |>) ;;;
     let* base :=
       if saddr_base =? INADDR_ANY then
         let* (nif, _) := lift (GetOutputInterface da) in
         if nif <? 0 then ret None
         else let* e := lift (from_option_res OutOfBounds (znth eths (nif_to_eidx nif))) in ret (Some (fst e))
       else ret (Some saddr_base) in
     match base with
     | None => fail EINVAL
     | Some base =>
         let* ok := all_malloc 4 in          (* the pool, its two arrays and its lock *)
         match CreateAddressPoolPerCore ok ok ok ok cpu num_cpus base num da dp endian_check with
         | None => fail ENOMEM
         | Some ap => modify (fun m => m <| m_ap := Some ap |>) ;;; finish 0
         end
     end).

(** A source address for the socket: [Done true] if one was taken from a
    pool, [Done false] if the socket is bound. *)
Definition bind_source (sockid : Z) (sk : socket_map) (da : sockaddr_in) : M (out bool) :=
  if has (opts sk) MTCP_ADDR_BIND && negb (sk_port sk =? INPORT_ANY) && negb (sk_addr sk =? INADDR_ANY) then
    check (negb (GetRSSCPUCore (sk_addr sk) (sin_addr da) (sk_port sk) (sin_port da) num_queues endian_check =? cpu))
      EINVAL (finish false)
  else
    let sa := mkAddr (sk_addr sk) (sk_port sk) in
    let* o := gets m_ap in
    let* r :=
      match o with
      | Some ap =>
          let* (r, a, ap) := lift (FetchAddressPerCore (Some ap) sa) in
          modify (fun m => m <| m_ap := ap |>) ;;; ret (Some (r, a))
      | None =>
          let* (nif, _) := lift (GetOutputInterface (sin_addr da)) in
          if nif <? 0 then ret None
          else
            let i := Z.to_nat nif in
            let* l := gets aps in
            let* (r, a, ap) := lift (FetchAddress (default None (l !! i)) cpu num_queues da sa endian_check) in
            modify (fun m => m <| aps := <[i := ap]> (aps m) |>) ;;; ret (Some (r, a))
      end in
    match r with
    | None => fail EINVAL
    | Some (r, a) =>
        check (r <? 0) EAGAIN
          (upd_socket sockid (fun s => s <| sk_addr := sin_addr a |> <| sk_port := sin_port a |>
                                         <| opts := Z.lor (opts s) MTCP_ADDR_BIND |>) ;;;
           finish true)
    end.

Definition enqueue_connect (p : ptr) : M Z :=
  let* q := gets connectq in
  let* (r, q) := lift (StreamEnqueue q p) in
  modify (fun m => m <| connectq := q |>) ;;; ret r.
Definition enqueue_destroy (p : ptr) : M unit :=
  let* q := gets destroyq in
  let* (_, q) := lift (StreamEnqueue q p) in
  modify (fun m => m <| destroyq := q |>).
Definition enqueue_close (p : ptr) : M Z :=
  let* q := gets closeq in
  let* (r, q) := lift (StreamEnqueue q p) in
  modify (fun m => m <| closeq := q |>) ;;; ret r.
Definition enqueue_reset (p : ptr) : M Z :=
  let* q := gets resetq in
  let* (r, q) := lift (StreamEnqueue q p) in
  modify (fun m => m <| resetq := q |>) ;;; ret r.
Definition wake_up : M unit := modify (fun m => m <| wakeup_flag := true |>).

(** The stream is made and handed to the thread; a blocking caller then polls. *)
Definition start_connect (sockid : Z) (da : sockaddr_in) (dyn : bool) : M (out Z) :=
  let* sk := get_socket sockid in
  let* o := CreateTCPStream (Some sockid) (socktype sk) (sk_addr sk) (sk_port sk) (sin_addr da) (sin_port da) in
  match o with
  | None => fail ENOMEM
  | Some p =>
      when dyn (upd_stream p (fun s => s <| is_bound_addr := true |>)) ;;;
      upd_snd p (fun v => v <| cwnd := 1 |> <| ssthresh := u32 (mss v * 10) |>) ;;;
      set_state p TCP_ST_SYN_SENT ;;;
      let* r := enqueue_connect p in
      wake_up ;;;
      if r <? 0 then enqueue_destroy p ;;; fail EAGAIN
      else
        let* sk := get_socket sockid in
        if has (opts sk) MTCP_NONBLOCK then fail EINPROGRESS else ret Blocked
  end.

Definition mtcp_connect (sockid : Z) (addr : option (Z * sockaddr_in)) (addrlen : Z) : M (out Z) :=
  used_socket sockid (fun sk =>
    check (negb (socktype sk =? MTCP_SOCK_STREAM)) ENOTSOCK
      (match addr with
       | None => fail EFAULT
       | Some (family, da) =>
           check (negb (family =? AF_INET) || (addrlen <? sizeof_sockaddr_in)) EAFNOSUPPORT
             (let* o := as_stream (sk_ref sk) in
              match o with
              | Some p =>
                  let* s := get_stream p in
                  fail (if st_code TCP_ST_ESTABLISHED <=? st_code (state s) then EISCONN else EALREADY)
              | None =>
                  let* b := bind_source sockid sk da in
                  match b with
                  | Done dyn => start_connect sockid da dyn
                  | Fail e => ret (Fail e)
                  | Blocked => ret Blocked
                  end
              end)
       end)).

(** One round of the blocking caller's loop. *)
Definition connect_poll (p : ptr) : M (out Z) :=
  let* s := get_stream p in
  if st_code TCP_ST_ESTABLISHED <? st_code (state s) then fail ENOSYS
  else if bool_decide (state s = TCP_ST_ESTABLISHED) then finish 0
  else ret Blocked.

(** ** Closing *)

Definition CloseStreamSocket (sockid : Z) : M (out Z) :=
  GetMTCPManager
    (let* sk := get_socket sockid in
     let* o := as_stream (sk_ref sk) in
     match o with
     | None => fail ENOTCONN
     | Some p =>
         let* s := get_stream p in
         if closed s then finish 0
         else
           upd_stream p (fun s => s <| closed := true |> <| socket := None |>) ;;;
           match state s with
           | TCP_ST_CLOSED => enqueue_destroy p ;;; wake_up ;;; finish 0
           | TCP_ST_SYN_SENT => enqueue_destroy p ;;; wake_up ;;; error
           | TCP_ST_ESTABLISHED | TCP_ST_CLOSE_WAIT =>
               upd_snd p (fun v => v <| on_closeq := true |>) ;;;
               let* r := enqueue_close p in
               wake_up ;;;
               check (r <? 0) EAGAIN (finish 0)
           | _ => fail EBADF
           end
     end).

Definition CloseListeningSocket (sockid : Z) : M (out Z) :=
  GetMTCPManager
    (let* sk := get_socket sockid in
     let* o := as_listener (sk_ref sk) in
     match o with
     | None => fail EINVAL
     | Some l =>
         let* _ := get_listener l in
         modify (fun m => m <| listener_store := delete l (listener_store m) |>) ;;;
         upd_socket sockid (fun s => s <| sk_ref := SockNull |>) ;;;
         finish 0
     end).

Definition mtcp_close (sockid : Z) : M (out Z) :=
  used_socket sockid (fun sk =>
    let* r :=
      if socktype sk =? MTCP_SOCK_STREAM then CloseStreamSocket sockid
      else if socktype sk =? MTCP_SOCK_LISTENER then CloseListeningSocket sockid
      else if socktype sk =? MTCP_SOCK_EPOLL then CloseEpollSocket sockid
      else if socktype sk =? MTCP_SOCK_PIPE then PipeClose sockid
      else fail EINVAL in
    FreeSocket sockid ;;;
    ret r).

(** The stream is destroyed without a reset. *)
Definition abort_quietly (p : ptr) : M (out Z) :=
  upd_stream p (fun s => s <| state := TCP_ST_CLOSED |> <| close_reason := TCP_ACTIVE_CLOSE |>) ;;;
  enqueue_destroy p ;;;
  wake_up ;;;
  finish 0.

Definition mtcp_abort (sockid : Z) : M (out Z) :=
  used_socket sockid (fun sk =>
    check (negb (socktype sk =? MTCP_SOCK_STREAM)) ENOTSOCK
      (let* o := as_stream (sk_ref sk) in
       match o with
       | None => fail ENOTCONN
       | Some p =>
           let* s := get_stream p in
           FreeSocket sockid ;;;
           upd_stream p (fun s => s <| socket := None |>) ;;;
           match state s with
           | TCP_ST_CLOSED => error
           | TCP_ST_SYN_SENT | TCP_ST_CLOSING | TCP_ST_LAST_ACK | TCP_ST_TIME_WAIT => abort_quietly p
           | _ =>
               check (on_resetq (sndvar s)) ECONNRESET
                 (upd_snd p (fun v => v <| on_resetq := true |>) ;;;
                  let* r := enqueue_reset p in
                  wake_up ;;;
                  check (r <? 0) EAGAIN (finish 0))
           end
       end)).
End api.
