(* ===== verification/ApiData.v ===== *)
(** * The socket interface: [api.c], data

    Reading from and writing to a connected stream. The switch
    [BLOCKING_SUPPORT] is off, so a blocking socket does not wait either. *)

From S2P Require Import Prelude SeqNum SpscQueue MemPool RingBuffer SendBuffer Reassembly AddrPool Rss.
From S2P Require Import Machine FlowTable Network StreamOps Boot Sockets Pipe Epoll Api.

Definition MSG_PEEK : Z := 2.

Section data.
Context `{Env}.

(** ** Reading *)

Definition receive_buffer (p : ptr) : M (Z * tcp_ring_buffer) :=
  let* s := get_stream p in
  match rcvbuf (rcvvar s) with Some cb => ret cb | None => throw NullDeref end.

Definition PeekForUser (p : ptr) (len : Z) : M (out (list Z)) :=
  let* (_, b) := receive_buffer p in
  let* o := lift (PeekForUser_copy b len) in
  match o with None => fail EAGAIN | Some d => finish d end.

Definition enqueue_ack (p : ptr) : M unit :=
  let* q := gets ackq in
  let* (_, q) := lift (StreamEnqueue q p) in
  modify (fun m => m <| ackq := q |>).

(** The window that became free is advertised if the peer waits for it. *)
Definition advertise_window (p : ptr) : M unit :=
  let* s := get_stream p in
  when (need_wnd_adv s && (eff_mss (sndvar s) <? rcv_wnd (rcvvar s)) && negb (on_ackq (sndvar s)))
    (upd_snd p (fun v => v <| on_ackq := true |>) ;;;
     enqueue_ack p ;;;
     upd_stream p (fun s => s <| need_wnd_adv := false |>) ;;;
     wake_up).

Definition CopyToUser (p : ptr) (len : Z) : M (out (list Z)) :=
  let* (c, b) := receive_buffer p in
  let* rbm := gets rbm_rcv in
  let* (o, rbm, b) := lift (CopyToUser_copy rbm b len) in
  match o with
  | None => fail EAGAIN
  | Some d =>
      modify (fun m => m <| rbm_rcv := rbm |>) ;;;
      upd_rcv p (fun r => r <| rcvbuf := Some (c, b) |> <| rcv_wnd := u32 (size b - merged_len b) |>) ;;;
      advertise_window p ;;;
      finish d
  end.

(** The connected stream of a socket, in a state between [lo] and [hi]. *)
Definition stream_in {A} (sk : socket_map) (ok : tcp_state -> bool) (k : ptr -> M (out A)) : M (out A) :=
  let* o := as_stream (sk_ref sk) in
  match o with
  | None => fail ENOTCONN
  | Some p => let* s := get_stream p in check (negb (ok (state s))) ENOTCONN (k p)
  end.

Definition readable_state (st : tcp_state) : bool :=
  (st_code TCP_ST_ESTABLISHED <=? st_code st) && (st_code st <=? st_code TCP_ST_CLOSE_WAIT).
Definition writable_state (st : tcp_state) : bool :=
  bool_decide (st = TCP_ST_ESTABLISHED) || bool_decide (st = TCP_ST_CLOSE_WAIT).

(** No data to read: there is no buffer or it is empty. *)
Definition nothing_to_read (s : tcp_stream) : bool :=
  match rcvbuf (rcvvar s) with None => true | Some (_, b) => merged_len b =? 0 end.

(** The common start of reading: the end of the stream, and [EAGAIN]. *)
Definition read_guard {A} (sk : socket_map) (p : ptr) (eof : A) (k : M (out A)) : M (out A) :=
  let* s := get_stream p in
  if bool_decide (state s = TCP_ST_CLOSE_WAIT) && nothing_to_read s then finish eof
  else check (has (opts sk) MTCP_NONBLOCK && nothing_to_read s) EAGAIN k.

(** Data that remains, or the end of the stream behind it, raises an event
    again; [n] bytes were read. *)
Definition read_remaining (sk : socket_map) (p : ptr) (n : Z) : M bool :=
  let* s := get_stream p in
  let* rest :=
    if has (epoll sk) MTCP_EPOLLIN && negb (has (epoll sk) MTCP_EPOLLET) then
      let* (_, b) := receive_buffer p in ret (0 <? merged_len b)
    else ret false in
  if bool_decide (state s = TCP_ST_CLOSE_WAIT) then
    let* (_, b) := receive_buffer p in ret (rest || ((merged_len b =? 0) && (0 <? n)))
  else ret rest.

(** The bytes read; 0 bytes are the end of the stream. *)
Definition mtcp_recv (sockid len flags : Z) : M (out (list Z)) :=
  used_socket sockid (fun sk =>
    if socktype sk =? MTCP_SOCK_PIPE then PipeRead sockid (s32 len)
    else
      check (negb (socktype sk =? MTCP_SOCK_STREAM)) ENOTSOCK
        (stream_in sk readable_state (fun p =>
          read_guard sk p []
            (check (negb ((flags =? 0) || (flags =? MSG_PEEK))) EINVAL
              (let* r := if flags =? 0 then CopyToUser p (s32 len) else PeekForUser p (s32 len) in
               let n := match r with Done d => zlen d | _ => -1 end in
               let* rest := read_remaining sk p n in
               when (rest && negb (epoll sk =? 0)) (raise_event USR_SHADOW_EVENT_QUEUE sockid MTCP_EPOLLIN) ;;;
               ret r))))).

Definition mtcp_read (sockid len : Z) : M (out (list Z)) := mtcp_recv sockid len 0.

(** One buffer after another, until one is not filled. *)
Fixpoint readv_loop (p : ptr) (iov : list Z) (acc : list Z) : M (list Z) :=
  match iov with
  | [] => ret acc
  | n :: iov =>
      if n <=? 0 then readv_loop p iov acc
      else
        let* r := CopyToUser p (s32 n) in
        match r with
        | Done d =>
            if zlen d <=? 0 then ret acc
            else if zlen d <? n then ret (acc ++ d)
            else readv_loop p iov (acc ++ d)
        | _ => ret acc
        end
  end.

(** [iov] are the lengths of the buffers. *)
Definition mtcp_readv (sockid : Z) (iov : list Z) : M (out (list Z)) :=
  used_socket sockid (fun sk =>
    check (negb (socktype sk =? MTCP_SOCK_STREAM)) ENOTSOCK
      (stream_in sk readable_state (fun p =>
        read_guard sk p []
          (let* d := readv_loop p iov [] in
           let* rest := read_remaining sk p (zlen d) in
           when (rest && (has (epoll sk) MTCP_EPOLLIN && negb (has (epoll sk) MTCP_EPOLLET)))
             (raise_event USR_SHADOW_EVENT_QUEUE sockid MTCP_EPOLLIN) ;;;
           finish d)))).

(** ** Writing *)

(** The send buffer, allocated at the first write. *)
Definition ensure_sndbuf (p : ptr) : M (option tcp_send_buffer) :=
  let* s := get_stream p in
  match sndbuf (sndvar s) with
  | Some b => ret (Some b)
  | None =>
      let* ok := next_malloc in
      let* sbm := gets rbm_snd in
      let* (o, sbm) := lift (SBInit ok (fresh_mem (sbm_chunk_size sbm)) sbm (u32 (iss (sndvar s) + 1))) in
      modify (fun m => m <| rbm_snd := sbm |>) ;;;
      upd_snd p (fun v => v <| sndbuf := o |>) ;;;
      ret o
  end.

(** [buf] holds the [len] bytes to send. *)
Definition CopyFromUser (p : ptr) (buf : list Z) (len : Z) : M (out Z) :=
  let* s := get_stream p in
  let sndlen := Z.min (s32 (snd_wnd (sndvar s))) len in
  check (sndlen <=? 0) EAGAIN
    (let* o := ensure_sndbuf p in
     match o with
     | None => upd_stream p (fun s => s <| close_reason := TCP_NO_MEM |>) ;;; fail ENOMEM
     | Some b =>
         let* (r, b) := lift (SBPut b buf sndlen) in
         assert (s32 r =? sndlen) ;;;
         upd_snd p (fun v => v <| sndbuf := Some b |> <| snd_wnd := u32 (sb_size b - sb_len b) |>) ;;;
         check (s32 r <=? 0) EAGAIN (finish (s32 r))
     end).

(** Data to send puts the stream on the send queue. *)
Definition enqueue_send (p : ptr) : M unit :=
  let* q := gets sendq in
  let* (_, q) := lift (StreamEnqueue q p) in
  modify (fun m => m <| sendq := q |>).

Definition queue_send (p : ptr) (n : Z) : M unit :=
  let* s := get_stream p in
  when ((0 <? n) && negb (on_sendq (sndvar s) || on_send_list (sndvar s)))
    (upd_snd p (fun v => v <| on_sendq := true |>) ;;;
     enqueue_send p ;;;
     wake_up).

(** Room that remains raises a write event again. *)
Definition write_remaining (sk : socket_map) (sockid : Z) (p : ptr) : M unit :=
  let* s := get_stream p in
  when ((0 <? snd_wnd (sndvar s)) && (has (epoll sk) MTCP_EPOLLOUT && negb (has (epoll sk) MTCP_EPOLLET)))
    (raise_event USR_SHADOW_EVENT_QUEUE sockid MTCP_EPOLLOUT).

Definition mtcp_write (sockid : Z) (buf : list Z) (len : Z) : M (out Z) :=
  used_socket sockid (fun sk =>
    if socktype sk =? MTCP_SOCK_PIPE then PipeWrite sockid buf (s32 len)
    else
      check (negb (socktype sk =? MTCP_SOCK_STREAM)) ENOTSOCK
        (stream_in sk writable_state (fun p =>
          if len <=? 0 then if has (opts sk) MTCP_NONBLOCK then fail EAGAIN else finish 0
          else
            let* r := CopyFromUser p buf (s32 len) in
            let n := match r with Done n => n | _ => -1 end in
            queue_send p n ;;;
            let r := if (n =? 0) && has (opts sk) MTCP_NONBLOCK then Fail (Some EAGAIN) else r in
            write_remaining sk sockid p ;;;
            ret r))).

Fixpoint writev_loop (p : ptr) (iov : list (list Z * Z)) (to_write : Z) : M Z :=
  match iov with
  | [] => ret to_write
  | (buf, n) :: iov =>
      if n <=? 0 then writev_loop p iov to_write
      else
        let* r := CopyFromUser p buf (s32 n) in
        match r with
        | Done k =>
            if k <=? 0 then ret to_write
            else if k <? n then ret (to_write + k)
            else writev_loop p iov (to_write + k)
        | _ => ret to_write
        end
  end.

(** [iov] are the buffers with their lengths. *)
Definition mtcp_writev (sockid : Z) (iov : list (list Z * Z)) : M (out Z) :=
  used_socket sockid (fun sk =>
    check (negb (socktype sk =? MTCP_SOCK_STREAM)) ENOTSOCK
      (stream_in sk writable_state (fun p =>
        let* n := writev_loop p iov 0 in
        queue_send p n ;;;
        write_remaining sk sockid p ;;;
        if (n =? 0) && has (opts sk) MTCP_NONBLOCK then fail EAGAIN else finish n))).
End data.
