(* ===== verification/IpIn.v ===== *)
(** * Frames from the interface: [eth_in.c], [ip_in.c], [icmp.c], and
    [ip_fast_csum] of [ps.h]

    A frame is the list of its bytes; reading past its end faults. The
    checksum of the IP header is the portable version of the code. *)

From S2P Require Import Prelude SeqNum SpscQueue MemPool RingBuffer SendBuffer Rss AddrPool Checksum.
From S2P Require Import Machine Lists TcpOptions FlowTable Network StreamOps TcpOut Timer TcpIn.

Definition ETH_HLEN : Z := 14.
Definition ETH_P_IP : Z := 2048.
Definition ETH_P_ARP : Z := 2054.
Definition IPPROTO_ICMP : Z := 1.
Definition ICMP_ECHOREPLY : Z := 0.
Definition ICMP_ECHO : Z := 8.
Definition sizeof_icmphdr : Z := 8.

(** ** The checksum of the IP header *)

Definition rd32le (mem : list Z) (i : Z) : res Z :=
  let! a := rd16le mem i in let! b := rd16le mem (i + 2) in Ok (a + 65536 * b).

(** [csum += w; carry = (csum < w); csum += carry;] *)
Definition add_carry (csum w : Z) : Z :=
  let csum := u32 (csum + w) in u32 (csum + (if csum <? w then 1 else 0)).

(** [csum += *word++ ...] for the words from offset [off] on. *)
Fixpoint csum_words (n : nat) (mem : list Z) (off csum : Z) : res Z :=
  match n with
  | O => Ok csum
  | S n => let! w := rd32le mem off in csum_words n mem (off + 4) (add_carry csum w)
  end.

Definition csum_fold (csum : Z) : Z :=
  let sum := u32 (csum + Z.shiftl csum 16) in
  let carry := if sum <? csum then 1 else 0 in
  let sum := u32 (Z.shiftr sum 16 + carry) in
  u16 (Z.lnot sum).

(** A header of less than five words makes the loop miss its end. *)
Definition ip_fast_csum (iph : list Z) (ihl : Z) : res Z :=
  let! w := rd32le iph 0 in
  let! csum := csum_words 3 iph 4 w in
  if ihl <=? 4 then Fault OutOfBounds
  else let! csum := csum_words (Z.to_nat (ihl - 4)) iph 16 csum in Ok (csum_fold csum).

(** The header [IPOutput] and [IPOutputStandalone] write in front of a payload
    of [payloadlen] bytes; [check] is its checksum field. *)
Definition ip_fields (payloadlen ip_id proto sa da check : Z) : list Z :=
  [69; 0] ++ be16 (u16 (IP_HEADER_LEN + payloadlen)) ++ be16 ip_id ++ [64; 0; 64; proto] ++ [check mod 256; check / 256 mod 256] ++
  le_bytes 4 sa ++ le_bytes 4 da.

Definition ip_header `{Env} (payloadlen ip_id proto sa da : Z) : res (list Z) :=
  let! check := if hw_checksum then Ok 0 else ip_fast_csum (ip_fields payloadlen ip_id proto sa da 0) 5 in
  Ok (ip_fields payloadlen ip_id proto sa da check).

(** ** ICMP *)

(** [hi] is the indeterminate upper byte of [odd_byte]. *)
Definition ICMPChecksum (hi : Z) (icmph : list Z) (len : Z) : res Z :=
  if len <? 0 then Fault AssertFailed
  else
    let! bs := from_option_res OutOfBounds (mem_read icmph 0 len) in
    let sum := if Z.odd len then
                 u32 (sum_words (take (Z.to_nat (len - 1)) bs) 0 + (default 0 (last bs) + 256 * hi))
               else sum_words bs 0 in
    let sum := u32 (Z.shiftr sum 16 + Z.land sum 65535) in
    let sum := u32 (sum + Z.shiftr sum 16) in
    Ok (u16 (Z.lnot sum)).

Definition le16 (x : Z) : list Z := [x mod 256; x / 256 mod 256].

Section input.
Context `{Env} (hi : Z) (eth_ifindex : Z -> Z).

(** The message with its checksum, [icmp_id] and [icmp_seq] in host order. *)
Definition icmp_message (icmp_type icmp_code icmp_id icmp_seq : Z) (icmpd : list Z) : res (list Z) :=
  let front := [icmp_type; icmp_code] in
  let back := le16 (htons icmp_id) ++ le16 (htons icmp_seq) ++ icmpd in
  let! c := ICMPChecksum hi (front ++ [0; 0] ++ back) (sizeof_icmphdr + zlen icmpd) in
  Ok (front ++ le16 c ++ back).

(** [len] bytes at [icmpd] are sent. *)
Definition ICMPOutput (sa da icmp_type icmp_code icmp_id icmp_seq : Z) (icmpd : list Z) (len : Z) : M Z :=
  let* o := IPOutputStandalone da in
  match o with
  | None => ret (-1)
  | Some (eidx, haddr) =>
      let* d := if 0 <? len then lift (from_option_res OutOfBounds (mem_read icmpd 0 len)) else ret [] in
      let* msg := lift (icmp_message icmp_type icmp_code icmp_id icmp_seq d) in
      emit (IcmpFrame eidx haddr sa da msg) ;;;
      ret 0
  end.

Definition RequestICMP (sa da icmp_id icmp_sequence : Z) (icmpd : list Z) (len : Z) : M unit :=
  ICMPOutput sa da ICMP_ECHO 0 (ntohs icmp_id) (ntohs icmp_sequence) icmpd len ;;; ret tt.

(** [icmph] are the bytes behind the IP header; -1 is ERROR. *)
Definition ProcessICMPECHORequest (ih : iphdr) (icmph : list Z) (len : Z) : M Z :=
  let n := len - ih_ihl ih * 4 in
  let* c := lift (ICMPChecksum hi icmph n) in
  if negb (c =? 0) then ret (-1)
  else
    let* id := lift (rd16le icmph 4) in
    let* sq := lift (rd16le icmph 6) in
    ICMPOutput (ih_daddr ih) (ih_saddr ih) ICMP_ECHOREPLY 0 (ntohs id) (ntohs sq)
      (drop 8 icmph) (u16 (n - sizeof_icmphdr)) ;;;
    ret 0.

(** 1 is TRUE. *)
Definition ProcessICMPPacket (ih : iphdr) (icmph : list Z) (len : Z) : M Z :=
  if negb (List.existsb (fun e => ih_daddr ih =? fst e) eths) then ret 1
  else
    let* ty := lift (rd icmph 0) in
    (if ty =? ICMP_ECHO then ProcessICMPECHORequest ih icmph len ;;; ret tt else ret tt) ;;;
    ret 1.

(** ** IP and Ethernet *)

(** [iph] are the bytes from the IP header to the end of the frame. *)
Definition ProcessIPv4Packet (cur_ts ifidx : Z) (iph : list Z) : M Z :=
  let* ip_len := lift (rd16be iph 2) in
  if ip_len <? IP_HEADER_LEN then ret (-1)
  else
    let* b0 := lift (rd iph 0) in
    let ihl := b0 mod 16 in
    let* bad := if hw_checksum then ret false
                else let* c := lift (ip_fast_csum iph ihl) in ret (negb (c =? 0)) in
    if bad then ret (-1)
    else if negb (b0 / 16 =? 4) then ret 0
    else
      let* sa := lift (rd32le iph 12) in
      let* da := lift (rd32le iph 16) in
      let* proto := lift (rd iph 9) in
      let ih := mkIph sa da ihl in
      let next := drop (Z.to_nat (ihl * 4)) iph in
      if proto =? IPPROTO_TCP then ProcessTCPPacket cur_ts ih ip_len next
      else if proto =? IPPROTO_ICMP then ProcessICMPPacket ih next ip_len
      else ret 0.

(** The ARP message behind the Ethernet header. *)
Definition parse_arph (mem : list Z) : res arphdr :=
  let! op := rd16be mem 6 in
  let! sha := from_option_res OutOfBounds (mem_read mem 8 6) in
  let! sip := rd32le mem 14 in
  let! tip := rd32le mem 24 in
  Ok (mkArph op sha sip tip).

Definition ProcessPacket (ifidx cur_ts : Z) (pkt : list Z) : M Z :=
  let* ip_proto := lift (rd16be pkt 12) in
  let next := drop (Z.to_nat ETH_HLEN) pkt in
  if ip_proto =? ETH_P_IP then ProcessIPv4Packet cur_ts ifidx next
  else if ip_proto =? ETH_P_ARP then
    let* a := lift (parse_arph next) in
    ProcessARPPacket eth_ifindex cur_ts ifidx a ;;; ret 1
  else ret 1.
End input.
