(* ===== verification/IpChecksum.v ===== *)
(** * The checksum of IP headers

    [ip_fast_csum] adds 32-bit words with an end-around carry and folds the
    sum at the end; it computes the Internet checksum, the complement of the
    one's complement sum of the 16-bit words. A header written by [IPOutput]
    is accepted by [ProcessIPv4Packet], which finds the fields again. *)

From S2P Require Import Prelude SeqNum SpscQueue MemPool RingBuffer SendBuffer Rss AddrPool Checksum.
From S2P Require Import Machine Wp Lists TcpOptions FlowTable Network StreamOps Boot TcpOut Timer TcpIn IpIn.

(** The Internet checksum of a list of bytes. *)
Definition internet_checksum (bs : list Z) : Z := 65535 - fold16 (words bs).

(** [x] represents the sum [s]: the same residue, and 0 only for 0. *)
Definition sums_to (x s : Z) : Prop := 0 <= x /\ (exists k, s = x + 65535 * k) /\ (x = 0 <-> s = 0).

Lemma add_carry_spec c w : 0 <= c < 4294967296 -> 0 <= w < 4294967296 ->
  0 <= add_carry c w < 4294967296 /\ sums_to (add_carry c w) (c + w).
Proof.
  intros Hc Hw. unfold add_carry. assert (u32 (c + w) = if c + w <? 4294967296 then c + w else c + w - 4294967296) as ->.
  { unfold u32. destruct (Z.ltb_spec (c + w) 4294967296); wrap_lia. }
  destruct (Z.ltb_spec (c + w) 4294967296).
  - destruct (Z.ltb_spec (c + w) w); [lia|]. rewrite u32_small by lia. split; [lia|]. split; [lia|].
    split; [exists 0; lia|lia].
  - destruct (Z.ltb_spec (c + w - 4294967296) w); [|lia]. rewrite u32_small by lia. split; [lia|]. split; [lia|].
    split; [exists 65537; lia|lia].
Qed.

Lemma rd_app pre x bs : rd (pre ++ x :: bs) (zlen pre) = Ok x.
Proof. unfold rd. rewrite znth_app, Z.ltb_irrefl, Z.sub_diag. done. Qed.

Lemma rd32le_app pre a b c d bs :
  rd32le (pre ++ a :: b :: c :: d :: bs) (zlen pre) = Ok (a + 256 * b + 65536 * (c + 256 * d)).
Proof.
  unfold rd32le, rd16le. rewrite rd_app.
  replace (zlen pre + 1) with (zlen (pre ++ [a])) by (rewrite zlen_app; done).
  replace (zlen pre + 2) with (zlen (pre ++ [a; b])) by (rewrite zlen_app; done).
  replace (zlen (pre ++ [a; b]) + 1) with (zlen (pre ++ [a; b; c])) by (rewrite !zlen_app; unfold zlen; simpl; lia).
  replace (pre ++ a :: b :: c :: d :: bs) with ((pre ++ [a]) ++ b :: c :: d :: bs) by by rewrite <- app_assoc.
  rewrite rd_app. replace ((pre ++ [a]) ++ b :: c :: d :: bs) with ((pre ++ [a; b]) ++ c :: d :: bs) by by rewrite <- !app_assoc.
  rewrite rd_app. replace ((pre ++ [a; b]) ++ c :: d :: bs) with ((pre ++ [a; b; c]) ++ d :: bs) by by rewrite <- !app_assoc.
  rewrite rd_app. done.
Qed.

(** The loop over words computes the sum of 16-bit words of what it reads. *)
Lemma csum_words_spec n : forall pre bs rest csum,
  length bs = (4 * n)%nat -> bytes_ok bs -> 0 <= csum < 4294967296 ->
  exists c, csum_words n (pre ++ bs ++ rest) (zlen pre) csum = Ok c /\ 0 <= c < 4294967296 /\ sums_to c (csum + words bs).
Proof.
  induction n as [|n IH]; intros pre bs rest csum Hl Hb Hc.
  - apply nil_length_inv in Hl as ->. exists csum. split; [done|]. split; [done|]. simpl. split; [lia|]. split; [exists 0; lia|lia].
  - destruct bs as [|a [|b [|c [|d bs]]]]; try (simpl in Hl; lia). cbn [app csum_words]. rewrite rd32le_app. cbn [res_bind].
    repeat (apply Forall_cons in Hb as [? Hb]). set (w := a + 256 * b + 65536 * (c + 256 * d)).
    destruct (add_carry_spec csum w) as [Hr Hs]; [done|unfold w; lia|].
    destruct (IH (pre ++ [a; b; c; d]) bs rest (add_carry csum w)) as (r & E & Hr' & Hs'); [simpl in Hl; lia|done|done|].
    exists r. split; [|split; [done|]].
    + replace (zlen pre + 4) with (zlen (pre ++ [a; b; c; d])) by (rewrite zlen_app; done).
      rewrite <- E. f_equal. by rewrite <- app_assoc.
    + pose proof (words_bound bs Hb). simpl. destruct Hs as (? & (k & Ek) & ?), Hs' as (? & (k' & Ek') & ?).
      split; [lia|]. unfold w in *. split; [exists (k + k' - (c + 256 * d)); lia|lia].
Qed.

Lemma csum_fold_spec c : 0 <= c < 4294967296 -> csum_fold c = 65535 - fold16 c.
Proof.
  intros Hc. unfold csum_fold. rewrite Z.shiftl_mul_pow2, Z.shiftr_div_pow2 by lia. change (2 ^ 16) with 65536.
  set (q := c / 65536). set (r := c mod 65536). assert (c = q * 65536 + r /\ 0 <= q < 65536 /\ 0 <= r < 65536) as (Ec & Hq & Hr)
    by (unfold q, r; wrap_lia).
  assert (u32 (c + c * 65536) = if q + r <? 65536 then (q + r) * 65536 + r else (q + r) * 65536 + r - 4294967296) as ->.
  { destruct (Z.ltb_spec (q + r) 65536); unfold u32; symmetry;
      [apply Z.mod_unique_pos with (q := q)|apply Z.mod_unique_pos with (q := q + 1)]; lia. }
  unfold fold16. fold q r. destruct (Z.ltb_spec (q + r) 65536).
  - destruct (Z.ltb_spec ((q + r) * 65536 + r) c); [lia|].
    replace (((q + r) * 65536 + r) / 65536) with (q + r) by (apply Z.div_unique_pos with (r := r); lia).
    rewrite (Z.div_small (q + r)) by lia. rewrite !Z.add_0_r, u32_small, (Z.mod_small (q + r)) by lia. unfold Z.lnot, u16. wrap_lia.
  - destruct (Z.ltb_spec ((q + r) * 65536 + r - 4294967296) c); [|lia].
    replace (((q + r) * 65536 + r - 4294967296) / 65536) with (q + r - 65536) by (apply Z.div_unique_pos with (r := r); lia).
    replace ((q + r) / 65536) with 1 by (apply Z.div_unique_pos with (r := q + r - 65536); lia).
    rewrite u32_small by lia. replace ((q + r + 1) mod 65536) with (q + r - 65536 + 1) by (apply Z.mod_unique_pos with (q := 1); lia).
    unfold Z.lnot, u16. wrap_lia.
Qed.

Lemma fold16_sums x s : 0 <= x < 4294967296 -> 0 <= s < 4294967296 -> sums_to x s -> fold16 x = fold16 s.
Proof.
  intros Hx Hs (_ & (k & Ek) & Hz). destruct (decide (x = 0)) as [->|Hx0]; [by rewrite (proj1 Hz eq_refl)|].
  destruct (fold16_spec x ltac:(lia)) as (k1 & E1 & R1). destruct (fold16_spec s ltac:(lia)) as (k2 & E2 & R2). lia.
Qed.

Lemma ip_fast_csum_eq hdr rest ihl : bytes_ok hdr -> 5 <= ihl -> zlen hdr = 4 * ihl -> ihl < 16 ->
  ip_fast_csum (hdr ++ rest) ihl = Ok (internet_checksum hdr).
Proof.
  intros Hb Hi Hl Hi2. unfold ip_fast_csum.
  destruct hdr as [|a [|b [|c [|d hdr]]]]; try (unfold zlen in Hl; simpl in Hl; lia).
  change ((a :: b :: c :: d :: hdr) ++ rest) with ([] ++ a :: b :: c :: d :: hdr ++ rest). rewrite (rd32le_app []). cbn [res_bind].
  repeat (apply Forall_cons in Hb as [? Hb]). set (w := a + 256 * b + 65536 * (c + 256 * d)).
  assert (length hdr = 12 + 4 * Z.to_nat (ihl - 4))%nat as Hh by (unfold zlen in Hl; simpl in Hl; lia).
  pose proof (take_drop 12 hdr) as Htd. set (h1 := take 12 hdr) in *. set (h2 := drop 12 hdr) in *.
  assert (length h1 = 12 /\ length h2 = 4 * Z.to_nat (ihl - 4))%nat as [L1 L2] by (unfold h1, h2; rewrite length_take, length_drop; lia).
  rewrite <- Htd in Hb. apply Forall_app in Hb as [Hb1 Hb2].
  destruct (csum_words_spec 3 [a; b; c; d] h1 (h2 ++ rest) w) as (c1 & E1 & R1 & S1); [done|done|unfold w; lia|].
  replace ([] ++ a :: b :: c :: d :: hdr ++ rest) with ([a; b; c; d] ++ h1 ++ h2 ++ rest) by (rewrite <- Htd, <- app_assoc; done).
  change 4 with (zlen [a; b; c; d]) at 1. rewrite E1. cbn [res_bind]. destruct (Z.leb_spec ihl 4); [lia|].
  destruct (csum_words_spec (Z.to_nat (ihl - 4)) ([a; b; c; d] ++ h1) h2 rest c1) as (c2 & E2 & R2 & S2); [done|done|done|].
  replace 16 with (zlen ([a; b; c; d] ++ h1)) by (unfold zlen; rewrite length_app, L1; done).
  rewrite <- app_assoc in E2. rewrite E2. cbn [res_bind]. f_equal. rewrite csum_fold_spec by done. unfold internet_checksum. f_equal.
  pose proof (words_bound h1 Hb1). pose proof (words_bound h2 Hb2).
  assert (words (a :: b :: c :: d :: hdr) = a + 256 * b + (c + 256 * d + (words h1 + words h2))) as Ew.
  { simpl. rewrite <- Htd, words_app; [lia|]. exists 6. unfold zlen. lia. }
  assert (zlen h1 = 12 /\ zlen h2 = 4 * (ihl - 4)) as [Z1 Z2] by (unfold zlen; lia).
  apply fold16_sums; [done|lia|]. rewrite Ew. unfold w in *.
  destruct S1 as (? & (k1 & K1) & ?), S2 as (? & (k2 & K2) & ?). split; [lia|]. split; [exists (k1 + k2 - (c + 256 * d)); lia|lia].
Qed.

(** C29: The optimised header checksum is the Internet checksum: for every
    header of [ihl] words, at least five, whatever follows it in memory,
    [ip_fast_csum] returns the complement of the folded sum of its 16-bit
    words. *)
Theorem ip_csum_reference hdr rest ihl :
  bytes_ok hdr -> 5 <= ihl < 16 -> zlen hdr = 4 * ihl -> ip_fast_csum (hdr ++ rest) ihl = Ok (internet_checksum hdr).
Proof. intros Hb Hi Hl. apply ip_fast_csum_eq; done || lia. Qed.

Definition sample_header : list Z := [69; 0; 0; 60; 28; 70; 64; 0; 64; 6; 177; 230; 172; 16; 10; 99; 172; 16; 10; 12].

Lemma ip_csum_reference_witness : ip_fast_csum (sample_header ++ [1; 2; 3]) 5 = Ok (internet_checksum sample_header).
Proof. apply (ip_csum_reference sample_header [1; 2; 3] 5); [by repeat constructor|lia|reflexivity]. Defined.

(** ** Writing and reading a header *)

Lemma le_bytes_4 x : le_bytes 4 x = [x mod 256; x / 256 mod 256; x / 65536 mod 256; x / 16777216 mod 256].
Proof. unfold le_bytes. simpl. by rewrite Z.div_1_r. Qed.

Lemma ip_fields_eq n id proto sa da check : ip_fields n id proto sa da check =
  [69; 0; u16 (IP_HEADER_LEN + n) / 256 mod 256; u16 (IP_HEADER_LEN + n) mod 256; id / 256 mod 256; id mod 256; 64; 0; 64; proto;
   check mod 256; check / 256 mod 256;
   sa mod 256; sa / 256 mod 256; sa / 65536 mod 256; sa / 16777216 mod 256;
   da mod 256; da / 256 mod 256; da / 65536 mod 256; da / 16777216 mod 256].
Proof. unfold ip_fields. by rewrite !le_bytes_4. Qed.

(** The bytes of an address make it up again. *)
Lemma le_word x : 0 <= x < 4294967296 ->
  x mod 256 + 256 * (x / 256 mod 256) + 65536 * (x / 65536 mod 256 + 256 * (x / 16777216 mod 256)) = x.
Proof. intros. wrap_lia. Qed.

Lemma be_half x : 0 <= x < 65536 -> 256 * (x / 256 mod 256) + x mod 256 = x.
Proof. intros. wrap_lia. Qed.

Lemma ip_fields_ok n id proto sa da check : 0 <= proto < 256 -> bytes_ok (ip_fields n id proto sa da check).
Proof. intros ?. rewrite ip_fields_eq. repeat constructor; try lia; apply Z.mod_pos_bound; lia. Qed.

Lemma ip_fields_words n id proto sa da check : 0 <= check < 65536 ->
  words (ip_fields n id proto sa da check) = words (ip_fields n id proto sa da 0) + check.
Proof.
  intros ?. rewrite !ip_fields_eq. cbn [words].
  assert (check mod 256 + 256 * (check / 256 mod 256) = check) by wrap_lia. change (0 mod 256) with 0. change (0 / 256 mod 256) with 0. lia.
Qed.

Lemma ip_header_verifies `{Env} n id proto sa da hdr rest : 0 <= proto < 256 ->
  ip_header n id proto sa da = Ok hdr -> exists check, hdr = ip_fields n id proto sa da check /\
    (hw_checksum = true \/ ip_fast_csum (hdr ++ rest) 5 = Ok 0).
Proof.
  intros Hp Hh. unfold ip_header in Hh. destruct hw_checksum; [injection Hh as <-; eauto|].
  assert (forall c, zlen (ip_fields n id proto sa da c) = 4 * 5) as Hl by (intros c; by rewrite ip_fields_eq).
  pose proof (ip_fast_csum_eq (ip_fields n id proto sa da 0) [] 5 ltac:(by apply ip_fields_ok) ltac:(lia) (Hl 0) ltac:(lia)) as Hc.
  rewrite app_nil_r in Hc. rewrite Hc in Hh. injection Hh as <-. eexists. split; [done|]. right.
  set (T := words (ip_fields n id proto sa da 0)). pose proof (words_bound _ (ip_fields_ok n id proto sa da 0 Hp)) as Hw. rewrite Hl in Hw. fold T in Hw.
  assert (0 < T) as HT.
  { unfold T. rewrite ip_fields_eq. simpl words. Z.to_euclidean_division_equations. lia. }
  destruct (fold16_spec T ltac:(lia)) as (_ & _ & Hr).
  rewrite ip_fast_csum_eq; [|by apply ip_fields_ok|lia|apply Hl|lia]. unfold internet_checksum. fold T.
  rewrite ip_fields_words by lia. fold T. by rewrite fold16_complement by lia.
Qed.

(** C30: An IP header written for sending is accepted at the other end. Whatever
    the identification, the addresses and the payload of a segment, the bytes
    the receiver gets pass its checks of length, checksum and version, and
    [ProcessTCPPacket] is called with exactly the addresses, the length and
    the payload that were sent. *)
Theorem ip_header_roundtrip `{Env} hi n id sa da hdr payload ts ifidx m :
  ip_header n id IPPROTO_TCP sa da = Ok hdr -> zlen payload = n -> n < 65516 ->
  0 <= sa < 4294967296 -> 0 <= da < 4294967296 ->
  ProcessIPv4Packet hi ts ifidx (hdr ++ payload) m = ProcessTCPPacket ts (mkIph sa da 5) (20 + n) payload m.
Proof.
  intros Hh Hn Hmax Hsa Hda. pose proof (zlen_nonneg payload).
  destruct (ip_header_verifies n id IPPROTO_TCP sa da hdr payload ltac:(done) Hh) as (check & -> & Hv).
  unfold ProcessIPv4Packet. rewrite ip_fields_eq in *. set (iph := _ ++ payload) in *.
  assert (rd16be iph 2 = Ok (20 + n)) as E1.
  { assert (u16 (IP_HEADER_LEN + n) = 20 + n) as Eu by (apply Z.mod_small; change IP_HEADER_LEN with 20; lia).
    etrans; [|apply (f_equal Ok), (be_half (20 + n)); lia]. rewrite <- Eu. reflexivity. }
  assert (rd iph 0 = Ok 69) as E2 by done.
  assert (rd iph 9 = Ok IPPROTO_TCP) as E3 by done.
  assert (rd32le iph 12 = Ok sa) as E4 by (etrans; [|exact (f_equal Ok (le_word sa Hsa))]; reflexivity).
  assert (rd32le iph 16 = Ok da) as E5 by (etrans; [|exact (f_equal Ok (le_word da Hda))]; reflexivity).
  assert (drop (Z.to_nat (5 * 4)) iph = payload) as E6 by done.
  rewrite (bind_lift _ _ _ _ E1). destruct (Z.ltb_spec (20 + n) IP_HEADER_LEN); [change IP_HEADER_LEN with 20 in *; lia|].
  rewrite (bind_lift _ _ _ _ E2). cbv zeta. change (69 mod 16) with 5.
  rewrite (bind_ok _ _ m false m); [|destruct hw_checksum; [done|]; destruct Hv as [|Hv]; [done|]; by rewrite (bind_lift _ _ _ _ Hv)].
  change (negb (69 / 16 =? 4)) with false. cbv iota.
  rewrite (bind_lift _ _ _ _ E4), (bind_lift _ _ _ _ E5), (bind_lift _ _ _ _ E3). cbv zeta. rewrite E6.
  change (IPPROTO_TCP =? IPPROTO_TCP) with true. cbv iota. reflexivity.
Qed.

Import Demo.

Definition sample_packet : list Z := match ip_header 20 7 IPPROTO_TCP ip_peer ip_me with Ok h => h | Fault _ => [] end.

Lemma ip_header_roundtrip_witness :
  ProcessIPv4Packet 0 5 0 (sample_packet ++ replicate 20 0) m_boot = ProcessTCPPacket 5 (mkIph ip_peer ip_me 5) 40 (replicate 20 0) m_boot.
Proof. apply (ip_header_roundtrip 0 20 7 ip_peer ip_me sample_packet (replicate 20 0) 5 0 m_boot); done || lia. Defined.
