(* ===== verification/Icmp.v ===== *)
(** * Echo requests and replies: [icmp.c]

    A well-formed echo request is answered with the same identifier, sequence
    number and data under a correct checksum. A request shorter than its
    header makes the length of the data wrap around. *)

From S2P Require Import Prelude SeqNum SpscQueue MemPool RingBuffer SendBuffer Rss AddrPool Checksum.
From S2P Require Import Machine Wp Lists TcpOptions FlowTable Network StreamOps Boot TcpOut Timer TcpIn IpIn IpChecksum.

(** On an even number of bytes [ICMPChecksum] is the Internet checksum. *)
Lemma ICMPChecksum_even hi bs rest n : bytes_ok bs -> zlen bs = n -> Z.even n = true -> n < 65536 ->
  ICMPChecksum hi (bs ++ rest) n = Ok (internet_checksum bs).
Proof.
  intros Hb Hn He Hlt. pose proof (zlen_nonneg bs). unfold ICMPChecksum. destruct (Z.ltb_spec n 0); [lia|].
  rewrite mem_read_eq by (rewrite ?zlen_app; pose proof (zlen_nonneg rest); lia). rewrite drop_0, take_app_le, take_ge by (unfold zlen in Hn; lia).
  cbn [from_option_res res_bind]. rewrite <- Z.negb_even, He. cbn [negb]. pose proof (words_bound bs Hb).
  rewrite sum_words_eq by (done || lia). set (s := words bs) in *.
  rewrite Z.land_ones with (n := 16) by lia. rewrite !Z.shiftr_div_pow2 by lia. change (2 ^ 16) with 65536. f_equal.
  unfold internet_checksum, fold16. fold s. rewrite Z.add_0_l.
  set (t := s / 65536 + s mod 65536). assert (0 <= t < 131072) by (unfold t; wrap_lia). rewrite (u32_small t) by lia.
  rewrite u32_small by wrap_lia. unfold Z.lnot, u16. wrap_lia.
Qed.

Lemma le16_ok x : bytes_ok (le16 x).
Proof. repeat constructor; apply Z.mod_pos_bound; lia. Qed.

(** The message built verifies. *)
Lemma icmp_message_verifies hi ty code id sq d : 0 <= ty < 256 -> 0 <= code < 256 -> bytes_ok d ->
  Z.even (zlen d) = true -> zlen d < 65528 ->
  exists c, icmp_message hi ty code id sq d = Ok ([ty; code] ++ le16 c ++ le16 (htons id) ++ le16 (htons sq) ++ d) /\
    ICMPChecksum hi ([ty; code] ++ le16 c ++ le16 (htons id) ++ le16 (htons sq) ++ d) (8 + zlen d) = Ok 0.
Proof.
  intros Hty Hco Hd He Hl. pose proof (zlen_nonneg d). unfold icmp_message. set (back := le16 (htons id) ++ _) in *.
  assert (bytes_ok back) as Hback by (apply Forall_app; split; [apply le16_ok|]; apply Forall_app; split; [apply le16_ok|done]).
  assert (forall a b, 0 <= a < 256 -> 0 <= b < 256 -> bytes_ok ([ty; code] ++ [a; b] ++ back)) as Hok
    by (intros; repeat (constructor; [done|]); done).
  assert (forall a b, zlen ([ty; code] ++ [a; b] ++ back) = 8 + zlen d) as Hz
    by (intros; unfold back; rewrite !zlen_app; unfold zlen; simpl; lia).
  assert (Z.even (8 + zlen d) = true) as Hev by (rewrite Z.even_add, He; done).
  pose proof (fun a b Ha Hb => ICMPChecksum_even hi _ [] _ (Hok a b Ha Hb) (Hz a b) Hev ltac:(lia)) as Hck. setoid_rewrite app_nil_r in Hck.
  change sizeof_icmphdr with 8. rewrite (Hck 0 0) by lia. cbn [res_bind]. eexists. split; [done|].
  unfold le16 at 1. set (T := words ([ty; code] ++ [0; 0] ++ back)). pose proof (words_bound back Hback) as Hwb.
  assert (zlen back = 4 + zlen d) as Hzb by (unfold back; rewrite !zlen_app; unfold zlen; simpl; lia).
  assert (T = ty + 256 * code + words back) as HT by (unfold T; cbn [words app]; lia).
  set (c := internet_checksum _). assert (c = 65535 - fold16 T) as Hc by done. clearbody T c.
  assert (0 <= fold16 T <= 65535 /\ fold16 (T + (65535 - fold16 T)) = 65535) as [Hr Hf].
  { destruct (decide (T = 0)) as [->|]; [done|]. split; [|apply fold16_complement; lia].
    destruct (fold16_spec T ltac:(lia)) as (_ & _ & ?). lia. }
  rewrite Hck by (apply Z.mod_pos_bound; lia). unfold internet_checksum.
  assert (words ([ty; code] ++ [c mod 256; c / 256 mod 256] ++ back) = T + (65535 - fold16 T)) as ->.
  { assert (c mod 256 + 256 * (c / 256 mod 256) = c) by wrap_lia. cbn [words app]. lia. }
  by rewrite Hf.
Qed.

Lemma bytes_split4 (l : list Z) : 8 <= zlen l -> exists a b c d e f g h d', l = a :: b :: c :: d :: e :: f :: g :: h :: d'.
Proof.
  intros Hl. do 8 (destruct l as [|? l]; [unfold zlen in Hl; simpl in Hl; lia|]). by eexists _, _, _, _, _, _, _, _, _.
Qed.

Lemma le16_ntohs a b : 0 <= a < 256 -> 0 <= b < 256 -> le16 (htons (ntohs (a + 256 * b))) = [a; b].
Proof.
  intros Ha Hb. unfold htons, ntohs, le16, bswap16. assert ((a + 256 * b) mod 256 = a /\ (a + 256 * b) / 256 mod 256 = b) as [-> ->] by wrap_lia.
  assert ((a * 256 + b) mod 256 = b /\ (a * 256 + b) / 256 mod 256 = a) as [-> ->] by wrap_lia. f_equal; [wrap_lia|f_equal; wrap_lia].
Qed.

Section echo.
Context `{Env} (hi : Z).

(** An echo request of even length with a correct checksum is answered: when
    the sender's hardware address and a transmit buffer are available, exactly
    one frame goes out, to the sender, of type echo reply, carrying the
    identifier, the sequence number and the data of the request unchanged, and
    its checksum verifies. *)
Theorem icmp_echo_reply m m1 ih icmph rest n eidx haddr :
  bytes_ok icmph -> zlen icmph = n -> 8 <= n < 65536 -> Z.even n = true -> internet_checksum icmph = 0 ->
  IPOutputStandalone (ih_saddr ih) m = Ok (Some (eidx, haddr), m1) ->
  exists c, let msg := [ICMP_ECHOREPLY; 0] ++ le16 c ++ drop 4 icmph in
    ProcessICMPECHORequest hi ih (icmph ++ rest) (n + ih_ihl ih * 4) m =
      Ok (0, m1 <| tx := tx m1 ++ [IcmpFrame eidx haddr (ih_daddr ih) (ih_saddr ih) msg] |>) /\
    ICMPChecksum hi msg n = Ok 0.
Proof.
  intros Hb Hl Hn He Hc Hout.
  assert (ICMPChecksum hi (icmph ++ rest) n = Ok 0) as Hck by (rewrite <- Hc; apply ICMPChecksum_even; done || lia).
  destruct (bytes_split4 icmph ltac:(lia)) as (a & b & c0 & d0 & e & f & g & h & d & ->).
  rewrite !zlen_cons in Hl. pose proof (zlen_nonneg d).
  assert (n = 8 + zlen d) as -> by lia. assert (Z.even (zlen d) = true) as Hed by (rewrite Z.even_add in He; by destruct (Z.even (zlen d))).
  do 8 (apply Forall_cons in Hb as [? Hb]). cbn [drop].
  destruct (icmp_message_verifies hi ICMP_ECHOREPLY 0 (ntohs (e + 256 * f)) (ntohs (g + 256 * h)) d) as (c & Em & Ev); [done|done|done|done|lia|].
  rewrite !le16_ntohs in Em, Ev by done. exists c. split; [|exact Ev].
  unfold ProcessICMPECHORequest. replace (8 + zlen d + ih_ihl ih * 4 - ih_ihl ih * 4) with (8 + zlen d) by lia.
  rewrite (bind_lift _ _ _ _ Hck). change (negb (0 =? 0)) with false. cbv iota.
  rewrite (bind_lift _ _ _ (e + 256 * f)) by done. rewrite (bind_lift _ _ _ (g + 256 * h)) by done.
  rewrite (bind_ok _ _ m 0 (m1 <| tx := tx m1 ++ [IcmpFrame eidx haddr (ih_daddr ih) (ih_saddr ih) ([ICMP_ECHOREPLY; 0] ++ le16 c ++ e :: f :: g :: h :: d)] |>)); [done|].
  unfold ICMPOutput. rewrite (bind_ok _ _ _ _ _ Hout).
  assert (u16 (8 + zlen d - sizeof_icmphdr) = zlen d) as -> by (change sizeof_icmphdr with 8; unfold u16; rewrite Z.mod_small; lia).
  rewrite (bind_ok _ _ m1 d m1).
  - rewrite (bind_lift _ _ _ _ Em). done.
  - destruct (Z.ltb_spec 0 (zlen d)) as [|Hz].
    + cbn [app drop]. rewrite drop_0. unfold lift. rewrite mem_read_eq by (rewrite ?zlen_app; pose proof (zlen_nonneg rest); lia).
      rewrite drop_0, take_app_le, take_ge by (unfold zlen; lia). done.
    + destruct d; [done|]. rewrite zlen_cons in Hz. pose proof (zlen_nonneg d). lia.
Qed.

(** A request shorter than the eight bytes of its header, with a checksum
    that verifies, is not rejected: the length of its data wraps around to
    more than 65000 bytes, and when the reply can be sent at all the copy runs
    past the end of the received frame. *)
Theorem icmp_short_request m m1 ih icmph n eidx haddr :
  bytes_ok icmph -> zlen icmph < 65000 -> 0 <= n < 8 -> 8 <= zlen icmph -> ICMPChecksum hi icmph n = Ok 0 ->
  IPOutputStandalone (ih_saddr ih) m = Ok (Some (eidx, haddr), m1) ->
  ProcessICMPECHORequest hi ih icmph (n + ih_ihl ih * 4) m = Fault OutOfBounds.
Proof.
  intros Hb Hl Hn Hlo Hck Hout. destruct (bytes_split4 icmph Hlo) as (a & b & c0 & d0 & e & f & g & h & d & ->).
  unfold ProcessICMPECHORequest. replace (n + ih_ihl ih * 4 - ih_ihl ih * 4) with n by lia.
  rewrite (bind_lift _ _ _ _ Hck). change (negb (0 =? 0)) with false. cbv iota.
  rewrite (bind_lift _ _ _ (e + 256 * f)) by done. rewrite (bind_lift _ _ _ (g + 256 * h)) by done.
  rewrite (bind_fault _ _ m OutOfBounds); [done|]. unfold ICMPOutput. rewrite (bind_ok _ _ _ _ _ Hout).
  assert (u16 (n - sizeof_icmphdr) = n - 8 + 65536) as -> by (change sizeof_icmphdr with 8; unfold u16; symmetry; apply Z.mod_unique_pos with (q := -1); lia).
  rewrite (proj2 (Z.ltb_lt 0 (n - 8 + 65536))) by lia. apply bind_fault. unfold lift, mem_read.
  cbn [drop]. rewrite !zlen_cons in Hl. rewrite drop_0, (proj2 (Z.leb_gt (0 + (n - 8 + 65536)) (zlen d))), andb_false_r by lia. done.
Qed.
End echo.

Import Demo.

Definition ping : list Z := [8; 0; 191; 239; 18; 52; 0; 1; 1; 2; 36; 217].
Definition ping_reply_state : mtcp_manager :=
  ltac:(let x := eval vm_compute in (IPOutputStandalone ip_peer m0) in match x with Ok (_, ?m) => exact m end).

Lemma ping_out : IPOutputStandalone ip_peer m0 = Ok (Some (0, [2; 0; 0; 0; 0; 2]), ping_reply_state).
Proof. vm_compute. reflexivity. Qed.

Lemma icmp_echo_reply_witness : exists c, let msg := [ICMP_ECHOREPLY; 0] ++ le16 c ++ drop 4 ping in
  ProcessICMPECHORequest 0 (mkIph ip_peer ip_me 5) (ping ++ [0; 0]) (12 + 5 * 4) m0 =
    Ok (0, ping_reply_state <| tx := tx ping_reply_state ++ [IcmpFrame 0 [2; 0; 0; 0; 0; 2] ip_me ip_peer msg] |>) /\
  ICMPChecksum 0 msg 12 = Ok 0.
Proof.
  apply (icmp_echo_reply 0 m0 ping_reply_state (mkIph ip_peer ip_me 5) ping [0; 0] 12 0 [2; 0; 0; 0; 0; 2]);
    [by repeat constructor|done|done|done|vm_compute; reflexivity|exact ping_out].
Defined.

Lemma icmp_short_request_witness :
  ProcessICMPECHORequest 0 (mkIph ip_peer ip_me 5) [8; 0; 247; 255; 0; 0; 0; 0; 0; 0] (4 + 5 * 4) m0 = Fault OutOfBounds.
Proof.
  apply (icmp_short_request 0 m0 ping_reply_state (mkIph ip_peer ip_me 5) [8; 0; 247; 255; 0; 0; 0; 0; 0; 0] 4 0 [2; 0; 0; 0; 0; 2]);
    [by repeat constructor|done|done|done|vm_compute; reflexivity|exact ping_out].
Defined.
