(* ===== verification/Core.v ===== *)
(** * The main loop: [core.c]

    [HandleApplicationCalls] serves the queues the application fills;
    [main_round] is one round of [RunMainLoop]. The frames received in the
    round are an argument; transmission and [select] of the interface do not
    change the state of the thread. *)

From S2P Require Import Prelude SeqNum SpscQueue MemPool RingBuffer SendBuffer AddrPool Rss.
From S2P Require Import Machine Lists FlowTable Network StreamOps TcpOut Timer TcpIn IpIn Boot Sockets.

(** ** The queues of the manager *)

Definition dequeue_connect : M (option ptr) :=
  let* q := gets connectq in
  let* (o, q) := lift (StreamDequeue q) in
  modify (fun m => m <| connectq := q |>) ;;; ret o.
Definition dequeue_send : M (option ptr) :=
  let* q := gets sendq in
  let* (o, q) := lift (StreamDequeue q) in
  modify (fun m => m <| sendq := q |>) ;;; ret o.
Definition dequeue_ack : M (option ptr) :=
  let* q := gets ackq in
  let* (o, q) := lift (StreamDequeue q) in
  modify (fun m => m <| ackq := q |>) ;;; ret o.
Definition dequeue_close : M (option ptr) :=
  let* q := gets closeq in
  let* (o, q) := lift (StreamDequeue q) in
  modify (fun m => m <| closeq := q |>) ;;; ret o.
Definition dequeue_reset : M (option ptr) :=
  let* q := gets resetq in
  let* (o, q) := lift (StreamDequeue q) in
  modify (fun m => m <| resetq := q |>) ;;; ret o.
Definition dequeue_destroy : M (option ptr) :=
  let* q := gets destroyq in
  let* (o, q) := lift (StreamDequeue q) in
  modify (fun m => m <| destroyq := q |>) ;;; ret o.
Definition dequeue_close_int : M (option ptr) :=
  let* q := gets closeq_int in
  let* (o, q) := lift (StreamInternalDequeue q) in
  modify (fun m => m <| closeq_int := q |>) ;;; ret o.
Definition dequeue_reset_int : M (option ptr) :=
  let* q := gets resetq_int in
  let* (o, q) := lift (StreamInternalDequeue q) in
  modify (fun m => m <| resetq_int := q |>) ;;; ret o.
Definition enqueue_close_int (p : ptr) : M unit :=
  let* q := gets closeq_int in
  let* (_, q) := lift (StreamInternalEnqueue q p) in
  modify (fun m => m <| closeq_int := q |>).
Definition enqueue_reset_int (p : ptr) : M unit :=
  let* q := gets resetq_int in
  let* (_, q) := lift (StreamInternalEnqueue q p) in
  modify (fun m => m <| resetq_int := q |>).

(** [while ((stream = deq())) body(stream);] A ring of [n] cells holds fewer
    than [n] streams, and the bodies do not put streams back. *)
Fixpoint drain (fuel : nat) (deq : M (option ptr)) (body : ptr -> M unit) : M unit :=
  match fuel with
  | O => throw OutOfFuel
  | S fuel =>
      let* o := deq in
      match o with None => ret tt | Some p => body p ;;; drain fuel deq body end
  end.

Definition drain_ring (get : mtcp_manager -> ring_queue ptr) (deq : M (option ptr)) (body : ptr -> M unit) : M unit :=
  let* q := gets get in drain (S (length (_q q))) deq body.

(** [while (cnt++ < max_cnt) body(deq());] *)
Fixpoint repeat_int (n : nat) (deq : M (option ptr)) (body : ptr -> M unit) : M unit :=
  match n with
  | O => ret tt
  | S n =>
      let* o := deq in
      match o with None => throw NullDeref | Some p => body p ;;; repeat_int n deq body end
  end.

Section core.
Context `{Env}.

(** ** Requests of the application *)

Definition app_connect (cur_ts : Z) (p : ptr) : M unit := AddtoControlList p cur_ts.

Definition app_send (p : ptr) : M unit :=
  upd_snd p (fun v => v <| on_sendq := false |>) ;;; AddtoSendList p.

Definition app_ack (cur_ts : Z) (p : ptr) : M unit :=
  upd_snd p (fun v => v <| on_ackq := false |>) ;;; EnqueueACK p cur_ts ACK_OPT_AGGREGATE.

(** The state after the application's close. *)
Definition closing_state (st : tcp_state) : tcp_state :=
  match st with
  | TCP_ST_ESTABLISHED => TCP_ST_FIN_WAIT_1
  | TCP_ST_CLOSE_WAIT => TCP_ST_LAST_ACK
  | st => st
  end.

(** The peer has reset the connection. *)
Definition close_after_reset (p : ptr) : M unit :=
  let* s := get_stream p in
  when (bool_decide (state s <> TCP_ST_CLOSED))
    (upd_stream p (fun s => s <| close_reason := TCP_RESET |> <| state := TCP_ST_CLOSED |>) ;;; DestroyTCPStream p).

Definition app_close (cur_ts : Z) (p : ptr) : M unit :=
  upd_snd p (fun v => v <| on_closeq := false |>) ;;;
  let* s := get_stream p in
  upd_snd p (fun v => v <| fss := match sndbuf v with
                                  | Some b => u32 (sb_head_seq b + sb_len b)
                                  | None => snd_nxt s
                                  end |>) ;;;
  when (0 <? tcp_timeout) (RemoveFromTimeoutList p) ;;;
  let* s := get_stream p in
  if have_reset s then close_after_reset p
  else if on_control_list (sndvar s) then
    upd_snd p (fun v => v <| on_closeq_int := true |>) ;;; enqueue_close_int p
  else if on_send_list (sndvar s) || on_ack_list (sndvar s) then
    upd_stream p (fun s => s <| state := closing_state (state s) |> <| control_list_waiting := true |>)
  else if bool_decide (state s <> TCP_ST_CLOSED) then
    upd_stream p (fun s => s <| state := closing_state (state s) |>) ;;; AddtoControlList p cur_ts
  else ret tt.

Definition app_close_int (cur_ts : Z) (p : ptr) : M unit :=
  let* s := get_stream p in
  if on_control_list (sndvar s) then enqueue_close_int p
  else if bool_decide (state s <> TCP_ST_CLOSED) then
    upd_stream p (fun s => s <| sndvar; on_closeq_int := false |> <| state := closing_state (state s) |>) ;;;
    AddtoControlList p cur_ts
  else upd_snd p (fun v => v <| on_closeq_int := false |>).

(** Send a reset. *)
Definition reset_stream (cur_ts : Z) (p : ptr) : M unit :=
  let* s := get_stream p in
  when (bool_decide (state s <> TCP_ST_CLOSED))
    (upd_stream p (fun s => s <| close_reason := TCP_ACTIVE_CLOSE |> <| state := TCP_ST_CLOSED |>) ;;;
     AddtoControlList p cur_ts).

Definition on_any_list (v : tcp_send_vars) : bool := on_control_list v || on_send_list v || on_ack_list v.

Definition app_reset (cur_ts : Z) (p : ptr) : M unit :=
  upd_snd p (fun v => v <| on_resetq := false |>) ;;;
  when (0 <? tcp_timeout) (RemoveFromTimeoutList p) ;;;
  let* s := get_stream p in
  if have_reset s then close_after_reset p
  else if on_any_list (sndvar s) then
    upd_snd p (fun v => v <| on_resetq_int := true |>) ;;; enqueue_reset_int p
  else reset_stream cur_ts p.

Definition app_reset_int (cur_ts : Z) (p : ptr) : M unit :=
  let* s := get_stream p in
  if on_any_list (sndvar s) then enqueue_reset_int p
  else upd_snd p (fun v => v <| on_resetq_int := false |>) ;;; reset_stream cur_ts p.

Definition HandleApplicationCalls (cur_ts : Z) : M unit :=
  drain_ring connectq dequeue_connect (app_connect cur_ts) ;;;
  drain_ring sendq dequeue_send app_send ;;;
  drain_ring ackq dequeue_ack (app_ack cur_ts) ;;;
  drain_ring closeq dequeue_close (app_close cur_ts) ;;;
  let* q := gets closeq_int in
  repeat_int (Z.to_nat (sq_count q)) dequeue_close_int (app_close_int cur_ts) ;;;
  drain_ring resetq dequeue_reset (app_reset cur_ts) ;;;
  let* q := gets resetq_int in
  repeat_int (Z.to_nat (sq_count q)) dequeue_reset_int (app_reset_int cur_ts) ;;;
  drain_ring destroyq dequeue_destroy DestroyTCPStream ;;;
  modify (fun m => m <| wakeup_flag := false |>).

(** ** Interrupting the application

    The ports whose listener has a blocking [accept] to wake up; the waiting
    [mtcp_epoll_wait] is the result's first component. *)
Fixpoint interrupt_accepts (n : nat) (port : Z) : M (list ptr) :=
  match n with
  | O => ret []
  | S n =>
      let* o := ListenerHTSearch port in
      let* l :=
        match o with
        | None => ret []
        | Some a =>
            let* x := get_listener a in
            let* sk := get_socket (l_socket x) in
            ret (if has (opts sk) MTCP_NONBLOCK then [] else [a])
        end in
      let* l' := interrupt_accepts n (port + 1) in
      ret (l ++ l')
  end.

Definition InterruptApplication : M (bool * list ptr) :=
  let* o := gets ep in
  let* w := match o with None => ret false | Some a => let* e := get_epoll a in ret (waiting e) end in
  let* l := interrupt_accepts (Z.to_nat MAX_PORT) 0 in
  ret (w, l).

(** ** One round of the main loop *)

Context (hi : Z) (eth_ifindex : Z -> Z) (master : bool).

(** The frames of one interface; [None] is a frame the interface refused. *)
Fixpoint receive_frames (ifidx ts : Z) (l : list (option (list Z))) : M unit :=
  match l with
  | [] => ret tt
  | o :: l =>
      match o with Some pkt => ProcessPacket hi eth_ifindex ifidx ts pkt ;;; ret tt | None => ret tt end ;;;
      receive_frames ifidx ts l
  end.

Fixpoint receive_all (ifidx ts : Z) (rx : list (list (option (list Z)))) : M unit :=
  match rx with
  | [] => ret tt
  | l :: rx => receive_frames ifidx ts l ;;; receive_all (ifidx + 1) ts rx
  end.

(** The timers, when there are streams. *)
Definition check_timers (ts ts_prev : Z) : M unit :=
  let* n := gets flow_cnt in
  when (0 <? n)
    (CheckRtmTimeout ts max_concurrency ;;;
     CheckTimewaitExpire ts max_concurrency ;;;
     when ((0 <? tcp_timeout) && negb (ts =? ts_prev)) (CheckConnectionTimeout ts max_concurrency)).

(** Input and timers; [rx]: the frames received, interface by interface, at time [ts]. *)
Definition input_phase (ts ts_prev : Z) (rx : list (list (option (list Z)))) : M unit :=
  modify (fun m => m <| m_cur_ts := ts |>) ;;;
  receive_all 0 ts rx ;;;
  check_timers ts ts_prev.

Definition main_round (ts ts_prev : Z) (rx : list (list (option (list Z)))) : M unit :=
  input_phase ts ts_prev rx ;;;
  let* o := gets ep in
  when (bool_decide (o <> None)) (FlushEpollEvents ts) ;;;
  let* n := gets flow_cnt in
  when (0 <? n) (HandleApplicationCalls ts) ;;;
  WritePacketsToChunks ts ;;;
  when (negb (ts =? ts_prev) && master) (ARPTimer ts) ;;;
  let* i := gets ctx_interrupt in
  if i then InterruptApplication ;;; ret tt else ret tt.

(** The condition of the loop. *)
Definition main_continues (m : mtcp_manager) : bool := (negb (ctx_done m) || (0 <? flow_cnt m)) && negb (ctx_exit m).

(** The rounds, each with its time and its frames, while the condition holds. *)
Fixpoint RunMainLoop (ts_prev : Z) (rounds : list (Z * list (list (option (list Z))))) : M unit :=
  match rounds with
  | [] => ret tt
  | (ts, rx) :: rounds =>
      let* c := gets main_continues in
      if c then main_round ts ts_prev rx ;;; RunMainLoop ts rounds
      else InterruptApplication ;;; ret tt
  end.
End core.
