(* ===== verification/QueueFrame.v ===== *)
(** * Who touches the queues of the application

    The eight queues between the application and the thread are written by
    the calls of [api.c] and by [HandleApplicationCalls] only: receiving, the
    timers and sending leave them alone. *)

From S2P Require Import Prelude SeqNum SpscQueue MemPool RingBuffer SendBuffer AddrPool Rss Checksum.
From S2P Require Import Machine Wp Lists TcpOptions FlowTable Network StreamOps TcpOut Timer TcpIn IpIn Sockets.

Definition queues (m : mtcp_manager) :=
  (connectq m, sendq m, ackq m, closeq m, closeq_int m, resetq m, resetq_int m, destroyq m).

(** A step that leaves the queues alone. *)
Class QueueFree {A} (c : M A) : Prop := queue_free : same queues c.

Ltac qframe := intros ?; repeat first [frame_step | apply queue_free].

Section frame.
Context `{Env}.

(** ** Accesses *)

#[export] Instance ret_qf {A} (a : A) : QueueFree (ret a).
Proof. qframe. Qed.
#[export] Instance when_qf b (c : M unit) : QueueFree c -> QueueFree (when b c).
Proof. intros Hc v. apply keeps_when, Hc. Qed.
#[export] Instance get_stream_qf p : QueueFree (get_stream p).
Proof. qframe. Qed.
#[export] Instance upd_stream_qf p f : QueueFree (upd_stream p f).
Proof. qframe. Qed.
#[export] Instance upd_snd_qf p f : QueueFree (upd_snd p f).
Proof. qframe. Qed.
#[export] Instance get_socket_qf k : QueueFree (get_socket k).
Proof. intros v m Hm. unfold wp, get_socket. by destruct (sockets m !! k). Qed.
#[export] Instance upd_socket_qf k f : QueueFree (upd_socket k f).
Proof. intros v m <-. unfold wp, upd_socket. by destruct (sockets m !! k). Qed.
#[export] Instance get_epoll_qf e : QueueFree (get_epoll e).
Proof. intros v m Hm. unfold wp, get_epoll. by destruct (epolls m !! e). Qed.
#[export] Instance get_listener_qf l : QueueFree (get_listener l).
Proof. intros v m Hm. unfold wp, get_listener. by destruct (listener_store m !! l). Qed.
#[export] Instance upd_listener_qf l f : QueueFree (upd_listener l f).
Proof. intros v m <-. unfold wp, upd_listener. by destruct (listener_store m !! l). Qed.
#[export] Instance the_sender_qf p : QueueFree (the_sender p).
Proof. unfold the_sender, GetSender. qframe. Qed.
#[export] Instance get_wptr_qf : QueueFree get_wptr.
Proof. intros v m <-. unfold wp, get_wptr. by destruct (wptrs m). Qed.
#[export] Instance next_malloc_qf : QueueFree next_malloc.
Proof. intros v m <-. unfold wp, next_malloc. by destruct (mallocs m). Qed.
#[export] Instance set_epoll_qf e x : QueueFree (set_epoll e x).
Proof. unfold set_epoll. qframe. Qed.
#[export] Instance upd_slot_qf i f : QueueFree (upd_slot i f).
Proof. unfold upd_slot. qframe. Qed.
#[export] Instance emit_qf f : QueueFree (emit f).
Proof. unfold emit. qframe. Qed.

(** ** Lists, events, tables *)

#[export] Instance AddtoControlList_qf p ts : QueueFree (AddtoControlList p ts).
Proof. unfold AddtoControlList. qframe. Qed.
#[export] Instance AddtoSendList_qf p : QueueFree (AddtoSendList p).
Proof. unfold AddtoSendList. qframe. Qed.
#[export] Instance AddtoACKList_qf p : QueueFree (AddtoACKList p).
Proof. unfold AddtoACKList. qframe. Qed.
#[export] Instance EnqueueACK_qf p ts o : QueueFree (EnqueueACK p ts o).
Proof. unfold EnqueueACK. qframe. Qed.
#[export] Instance RemoveFromControlList_qf p : QueueFree (RemoveFromControlList p).
Proof. unfold RemoveFromControlList. qframe. Qed.
#[export] Instance RemoveFromSendList_qf p : QueueFree (RemoveFromSendList p).
Proof. unfold RemoveFromSendList. qframe. Qed.
#[export] Instance RemoveFromACKList_qf p : QueueFree (RemoveFromACKList p).
Proof. unfold RemoveFromACKList. qframe. Qed.
#[export] Instance AddtoRTOList_qf p : QueueFree (AddtoRTOList p).
Proof. unfold AddtoRTOList. qframe. Qed.
#[export] Instance RemoveFromRTOList_qf p : QueueFree (RemoveFromRTOList p).
Proof. unfold RemoveFromRTOList. qframe. Qed.
#[export] Instance AddtoTimewaitList_qf p ts : QueueFree (AddtoTimewaitList p ts).
Proof. unfold AddtoTimewaitList. qframe. Qed.
#[export] Instance RemoveFromTimewaitList_qf p : QueueFree (RemoveFromTimewaitList p).
Proof. unfold RemoveFromTimewaitList. qframe. Qed.
#[export] Instance AddtoTimeoutList_qf p : QueueFree (AddtoTimeoutList p).
Proof. unfold AddtoTimeoutList. qframe. Qed.
#[export] Instance RemoveFromTimeoutList_qf p : QueueFree (RemoveFromTimeoutList p).
Proof. unfold RemoveFromTimeoutList. qframe. Qed.
#[export] Instance UpdateTimeoutList_qf p : QueueFree (UpdateTimeoutList p).
Proof. unfold UpdateTimeoutList. qframe. Qed.
#[export] Instance UpdateRetransmissionTimer_qf p ts : QueueFree (UpdateRetransmissionTimer p ts).
Proof. unfold UpdateRetransmissionTimer. qframe. Qed.

#[export] Instance raise_event_qf t k ev : QueueFree (raise_event t k ev).
Proof. unfold raise_event, AddEpollEvent. qframe. Qed.
#[export] Instance RaiseReadEvent_qf p : QueueFree (RaiseReadEvent p).
Proof. unfold RaiseReadEvent. qframe. Qed.
#[export] Instance RaiseWriteEvent_qf p : QueueFree (RaiseWriteEvent p).
Proof. unfold RaiseWriteEvent. qframe. Qed.
#[export] Instance RaiseCloseEvent_qf p : QueueFree (RaiseCloseEvent p).
Proof. unfold RaiseCloseEvent. qframe. Qed.
#[export] Instance RaiseErrorEvent_qf p : QueueFree (RaiseErrorEvent p).
Proof. unfold RaiseErrorEvent. qframe. Qed.

#[export] Instance ht_walk_qf f l : QueueFree (ht_walk f l).
Proof. induction l as [|p l IH]; cbn [ht_walk]; qframe. Qed.
#[export] Instance lt_walk_qf port l : QueueFree (lt_walk port l).
Proof. induction l as [|p l IH]; cbn [lt_walk]; unfold listener_port; qframe. Qed.
#[export] Instance StreamHTSearch_qf f : QueueFree (StreamHTSearch f).
Proof. unfold StreamHTSearch. qframe. Qed.
#[export] Instance ListenerHTSearch_qf port : QueueFree (ListenerHTSearch port).
Proof. unfold ListenerHTSearch. qframe. Qed.
#[export] Instance StreamHTInsert_qf p : QueueFree (StreamHTInsert p).
Proof. unfold StreamHTInsert. qframe. Qed.

(** ** Streams and output *)

#[export] Instance DestroyTCPStream_qf p : QueueFree (DestroyTCPStream p).
Proof.
  unfold DestroyTCPStream, leave_lists, free_sndbuf, free_rcvbuf, StreamHTRemove, free_rv, free_sv, free_flow, free_address. qframe.
Qed.
#[export] Instance CreateTCPStream_qf sock type sa sp da dp : QueueFree (CreateTCPStream sock type sa sp da dp).
Proof. unfold CreateTCPStream, alloc_flow, alloc_rv, alloc_sv, free_flow, free_rv. qframe. Qed.

#[export] Instance RequestARP_qf ip nif ts : QueueFree (RequestARP ip nif ts).
Proof. unfold RequestARP, ARPOutput, EthernetOutput. qframe. Qed.
#[export] Instance IPOutput_qf p : QueueFree (IPOutput p).
Proof. unfold IPOutput, ip_output_via, EthernetOutput, GetDestinationHWaddr. qframe. Qed.
#[export] Instance IPOutputStandalone_qf da : QueueFree (IPOutputStandalone da).
Proof. unfold IPOutputStandalone, EthernetOutput, GetDestinationHWaddr. qframe. Qed.
#[export] Instance SendTCPPacket_qf p ts fl payload : QueueFree (SendTCPPacket p ts fl payload).
Proof. unfold SendTCPPacket. qframe. Qed.
#[export] Instance SendTCPPacketStandalone_qf sa sp da dp sq ak win fl payload ts ets :
  QueueFree (SendTCPPacketStandalone sa sp da dp sq ak win fl payload ts ets).
Proof. unfold SendTCPPacketStandalone. qframe. Qed.

#[export] Instance flush_loop_qf fuel p ts n : QueueFree (flush_loop fuel p ts n).
Proof. revert n. induction fuel as [|fuel IH]; intros n; cbn [flush_loop]; qframe. Qed.
#[export] Instance FlushTCPSendingBuffer_qf p ts : QueueFree (FlushTCPSendingBuffer p ts).
Proof. unfold FlushTCPSendingBuffer. qframe. Qed.
#[export] Instance SendControlPacket_qf p ts : QueueFree (SendControlPacket p ts).
Proof. unfold SendControlPacket. qframe. Qed.
#[export] Instance control_loop_qf fuel i ts th cnt cur lst : QueueFree (control_loop fuel i ts th cnt cur lst).
Proof. revert cnt cur. induction fuel as [|fuel IH]; intros cnt cur; cbn [control_loop]; qframe. Qed.
#[export] Instance send_data_qf p ts : QueueFree (send_data p ts).
Proof. unfold send_data. qframe. Qed.
#[export] Instance data_sent_qf i p ts n : QueueFree (data_sent i p ts n).
Proof. unfold data_sent. qframe. Qed.
#[export] Instance data_loop_qf fuel i ts th cnt cur lst : QueueFree (data_loop fuel i ts th cnt cur lst).
Proof. revert cnt cur. induction fuel as [|fuel IH]; intros cnt cur; cbn [data_loop]; qframe. Qed.
#[export] Instance ack_burst_qf fuel p ts : QueueFree (ack_burst fuel p ts).
Proof. revert p. induction fuel as [|fuel IH]; intros p; cbn [ack_burst]; qframe. Qed.
#[export] Instance send_acks_qf i p ts : QueueFree (send_acks i p ts).
Proof. unfold send_acks, leave_ack_list. qframe. Qed.
#[export] Instance ack_loop_qf fuel i ts th cnt cur lst : QueueFree (ack_loop fuel i ts th cnt cur lst).
Proof. revert cnt cur. induction fuel as [|fuel IH]; intros cnt cur; cbn [ack_loop]; qframe. Qed.
#[export] Instance WriteTCPControlList_qf i ts th : QueueFree (WriteTCPControlList i ts th).
Proof. unfold WriteTCPControlList. qframe. Qed.
#[export] Instance WriteTCPDataList_qf i ts th : QueueFree (WriteTCPDataList i ts th).
Proof. unfold WriteTCPDataList. qframe. Qed.
#[export] Instance WriteTCPACKList_qf i ts th : QueueFree (WriteTCPACKList i ts th).
Proof. unfold WriteTCPACKList. qframe. Qed.
#[export] Instance write_sender_qf i ts : QueueFree (write_sender i ts).
Proof. unfold write_sender. qframe. Qed.
#[export] Instance write_senders_qf l ts : QueueFree (write_senders l ts).
Proof. induction l as [|i l IH]; cbn [write_senders]; qframe. Qed.
#[export] Instance WritePacketsToChunks_qf ts : QueueFree (WritePacketsToChunks ts).
Proof. unfold WritePacketsToChunks. qframe. Qed.

(** ** Timers *)

#[export] Instance fail_stream_qf p r : QueueFree (fail_stream p r).
Proof. unfold fail_stream. qframe. Qed.
#[export] Instance retransmit_qf p ts : QueueFree (retransmit p ts).
Proof. unfold retransmit. qframe. Qed.
#[export] Instance HandleRTO_qf p ts : QueueFree (HandleRTO p ts).
Proof. unfold HandleRTO. qframe. Qed.
#[export] Instance rearrange_walk_qf fuel walk : QueueFree (rearrange_walk fuel walk).
Proof. revert walk. induction fuel as [|fuel IH]; intros walk; cbn [rearrange_walk]; qframe. Qed.
#[export] Instance RearrangeRTOStore_qf  : QueueFree (RearrangeRTOStore ).
Proof. unfold RearrangeRTOStore. qframe. Qed.
#[export] Instance rto_slot_walk_qf fuel idx ts th cnt walk : QueueFree (rto_slot_walk fuel idx ts th cnt walk).
Proof. revert cnt walk. induction fuel as [|fuel IH]; intros cnt walk; cbn [rto_slot_walk]; qframe. Qed.
#[export] Instance rtm_loop_qf fuel ts th cnt : QueueFree (rtm_loop fuel ts th cnt).
Proof. revert cnt. induction fuel as [|fuel IH]; intros cnt; cbn [rtm_loop]; qframe. Qed.
#[export] Instance CheckRtmTimeout_qf ts th : QueueFree (CheckRtmTimeout ts th).
Proof. unfold CheckRtmTimeout. qframe. Qed.
#[export] Instance timewait_walk_qf fuel ts th cnt walk : QueueFree (timewait_walk fuel ts th cnt walk).
Proof. revert cnt walk. induction fuel as [|fuel IH]; intros cnt walk; cbn [timewait_walk]; qframe. Qed.
#[export] Instance CheckTimewaitExpire_qf ts th : QueueFree (CheckTimewaitExpire ts th).
Proof. unfold CheckTimewaitExpire. qframe. Qed.
#[export] Instance timeout_walk_qf fuel ts th cnt walk : QueueFree (timeout_walk fuel ts th cnt walk).
Proof. revert cnt walk. induction fuel as [|fuel IH]; intros cnt walk; cbn [timeout_walk]; qframe. Qed.
#[export] Instance CheckConnectionTimeout_qf ts th : QueueFree (CheckConnectionTimeout ts th).
Proof. unfold CheckConnectionTimeout. qframe. Qed.

(** ** Input *)

#[export] Instance parse_into_qf p ts t : QueueFree (parse_into p ts t).
Proof. unfold parse_into. qframe. Qed.
#[export] Instance FilterSYNPacket_qf ip port : QueueFree (FilterSYNPacket ip port).
Proof. unfold FilterSYNPacket. qframe. Qed.
#[export] Instance HandlePassiveOpen_qf ts ih t sq win : QueueFree (HandlePassiveOpen ts ih t sq win).
Proof. unfold HandlePassiveOpen. qframe. Qed.
#[export] Instance HandleActiveOpen_qf p ts t sq ak win : QueueFree (HandleActiveOpen p ts t sq ak win).
Proof. unfold HandleActiveOpen. qframe. Qed.
#[export] Instance ValidateSequence_qf p ts t sq ak n : QueueFree (ValidateSequence p ts t sq ak n).
Proof. unfold ValidateSequence, check_paws. qframe. Qed.
#[export] Instance ProcessRST_qf p ak : QueueFree (ProcessRST p ak).
Proof. unfold ProcessRST. qframe. Qed.
#[export] Instance ProcessACK_qf p ts t sq ak win n : QueueFree (ProcessACK p ts t sq ak win n).
Proof. unfold ProcessACK, ack_window, count_dup, fast_retransmit, recover_nxt, ack_estimate, ack_remove, send_buffer_of. qframe. Qed.
#[export] Instance ProcessTCPPayload_qf p ts payload sq : QueueFree (ProcessTCPPayload p ts payload sq).
Proof. unfold ProcessTCPPayload, ensure_rcvbuf, store_payload. qframe. Qed.
#[export] Instance payload_ack_qf p ts payload sq : QueueFree (payload_ack p ts payload sq).
Proof. unfold payload_ack. qframe. Qed.
#[export] Instance process_ack_qf p ts t sq ak win n : QueueFree (process_ack p ts t sq ak win n).
Proof. unfold process_ack. qframe. Qed.
#[export] Instance CreateNewFlowHTEntry_qf ts ih t sq ak n win : QueueFree (CreateNewFlowHTEntry ts ih t sq ak n win).
Proof. unfold CreateNewFlowHTEntry. qframe. Qed.
#[export] Instance accept_stream_qf p ts t : QueueFree (accept_stream p ts t).
Proof. unfold accept_stream. qframe. Qed.
#[export] Instance handle_segment_qf p ts ih t sq ak payload win : QueueFree (handle_segment p ts ih t sq ak payload win).
Proof. unfold handle_segment, Handle_TCP_ST_LISTEN, Handle_TCP_ST_SYN_SENT, Handle_TCP_ST_SYN_RCVD, Handle_TCP_ST_ESTABLISHED,
    Handle_TCP_ST_CLOSE_WAIT, Handle_TCP_ST_LAST_ACK, Handle_TCP_ST_FIN_WAIT_1, Handle_TCP_ST_FIN_WAIT_2, Handle_TCP_ST_CLOSING,
    Handle_TCP_ST_TIME_WAIT, active_open_done, syn_refused, fin_acked. qframe. Qed.
#[export] Instance process_stream_qf p ts ih t payload : QueueFree (process_stream p ts ih t payload).
Proof. unfold process_stream. qframe. Qed.
#[export] Instance ProcessTCPPacket_qf ts ih n seg : QueueFree (ProcessTCPPacket ts ih n seg).
Proof. unfold ProcessTCPPacket. qframe. Qed.
#[export] Instance ProcessARPPacket_qf nif_of ts ifidx a : QueueFree (ProcessARPPacket nif_of ts ifidx a).
Proof. unfold ProcessARPPacket, ProcessARPRequest, ProcessARPReply, learn_sender, RegisterARPEntry, ARPOutput, EthernetOutput, GetDestinationHWaddr. qframe. Qed.
#[export] Instance ARPTimer_qf ts : QueueFree (ARPTimer ts).
Proof. unfold ARPTimer. qframe. Qed.
#[export] Instance ICMPOutput_qf hi sa da ty code id sq d n : QueueFree (ICMPOutput hi sa da ty code id sq d n).
Proof. unfold ICMPOutput. qframe. Qed.
#[export] Instance ProcessICMPPacket_qf hi ih mem n : QueueFree (ProcessICMPPacket hi ih mem n).
Proof. unfold ProcessICMPPacket, ProcessICMPECHORequest. qframe. Qed.
#[export] Instance ProcessIPv4Packet_qf hi ts ifidx iph : QueueFree (ProcessIPv4Packet hi ts ifidx iph).
Proof. unfold ProcessIPv4Packet. qframe. Qed.
#[export] Instance ProcessPacket_qf hi nif_of ifidx ts pkt : QueueFree (ProcessPacket hi nif_of ifidx ts pkt).
Proof. unfold ProcessPacket. qframe. Qed.
End frame.
