(* ===== verification/SafeCalls.v ===== *)
(** * Serving the application keeps the invariant

    [HandleApplicationCalls] takes streams from eight queues. The lists of
    [contents] are what the queues hold; [calls_ok] says that every stream
    queued is live and that no stream is queued twice for its end. Then no
    stream is used after it was destroyed, and the same holds afterwards. *)

From S2P Require Import Prelude SeqNum SpscQueue MemPool RingBuffer SendBuffer AddrPool Rss Checksum.
From S2P Require Import Machine Wp Lists TcpOptions FlowTable Network Faults StreamOps Invariant Boot StreamInv Live.
From S2P Require Import TcpOut SafeOut SafeData Timer SafeTimer TcpIn SafeIn IpIn Sockets Core QueueFrame.

Record contents := mkContents {
  c_connect : list ptr; c_send : list ptr; c_ack : list ptr;
  c_close : list ptr; c_close_int : list ptr; c_reset : list ptr; c_reset_int : list ptr; c_destroy : list ptr
}.
#[export] Instance contents_rebuild : Rebuild contents := fun c =>
  mkContents (c_connect c) (c_send c) (c_ack c) (c_close c) (c_close_int c) (c_reset c) (c_reset_int c) (c_destroy c).

(** The streams queued for their end, and all streams queued. *)
Definition closing (c : contents) : list ptr := c_close c ++ c_close_int c ++ c_reset c ++ c_reset_int c ++ c_destroy c.
Definition queued (c : contents) : list ptr := c_connect c ++ c_send c ++ c_ack c ++ closing c.

Record holds (c : contents) (m : mtcp_manager) : Prop := {
  h_connect : ring_rep (connectq m) (c_connect c); h_send : ring_rep (sendq m) (c_send c);
  h_ack : ring_rep (ackq m) (c_ack c); h_close : ring_rep (closeq m) (c_close c);
  h_close_int : sqi_rep (closeq_int m) (c_close_int c); h_reset : ring_rep (resetq m) (c_reset c);
  h_reset_int : sqi_rep (resetq_int m) (c_reset_int c); h_destroy : ring_rep (destroyq m) (c_destroy c)
}.

Lemma NoDup_drop_mid {A} (l1 l2 : list A) x : NoDup (l1 ++ x :: l2) -> NoDup (l1 ++ l2) /\ x ∉ l1 ++ l2.
Proof. rewrite <- Permutation_middle, NoDup_cons. by intros []. Qed.

Section calls.
Context `{Env} (E : fault -> Prop) (HE : forall e, calm e -> E e).
Implicit Types (m : mtcp_manager) (p q : ptr) (c : contents) (l : list ptr).

Record calls_ok c m : Prop := {
  co_wf : wf m;
  co_holds : holds c m;
  co_live : forall p, p ∈ queued c -> is_Some (streams m !! p);
  co_once : NoDup (closing c)
}.

Lemma holds_same c m m' : queues m' = queues m -> holds c m -> holds c m'.
Proof using. unfold queues. intros [= E1 E2 E3 E4 E5 E6 E7 E8] []. split; congruence. Qed.

(** The state while stream [p] is served. *)
Definition serving c p m : Prop := calls_ok c m /\ is_Some (streams m !! p).

Lemma serving_live c p m : serving c p m -> live T p (delete p (streams m)) m.
Proof using. intros [[Hw _ _ _] [s Hs]]. split_and!; [done..|]. by exists s. Qed.

(** A step on the stream that leaves the queues alone. *)
Lemma keeps_serving {A} (b : M A) c p : QueueFree b -> (forall rest, keeps E (live T p rest) b) -> keeps E (serving c p) b.
Proof using.
  intros Hq Hk m Hs. eapply wp_mono; [eapply wp_conj; [apply Hk, (serving_live _ _ _ Hs)|by apply (Hq (queues m))]|].
  intros a m' [(Hw & Hr & s & Hp & _) Hqs]. cbv beta in Hqs. destruct Hs as [[_ Hh Hl Hn] _]. split; [|eauto].
  split; [done|by eapply holds_same| |done]. intros q Hin. destruct (decide (q = p)) as [->|Hne]; [eauto|].
  specialize (Hl q Hin). rewrite <- (lookup_delete_ne (streams m') p q), Hr, lookup_delete_ne by done. done.
Qed.

(** A step that may destroy the stream, which is queued no more. *)
Lemma leads_calls {A} (b : M A) c p : QueueFree b -> (forall rest, leads E (live T p rest) (over p rest) b) -> p ∉ queued c ->
  leads E (serving c p) (calls_ok c) b.
Proof using.
  intros Hq Hk Hno m Hs. eapply wp_mono; [eapply wp_conj; [apply Hk, (serving_live _ _ _ Hs)|by apply (Hq (queues m))]|].
  intros a m' [(Hw & Hr) Hqs]. cbv beta in Hqs. destruct Hs as [[_ Hh Hl Hn] _].
  split; [done|by eapply holds_same| |done]. intros q Hin. assert (q <> p) as Hne by congruence.
  specialize (Hl q Hin). rewrite <- (lookup_delete_ne (streams m') p q), Hr, lookup_delete_ne by done. done.
Qed.

(** ** Taking a stream from a queue *)

(** [deq] takes the first stream of the list [get c]. *)
Definition takes (get : contents -> list ptr) (set : list ptr -> contents -> contents) (deq : M (option ptr)) : Prop :=
  forall c m, calls_ok c m ->
  match get c with
  | [] => wp E deq (fun o m' => o = None /\ calls_ok c m') m
  | p :: l => wp E deq (fun o m' => o = Some p /\ serving (set l c) p m') m
  end.

Lemma calls_drop c c' m m' p : calls_ok c m -> holds c' m' -> core m' = core m -> p ∈ queued c ->
  (forall q, q ∈ queued c' -> q ∈ queued c) -> NoDup (closing c') -> serving c' p m'.
Proof using.
  intros [Hw Hh Hl Hn] Hh' Hc Hp Hin Hn'. assert (streams m' = streams m) as Hs by (unfold core in Hc; congruence).
  split; [|rewrite Hs; by apply Hl]. split; [by eapply wf_core|done| |done]. intros q Hq. rewrite Hs. by apply Hl, Hin.
Qed.

Lemma deq_run {Q} `{Fifo Q ptr} (get : mtcp_manager -> Q) (set : Q -> mtcp_manager -> mtcp_manager) (deq : Q -> res (option ptr * Q)) m l (R : option ptr -> mtcp_manager -> Prop) :
  deq = fifo_deq -> fifo_rep (get m) l ->
  match l with
  | [] => R None (set (get m) m)
  | p :: l => forall x : Q, fifo_rep x l -> R (Some p) (set x m)
  end ->
  wp E (let* x := gets get in let* (o, x) := lift (deq x) in modify (set x) ;;; ret o) R m.
Proof using.
  intros -> Hr Hk. apply wp_bind, wp_gets. apply wp_bind. destruct l as [|p l].
  - unfold wp, lift. rewrite fifo_deq_nil by done. done.
  - destruct (fifo_deq_cons _ _ _ Hr) as (q' & Hd & Hr' & _). unfold wp, lift. rewrite Hd. by apply Hk.
Qed.

Ltac taking get set :=
  clear HE; intros c m Hm; pose proof (co_holds _ _ Hm) as [];
  destruct (get c) as [|p l] eqn:El; (eapply (deq_run _ set); [reflexivity|cbn [fifo_rep ring_fifo sqi_fifo]; eassumption|]);
  [ split; [done|]; destruct Hm as [Hw Hh Hl Hn]; split;
    [apply (wf_core m); [reflexivity|exact Hw]|apply (holds_same c m); [reflexivity|exact Hh]|exact Hl|exact Hn]
  | intros q' Hq'; split; [done|]; eapply calls_drop; [exact Hm|split; cbn; assumption|reflexivity| | |];
    [ unfold queued, closing; rewrite El; set_solver
    | intros q; unfold queued, closing; cbn; rewrite El; set_solver
    | pose proof (co_once _ _ Hm) as Hn; unfold closing in *; cbn; try rewrite El in Hn; cbn in Hn ] ].

Lemma takes_connect : takes c_connect (fun l c => c <| c_connect := l |>) dequeue_connect.
Proof using. unfold dequeue_connect. taking c_connect (fun x m => m <| connectq := x |>). done. Qed.
Lemma takes_send : takes c_send (fun l c => c <| c_send := l |>) dequeue_send.
Proof using. unfold dequeue_send. taking c_send (fun x m => m <| sendq := x |>). done. Qed.
Lemma takes_ack : takes c_ack (fun l c => c <| c_ack := l |>) dequeue_ack.
Proof using. unfold dequeue_ack. taking c_ack (fun x m => m <| ackq := x |>). done. Qed.
Lemma takes_close : takes c_close (fun l c => c <| c_close := l |>) dequeue_close.
Proof using. unfold dequeue_close. taking c_close (fun x m => m <| closeq := x |>). by apply NoDup_cons in Hn as []. Qed.
Lemma takes_close_int : takes c_close_int (fun l c => c <| c_close_int := l |>) dequeue_close_int.
Proof using. unfold dequeue_close_int. taking c_close_int (fun x m => m <| closeq_int := x |>). by apply NoDup_drop_mid in Hn as []. Qed.
Lemma takes_reset : takes c_reset (fun l c => c <| c_reset := l |>) dequeue_reset.
Proof using. unfold dequeue_reset. taking c_reset (fun x m => m <| resetq := x |>). rewrite app_assoc in *. by apply NoDup_drop_mid in Hn as []. Qed.
Lemma takes_reset_int : takes c_reset_int (fun l c => c <| c_reset_int := l |>) dequeue_reset_int.
Proof using. unfold dequeue_reset_int. taking c_reset_int (fun x m => m <| resetq_int := x |>). rewrite 2!app_assoc in *. by apply NoDup_drop_mid in Hn as []. Qed.
Lemma takes_destroy : takes c_destroy (fun l c => c <| c_destroy := l |>) dequeue_destroy.
Proof using. unfold dequeue_destroy. taking c_destroy (fun x m => m <| destroyq := x |>). rewrite 3!app_assoc in *. by apply NoDup_drop_mid in Hn as []. Qed.

(** ** Putting a stream on a queue of the thread *)

Lemma calls_add c c' m m' p : serving c p m -> holds c' m' -> core m' = core m ->
  (forall q, q ∈ queued c' -> q = p \/ q ∈ queued c) -> NoDup (closing c') -> calls_ok c' m'.
Proof using.
  intros [[Hw Hh Hl Hn] Hp] Hh' Hc Hin Hn'. assert (streams m' = streams m) as Hs by (unfold core in Hc; congruence).
  split; [by eapply wf_core|done| |done]. intros q Hq. rewrite Hs. destruct (Hin q Hq) as [->|]; [done|by apply Hl].
Qed.

Lemma NoDup_add p c (l : list ptr) : p ∉ queued c -> NoDup (closing c) -> l ≡ₚ p :: closing c -> NoDup l.
Proof using. intros Hno Hn ->. apply NoDup_cons. split; [|done]. intros Hin. apply Hno. unfold queued. rewrite !elem_of_app. auto. Qed.

(** [c'] is [c], or has stream [p] on one more list. *)
Definition close_later p c c' : Prop := c' = c \/ c' = c <| c_close_int := c_close_int c ++ [p] |>.
Definition reset_later p c c' : Prop := c' = c \/ c' = c <| c_reset_int := c_reset_int c ++ [p] |>.

Lemma enqueue_close_int_ok c p m : p ∉ queued c -> serving c p m ->
  wp E (enqueue_close_int p) (fun _ m' => exists c', calls_ok c' m' /\ close_later p c c') m.
Proof using.
  clear HE. intros Hno Hs. pose proof Hs as [[Hw Hh Hl Hn] _]. pose proof Hh as []. apply wp_bind, wp_gets. apply wp_bind.
  destruct (decide (zlen (c_close_int c) < sq_size (closeq_int m))) as [Hlt|Hge].
  - destruct (sqi_enq_ok _ _ p h_close_int0 Hlt) as (q' & Eq & Hq' & _). unfold wp at 1, lift. rewrite Eq. apply wp_modify.
    exists (c <| c_close_int := c_close_int c ++ [p] |>). split; [|by right]. eapply calls_add; [exact Hs|split; cbn; assumption|done| |].
    + intros q. unfold queued, closing. cbn. set_solver.
    + apply (NoDup_add p c); [done..|]. unfold closing. cbn. solve_Permutation.
  - pose proof (fifo_len_cap _ _ h_close_int0) as Hcap. cbn in Hcap. unfold wp at 1, lift. rewrite sqi_enq_full with (l := c_close_int c) by (done || lia). apply wp_modify.
    exists c. split; [|by left]. destruct Hs as [Hs _]. split; [apply (wf_core m); [reflexivity|exact Hw]|apply (holds_same c m); [reflexivity|exact Hh]|exact Hl|exact Hn].
Qed.

Lemma enqueue_reset_int_ok c p m : p ∉ queued c -> serving c p m ->
  wp E (enqueue_reset_int p) (fun _ m' => exists c', calls_ok c' m' /\ reset_later p c c') m.
Proof using.
  clear HE. intros Hno Hs. pose proof Hs as [[Hw Hh Hl Hn] _]. pose proof Hh as []. apply wp_bind, wp_gets. apply wp_bind.
  destruct (decide (zlen (c_reset_int c) < sq_size (resetq_int m))) as [Hlt|Hge].
  - destruct (sqi_enq_ok _ _ p h_reset_int0 Hlt) as (q' & Eq & Hq' & _). unfold wp at 1, lift. rewrite Eq. apply wp_modify.
    exists (c <| c_reset_int := c_reset_int c ++ [p] |>). split; [|by right]. eapply calls_add; [exact Hs|split; cbn; assumption|done| |].
    + intros q. unfold queued, closing. cbn. set_solver.
    + apply (NoDup_add p c); [done..|]. unfold closing. cbn. solve_Permutation.
  - pose proof (fifo_len_cap _ _ h_reset_int0) as Hcap. cbn in Hcap. unfold wp at 1, lift. rewrite sqi_enq_full with (l := c_reset_int c) by (done || lia). apply wp_modify.
    exists c. split; [|by left]. destruct Hs as [Hs _]. split; [apply (wf_core m); [reflexivity|exact Hw]|apply (holds_same c m); [reflexivity|exact Hh]|exact Hl|exact Hn].
Qed.

(** ** Loops *)

Lemma drain_calls get set deq body (side : contents -> Prop) :
  takes get set deq -> (forall l c, get (set l c) = l) ->
  (forall c p l m, get c = p :: l -> side c -> NoDup (closing c) -> serving (set l c) p m ->
     wp E (body p) (fun _ m' => exists c', calls_ok c' m' /\ get c' = l /\ side c') m) ->
  forall fuel c m, (length (get c) < fuel)%nat -> side c -> calls_ok c m ->
    wp E (drain fuel deq body) (fun _ m' => exists c', calls_ok c' m' /\ get c' = [] /\ side c') m.
Proof using.
  clear HE. intros Ht Hgs Hb. induction fuel as [|fuel IH]; intros c m Hf Hc Hm; [lia|]. cbn [drain]. apply wp_bind.
  pose proof (Ht c m Hm) as Hd. destruct (get c) as [|p l] eqn:El.
  - eapply wp_mono; [exact Hd|]. intros o m' [-> Hm']. apply wp_ret. eauto.
  - eapply wp_mono; [exact Hd|]. intros o m' [-> Hm']. apply wp_bind.
    eapply wp_mono; [apply (Hb c p l m' El Hc (co_once _ _ Hm) Hm')|]. intros _ m'' (c' & Hm'' & Hl & Hc').
    apply (IH c'); [rewrite Hl; simpl in Hf; lia|done..].
Qed.

Lemma repeat_calls get set deq body (side : contents -> Prop) :
  takes get set deq -> (forall l c, get (set l c) = l) ->
  (forall c p l m, get c = p :: l -> side c -> NoDup (closing c) -> serving (set l c) p m ->
     wp E (body p) (fun _ m' => exists c', calls_ok c' m' /\ (length l <= length (get c'))%nat /\ side c') m) ->
  forall n c m, (n <= length (get c))%nat -> side c -> calls_ok c m ->
    wp E (repeat_int n deq body) (fun _ m' => exists c', calls_ok c' m' /\ side c') m.
Proof using.
  clear HE. intros Ht Hgs Hb. induction n as [|n IH]; intros c m Hf Hc Hm; cbn [repeat_int]; [apply wp_ret; eauto|]. apply wp_bind.
  pose proof (Ht c m Hm) as Hd. destruct (get c) as [|p l] eqn:El; [simpl in Hf; lia|].
  eapply wp_mono; [exact Hd|]. intros o m' [-> Hm']. apply wp_bind.
  eapply wp_mono; [apply (Hb c p l m' El Hc (co_once _ _ Hm) Hm')|]. intros _ m'' (c' & Hm'' & Hl & Hc').
  apply (IH c'); [simpl in Hf; lia|done..].
Qed.

(** ** What is done for a stream *)

Lemma RemoveFromTimeoutList_keeps p rest : keeps E (live T p rest) (RemoveFromTimeoutList p).
Proof using HE. apply keeps_runs; [done|]. intros m s Hw Hp _. eexists. split; [done|]. by apply RemoveFromTimeoutList_ok. Qed.

Lemma stop_timeout_keeps p rest : keeps E (live T p rest) (when (0 <? tcp_timeout) (RemoveFromTimeoutList p)).
Proof using HE. apply keeps_when, RemoveFromTimeoutList_keeps. Qed.
Hint Resolve stop_timeout_keeps : live.

Lemma serving_at c p m : serving c p m -> exists s, streams m !! p = Some s.
Proof using. intros [_ [s Hs]]. eauto. Qed.

Lemma wp_serving {A B} (b : M A) (k : A -> M B) c p (R : B -> mtcp_manager -> Prop) m :
  QueueFree b -> (forall rest, keeps E (live T p rest) b) -> (forall a m', serving c p m' -> wp E (k a) R m') ->
  serving c p m -> wp E (bind b k) R m.
Proof using. intros Hq Hb Hk Hm. apply wp_bind. eapply wp_mono; [by eapply keeps_serving|]. intros a m' Hm'. by apply Hk. Qed.

Lemma wp_serving_get {B} (k : tcp_stream -> M B) c p (R : B -> mtcp_manager -> Prop) m :
  (forall s, serving c p m -> wp E (k s) R m) -> serving c p m -> wp E (bind (get_stream p) k) R m.
Proof using. intros Hk Hm. destruct (serving_at _ _ _ Hm) as [s Hs]. apply wp_bind. eapply wp_get_stream; [exact Hs|]. by apply Hk. Qed.

Ltac serve :=
  first [ eapply wp_serving_get; [|eassumption]; intros ? _
        | eapply wp_serving; [apply _|intros ?; keep|intros ? ? ?|eassumption] ].

Lemma app_connect_ok ts c p : keeps E (serving c p) (app_connect ts p).
Proof using HE. unfold app_connect. apply keeps_serving; [apply _|intros rest; keep]. Qed.
Lemma app_send_ok c p m : serving c p m -> wp E (app_send p) (fun _ => calls_ok c) m.
Proof using HE. intros Hm. unfold app_send. serve. eapply wp_mono; [eapply keeps_serving; [apply _|intros rest; keep|done]|]. by intros ? ? []. Qed.
Lemma app_ack_ok ts c p m : serving c p m -> wp E (app_ack ts p) (fun _ => calls_ok c) m.
Proof using HE. intros Hm. unfold app_ack. serve. eapply wp_mono; [eapply keeps_serving; [apply _|intros rest; keep|done]|]. by intros ? ? []. Qed.

Lemma serving_end {A} (b : M A) c p (P : contents -> Prop) m :
  QueueFree b -> (forall rest, keeps E (live T p rest) b) -> P c -> serving c p m -> wp E b (fun _ m' => exists c', calls_ok c' m' /\ P c') m.
Proof using. intros Hq Hb HP Hm. eapply wp_mono; [by eapply keeps_serving|]. intros a m' [? _]. eauto. Qed.

Lemma close_after_reset_ok c p m (P : contents -> Prop) : p ∉ queued c -> P c -> serving c p m ->
  wp E (close_after_reset p) (fun _ m' => exists c', calls_ok c' m' /\ P c') m.
Proof using HE.
  intros Hno HP Hm. eapply wp_mono; [eapply (leads_calls (close_after_reset p) c p); [unfold close_after_reset; qframe| |done|done]|].
  - intros rest. unfold close_after_reset. lead.
  - intros a m' Hm'. exists c. by split.
Qed.

Lemma app_close_ok ts c p m : p ∉ queued c -> serving c p m ->
  wp E (app_close ts p) (fun _ m' => exists c', calls_ok c' m' /\ close_later p c c') m.
Proof using HE.
  intros Hno Hm. assert (close_later p c c) as Hsame by by left. unfold app_close. do 5 serve.
  destruct (have_reset _); [by eapply close_after_reset_ok|]. destruct (on_control_list _); [serve; by apply enqueue_close_int_ok|].
  destruct (_ || _); [eapply serving_end; [apply _|intros rest; keep|done|done]|].
  destruct (bool_decide _); [serve|]; (eapply serving_end; [apply _|intros rest; keep|done|done]).
Qed.

Lemma app_close_int_ok ts c p m : p ∉ queued c -> serving c p m ->
  wp E (app_close_int ts p) (fun _ m' => exists c', calls_ok c' m' /\ close_later p c c') m.
Proof using HE.
  intros Hno Hm. assert (close_later p c c) as Hsame by by left. unfold app_close_int. serve.
  destruct (on_control_list _); [by apply enqueue_close_int_ok|].
  destruct (bool_decide _); [serve|]; (eapply serving_end; [apply _|intros rest; keep|done|done]).
Qed.

Lemma reset_stream_ok ts c p m (P : contents -> Prop) : P c -> serving c p m ->
  wp E (reset_stream ts p) (fun _ m' => exists c', calls_ok c' m' /\ P c') m.
Proof using HE. intros HP Hm. unfold reset_stream. eapply serving_end; [qframe|intros rest; keep|done|done]. Qed.

Lemma app_reset_ok ts c p m : p ∉ queued c -> serving c p m ->
  wp E (app_reset ts p) (fun _ m' => exists c', calls_ok c' m' /\ reset_later p c c') m.
Proof using HE.
  intros Hno Hm. assert (reset_later p c c) as Hsame by by left. unfold app_reset. do 3 serve.
  destruct (have_reset _); [by eapply close_after_reset_ok|]. destruct (on_any_list _); [serve; by apply enqueue_reset_int_ok|].
  by eapply reset_stream_ok.
Qed.

Lemma app_reset_int_ok ts c p m : p ∉ queued c -> serving c p m ->
  wp E (app_reset_int ts p) (fun _ m' => exists c', calls_ok c' m' /\ reset_later p c c') m.
Proof using HE.
  intros Hno Hm. assert (reset_later p c c) as Hsame by by left. unfold app_reset_int. serve.
  destruct (on_any_list _); [by apply enqueue_reset_int_ok|]. serve. by eapply reset_stream_ok.
Qed.

(** ** All queues *)

Lemma ring_fits (q : ring_queue ptr) l : ring_rep q l -> (length l < S (length (_q q)))%nat.
Proof using. intros (((_ & _) & _ & _ & Hz) & Hl & _). unfold zlen in *. lia. Qed.

(** Which rings have been emptied, at each stage. *)
Definition stage1 c : Prop := c_connect c = [].
Definition stage2 c : Prop := stage1 c /\ c_send c = [].
Definition stage3 c : Prop := stage2 c /\ c_ack c = [].
Definition stage4 c : Prop := stage3 c /\ c_close c = [].
Definition stage5 c : Prop := stage4 c /\ c_reset c = [].
Definition served c : Prop := stage5 c /\ c_destroy c = [].

Lemma stage3_fresh c c' p : stage3 c -> stage3 c' -> NoDup (closing c) -> closing c ≡ₚ p :: closing c' -> p ∉ queued c'.
Proof using.
  intros [[? ?] ?] [[E1 E2] E3] Hn Hp. unfold queued. rewrite E1, E2, E3. rewrite Hp in Hn. by apply NoDup_cons in Hn as [].
Qed.

Ltac fresh_in c1 El := apply (stage3_fresh c1); [unfold stage5, stage4, stage3, stage2, stage1 in *; cbn; tauto..|done|]; unfold closing; cbn; rewrite El; cbn; first [reflexivity|solve_Permutation].

Lemma serve_connect ts c m : calls_ok c m ->
  wp E (drain_ring connectq dequeue_connect (app_connect ts)) (fun _ m' => exists c', calls_ok c' m' /\ stage1 c') m.
Proof using HE.
  intros Hm. apply wp_bind, wp_gets. eapply wp_mono.
  - eapply (drain_calls c_connect _ _ _ (fun _ => True) takes_connect); [done| |apply ring_fits, Hm|done|done].
    intros c1 p l m1 _ _ _ Hs. eapply wp_mono; [by apply app_connect_ok|]. intros ? m2 [Hm2 _]. eexists. split; [exact Hm2|done].
  - intros ? m' (c' & Hm' & Hc' & _). by exists c'.
Qed.

Lemma serve_send c m : stage1 c -> calls_ok c m ->
  wp E (drain_ring sendq dequeue_send app_send) (fun _ m' => exists c', calls_ok c' m' /\ stage2 c') m.
Proof using HE.
  intros Hc Hm. apply wp_bind, wp_gets. eapply wp_mono.
  - eapply (drain_calls c_send _ _ _ stage1 takes_send); [done| |apply ring_fits, Hm|done|done].
    intros c1 p l m1 _ Hc1 _ Hs. eapply wp_mono; [by apply app_send_ok|]. intros ? m2 Hm2. eexists. split; [exact Hm2|done].
  - intros ? m' (c' & Hm' & Hc' & Hst). by exists c'.
Qed.

Lemma serve_ack ts c m : stage2 c -> calls_ok c m ->
  wp E (drain_ring ackq dequeue_ack (app_ack ts)) (fun _ m' => exists c', calls_ok c' m' /\ stage3 c') m.
Proof using HE.
  intros Hc Hm. apply wp_bind, wp_gets. eapply wp_mono.
  - eapply (drain_calls c_ack _ _ _ stage2 takes_ack); [done| |apply ring_fits, Hm|done|done].
    intros c1 p l m1 _ Hc1 _ Hs. eapply wp_mono; [by apply app_ack_ok|]. intros ? m2 Hm2. eexists. split; [exact Hm2|done].
  - intros ? m' (c' & Hm' & Hc' & Hst). by exists c'.
Qed.

Lemma serve_close ts c m : stage3 c -> calls_ok c m ->
  wp E (drain_ring closeq dequeue_close (app_close ts)) (fun _ m' => exists c', calls_ok c' m' /\ stage4 c') m.
Proof using HE.
  intros Hc Hm. apply wp_bind, wp_gets. eapply wp_mono.
  - eapply (drain_calls c_close _ _ _ stage3 takes_close); [done| |apply ring_fits, Hm|done|done].
    intros c1 p l m1 El Hc1 Hn Hs. eapply wp_mono; [apply app_close_ok; [|exact Hs]|]; [fresh_in c1 El|].
    intros ? m2 (c2 & Hm2 & Hl). exists c2. split; [exact Hm2|]. by destruct Hl; subst c2.
  - intros ? m' (c' & Hm' & Hc' & Hst). by exists c'.
Qed.

Lemma serve_close_int ts c m : stage4 c -> calls_ok c m ->
  wp E (repeat_int (Z.to_nat (sq_count (closeq_int m))) dequeue_close_int (app_close_int ts)) (fun _ m' => exists c', calls_ok c' m' /\ stage4 c') m.
Proof using HE.
  intros Hc Hm. eapply (repeat_calls c_close_int _ _ _ stage4 takes_close_int); [done| | |done|done].
  - intros c1 p l m1 El Hc1 Hn Hs. eapply wp_mono; [apply app_close_int_ok; [|exact Hs]|]; [fresh_in c1 El|].
    intros ? m2 (c2 & Hm2 & Hl). exists c2. split; [exact Hm2|]. destruct Hl; subst c2; (split; [|exact Hc1]); cbn; rewrite ?length_app; lia.
  - destruct (h_close_int _ _ (co_holds _ _ Hm)) as (_ & _ & _ & Hz & _). rewrite Hz. unfold zlen. lia.
Qed.

Lemma serve_reset ts c m : stage4 c -> calls_ok c m ->
  wp E (drain_ring resetq dequeue_reset (app_reset ts)) (fun _ m' => exists c', calls_ok c' m' /\ stage5 c') m.
Proof using HE.
  intros Hc Hm. apply wp_bind, wp_gets. eapply wp_mono.
  - eapply (drain_calls c_reset _ _ _ stage4 takes_reset); [done| |apply ring_fits, Hm|done|done].
    intros c1 p l m1 El Hc1 Hn Hs. eapply wp_mono; [apply app_reset_ok; [|exact Hs]|]; [fresh_in c1 El|].
    intros ? m2 (c2 & Hm2 & Hl). exists c2. split; [exact Hm2|]. by destruct Hl; subst c2.
  - intros ? m' (c' & Hm' & Hc' & Hst). by exists c'.
Qed.

Lemma serve_reset_int ts c m : stage5 c -> calls_ok c m ->
  wp E (repeat_int (Z.to_nat (sq_count (resetq_int m))) dequeue_reset_int (app_reset_int ts)) (fun _ m' => exists c', calls_ok c' m' /\ stage5 c') m.
Proof using HE.
  intros Hc Hm. eapply (repeat_calls c_reset_int _ _ _ stage5 takes_reset_int); [done| | |done|done].
  - intros c1 p l m1 El Hc1 Hn Hs. eapply wp_mono; [apply app_reset_int_ok; [|exact Hs]|]; [fresh_in c1 El|].
    intros ? m2 (c2 & Hm2 & Hl). exists c2. split; [exact Hm2|]. destruct Hl; subst c2; (split; [|exact Hc1]); cbn; rewrite ?length_app; lia.
  - destruct (h_reset_int _ _ (co_holds _ _ Hm)) as (_ & _ & _ & Hz & _). rewrite Hz. unfold zlen. lia.
Qed.

Lemma serve_destroy c m : stage5 c -> calls_ok c m ->
  wp E (drain_ring destroyq dequeue_destroy DestroyTCPStream) (fun _ m' => exists c', calls_ok c' m' /\ served c') m.
Proof using HE.
  intros Hc Hm. apply wp_bind, wp_gets. eapply wp_mono.
  - eapply (drain_calls c_destroy _ _ _ stage5 takes_destroy); [done| |apply ring_fits, Hm|done|done].
    intros c1 p l m1 El Hc1 Hn Hs.
    eapply wp_mono; [eapply leads_calls; [apply _|intros rest; by apply DestroyTCPStream_leads| |exact Hs]|]; [fresh_in c1 El|].
    intros ? m2 Hm2. eexists. split; [exact Hm2|done].
  - intros ? m' (c' & Hm' & Hc' & Hst). by exists c'.
Qed.

Ltac stage_by tac := apply wp_bind; eapply wp_mono; [tac|]; intros ? ? (? & ? & ?).

Lemma HandleApplicationCalls_ok ts c m : calls_ok c m ->
  wp E (HandleApplicationCalls ts) (fun _ m' => exists c', calls_ok c' m' /\ served c') m.
Proof using HE.
  intros Hm. unfold HandleApplicationCalls.
  stage_by ltac:(by apply (serve_connect ts c)). stage_by ltac:(by eapply serve_send). stage_by ltac:(by eapply serve_ack).
  stage_by ltac:(by eapply serve_close). apply wp_bind, wp_gets. stage_by ltac:(by eapply serve_close_int).
  stage_by ltac:(by eapply serve_reset). apply wp_bind, wp_gets. stage_by ltac:(by eapply serve_reset_int).
  stage_by ltac:(by eapply serve_destroy).
  apply wp_modify.
  match goal with Hm : calls_ok ?c' ?m' |- exists _, calls_ok _ (?m' <| wakeup_flag := _ |>) /\ _ => exists c'; split; [|done]; destruct Hm as [Hw Hh Hl Hn];
    split; [apply (wf_core m'); [reflexivity|exact Hw]|apply (holds_same _ m'); [reflexivity|exact Hh]|exact Hl|exact Hn] end.
Qed.
End calls.

(** C5: From a manager that satisfies the invariant, when every stream in the
    queues of the application is live and none is queued twice for its end,
    [HandleApplicationCalls] uses no destroyed stream, corrupts no list and
    ends within its bounds. When it returns the six queues the application
    fills are empty, the streams it kept for later are live and queued once,
    and the invariant holds again. *)
Theorem app_calls_safe `{Env} m c cur_ts : calls_ok c m ->
  wp calm (HandleApplicationCalls cur_ts) (fun _ m' => exists c', calls_ok c' m' /\ served c') m.
Proof. intros Hm. by apply (HandleApplicationCalls_ok calm (fun _ Hc => Hc) cur_ts c). Qed.

Import Demo.

(** The stream of [StreamInv]'s example, queued to connect and to be closed. *)
Definition m_calls : mtcp_manager :=
  ltac:(let x := eval vm_compute in (StreamEnqueue (connectq m1) p1) in
        let y := eval vm_compute in (StreamEnqueue (closeq m1) p1) in
        match x with Ok (_, ?q) => match y with Ok (_, ?q') => exact (m1 <| connectq := q |> <| closeq := q' |>) end end).
Definition c_calls : contents := mkContents [p1] [] [] [p1] [] [] [] [].

Lemma ring_created (q : ring_queue ptr) cap : CreateStreamQueue true true cap = Some q -> 0 <= cap < 2147483648 -> ring_rep q [].
Proof. intros Hc Hcap. by apply (CreateQueue_rep cap). Qed.

Lemma ring_with (q q' : ring_queue ptr) cap p :
  CreateStreamQueue true true cap = Some q -> 0 < cap < 2147483648 -> StreamEnqueue q p = Ok (0, q') -> ring_rep q' [p].
Proof.
  intros Hc Hcap He. destruct (CreateQueue_rep cap q) as [Hr Hq]; [lia|done|].
  destruct (Enqueue_ok q [] p Hr) as (q1 & E1 & Hr1 & _); [change (zlen []) with 0; lia|].
  unfold StreamEnqueue in He. cbn [fifo_enq ring_fifo] in E1. rewrite He in E1. injection E1 as <-. exact Hr1.
Qed.

Lemma int_created (q : stream_queue_int ptr) sz : CreateInternalStreamQueue true true sz = Some q -> 0 < sz < 2147483648 -> sqi_rep q [].
Proof. intros Hc Hsz. by apply (CreateInternal_rep sz). Qed.

Lemma calls_holds : holds c_calls m_calls.
Proof.
  split;
    [apply (ring_with (connectq m1) _ (_capacity (connectq m1)))|apply (ring_created _ (_capacity (sendq m1)))
    |apply (ring_created _ (_capacity (ackq m1)))|apply (ring_with (closeq m1) _ (_capacity (closeq m1)))
    |apply (int_created _ (sq_size (closeq_int m1)))|apply (ring_created _ (_capacity (resetq m1)))
    |apply (int_created _ (sq_size (resetq_int m1)))|apply (ring_created _ (_capacity (destroyq m1)))];
    vm_compute; first [reflexivity|split; first [reflexivity|discriminate]].
Qed.

Lemma m_calls_ok : calls_ok c_calls m_calls.
Proof.
  destruct m1_created as (Hw & _ & s & Hs & _). split; [apply (wf_core m1); [reflexivity|exact Hw]|exact calls_holds| |].
  - intros p Hp. assert (p = p1) as -> by (unfold queued, closing in Hp; simpl in Hp; set_solver).
    exists s. change (streams m1 !! p1 = Some s). rewrite Hs. apply lookup_insert_eq.
  - unfold closing. simpl. apply NoDup_singleton.
Qed.

Lemma app_calls_safe_witness :
  wp calm (HandleApplicationCalls 10) (fun _ m' => exists c', calls_ok c' m' /\ served c') m_calls.
Proof. apply (app_calls_safe m_calls c_calls 10). exact m_calls_ok. Defined.
