(* ===== verification/SafeLoop.v ===== *)
(** * The main loop keeps the invariant

    A round of the main loop: whatever frames arrive, the invariant holds
    again after it, provided that no stream the application has queued is
    destroyed by the input or the timers of the round. Without calls of the
    application there is no such stream, and the loop runs on for any number
    of rounds. *)

From S2P Require Import Prelude SeqNum SpscQueue MemPool RingBuffer SendBuffer AddrPool Rss Checksum.
From S2P Require Import Machine Wp Lists TcpOptions FlowTable Network Faults StreamOps Invariant Boot StreamInv Live.
From S2P Require Import TcpOut SafeOut SafeData Timer SafeTimer TcpIn SafeIn IpIn Sockets Core QueueFrame SafeCalls.

Lemma wf_core_inv `{Env} : core_inv wf.
Proof. intros m m' Hc. by apply wf_core. Qed.
#[export] Hint Resolve wf_core_inv : live.

Section loop.
Context `{Env} `{!NetOk} (hi : Z) (eth_ifindex : Z -> Z) (master : bool).
Implicit Types (m : mtcp_manager) (c : contents).

Let HE : forall e, calm e -> tame e := calm_tame.

(** ** Input *)

Lemma rd_faults mem i : faults_in calm (rd mem i).
Proof. unfold rd. faults. Qed.
Hint Resolve rd_faults : faults.

Lemma csum_words_faults n : forall mem off csum, faults_in calm (csum_words n mem off csum).
Proof. induction n as [|n IH]; intros mem off csum; cbn [csum_words]; unfold rd32le, rd16le; faults. Qed.
Hint Resolve csum_words_faults : faults.

Lemma ip_fast_csum_faults iph ihl : faults_in calm (ip_fast_csum iph ihl).
Proof. unfold ip_fast_csum, rd32le, rd16le. faults. Qed.

Lemma ICMPChecksum_faults mem n : faults_in calm (ICMPChecksum hi mem n).
Proof. unfold ICMPChecksum. faults. Qed.
Hint Resolve ip_fast_csum_faults ICMPChecksum_faults : faults.

Lemma ICMPOutput_wf sa da ty code id sq d n : keeps tame wf (ICMPOutput hi sa da ty code id sq d n).
Proof.
  pose proof (GetDestinationHWaddr_keeps tame wf). pose proof (EthernetOutput_keeps tame wf wf_core_inv).
  pose proof (RequestARP_keeps tame HE wf wf_core_inv). pose proof (emit_keeps tame HE wf wf_core_inv).
  unfold ICMPOutput, IPOutputStandalone, icmp_message. keep.
Qed.
Hint Resolve ICMPOutput_wf : live.

Lemma ProcessARPPacket_wf ts ifidx a : keeps tame wf (ProcessARPPacket eth_ifindex ts ifidx a).
Proof.
  pose proof (GetDestinationHWaddr_keeps tame wf). pose proof (EthernetOutput_keeps tame wf wf_core_inv).
  pose proof (emit_keeps tame HE wf wf_core_inv).
  unfold ProcessARPPacket, ProcessARPRequest, ProcessARPReply, learn_sender, RegisterARPEntry, ARPOutput. keep.
Qed.

Lemma ProcessTCPPacket_wf ts ih n seg : keeps tame wf (ProcessTCPPacket ts ih n seg).
Proof. intros m Hm. eapply wp_mono; [by apply ProcessTCPPacket_wp|]. by intros ? ? []. Qed.
Hint Resolve ProcessARPPacket_wf ProcessTCPPacket_wf : live.

Lemma ProcessPacket_wf ifidx ts pkt : keeps tame wf (ProcessPacket hi eth_ifindex ifidx ts pkt).
Proof.
  unfold ProcessPacket, ProcessIPv4Packet, ProcessICMPPacket, ProcessICMPECHORequest, parse_arph, rd16be, rd32le, rd16le. keep.
Qed.
Hint Resolve ProcessPacket_wf : live.

Lemma receive_all_wf ts rx : forall ifidx, keeps tame wf (receive_all hi eth_ifindex ifidx ts rx).
Proof.
  assert (forall ifidx l, keeps tame wf (receive_frames hi eth_ifindex ifidx ts l)) as Hl.
  { intros ifidx l. induction l as [|[pkt|] l IH]; cbn [receive_frames]; keep. }
  induction rx as [|l rx IH]; intros ifidx; cbn [receive_all]; [keep|]. apply keeps_bind; [apply Hl|intros _; apply IH].
Qed.

Lemma check_timers_wf ts ts_prev : keeps tame wf (check_timers ts ts_prev).
Proof.
  unfold check_timers. apply keeps_bind; [apply keeps_gets|intros n]. apply keeps_when.
  apply keeps_bind; [by apply CheckRtmTimeout_wf|intros _]. apply keeps_bind; [by apply CheckTimewaitExpire_wf|intros _].
  apply keeps_when. by apply CheckConnectionTimeout_wf.
Qed.

Lemma input_phase_wf ts ts_prev rx : keeps tame wf (input_phase hi eth_ifindex ts ts_prev rx).
Proof.
  unfold input_phase. apply keeps_bind; [keep|intros _]. apply keeps_bind; [apply receive_all_wf|intros _]. apply check_timers_wf.
Qed.

(** ** Events and interruption *)

Lemma flush_events_faults fuel : forall u q, faults_in tame (flush_events fuel u q).
Proof. induction fuel as [|fuel IH]; intros u q; cbn [flush_events]; unfold eq_front; faults. Qed.

Lemma FlushEpollEvents_wf ts : keeps tame wf (FlushEpollEvents ts).
Proof.
  intros m Hm. unfold FlushEpollEvents. apply wp_bind, wp_gets. destruct (ep m) as [a|] eqn:Ee; [|apply wp_throw, HE; calm_fault].
  destruct (wf_ep _ Hm a Ee) as [e He]. apply wp_bind. unfold wp at 1, get_epoll. rewrite He.
  apply wp_bind, wp_lift; [|apply flush_events_faults]. intros [u q] _. unfold set_epoll. apply wp_modify. by apply wf_set_epoll.
Qed.

Lemma interrupt_accepts_same n : forall port m, wf m -> wp tame (interrupt_accepts n port) (fun _ m' => m' = m) m.
Proof.
  induction n as [|n IH]; intros port m Hm; cbn [interrupt_accepts]; [by apply wp_ret|]. apply wp_bind.
  eapply wp_mono; [by apply ListenerHTSearch_wp|]. intros o m' [-> Ho]. apply wp_bind.
  eapply wp_mono with (Q := fun _ m' => m' = m).
  - destruct o as [a|]; [|by apply wp_ret]. destruct (Ho a eq_refl) as [x Hx]. apply wp_bind. unfold wp at 1, get_listener. rewrite Hx.
    apply wp_bind. unfold wp at 1, get_socket. destruct (sockets m !! l_socket x); [by apply wp_ret|apply HE; calm_fault].
  - intros l m' ->. apply wp_bind. eapply wp_mono; [by apply IH|]. intros l' m' ->. by apply wp_ret.
Qed.

Lemma InterruptApplication_wf m : wf m -> wp tame InterruptApplication (fun _ m' => m' = m) m.
Proof.
  intros Hm. unfold InterruptApplication. apply wp_bind, wp_gets. apply wp_bind.
  eapply wp_mono with (Q := fun _ m' => m' = m).
  - destruct (ep m) as [a|] eqn:Ee; [|by apply wp_ret]. destruct (wf_ep _ Hm a Ee) as [e He]. apply wp_bind.
    unfold wp at 1, get_epoll. rewrite He. by apply wp_ret.
  - intros w m' ->. apply wp_bind. eapply wp_mono; [by apply interrupt_accepts_same|]. intros l m' ->. by apply wp_ret.
Qed.

Lemma interrupted_wf : keeps tame wf (let* i := gets ctx_interrupt in if i then InterruptApplication ;;; ret tt else ret tt).
Proof.
  intros m Hm. apply wp_bind, wp_gets. destruct (ctx_interrupt m); [|by apply wp_ret]. apply wp_bind.
  eapply wp_mono; [by apply InterruptApplication_wf|]. intros a m' ->. by apply wp_ret.
Qed.

(** ** Parts of a round and the queues *)

#[local] Instance receive_all_qf ifidx ts rx : QueueFree (receive_all hi eth_ifindex ifidx ts rx).
Proof.
  assert (forall ifidx l, QueueFree (receive_frames hi eth_ifindex ifidx ts l)) as Hl.
  { intros i l. induction l as [|[pkt|] l IH]; cbn [receive_frames]; qframe. }
  revert ifidx. induction rx as [|l rx IH]; intros ifidx; cbn [receive_all]; qframe.
Qed.

#[local] Instance input_phase_qf ts ts_prev rx : QueueFree (input_phase hi eth_ifindex ts ts_prev rx).
Proof. unfold input_phase, check_timers. qframe. Qed.

#[local] Instance FlushEpollEvents_qf ts : QueueFree (FlushEpollEvents ts).
Proof. unfold FlushEpollEvents. qframe. Qed.

#[local] Instance InterruptApplication_qf : QueueFree InterruptApplication.
Proof.
  assert (forall n port, QueueFree (interrupt_accepts n port)) as Hi.
  { induction n as [|n IH]; intros port; cbn [interrupt_accepts]; qframe. }
  unfold InterruptApplication. qframe.
Qed.

Lemma keeps_wf_holds {A} (b : M A) c : QueueFree b -> keeps tame wf b -> keeps tame (fun m => wf m /\ holds c m) b.
Proof.
  intros Hq Hb m [Hw Hh]. eapply wp_mono; [eapply wp_conj; [by apply Hb|by apply (Hq (queues m))]|].
  intros a m' [Hw' Hqs]. split; [exact Hw'|by eapply holds_same].
Qed.

(** What follows [HandleApplicationCalls] in a round. *)
Definition output_phase (ts ts_prev : Z) : M unit :=
  WritePacketsToChunks ts ;;;
  when (negb (ts =? ts_prev) && master) (ARPTimer ts) ;;;
  let* i := gets ctx_interrupt in
  if i then InterruptApplication ;;; ret tt else ret tt.

Lemma output_phase_keeps ts ts_prev c : keeps tame (fun m => wf m /\ holds c m) (output_phase ts ts_prev).
Proof.
  apply keeps_wf_holds; [unfold output_phase; qframe|]. unfold output_phase.
  apply keeps_bind; [by apply WritePacketsToChunks_wf|intros _]. apply keeps_bind; [|intros _; apply interrupted_wf].
  apply keeps_when. unfold ARPTimer. keep.
Qed.

Lemma flush_calls ts c : keeps tame (calls_ok c) (let* o := gets ep in when (bool_decide (o <> None)) (FlushEpollEvents ts)).
Proof.
  assert (same streams (FlushEpollEvents ts)) as Hs.
  { assert (forall e, same streams (get_epoll e)) by (intros ? v m <-; unfold wp, get_epoll; by destruct (epolls m !! _)).
    unfold FlushEpollEvents, set_epoll. frame. }
  apply keeps_bind; [apply keeps_gets|intros o]. apply keeps_when. intros m [Hw Hh Hl Hn].
  eapply wp_mono; [eapply wp_conj; [by apply (keeps_wf_holds _ c _ (FlushEpollEvents_wf ts))|by apply (Hs (streams m))]|].
  intros a m' [[Hw' Hh'] Hss]. cbv beta in Hss. split; [done..| |done]. intros q Hq. rewrite Hss. by apply Hl.
Qed.

(** ** A round *)

Definition ended (c : contents) (m : mtcp_manager) : Prop := wf m /\ exists c', holds c' m /\ (served c' \/ c' = c).

Lemma serve_round ts c m : calls_ok c m ->
  wp tame (let* n := gets flow_cnt in when (0 <? n) (HandleApplicationCalls ts)) (fun _ => ended c) m.
Proof.
  intros Hm. apply wp_bind, wp_gets. apply wp_when.
  - intros _. eapply wp_mono; [by apply (HandleApplicationCalls_ok tame HE ts c)|]. intros a m' (c' & [Hw' Hh' _ _] & Hs).
    split; [done|]. exists c'. auto.
  - intros _. destruct Hm as [Hw Hh _ _]. split; [done|]. exists c. auto.
Qed.

Lemma main_round_ok ts ts_prev rx c m : calls_ok c m ->
  (forall m1, input_phase hi eth_ifindex ts ts_prev rx m = Ok (tt, m1) -> forall p, p ∈ queued c -> is_Some (streams m1 !! p)) ->
  wp tame (main_round hi eth_ifindex master ts ts_prev rx) (fun _ => ended c) m.
Proof.
  intros [Hw Hh Hl Hn] Hlive. unfold main_round. apply wp_bind.
  pose proof (keeps_wf_holds _ c _ (input_phase_wf ts ts_prev rx) m (conj Hw Hh)) as Hi. unfold wp in Hi |- * at 1.
  destruct (input_phase hi eth_ifindex ts ts_prev rx m) as [[[] m1]|e] eqn:E1; [|exact Hi]. destruct Hi as [Hw1 Hh1].
  assert (calls_ok c m1) as Hm1 by (split; [done..|by apply Hlive|done]). clear Hlive E1 Hw Hh Hl Hn m.
  apply wp_assoc. apply wp_bind. eapply wp_mono; [by apply (flush_calls ts c)|]. intros ? m2 Hm2. cbv beta in Hm2.
  apply wp_assoc. apply wp_bind. eapply wp_mono; [by apply (serve_round ts c)|]. intros ? m3 (Hw3 & c' & Hh3 & Hc').
  eapply wp_mono; [by apply (output_phase_keeps ts ts_prev c')|]. intros ? m4 [Hw4 Hh4]. split; [done|]. by exists c'.
Qed.

(** ** Rounds without calls of the application *)

Definition no_calls : contents := mkContents [] [] [] [] [] [] [] [].

(** [m] differs from [m0] neither in its queues nor in what the invariant reads. *)
Definition idle (m0 m : mtcp_manager) : Prop := core m = core m0 /\ queues m = queues m0.

(** Serving an empty queue changes nothing. *)
Lemma drain_none m0 get (set : ring_queue ptr -> mtcp_manager -> mtcp_manager) body :
  ring_rep (get m0) [] -> (forall m, queues m = queues m0 -> get m = get m0) -> (forall m, idle m (set (get m) m)) ->
  keeps tame (idle m0) (drain_ring get (let* q := gets get in let* (o, q) := lift (StreamDequeue q) in modify (set q) ;;; ret o) body).
Proof.
  intros Hr Hg Hs m [Hc Hq]. unfold drain_ring. apply wp_bind, wp_gets. cbn [drain]. apply wp_bind.
  eapply (deq_run tame get set _ m []); [reflexivity|cbn; by rewrite (Hg m Hq)|]. apply wp_ret. destruct (Hs m). split; congruence.
Qed.

Lemma repeat_none m0 (get : mtcp_manager -> stream_queue_int ptr) deq body :
  sqi_rep (get m0) [] -> (forall m, queues m = queues m0 -> get m = get m0) ->
  keeps tame (idle m0) (let* q := gets get in repeat_int (Z.to_nat (sq_count q)) deq body).
Proof.
  intros (_ & _ & _ & Hn & _) Hg m [Hc Hq]. apply wp_bind, wp_gets. rewrite (Hg m Hq), Hn. by apply wp_ret.
Qed.

Lemma keeps_assoc {A B C} E I (b : M A) (k : A -> M B) (k' : B -> M C) :
  keeps E I (bind (bind b k) k') -> keeps E I (bind b (fun a => bind (k a) k')).
Proof. intros Hk m Hm. by apply wp_assoc, Hk. Qed.

Lemma calls_none m0 ts : holds no_calls m0 -> keeps tame (idle m0) (HandleApplicationCalls ts).
Proof.
  intros []. unfold HandleApplicationCalls.
  assert (forall m, queues m = queues m0 -> connectq m = connectq m0 /\ sendq m = sendq m0 /\ ackq m = ackq m0 /\ closeq m = closeq m0 /\
    closeq_int m = closeq_int m0 /\ resetq m = resetq m0 /\ resetq_int m = resetq_int m0 /\ destroyq m = destroyq m0) as Hg
    by (unfold queues; intros m [= -> -> -> -> -> -> -> ->]; done).
  apply keeps_bind; [apply (drain_none m0 connectq (fun q m => m <| connectq := q |>)); [done|intros m Hm; by apply Hg|done]|intros _].
  apply keeps_bind; [apply (drain_none m0 sendq (fun q m => m <| sendq := q |>)); [done|intros m Hm; by apply Hg|done]|intros _].
  apply keeps_bind; [apply (drain_none m0 ackq (fun q m => m <| ackq := q |>)); [done|intros m Hm; by apply Hg|done]|intros _].
  apply keeps_bind; [apply (drain_none m0 closeq (fun q m => m <| closeq := q |>)); [done|intros m Hm; by apply Hg|done]|intros _].
  apply keeps_assoc, keeps_bind; [apply repeat_none; [done|intros m Hm; by apply Hg]|intros _].
  apply keeps_bind; [apply (drain_none m0 resetq (fun q m => m <| resetq := q |>)); [done|intros m Hm; by apply Hg|done]|intros _].
  apply keeps_assoc, keeps_bind; [apply repeat_none; [done|intros m Hm; by apply Hg]|intros _].
  apply keeps_bind; [apply (drain_none m0 destroyq (fun q m => m <| destroyq := q |>)); [done|intros m Hm; by apply Hg|done]|intros _].
  apply keeps_modify. by intros m [].
Qed.

(** The state between rounds. *)
Definition unattended m : Prop := wf m /\ holds no_calls m.

Lemma main_round_unattended ts ts_prev rx : keeps tame unattended (main_round hi eth_ifindex master ts ts_prev rx).
Proof.
  unfold main_round. apply keeps_bind; [apply (keeps_wf_holds _ no_calls); [apply _|apply input_phase_wf]|intros _].
  apply keeps_assoc, keeps_bind.
  { apply keeps_bind; [apply keeps_gets|intros o]. apply keeps_when. apply (keeps_wf_holds _ no_calls); [apply _|apply FlushEpollEvents_wf]. }
  intros _. apply keeps_assoc, keeps_bind; [|intros _; apply (output_phase_keeps ts ts_prev no_calls)].
  apply keeps_bind; [apply keeps_gets|intros n]. apply keeps_when. intros m [Hw Hh].
  eapply wp_mono; [by apply (calls_none m ts Hh)|]. intros a m' [Hc Hq]. split; [by eapply wf_core|by eapply holds_same].
Qed.

Lemma RunMainLoop_unattended rounds : forall ts_prev, keeps tame unattended (RunMainLoop hi eth_ifindex master ts_prev rounds).
Proof.
  induction rounds as [|[ts rx] rounds IH]; intros ts_prev; cbn [RunMainLoop]; [apply keeps_ret|].
  apply keeps_bind; [apply keeps_gets|intros b]. destruct b.
  - apply keeps_bind; [apply main_round_unattended|intros _; apply IH].
  - apply keeps_bind; [|intros ?; apply keeps_ret]. intros m [Hw Hh].
    eapply wp_mono; [by apply InterruptApplication_wf|]. by intros ? m' ->.
Qed.
End loop.



Import Demo.


Lemma boot_no_calls : holds no_calls m0.
Proof.
  split;
    [apply (ring_created _ (_capacity (connectq m0)))|apply (ring_created _ (_capacity (sendq m0)))
    |apply (ring_created _ (_capacity (ackq m0)))|apply (ring_created _ (_capacity (closeq m0)))
    |apply (int_created _ (sq_size (closeq_int m0)))|apply (ring_created _ (_capacity (resetq m0)))
    |apply (int_created _ (sq_size (resetq_int m0)))|apply (ring_created _ (_capacity (destroyq m0)))];
    vm_compute; first [reflexivity|split; first [reflexivity|discriminate]].
Qed.

