(* ===== verification/Scenarios.v ===== *)
(** * Whole runs

    Executions of the composed model, application calls and rounds of the
    main loop, from the manager [Demo.m0] after start-up: a client's session
    from [connect] to TIME_WAIT, a server's [accept], and two sequences of
    calls and segments after which the stack uses an object it has freed. *)

From S2P Require Import Prelude SeqNum SpscQueue MemPool RingBuffer SendBuffer AddrPool Rss Checksum.
From S2P Require Import Machine Wp Lists TcpOptions FlowTable Network StreamOps Invariant Boot TcpOut Timer TcpIn.
From S2P Require Import Sockets Pipe Epoll Api ApiData IpIn Core.

Import Demo.

(** ** Frames from the peer, port 80 of 10.0.0.2 *)

Definition be2 (x : Z) : list Z := [x / 256 mod 256; x mod 256].
Definition be4 (x : Z) : list Z := be2 (x / 65536) ++ be2 x.

Definition SYN : Z := 2.
Definition RST_ACK : Z := 20.
Definition ACK : Z := 16.
Definition SYN_ACK : Z := 18.
Definition FIN_ACK : Z := 17.

Definition segment (dport seq ack flags : Z) (opts data : list Z) : list Z :=
  replicate 12 0 ++ [8; 0] ++
  [69; 0] ++ be2 (40 + zlen opts + zlen data) ++ [0; 0; 0; 0; 64; 6; 0; 0; 10; 0; 0; 2; 10; 0; 0; 1] ++
  be2 80 ++ be2 dport ++ be4 seq ++ be4 ack ++ [(5 + zlen opts / 4) * 16; flags] ++ be2 8192 ++ [0; 0; 0; 0] ++ opts ++ data.

Definition stamp (tsval tsecr : Z) : list Z := [1; 1; 8; 10] ++ be4 tsval ++ be4 tsecr.
Definition mss_1460 : list Z := [2; 4; 5; 180].

(** A round of the main loop at time [ts], with frames on the one interface. *)
Definition round (ts ts_prev : Z) (rx : list (list Z)) : M unit := main_round 0 (fun x => x) true ts ts_prev [Some <$> rx].

(** What went out: sequence and acknowledgement number, SYN and FIN, payload. *)
Definition wire (m : mtcp_manager) : list (Z * Z * bool * bool * list Z) :=
  omap (fun f => match f with TcpFrame _ _ p => Some (pk_seq p, pk_ack p, pk_syn p, pk_fin p, pk_payload p) | _ => None end) (tx m).

(** ** A client *)

Definition web : Z * sockaddr_in := (AF_INET, mkAddr ip_peer (htons 80)).

Definition open (port : Z) : M (out Z) := (
  let* o := mtcp_socket AF_INET SOCK_STREAM in
  match o with
  | Done k => mtcp_bind k (Some (AF_INET, mkAddr ip_me (htons port))) 16 ;;; mtcp_connect k (Some web) 16
  | _ => ret o
  end)%mtcp.

(** The initial sequence number of the first stream. *)
Definition ISN : Z := 1103515245.

Definition client : M (out Z * out (list Z) * out Z) := (
  open 1000 ;;;
  round 10 0 [] ;;;
  round 20 10 [segment 1000 5000 (ISN + 1) SYN_ACK (mss_1460 ++ stamp 77 10) []] ;;;
  let* w := mtcp_write 0 [71; 69; 84] 3 in
  round 30 20 [segment 1000 5001 (ISN + 1) ACK (stamp 78 20) [79; 75; 33]] ;;;
  let* r := mtcp_recv 0 10 0 in
  let* c := mtcp_close 0 in
  round 40 30 [segment 1000 5004 (ISN + 4) ACK (stamp 79 30) []] ;;;
  round 50 40 [segment 1000 5004 (ISN + 5) FIN_ACK (stamp 80 40) []] ;;;
  round 60 50 [] ;;;
  ret (w, r, c))%mtcp.

(** A whole session of a client runs to its end: the handshake, a write, a
    read and a close, interleaved with the rounds of the main loop. The write
    and the read return the bytes exchanged; on the wire there are, in this
    order, the SYN, the ACK of the handshake, the ACK of the peer's data, the
    client's data, the FIN, sent after all data, and the ACK of the peer's
    FIN, each with its sequence numbers; at the end no stream is left and
    every chunk of the stream pools is back. *)
Theorem client_session : exists m',
  client m0 = Ok ((Done 3, Done [79; 75; 33], Done 0), m') /\
  wire m' = [(ISN, 0, true, false, []); (ISN + 1, 5001, false, false, []); (ISN + 1, 5004, false, false, []);
             (ISN + 1, 5004, false, false, [71; 69; 84]); (ISN + 4, 5004, false, true, []); (ISN + 5, 5005, false, false, [])] /\
  streams m' = ∅ /\ flow_cnt m' = 0 /\ mp_free_chunks (flow_pool m') = mp_free_chunks (flow_pool m0) /\
  mp_free_chunks (sv_pool m') = mp_free_chunks (sv_pool m0) /\ mp_free_chunks (rv_pool m') = mp_free_chunks (rv_pool m0).
Proof. eexists. split; [vm_compute; reflexivity|]. vm_compute. by repeat split. Qed.

(** ** A server *)

Definition serve : M (out Z) := (
  mtcp_socket AF_INET SOCK_STREAM ;;;
  mtcp_bind 0 (Some (AF_INET, mkAddr ip_me (htons 80))) 16 ;;;
  mtcp_listen 0 4)%mtcp.

Definition syn : list Z := segment 80 9000 0 SYN (mss_1460 ++ stamp 77 0) [].

Definition server : M (out (Z * sockaddr_in)) := (
  serve ;;;
  round 10 0 [syn] ;;;
  round 20 10 [segment 80 9001 (ISN + 1) ACK (stamp 78 10) []] ;;;
  mtcp_accept 0)%mtcp.

(** A connection is accepted. *)
Example server_accepts : exists m', server m0 = Ok (Done (1, mkAddr ip_peer (htons 80)), m') /\
  wire m' = [(ISN, 9001, true, false, [])] /\ state <$> streams m' = {[0 := TCP_ST_ESTABLISHED]}.
Proof. eexists. split; [vm_compute; reflexivity|]. vm_compute. by repeat split. Qed.

(** ** Objects used after they are freed *)


