(* ===== verification/Wire.v ===== *)
(** * From one stack to the other

    The bytes of a segment built by [SendTCPPacket], as they reach the TCP
    input of the peer behind the IP header: [ProcessTCPPacket] accepts them and
    decodes the fields, the flow and the payload that were sent. *)

From S2P Require Import Prelude SeqNum SpscQueue MemPool RingBuffer SendBuffer AddrPool Rss Checksum.
From S2P Require Import Machine Wp Lists TcpOptions FlowTable Network StreamOps Boot StreamInv TcpOut SendWindow Timer TcpIn.

(** The segment in memory: the header with its checksum, the urgent pointer,
    the options and the payload. *)
Definition wire (k : tcp_packet) : list Z :=
  tcph_front k ++ pk_check k mod 256 :: pk_check k / 256 :: tcph_back k.

(** The header the receiver should see. *)
Definition header_of (k : tcp_packet) : tcphdr :=
  mkTcph (pk_sport k) (pk_dport k) (pk_seq k) (pk_ack k) (pk_doff k) (pk_fin k) (pk_syn k) (pk_rst k) (pk_ackf k)
    (pk_window k) (pk_opts k ++ pk_payload k).

(** [ProcessTCPPacket] from the lookup of the flow on. *)
Definition receive `{Env} (cur_ts : Z) (ih : iphdr) (t : tcphdr) (payload : list Z) : M Z :=
  let* o := StreamHTSearch (mkFlow (ih_daddr ih) (ih_saddr ih) (th_dest t) (th_source t)) in
  let* o := match o with
            | Some p => ret (Some p)
            | None => CreateNewFlowHTEntry cur_ts ih t (th_seq t) (th_ack_seq t) (zlen payload) (th_window t)
            end in
  match o with
  | None => ret 1
  | Some p => process_stream p cur_ts ih t payload ;;; ret 1
  end.

(** The fields of a segment fit their places in the header. *)
Record fits_header (k : tcp_packet) : Prop := {
  fh_addrs : 0 <= pk_saddr k < 4294967296 /\ 0 <= pk_daddr k < 4294967296;
  fh_ports : 0 <= pk_sport k < 65536 /\ 0 <= pk_dport k < 65536;
  fh_seqs : 0 <= pk_seq k < 4294967296 /\ 0 <= pk_ack k < 4294967296;
  fh_window : 0 <= pk_window k < 65536;
  fh_doff : pk_doff k * 4 = 20 + zlen (pk_opts k) /\ 5 <= pk_doff k < 16;
  fh_bytes : bytes_ok (pk_opts k) /\ bytes_ok (pk_payload k);
  fh_length : zlen (pk_payload k) < 64900
}.

Lemma le_bytes_2 x : le_bytes 2 x = [x mod 256; x / 256 mod 256].
Proof. unfold le_bytes. simpl. by rewrite Z.div_1_r. Qed.

Lemma front_len k : zlen (tcph_front k) = 16.
Proof. unfold tcph_front. by rewrite !le_bytes_2. Qed.

Lemma wire_len k : zlen (wire k) = 20 + zlen (pk_opts k) + zlen (pk_payload k).
Proof.
  unfold wire, tcph_back. rewrite zlen_app, front_len, !zlen_cons, !zlen_app. change (zlen [0; 0]) with 2. lia.
Qed.

(** ** Decoding *)

(** Read the bytes at the front of a list. *)
Ltac rds :=
  repeat match goal with
  | |- context [rd ?l ?i] =>
      let E := fresh in eassert (rd l i = Ok _) as E by reflexivity; rewrite E; clear E; cbn [res_bind]
  end.

Lemma flags_decode k :
  has (flag_bits k) TCP_FLAG_FIN = pk_fin k /\ has (flag_bits k) TCP_FLAG_SYN = pk_syn k /\
  has (flag_bits k) TCP_FLAG_RST = pk_rst k /\ has (flag_bits k) TCP_FLAG_ACK = pk_ackf k.
Proof. unfold flag_bits. destruct (pk_fin k), (pk_syn k), (pk_rst k), (pk_psh k), (pk_ackf k); done. Qed.

Lemma parse_wire k : fits_header k -> parse_tcph (wire k) = Ok (header_of k).
Proof.
  intros []. destruct (flags_decode k) as (H1 & H2 & H3 & H4).
  unfold wire, tcph_front, tcph_back. rewrite !le_bytes_2. cbn [app be32 be16].
  unfold parse_tcph, rd16le, rd16be, rd32. rds. rewrite H1, H2, H3, H4. unfold header_of. f_equal. f_equal.
  1-4, 6: Z.to_euclidean_division_equations; lia.
  rewrite Z.div_mul by lia. done.
Qed.

Lemma wire_payload k :
  fits_header k -> mem_read (wire k) (pk_doff k * 4) (zlen (pk_payload k)) = Some (pk_payload k).
Proof.
  intros []. pose proof (zlen_nonneg (pk_opts k)). pose proof (zlen_nonneg (pk_payload k)).
  rewrite mem_read_eq by (rewrite ?wire_len; lia). f_equal.
  replace (wire k) with ((tcph_front k ++ [pk_check k mod 256; pk_check k / 256; 0; 0] ++ pk_opts k) ++ pk_payload k)
    by (unfold wire, tcph_back; by rewrite <- !app_assoc).
  rewrite drop_app_length', take_ge; [done|unfold zlen; lia|].
  destruct fh_doff0 as [-> _]. pose proof (front_len k) as Hf. unfold zlen in *. rewrite !length_app. simpl. lia.
Qed.

Definition same_but_check (k k' : tcp_packet) : Prop :=
  tcph_front k' = tcph_front k /\ tcph_back k' = tcph_back k /\ header_of k' = header_of k /\
  pk_payload k' = pk_payload k /\ pk_saddr k' = pk_saddr k /\ pk_daddr k' = pk_daddr k /\ (fits_header k -> fits_header k').

Lemma with_checksum_same `{Env} n k : same_but_check k (with_checksum n k).
Proof.
  unfold with_checksum. destruct hw_checksum; [by split_and!|]. split_and!; try done. intros []. by split.
Qed.

Lemma bytes_front k : fits_header k -> bytes_ok (tcph_front k).
Proof.
  intros []. unfold tcph_front. rewrite !le_bytes_2. unfold be32, be16.
  repeat (apply Forall_cons_2; [first [apply Z.mod_pos_bound; lia|idtac]|]).
  - lia.
  - unfold flag_bits. destruct (pk_fin k), (pk_syn k), (pk_rst k), (pk_psh k), (pk_ackf k); lia.
  - apply Forall_nil_2.
Qed.

Lemma bytes_back k : fits_header k -> bytes_ok (tcph_back k).
Proof. intros [????? [??] ?]. unfold tcph_back. repeat (apply Forall_cons; split; [lia|]). by apply Forall_app. Qed.

Lemma wire_verifies `{Env} k :
  fits_header k -> hw_checksum = false ->
  let k' := with_checksum (zlen (wire k)) k in
  TCPCalcChecksum (wire k') (zlen (wire k)) (pk_saddr k) (pk_daddr k) = 0.
Proof.
  intros Hk Hc k'. destruct (with_checksum_same (zlen (wire k)) k) as (Hf & Hb & _). fold k' in Hf, Hb.
  assert (pk_check k' = TCPCalcChecksum (tcph_front k ++ 0 :: 0 :: tcph_back k) (zlen (wire k)) (pk_saddr k) (pk_daddr k)) as Hch
    by (unfold k', with_checksum; by rewrite Hc).
  unfold wire at 1. rewrite Hf, Hb, Hch. clear Hf Hb Hch k'.
  pose proof Hk as [[??] _ _ _ [??] _ ?]. pose proof (front_len k).
  assert (zlen (tcph_front k) + 2 + zlen (tcph_back k) = zlen (wire k)) as <-
    by (unfold wire; rewrite zlen_app, !zlen_cons; lia).
  refine (checksum_verifies (tcph_front k) (tcph_back k) (pk_saddr k) (pk_daddr k) _ _ _ _ _ _); try done.
  - by apply bytes_front.
  - by apply bytes_back.
  - by exists 8.
  - unfold tcph_back. rewrite !zlen_app. change (zlen [0; 0]) with 2. lia.
Qed.

(** The input of the peer, up to the lookup of the flow. *)
Lemma wire_received (E1 E2 : Env) k ts m :
  fits_header k -> (@hw_checksum E1 = true -> @hw_checksum E2 = true) ->
  let k' := @with_checksum E1 (zlen (wire k)) k in
  @ProcessTCPPacket E2 ts (mkIph (pk_saddr k) (pk_daddr k) 5) (20 + zlen (wire k)) (wire k') m =
  @receive E2 ts (mkIph (pk_saddr k) (pk_daddr k) 5) (header_of k) (pk_payload k) m.
Proof.
  intros Hk Hc k'. destruct (@with_checksum_same E1 (zlen (wire k)) k) as (_ & _ & Hh & Hp & _ & _ & Hk'). specialize (Hk' Hk).
  fold k' in Hh, Hp, Hk'. pose proof (wire_len k) as Hl. pose proof Hk as [_ _ _ _ [Hd Hd'] _ Hn].
  assert (pk_doff k' = pk_doff k) as Hdo by exact (f_equal th_doff Hh).
  pose proof (zlen_nonneg (pk_opts k)). pose proof (zlen_nonneg (pk_payload k)).
  unfold ProcessTCPPacket. rewrite (bind_lift _ _ _ _ (parse_wire k' Hk')), Hh. cbv zeta.
  change (th_doff (header_of k)) with (pk_doff k). change (ih_ihl (mkIph _ _ 5)) with 5.
  change (ih_saddr (mkIph (pk_saddr k) _ _)) with (pk_saddr k). change (ih_daddr (mkIph _ (pk_daddr k) _)) with (pk_daddr k).
  replace (20 + zlen (wire k) - 5 * 4 - pk_doff k * 4) with (zlen (pk_payload k)) by lia.
  destruct (Z.ltb_spec (20 + zlen (wire k)) ((5 + pk_doff k) * 4)); [lia|].
  assert (u16 (pk_doff k * 4 + zlen (pk_payload k)) = zlen (wire k)) as -> by (unfold u16; rewrite Z.mod_small; lia).
  assert (negb (@hw_checksum E2) && negb (TCPCalcChecksum (wire k') (zlen (wire k)) (pk_saddr k) (pk_daddr k) =? 0) = false) as ->.
  { destruct (@hw_checksum E2) eqn:E; [done|]. destruct (@hw_checksum E1) eqn:E'; [by specialize (Hc eq_refl)|].
    unfold k'. rewrite (@wire_verifies E1) by done. reflexivity. }
  pose proof (wire_payload k' Hk') as Hr. rewrite Hdo, Hp in Hr. rewrite Hr.
  rewrite (bind_lift _ _ _ (pk_payload k)) by done. reflexivity.
Qed.

(** ** Building *)

(** The segment [k] that [SendTCPPacket] builds for stream [s]. *)
Record built_for (s : tcp_stream) (flags : Z) (d : list Z) (k : tcp_packet) : Prop := {
  bf_flow : (pk_saddr k, pk_daddr k, pk_sport k, pk_dport k) = (saddr s, daddr s, sport s, dport s);
  bf_seq : pk_seq k = seg_seq s flags;
  bf_ack : pk_ack k = if has flags TCP_FLAG_ACK then rcv_nxt s else 0;
  bf_flags : (pk_syn k, pk_rst k, pk_ackf k) = (has flags TCP_FLAG_SYN, has flags TCP_FLAG_RST, has flags TCP_FLAG_ACK);
  bf_fin : pk_fin k = negb (has flags TCP_FLAG_WACK) && has flags TCP_FLAG_FIN;
  bf_payload : pk_payload k = d;
  bf_header : fits_header k
}.

(** The fields of a stream are those of the C structure. *)
Record in_width (s : tcp_stream) : Prop := {
  iw_addrs : 0 <= saddr s < 4294967296 /\ 0 <= daddr s < 4294967296;
  iw_ports : 0 <= sport s < 65536 /\ 0 <= dport s < 65536;
  iw_seqs : 0 <= snd_nxt s < 4294967296 /\ 0 <= rcv_nxt s < 4294967296 /\ 0 <= fss (sndvar s) < 4294967296;
  iw_mss : mss (sndvar s) < 64900;
  iw_wscale : 0 <= wscale_mine (sndvar s) < 256
}.

Lemma seg_seq_range s flags : in_width s -> 0 <= seg_seq s flags < 4294967296.
Proof. intros []. unfold seg_seq. destruct (has _ _); [apply u32_range|]. destruct (has _ _); lia. Qed.

Lemma bytes_be32 x : bytes_ok (be32 x).
Proof. unfold be32. repeat (apply Forall_cons_2; [apply Z.mod_pos_bound; lia|]). apply Forall_nil_2. Qed.

Lemma options_bytes s ts flags optlen os :
  in_width s -> GenerateTCPOptions s ts flags optlen = Ok os -> bytes_ok os /\ zlen os = optlen.
Proof.
  intros [_ _ _ _ Hw]. unfold GenerateTCPOptions. cbv zeta.
  match goal with |- context [zlen ?l =? _] => destruct (Z.eqb_spec (zlen l) optlen) as [E|]; [|done] end.
  intros [= <-]. split; [|done]. clear E. unfold GenerateTCPTimestamp. pose proof (bytes_be32 ts). pose proof (bytes_be32 (ts_recent (rcvvar s))).
  destruct (has flags TCP_FLAG_SYN); cbn [app]; repeat (apply Forall_cons_2; [first [apply Z.mod_pos_bound; lia|vm_compute; split; congruence|idtac]|]);
    repeat (apply Forall_app_2; [done|]); repeat (apply Forall_cons_2; [first [vm_compute; split; congruence|lia]|]); done.
Qed.

Section build.
Context `{Env}.

Lemma wp_any {A} (c : M A) (Q : A -> mtcp_manager -> Prop) m : (forall a m', Q a m') -> wp (fun _ => True) c Q m.
Proof. intros HQ. unfold wp. destruct (c m) as [[a m']|e]; auto. Qed.

Lemma UpdateTimeoutList_tx p : same tx (UpdateTimeoutList p).
Proof. unfold UpdateTimeoutList. frame. Qed.
Lemma AddtoRTOList_tx p : same tx (AddtoRTOList p).
Proof. unfold AddtoRTOList, upd_slot. frame. Qed.

(** A result is the number of sequence numbers used, and a segment is the
    last frame written. *)
Lemma SendTCPPacket_built p ts flags d m s :
  streams m !! p = Some s -> in_width s -> bytes_ok d ->
  wp (fun _ => True) (SendTCPPacket p ts flags d) (fun r m' => r < 0 \/
    exists T eidx haddr k, tx m' = T ++ [TcpFrame eidx haddr (with_checksum (zlen (wire k)) k)] /\ built_for s flags d k) m.
Proof.
  intros Hp Hw Hd. unfold SendTCPPacket. apply wp_bind. eapply wp_get_stream; [exact Hp|]. apply wp_bind, wp_lift; [|done].
  intros optlen Ho. cbv zeta. destruct (Z.ltb_spec (mss (sndvar s)) (zlen d + optlen)); [apply wp_ret; left; lia|].
  apply wp_bind, wp_any. intros o m1. destruct o as [[[eidx haddr] id]|]; [|apply wp_ret; left; lia].
  apply wp_bind, wp_any. intros _ m2. apply wp_bind, wp_any. intros _ m3. apply wp_bind, wp_any. intros _ m4.
  apply wp_bind, wp_lift; [|done]. intros os Hos. destruct (options_bytes _ _ _ _ _ Hw Hos) as [Hob Hol].
  match goal with |- context [with_checksum _ ?k0] => set (k := k0) end.
  assert (zlen (wire k) = TCP_HEADER_LEN + optlen + zlen d) as <- by (rewrite wire_len; simpl; unfold TCP_HEADER_LEN; lia).
  assert (Hopt : optlen = 12 \/ optlen = 20).
  { revert Ho. unfold CalculateOptionLength. destruct (has flags TCP_FLAG_SYN); intros [= <-]; auto. }
  assert (Hk : built_for s flags d k).
  { split; try done. destruct Hw. pose proof (seg_seq_range s flags ltac:(by split)) as Hsq.
    split; simpl; try done.
    - split; [done|]. destruct (has flags TCP_FLAG_ACK); lia.
    - unfold u16. apply Z.mod_pos_bound. lia.
    - rewrite Hol. unfold TCP_HEADER_LEN. destruct Hopt as [-> | ->]; vm_compute; repeat split; congruence.
    - pose proof (zlen_nonneg d). lia. }
  clearbody k. apply wp_bind. unfold emit. apply wp_modify.
  set (T := tx m4 ++ [TcpFrame eidx haddr (with_checksum (zlen (wire k)) k)]). pose proof (AddtoRTOList_tx p) as Hrto.
  eapply wp_mono with (Q := fun _ m' => tx m' = T); [|intros r m' Hm'; right; by eexists _, _, _, k].
  match goal with |- wp _ ?c _ _ => assert (keeps (fun _ => True) (fun m => tx m = T) c) as Hkeep by frame end.
  by apply Hkeep.
Qed.
End build.

(** C8: A segment that one stack sends is understood by the other. Whatever
    [SendTCPPacket] is asked to send for a stream, when it reports success
    the last frame it has written is a segment of the stream's flow with the
    sequence number, acknowledgement, flags and payload asked for; and the
    peer's [ProcessTCPPacket], given the bytes of the segment behind the IP
    header, accepts its length and checksum and goes on with exactly the
    fields and the payload that were sent. The peer's card checks checksums if
    the sender's computes them. *)
Theorem segment_understood (E1 E2 : Env) p ts flags d m s r m' :
  streams m !! p = Some s -> in_width s -> bytes_ok d -> (@hw_checksum E1 = true -> @hw_checksum E2 = true) ->
  @SendTCPPacket E1 p ts flags d m = Ok (r, m') -> 0 <= r ->
  exists eidx haddr k, last (tx m') = Some (TcpFrame eidx haddr k) /\ built_for s flags d k /\
    forall cur_ts peer,
      @ProcessTCPPacket E2 cur_ts (mkIph (saddr s) (daddr s) 5) (20 + zlen (wire k)) (wire k) peer =
      @receive E2 cur_ts (mkIph (saddr s) (daddr s) 5) (header_of k) d peer.
Proof.
  intros Hp Hw Hd Hc Hs Hr. pose proof (wp_result _ _ _ _ _ (@SendTCPPacket_built E1 p ts flags d m s Hp Hw Hd) Hs) as Hb.
  destruct Hb as [?|(T & eidx & haddr & k & Ht & Hk)]; [lia|].
  destruct (@with_checksum_same E1 (zlen (wire k)) k) as (Hf & Hb & Hh & Hpl & Hsa & Hda & Hfit).
  exists eidx, haddr, (@with_checksum E1 (zlen (wire k)) k). split; [by rewrite Ht, last_snoc|].
  assert (Hl : zlen (wire (@with_checksum E1 (zlen (wire k)) k)) = zlen (wire k)) by (unfold wire at 1; rewrite Hf, Hb; unfold wire; by rewrite !zlen_app).
  split.
  - unfold with_checksum. destruct hw_checksum; [done|]. destruct Hk. split; try done. by destruct bf_header0; split.
  - intros cur peer. rewrite Hl, Hh. destruct Hk as [Hfl _ _ _ _ Hpay Hfh]. injection Hfl as Hs1 Hd1 _ _.
    rewrite <- Hs1, <- Hd1, <- Hpay. by apply wire_received.
Qed.

Import Demo.

(** The sample configuration with checksums in software. *)
Definition soft : Env := {|
  tcp_timewait := tcp_timewait; tcp_timeout := tcp_timeout; sndbuf_size := sndbuf_size; max_concurrency := max_concurrency;
  eths := eths; nif_to_eidx := nif_to_eidx; rtable := rtable; gateway := gateway; arp_capacity := arp_capacity;
  rand_r := rand_r; fresh_mem := fresh_mem; hw_checksum := false; cpu := cpu; num_cpus := num_cpus; num_queues := num_queues;
  endian_check := endian_check |}.
Definition m_sent : mtcp_manager :=
  match @SendTCPPacket soft p1 9 TCP_FLAG_ACK [3; 4] m_send with Ok (_, m') => m' | Fault _ => m_send end.

Lemma segment_understood_witness :
  exists eidx haddr k, last (tx m_sent) = Some (TcpFrame eidx haddr k) /\ built_for (with_data s1) TCP_FLAG_ACK [3; 4] k /\
    forall cur_ts peer,
      @ProcessTCPPacket soft cur_ts (mkIph 16777226 33554442 5) (20 + zlen (wire k)) (wire k) peer =
      @receive soft cur_ts (mkIph 16777226 33554442 5) (header_of k) [3; 4] peer.
Proof.
  apply (segment_understood soft soft p1 9 TCP_FLAG_ACK [3; 4] m_send (with_data s1) 2 m_sent).
  - apply lookup_insert_eq.
  - split; vm_compute; repeat split; congruence.
  - repeat (apply Forall_cons_2; [lia|]). apply Forall_nil_2.
  - done.
  - unfold m_sent. vm_compute. reflexivity.
  - lia.
Defined.
