(* ===== verification/SendPath.v ===== *)
(** * From the application's buffers to segments

    [mtcp_write] and [mtcp_writev] copy the bytes of the application into the
    send buffer as far as there is room; the buffer then holds the bytes it
    held before, followed by those. [FlushTCPSendingBuffer] sends them in this
    order. *)

From S2P Require Import Prelude SeqNum SpscQueue MemPool RingBuffer SendBuffer AddrPool Rss Checksum.
From S2P Require Import Machine Wp Lists TcpOptions FlowTable Network Faults StreamOps Invariant Boot StreamInv Live.
From S2P Require Import TcpOut SafeOut SendWindow Sockets Api ApiData.

(** The send buffer [b] of [s] holds the bytes [c], and the room left is what
    the stream advertises to the application. *)
Definition holds_bytes (s : tcp_stream) (b : tcp_send_buffer) (c : list Z) : Prop :=
  sndbuf (sndvar s) = Some b /\ sb_rep b c /\ snd_wnd (sndvar s) = sb_size b - zlen c.

(** What writing does not change in a stream. *)
Definition unwritten (s : tcp_stream) :=
  (snd_una (sndvar s), cwnd (sndvar s), peer_wnd (sndvar s), mss (sndvar s), snd_nxt s,
   (is_external s, saddr s, daddr s, sport s, dport s)).

(** Only the first [n] bytes of the source are read. *)
Lemma SBPut_prefix b buf n : 0 <= n <= zlen buf -> SBPut b buf n = SBPut b (take (Z.to_nat n) buf) n.
Proof.
  intros Hn. unfold SBPut. destruct (n <=? 0); [done|]. destruct (_ <=? 0); [done|].
  rewrite take_take, Nat.min_l by lia. done.
Qed.

(** All bytes of a list of buffers; each comes with its length. *)
Definition gather (iov : list (list Z * Z)) : list Z := concat iov.*1.
Definition iov_ok (iov : list (list Z * Z)) : Prop := Forall (fun v => zlen (fst v) = snd v /\ snd v < 2147483648) iov.

Section write.
Context `{Env} `{!NetOk} (p : ptr).
Implicit Types (m : mtcp_manager) (s : tcp_stream) (l : list tcp_packet).

(** The buffer after a write of [d], and the rest of the stream. *)
Definition appended s b c (d : list Z) l m : Prop :=
  exists s' b', sending p m s' l /\ holds_bytes s' b' (c ++ d) /\ unwritten s' = unwritten s /\
    sb_size b' = sb_size b /\ sb_head_seq b' = sb_head_seq b.

Lemma CopyFromUser_appends m s l b c buf :
  sending p m s l -> holds_bytes s b c -> 0 < zlen buf < 2147483648 ->
  let k := Z.min (zlen buf) (sb_size b - zlen c) in
  wp no_fault (CopyFromUser p buf (zlen buf))
    (fun r m' => r = (if k =? 0 then Fail (Some EAGAIN) else Done k) /\ appended s b c (take (Z.to_nat k) buf) l m') m.
Proof.
  intros Hm Hh0 Hn k. pose proof Hh0 as (Hb & Hr & Hwnd). pose proof (sb_rep_len _ _ Hr) as Hl. pose proof Hr as (Hsz & _ & _ & _ & Hlen & _).
  unfold CopyFromUser. apply wp_bind. eapply wp_get_stream; [apply Hm|]. rewrite Hwnd, s32_small by lia.
  rewrite Z.min_comm. fold k. unfold check. destruct (Z.leb_spec k 0), (Z.eqb_spec k 0); try lia.
  { apply wp_ret. split; [done|]. replace k with 0 by lia. exists s, b. simpl. rewrite app_nil_r. by split_and!. }
  apply wp_bind. unfold ensure_sndbuf. apply wp_bind. eapply wp_get_stream; [apply Hm|]. rewrite Hb. apply wp_ret.
  rewrite SBPut_prefix by lia. destruct (SBPut_ok b c (take (Z.to_nat k) buf) Hr) as (b' & E & Hr' & Hh & _ & Hs').
  rewrite zlen_take in * by lia. rewrite Z.min_l in * by lia. rewrite take_take, Nat.min_id in Hr'.
  destruct (Z.eqb_spec k 0); [lia|]. apply wp_bind, wp_lift; [|by rewrite E]. intros [r b1] E'. rewrite E in E'. injection E' as <- <-.
  rewrite s32_small by lia. apply wp_bind. unfold assert. rewrite Z.eqb_refl. apply wp_ret.
  unfold upd_snd. eapply wp_update; [exact Hm|solve_quiet|]. intros _ m' Hm'. destruct (Z.leb_spec k 0); [lia|]. apply wp_ret.
  split; [done|]. eexists _, b'. split; [exact Hm'|]. split; [|done].
  split_and!; [done..|]. pose proof Hr' as (_ & _ & _ & _ & Hlen' & _). simpl. rewrite Hlen'. apply u32_small.
  rewrite zlen_app, zlen_take by lia. lia.
Qed.

(** The loop of [mtcp_writev]: everything, or as much as there is room for. *)
Lemma writev_loop_appends iov : iov_ok iov -> forall m s l b c acc,
  sending p m s l -> holds_bytes s b c ->
  let k := Z.min (zlen (gather iov)) (sb_size b - zlen c) in
  wp no_fault (writev_loop p iov acc)
    (fun r m' => r = acc + k /\ appended s b c (take (Z.to_nat k) (gather iov)) l m') m.
Proof.
  unfold gather, iov_ok. induction 1 as [|[buf n] iov [Hn Hlt] Hiov IH]; intros m s l b c acc Hm Hh;
    match goal with |- context [Z.min (zlen (concat ?d)) ?x] => set (k := Z.min (zlen (concat d)) x) end.
  all: pose proof Hh as (Hb & Hr & Hwnd); pose proof (sb_rep_len _ _ Hr) as Hl.
  { apply wp_ret. assert (k = 0) as -> by (unfold k; simpl; change (zlen []) with 0; lia). split; [lia|]. exists s, b. rewrite app_nil_r. by split_and!. }
  cbn [writev_loop]. simpl in Hn, Hlt. subst n. change (concat ((buf, zlen buf) :: iov).*1) with (buf ++ concat iov.*1) in k |- *.
  pose proof (zlen_nonneg buf). pose proof (zlen_nonneg (concat iov.*1)). 
  assert (Hk : k = Z.min (zlen buf + zlen (concat iov.*1)) (sb_size b - zlen c)) by (unfold k; by rewrite zlen_app). clearbody k.
  destruct (Z.leb_spec (zlen buf) 0).
  { assert (buf = []) as -> by (destruct buf; [done|rewrite zlen_cons in *; pose proof (zlen_nonneg buf); lia]).
    subst k. change (zlen (A := Z) []) with 0. by apply IH. }
  rewrite s32_small by lia. apply wp_bind. eapply wp_mono; [by apply (CopyFromUser_appends m s l b c buf)|].
  intros r m' [-> Ha]. set (k1 := Z.min (zlen buf) (sb_size b - zlen c)) in *.
  assert (Hk1 : k1 = Z.min (zlen buf) (sb_size b - zlen c)) by done. clearbody k1. destruct (Z.eqb_spec k1 0).
  { apply wp_ret. replace k with 0 by lia. replace k1 with 0 in Ha by lia. split; [lia|done]. }
  destruct (Z.leb_spec k1 0); [lia|]. destruct (Z.ltb_spec k1 (zlen buf)).
  { apply wp_ret. replace k with k1 by lia. split; [done|]. rewrite take_app_le; [done|]. unfold zlen in *. lia. }
  assert (Hroom : zlen buf <= sb_size b - zlen c) by lia. assert (k1 = zlen buf) as -> by lia.
  replace (take (Z.to_nat (zlen buf)) buf) with buf in Ha by (symmetry; apply take_ge; unfold zlen; lia).
  destruct Ha as (s1 & b1 & Hm1 & Hh1 & Hu1 & Hs1 & Hq1). eapply wp_mono; [by apply (IH m' s1 l b1 (c ++ buf))|].
  intros r m2 [-> (s2 & b2 & Hm2 & Hh2 & Hu2 & Hs2 & Hq2)]. rewrite Hs1, zlen_app in *.
  set (k2 := Z.min (zlen (concat iov.*1)) (sb_size b - (zlen c + zlen buf))) in *.
  assert (k = zlen buf + k2) as -> by (unfold k2; lia). split; [lia|].
  exists s2, b2. split_and!; try done; try congruence.
  replace (take (Z.to_nat (zlen buf + k2)) (buf ++ concat iov.*1)) with (buf ++ take (Z.to_nat k2) (concat iov.*1)).
  - by rewrite app_assoc.
  - rewrite take_app_ge by (unfold zlen; lia). f_equal. f_equal. unfold zlen. lia.
Qed.
End write.

(** C7: What the application writes is what the stack sends. For a stream whose
    send buffer holds the bytes [c], of which the first [k] have been sent,
    the loop of [mtcp_writev] over any buffers of the application accepts all
    their bytes, or as many as the send buffer has room for, reports how many,
    and appends exactly those, in order. A call of [FlushTCPSendingBuffer] after
    it then writes segments that carry the bytes from [k] on, the old ones
    followed by the new, in order, without a gap and within the windows;
    neither step faults and the invariant holds. *)
Theorem written_is_sent `{Env} `{!NetOk} p s b c k iov ts m :
  wf m -> streams m !! p = Some s -> holds_bytes s b c -> iov_ok iov ->
  0 <= sb_head_seq b < 4294967296 -> snd_una (sndvar s) = sb_head_seq b ->
  0 <= k <= zlen c -> snd_nxt s = seq_at (sb_head_seq b) k ->
  12 < mss (sndvar s) < 65536 -> 0 <= cwnd (sndvar s) < 4294967296 -> 0 <= peer_wnd (sndvar s) < 2147483648 ->
  (is_external s = true -> is_Some gateway) ->
  let n := Z.min (zlen (gather iov)) (sb_size b - zlen c) in
  let c' := c ++ take (Z.to_nat n) (gather iov) in
  exists m1 s1 b1 r m2 l k', writev_loop p iov 0 m = Ok (n, m1) /\
    streams m1 !! p = Some s1 /\ holds_bytes s1 b1 c' /\
    FlushTCPSendingBuffer p ts m1 = Ok (r, m2) /\ wf m2 /\ packets m2 = packets m ++ l /\
    carries s1 b1 c' k l k' /\ k <= k' /\ (0 <= r -> k' = zlen c + n).
Proof.
  intros Hw Hp Hh Hiov Hsq Hu Hk Hn Hm Hc Hpw Hg n c'. pose proof Hh as (_ & Hr & _). pose proof (sb_rep_len _ _ Hr) as Hl.
  destruct (wp_returns _ _ _ (writev_loop_appends p iov Hiov m s (packets m) b c 0 ltac:(done) Hh))
    as (r0 & m1 & E1 & -> & s1 & b1 & (Hw1 & Hp1 & Ht1) & Hh1 & Hun & Hs1 & Hq1).
  fold n in E1, Hh1. fold c' in Hh1. pose proof Hh1 as (Hb1 & Hr1 & _).
  assert (snd_una (sndvar s1) = snd_una (sndvar s) /\ cwnd (sndvar s1) = cwnd (sndvar s) /\ peer_wnd (sndvar s1) = peer_wnd (sndvar s) /\
    mss (sndvar s1) = mss (sndvar s) /\ snd_nxt s1 = snd_nxt s /\ is_external s1 = is_external s) as (E2 & E3 & E4 & E5 & E6 & E7)
    by (unfold unwritten in Hun; split_and!; congruence).
  assert (Hn0 : 0 <= n) by (unfold n; pose proof (zlen_nonneg (gather iov)); lia).
  assert (Hz : zlen c' = zlen c + n) by (unfold c'; rewrite zlen_app, zlen_take; [done|unfold n in *; lia]).
  destruct (wp_returns _ _ _ (FlushTCPSendingBuffer_sends p s1 b1 c' k Hb1 Hr1 ltac:(lia) ltac:(congruence) ltac:(lia) ltac:(lia) ltac:(lia)
    ltac:(by rewrite E7) ts m1 Hw1 Hp1 ltac:(lia) ltac:(congruence))) as (r & m2 & Ef & l & k' & (s2 & (Hw2 & _ & Ht2) & _) & G1 & G2 & G3).
  exists m1, s1, b1, r, m2, l, k'. rewrite Ht1 in Ht2. split_and!; try done. intros Hr0. rewrite <- Hz. by apply G3.
Qed.

Import Demo.

(** Five bytes in the buffer, two of them sent, and room for three more: four
    bytes are written, of which three are taken. *)
Definition with_room (s : tcp_stream) : tcp_stream := with_data s <| sndvar; snd_wnd := 3 |>.
Definition m_room : mtcp_manager := m1 <| streams := <[p1 := with_room s1]> (streams m1) |>.
Definition iov2 : list (list Z * Z) := [([6; 7], 2); ([8; 9], 2)].

Lemma written_is_sent_witness :
  exists m1' s1' b1 r m2 l k', writev_loop p1 iov2 0 m_room = Ok (3, m1') /\
    streams m1' !! p1 = Some s1' /\ holds_bytes s1' b1 [1; 2; 3; 4; 5; 6; 7; 8] /\
    FlushTCPSendingBuffer p1 9 m1' = Ok (r, m2) /\ wf m2 /\ packets m2 = packets m_room ++ l /\
    carries s1' b1 [1; 2; 3; 4; 5; 6; 7; 8] 2 l k' /\ 2 <= k' /\ (0 <= r -> k' = 5 + 3).
Proof.
  apply (written_is_sent p1 (with_room s1) b_send [1; 2; 3; 4; 5] 2 iov2 9 m_room).
  - destruct m1_created as (Hw & _). apply (upd_stream_quiet m1 p1 with_room s1 Hw s1_eq); reflexivity.
  - apply lookup_insert_eq.
  - split_and!; [reflexivity|exact b_send_rep|reflexivity].
  - repeat (apply Forall_cons_2; [done|]). apply Forall_nil_2.
  - simpl. lia.
  - reflexivity.
  - change (zlen [1; 2; 3; 4; 5]) with 5. lia.
  - reflexivity.
  - vm_compute. done.
  - vm_compute. split; congruence.
  - vm_compute. split; congruence.
  - intros E. vm_compute in E. discriminate E.
Defined.
