(* ===== verification/HttpDate.v ===== *)
(** * Dates of HTTP headers: [util/tdate_parse.c]

    Strings are lists of character codes without the terminating zero.
    [sscanf], [snprintf], [qsort] and [gmtime_r] of the C library are modelled
    as far as the file uses them. A date printed by [timet_to_httpdate] is
    read back by [httpdate_to_timet], except in the years where the leap day
    of the year itself is computed from the wrong year number. *)

From Stdlib Require Import String Ascii.
From S2P Require Import Prelude.

Definition chars (s : string) : list Z := (fun c => Z.of_N (N_of_ascii c)) <$> list_ascii_of_string s.

(** ** Characters and [strcmp] *)

Definition isdigit (c : Z) : bool := (48 <=? c) && (c <=? 57).
Definition isupper (c : Z) : bool := (65 <=? c) && (c <=? 90).
Definition islower (c : Z) : bool := (97 <=? c) && (c <=? 122).
Definition isalpha (c : Z) : bool := isupper c || islower c.
Definition isspace (c : Z) : bool := (c =? 32) || ((9 <=? c) && (c <=? 13)).
Definition tolower (c : Z) : Z := if isupper c then c + 32 else c.

(** The upper-case letters of the string are replaced in place. *)
Definition pound_case (s : list Z) : list Z := tolower <$> s.

Fixpoint strcmp (a b : list Z) : Z :=
  match a, b with
  | [], [] => 0
  | [], _ :: _ => -1
  | _ :: _, [] => 1
  | x :: a, y :: b => if x <? y then -1 else if y <? x then 1 else strcmp a b
  end.

(** ** Tables of names *)

Definition strlong : Type := list Z * Z.
Definition strlong_compare (v1 v2 : strlong) : Z := strcmp (fst v1) (fst v2).

(** [qsort] by insertion. *)
Fixpoint qsort_insert (x : strlong) (l : list strlong) : list strlong :=
  match l with
  | [] => [x]
  | y :: l => if strlong_compare x y <=? 0 then x :: y :: l else y :: qsort_insert x l
  end.
Definition qsort (l : list strlong) : list strlong := foldr qsort_insert [] l.

(** The binary search; each round halves the part that is left. *)
Fixpoint search_loop (fuel : nat) (str : list Z) (tab : list strlong) (l h : Z) : res (option Z) :=
  match fuel with
  | O => Fault OutOfFuel
  | S fuel =>
      let i := Z.quot (h + l) 2 in
      let! e := from_option_res OutOfBounds (znth tab i) in
      let r := strcmp str (fst e) in
      if r =? 0 then Ok (Some (snd e))
      else
        let '(l, h) := if r <? 0 then (l, i - 1) else (i + 1, h) in
        if h <? l then Ok None else search_loop fuel str tab l h
  end.
Definition strlong_search (str : list Z) (tab : list strlong) : res (option Z) :=
  search_loop (S (length tab)) str tab 0 (zlen tab - 1).

Definition wday_tab : list strlong := (fun '(s, n) => (chars s, n)) <$>
  [("sun", 0); ("sunday", 0); ("mon", 1); ("monday", 1); ("tue", 2); ("tuesday", 2); ("wed", 3); ("wednesday", 3);
   ("thu", 4); ("thursday", 4); ("fri", 5); ("friday", 5); ("sat", 6); ("saturday", 6)]%string.
Definition mon_tab : list strlong := (fun '(s, n) => (chars s, n)) <$>
  [("jan", 0); ("january", 0); ("feb", 1); ("february", 1); ("mar", 2); ("march", 2); ("apr", 3); ("april", 3); ("may", 4);
   ("jun", 5); ("june", 5); ("jul", 6); ("july", 6); ("aug", 7); ("august", 7); ("sep", 8); ("september", 8);
   ("oct", 9); ("october", 9); ("nov", 10); ("november", 10); ("dec", 11); ("december", 11)]%string.

Definition scan_wday (str_wday : list Z) : res (option Z) := strlong_search (pound_case str_wday) (qsort wday_tab).
Definition scan_mon (str_mon : list Z) : res (option Z) := strlong_search (pound_case str_mon) (qsort mon_tab).

(** ** From broken-down time to seconds *)

Record tm := mkTm { tm_sec : Z; tm_min : Z; tm_hour : Z; tm_mday : Z; tm_mon : Z; tm_year : Z; tm_wday : Z }.

Definition is_leap (year : Z) : bool :=
  if Z.rem year 400 =? 0 then true else if Z.rem year 100 =? 0 then false else Z.rem year 4 =? 0.

Definition monthtab : list Z := [0; 31; 59; 90; 120; 151; 181; 212; 243; 273; 304; 334].

(** Arithmetic of type [int]. *)
Definition int (z : Z) : res Z :=
  if (-2147483648 <=? z) && (z <=? 2147483647) then Ok z else Fault SignedOverflow.

Definition tm_to_time (x : tm) : res Z :=
  let! y70 := int (tm_year x - 70) in
  let! t := int (y70 * 365) in
  let! y69 := int (tm_year x - 1 - 68) in
  let t := t + Z.quot y69 4 in
  let t := if 200 <? tm_year x then t - Z.quot (tm_year x - 1 - 100) 100 else t in
  let t := if 500 <? tm_year x then t + Z.quot (tm_year x - 1 - 100) 400 else t in
  let! d := from_option_res OutOfBounds (znth monthtab (tm_mon x)) in
  let t := t + d in
  let t := if (2 <=? tm_mon x) && is_leap (tm_year x) then t + 1 else t in
  let! md := int (tm_mday x - 1) in
  let t := t + md in
  let t := t * 24 + tm_hour x in
  let t := t * 60 + tm_min x in
  Ok (t * 60 + tm_sec x).

(** ** [sscanf]

    White space in the format matches any amount of it; [%d] skips white
    space, the conversion of a word does not. The result are the values assigned before the
    first mismatch. A word is stored in an array of 500 characters. *)

Inductive conv := Int | Word | Lit (c : Z) | Space.
Inductive value := VInt (z : Z) | VWord (w : list Z).

Fixpoint span (p : Z -> bool) (l : list Z) : list Z * list Z :=
  match l with
  | c :: l' => if p c then let '(a, b) := span p l' in (c :: a, b) else ([], l)
  | [] => ([], [])
  end.

Definition decimal (ds : list Z) : Z := foldl (fun n c => n * 10 + (c - 48)) 0 ds.

(** [strtol] saturates, and the result is stored in an [int]. *)
Definition to_int (z : Z) : Z := s32 (Z.max (- 9223372036854775808) (Z.min 9223372036854775807 z)).

Definition scan_int (l : list Z) : option (Z * list Z) :=
  let l := snd (span isspace l) in
  let '(sign, l) := match l with
                    | 45 :: l => (-1, l)
                    | 43 :: l => (1, l)
                    | _ => (1, l)
                    end in
  match span isdigit l with
  | ([], _) => None
  | (ds, l) => Some (to_int (sign * decimal ds), l)
  end.

Definition WORD_SIZE : Z := 500.

Fixpoint sscanf (l : list Z) (fmt : list conv) : res (list value) :=
  match fmt with
  | [] => Ok []
  | Space :: fmt => sscanf (snd (span isspace l)) fmt
  | Lit c :: fmt =>
      match l with
      | x :: l => if x =? c then sscanf l fmt else Ok []
      | [] => Ok []
      end
  | Int :: fmt =>
      match scan_int l with
      | Some (z, l) => let! vs := sscanf l fmt in Ok (VInt z :: vs)
      | None => Ok []
      end
  | Word :: fmt =>
      match span isalpha l with
      | ([], _) => Ok []
      | (w, l) =>
          if WORD_SIZE <=? zlen w then Fault OutOfBounds
          else let! vs := sscanf l fmt in Ok (VWord w :: vs)
      end
  end.

Definition GMT : list conv := Space :: (Lit <$> chars "GMT").
Definition clock : list conv := [Int; Lit 58; Int; Lit 58; Int].
(** Day, month and year, separated by [sep]. *)
Definition date (sep : conv) : list conv := [Int; sep; Word; sep; Int].
Definition dash : conv := Lit 45.

(** ** Reading a date *)

(** The tests of one format: the words are looked up when all seven, or six,
    values are there. *)
Definition with_mon (w : list Z) (k : Z -> tm) : res (option tm) :=
  let! o := scan_mon w in Ok (k <$> o).
Definition with_wday_mon (wd w : list Z) (k : Z -> Z -> tm) : res (option tm) :=
  let! o := scan_wday wd in
  match o with
  | None => Ok None
  | Some d => with_mon w (k d)
  end.

Definition try1 (sep : conv) (cp : list Z) : res (option tm) :=
  let! vs := sscanf cp (date sep ++ Space :: clock ++ GMT) in
  match vs with
  | [VInt d; VWord w; VInt y; VInt h; VInt mi; VInt s] => with_mon w (fun mo => mkTm s mi h d mo y 0)
  | _ => Ok None
  end.
Definition try2 (sep : conv) (cp : list Z) : res (option tm) :=
  let! vs := sscanf cp (clock ++ GMT ++ Space :: date sep) in
  match vs with
  | [VInt h; VInt mi; VInt s; VInt d; VWord w; VInt y] => with_mon w (fun mo => mkTm s mi h d mo y 0)
  | _ => Ok None
  end.
Definition try3 (sep : conv) (cp : list Z) : res (option tm) :=
  let! vs := sscanf cp (Word :: Lit 44 :: Space :: date sep ++ Space :: clock ++ GMT) in
  match vs with
  | [VWord wd; VInt d; VWord w; VInt y; VInt h; VInt mi; VInt s] => with_wday_mon wd w (fun wd mo => mkTm s mi h d mo y wd)
  | _ => Ok None
  end.
Definition try4 (cp : list Z) : res (option tm) :=
  let! vs := sscanf cp (Word :: Space :: Word :: Space :: Int :: Space :: clock ++ GMT ++ [Space; Int]) in
  match vs with
  | [VWord wd; VWord w; VInt d; VInt h; VInt mi; VInt s; VInt y] => with_wday_mon wd w (fun wd mo => mkTm s mi h d mo y wd)
  | _ => Ok None
  end.

Fixpoint first_match (l : list (list Z -> res (option tm))) (cp : list Z) : res (option tm) :=
  match l with
  | [] => Ok None
  | f :: l => let! o := f cp in match o with Some x => Ok (Some x) | None => first_match l cp end
  end.

(** Two-digit years. *)
Definition full_year (y : Z) : Z := if 1900 <? y then y - 1900 else if y <? 70 then y + 100 else y.

Definition httpdate_to_timet (str : list Z) : res Z :=
  let cp := snd (span (fun c => (c =? 32) || (c =? 9)) str) in
  let! o := first_match [try1 dash; try1 Space; try2 dash; try2 Space; try3 dash; try3 Space; try4] cp in
  match o with
  | None => Ok (-1)
  | Some x => tm_to_time (mkTm (tm_sec x) (tm_min x) (tm_hour x) (tm_mday x) (tm_mon x) (full_year (tm_year x)) (tm_wday x))
  end.

(** ** Printing a date *)

(** The Gregorian calendar: leap years, and the days from the epoch to the
    first of January. *)
Definition leap (y : Z) : bool := if y mod 400 =? 0 then true else if y mod 100 =? 0 then false else y mod 4 =? 0.
Definition days_before (y : Z) : Z := 365 * (y - 1970) + ((y - 1) / 4 - (y - 1) / 100 + (y - 1) / 400 - 477).
Definition year_days (y : Z) : Z := if leap y then 366 else 365.

(** The year of a day, walking from year [y], and the day of that year. *)
Fixpoint find_year (fuel : nat) (y d : Z) : Z * Z :=
  match fuel with
  | O => (y, d)
  | S fuel => if d <? year_days y then (y, d) else find_year fuel (y + 1) (d - year_days y)
  end.

Definition month_days (y : Z) : list Z := [31; if leap y then 29 else 28; 31; 30; 31; 30; 31; 31; 30; 31; 30; 31].
Fixpoint find_month (l : list Z) (mo d : Z) : Z * Z :=
  match l with
  | [] => (mo, d)
  | n :: l => if d <? n then (mo, d) else find_month l (mo + 1) (d - n)
  end.

(** [gmtime_r]; the calendar repeats every 400 years of 146097 days, and
    1600 begins 135140 days before the epoch. There is no result when the
    year does not fit an [int]. *)
Definition gmtime_r (t : Z) : option tm :=
  let days := t / 86400 in
  let s := t mod 86400 in
  let '(y, d) := find_year 400 (1600 + 400 * ((days + 135140) / 146097)) ((days + 135140) mod 146097) in
  let '(mo, d) := find_month (month_days y) 0 d in
  if (-2147483648 <=? y - 1900) && (y - 1900 <=? 2147483647)
  then Some (mkTm (s mod 60) (s / 60 mod 60) (s / 3600) (d + 1) mo (y - 1900) ((days + 4) mod 7))
  else None.

(** The conversions [%02d] and [%4d]; only the year, padded with spaces, can
    be negative. *)
Fixpoint digits (fuel : nat) (n : Z) : list Z :=
  match fuel with
  | O => []
  | S fuel => if n <? 10 then [48 + n] else digits fuel (n / 10) ++ [48 + n mod 10]
  end.
Definition pad (w : nat) (c : Z) (n : Z) : list Z :=
  let ds := if n <? 0 then 45 :: digits 20 (- n) else digits 20 n in
  replicate (w - length ds) c ++ ds.

Definition day_of_week : list (list Z) := chars <$> ["Sun"; "Mon"; "Tue"; "Wed"; "Thu"; "Fri"; "Sat"]%string.
Definition months : list (list Z) := chars <$> ["Jan"; "Feb"; "Mar"; "Apr"; "May"; "Jun"; "Jul"; "Aug"; "Sep"; "Oct"; "Nov"; "Dec"]%string.

Definition date_text (g : tm) (year : Z) (wd mo : list Z) : list Z :=
  wd ++ 44 :: 32 :: pad 2 48 (tm_mday g) ++ 32 :: mo ++ 32 :: pad 4 32 year ++ 32 ::
  pad 2 48 (tm_hour g) ++ 58 :: pad 2 48 (tm_min g) ++ 58 :: pad 2 48 (tm_sec g) ++ chars " GMT".

(** [snprintf(str, size, ...)] writes at most [size - 1] characters and the
    terminating zero, or nothing; it returns the length of the whole text. *)
Definition snprintf (size : Z) (text : list Z) : Z * option (list Z) :=
  (zlen text, if size =? 0 then None else Some (take (Z.to_nat (size - 1)) text)).

(** The result, and the string written to [str] if there is one. The size is
    converted to [size_t]. *)
Definition timet_to_httpdate (t strlen : Z) : res (Z * option (list Z)) :=
  match gmtime_r t with
  | None => Ok (-1, None)
  | Some gm =>
      let! wd := from_option_res OutOfBounds (znth day_of_week (tm_wday gm)) in
      let! mo := from_option_res OutOfBounds (znth months (tm_mon gm)) in
      let! year := int (tm_year gm + 1900) in
      let '(n, str) := snprintf (u64 strlen) (date_text gm year wd mo) in
      Ok (if n =? strlen then -1 else 0, str)
  end.

(** ** The calendar *)

Lemma days_before_step y : days_before (y + 1) = days_before y + year_days y.
Proof.
  unfold days_before, year_days, leap.
  destruct (Z.eqb_spec (y mod 400) 0), (Z.eqb_spec (y mod 100) 0), (Z.eqb_spec (y mod 4) 0);
    Z.to_euclidean_division_equations; lia.
Qed.

Lemma year_days_pos y : 365 <= year_days y <= 366.
Proof. unfold year_days. case_match; lia. Qed.

Lemma find_year_spec fuel : forall y d,
  0 <= d < days_before (y + Z.of_nat fuel) - days_before y ->
  let '(y', d') := find_year fuel y d in
  y <= y' /\ 0 <= d' < year_days y' /\ days_before y' + d' = days_before y + d.
Proof.
  induction fuel as [|fuel IH]; intros y d Hd; simpl.
  - replace (y + Z.of_nat 0) with y in Hd by lia. lia.
  - destruct (Z.ltb_spec d (year_days y)); [lia|].
    specialize (IH (y + 1) (d - year_days y)). pose proof (days_before_step y).
    replace (y + 1 + Z.of_nat fuel) with (y + Z.of_nat (S fuel)) in IH by lia.
    destruct (find_year _ _ _) as [y' d']. destruct IH as (?&?&?); lia.
Qed.

Lemma days_before_cycle k : days_before (1600 + 400 * k) = 146097 * k - 135140.
Proof. unfold days_before. Z.to_euclidean_division_equations; lia. Qed.

(** The first day of a month in its year. *)
Definition month_start (y mo : Z) : option Z :=
  (fun d => if (2 <=? mo) && leap y then d + 1 else d) <$> znth monthtab mo.

Lemma find_month_spec y d :
  0 <= d < year_days y ->
  let '(mo, d') := find_month (month_days y) 0 d in
  0 <= mo < 12 /\ 0 <= d' < 31 /\ (mo = 1 -> d' < 29) /\ month_start y mo = Some (d - d').
Proof.
  unfold year_days, month_days, month_start. intros Hd. destruct (leap y); cbn [find_month];
    repeat (match goal with |- context [if ?a <? ?b then _ else _] => destruct (Z.ltb_spec a b) end);
    try lia; (split_and!; [lia..|]);
    match goal with |- ?l = _ => let v := eval vm_compute in l in change l with v end; f_equal; lia.
Qed.

(** The second of a broken-down time. *)
Definition seconds (g : tm) : option Z :=
  (fun d => ((days_before (tm_year g + 1900) + d + (tm_mday g - 1)) * 24 + tm_hour g) * 3600 + tm_min g * 60 + tm_sec g)
  <$> month_start (tm_year g + 1900) (tm_mon g).

Definition in_ranges (g : tm) : Prop :=
  0 <= tm_sec g < 60 /\ 0 <= tm_min g < 60 /\ 0 <= tm_hour g < 24 /\ 1 <= tm_mday g <= 31 /\
  0 <= tm_mon g < 12 /\ 70 <= tm_year g <= 8099 /\ 0 <= tm_wday g < 7 /\ (tm_mon g = 1 -> tm_mday g <= 29).

Lemma days_before_mono y y' : y <= y' -> days_before y <= days_before y'.
Proof.
  intros H. replace y' with (y + (y' - y)) by lia. generalize (y' - y) (Zle_minus_le_0 _ _ H).
  apply natlike_ind; [by rewrite Z.add_0_r|].
  intros k ? IH. replace (y + Z.succ k) with (y + k + 1) by lia. rewrite days_before_step.
  pose proof (year_days_pos (y + k)). lia.
Qed.

(** A day between the first days of two years lies in a year between them. *)
Lemma year_bounds a b y d :
  days_before a <= days_before y + d < days_before b -> 0 <= d < year_days y -> a <= y < b.
Proof.
  intros Ht Hd. pose proof (days_before_step y). split; [apply Z.le_ngt|apply Z.nle_gt]; intros Hn.
  - pose proof (days_before_mono (y + 1) a). lia.
  - pose proof (days_before_mono b y). lia.
Qed.

(** The last second of the year 9999 is the last one printed with four digits. *)
Definition last_second : Z := 253402300799.

Lemma gmtime_spec t : 0 <= t <= last_second -> exists g, gmtime_r t = Some g /\ in_ranges g /\ seconds g = Some t.
Proof.
  unfold last_second. intros Ht. unfold gmtime_r.
  set (days := t / 86400). set (k := (days + 135140) / 146097). set (r := (days + 135140) mod 146097).
  assert (Hk : days + 135140 = 146097 * k + r /\ 0 <= r < 146097)
    by (subst k r; Z.to_euclidean_division_equations; lia).
  assert (Hdays : 0 <= days < 2932897) by (subst days; Z.to_euclidean_division_equations; lia).
  pose proof (find_year_spec 400 (1600 + 400 * k) r) as Hy.
  replace (1600 + 400 * k + Z.of_nat 400) with (1600 + 400 * (k + 1)) in Hy by lia.
  rewrite !days_before_cycle in Hy. destruct (find_year _ _ _) as [y d].
  destruct Hy as (?&Hd&Hyd); [lia|].
  pose proof (find_month_spec y d Hd) as Hm. destruct (find_month _ _ _) as [mo d'].
  destruct Hm as (?&?&?&Hm). assert (1970 <= y < 10000) by (apply year_bounds with d; [|done]; change (days_before 1970) with 0;
    change (days_before 10000) with 2932897; lia).
  rewrite (proj2 (andb_true_iff _ _)) by (split; apply Z.leb_le; lia).
  eexists. split; [done|]. unfold in_ranges, seconds. simpl.
  replace (y - 1900 + 1900) with y by lia. rewrite Hm. simpl. subst days.
  split; [split_and!; Z.to_euclidean_division_equations; lia|].
  f_equal. Z.to_euclidean_division_equations; lia.
Qed.

(** The days by which [tm_to_time] is off: the leap day of the year itself is
    decided on the number of years since 1900. *)
Definition leap_error (g : tm) : Z :=
  if 2 <=? tm_mon g then Z.b2z (is_leap (tm_year g)) - Z.b2z (leap (tm_year g + 1900)) else 0.

Lemma leap_days y :
  70 <= y ->
  (y - 70) * 365 + Z.quot (y - 1 - 68) 4
    - (if 200 <? y then Z.quot (y - 1 - 100) 100 else 0) + (if 500 <? y then Z.quot (y - 1 - 100) 400 else 0)
  = days_before (y + 1900).
Proof.
  intros. unfold days_before. rewrite Z.quot_div_nonneg by lia.
  destruct (Z.ltb_spec 200 y), (Z.ltb_spec 500 y); rewrite ?Z.quot_div_nonneg by lia;
    Z.to_euclidean_division_equations; lia.
Qed.

Lemma int_ok z : -2147483648 <= z <= 2147483647 -> int z = Ok z.
Proof. intros. unfold int. by rewrite (proj2 (andb_true_iff _ _)) by (split; apply Z.leb_le; lia). Qed.

Lemma tm_to_time_spec g t : in_ranges g -> seconds g = Some t -> tm_to_time g = Ok (t + 86400 * leap_error g).
Proof.
  intros (?&?&?&?&?&?&?&?) Hs. unfold seconds, month_start in Hs.
  destruct (znth monthtab (tm_mon g)) as [d|] eqn:Hd; [|done]. simpl in Hs. injection Hs as <-.
  unfold tm_to_time. rewrite !int_ok by lia. cbn [res_bind]. rewrite int_ok by lia.
  cbn [res_bind]. rewrite Hd. cbn [res_bind from_option_res].
  pose proof (leap_days (tm_year g) ltac:(lia)). f_equal. unfold leap_error.
  destruct (2 <=? tm_mon g), (200 <? tm_year g), (500 <? tm_year g), (is_leap (tm_year g)), (leap (tm_year g + 1900));
    simpl in *; lia.
Qed.

Lemma leap_error_zero g : 70 <= tm_year g -> tm_mon g < 2 \/ tm_year g mod 100 <> 0 -> leap_error g = 0.
Proof.
  intros Hy H. unfold leap_error. destruct (Z.leb_spec 2 (tm_mon g)); [|done].
  destruct H as [?|H]; [lia|]. unfold is_leap, leap. rewrite !Z.rem_mod_nonneg by lia.
  repeat match goal with |- context [?a =? 0] => destruct (Z.eqb_spec a 0) end; simpl;
    Z.to_euclidean_division_equations; lia.
Qed.

(** ** Reading back what was printed *)

Lemma span_app p w l :
  forallb p w = true -> match l with c :: _ => p c = false | [] => True end -> span p (w ++ l) = (w, l).
Proof.
  intros Hw Hl. induction w as [|c w IH]; simpl in *.
  - destruct l as [|c l]; simpl; [done|]. by rewrite Hl.
  - apply andb_true_iff in Hw as [-> Hw]. by rewrite (IH Hw).
Qed.

Lemma pad_2 n : 0 <= n < 100 -> pad 2 48 n = [48 + n / 10; 48 + n mod 10].
Proof.
  intros. unfold pad. destruct (Z.ltb_spec n 0); [lia|]. cbn [digits].
  destruct (Z.ltb_spec n 10).
  - cbn -[Z.div Z.modulo Z.add]. rewrite Z.div_small, Z.mod_small by lia. done.
  - destruct (Z.ltb_spec (n / 10) 10); [done|]. Z.to_euclidean_division_equations; lia.
Qed.

Lemma pad_4 n : 1000 <= n <= 9999 -> pad 4 32 n = [48 + n / 1000; 48 + n / 100 mod 10; 48 + n / 10 mod 10; 48 + n mod 10].
Proof.
  intros. unfold pad. destruct (Z.ltb_spec n 0); [lia|]. cbn [digits].
  destruct (Z.ltb_spec n 10); [lia|].
  destruct (Z.ltb_spec (n / 10) 10); [Z.to_euclidean_division_equations; lia|].
  rewrite !Z.div_div by lia. change (10 * 10) with 100. change (100 * 10) with 1000.
  destruct (Z.ltb_spec (n / 100) 10); [Z.to_euclidean_division_equations; lia|].
  destruct (Z.ltb_spec (n / 1000) 10); [done|]. Z.to_euclidean_division_equations; lia.
Qed.

(** A run of digits that ends before [l]. *)
Lemma scan_int_digits ds l n :
  ds <> [] -> forallb isdigit ds = true -> decimal ds = n -> 0 <= n < 2147483648 ->
  match l with c :: _ => isdigit c = false | [] => True end -> scan_int (ds ++ l) = Some (n, l).
Proof.
  intros Hne Hd <- Hn Hl. destruct ds as [|c ds]; [done|]. pose proof Hd as Hd'.
  simpl in Hd'. apply andb_true_iff in Hd' as [Hc _].
  unfold scan_int. cbn [app span].
  replace (isspace c) with false by (unfold isspace, isdigit in *; repeat bdestruct_one; simpl in *; done || lia).
  cbn [snd].
  replace (match c :: ds ++ l with 45 :: l0 => (-1, l0) | 43 :: l0 => (1, l0) | _ => (1, c :: ds ++ l) end) with (1, (c :: ds) ++ l).
  2:{ unfold isdigit in Hc. assert (48 <= c) by (repeat bdestruct_one; simpl in *; done || lia).
      repeat (match goal with |- context [match ?x with _ => _ end] => is_var x; destruct x end); done || lia. }
  rewrite span_app by done. unfold to_int. f_equal. f_equal. rewrite s32_small; lia.
Qed.

Lemma digit_ok d : 0 <= d <= 9 -> isdigit (48 + d) = true.
Proof. intros. unfold isdigit. apply andb_true_iff; split; apply Z.leb_le; lia. Qed.

(** The text does not go on with a digit. *)
Definition no_digit (l : list Z) : Prop := match l with c :: _ => isdigit c = false | [] => True end.

Lemma scan_pad_2 n l : 0 <= n < 100 -> no_digit l -> scan_int (pad 2 48 n ++ l) = Some (n, l).
Proof.
  intros. rewrite pad_2 by done. apply scan_int_digits; try done; try lia.
  - simpl. rewrite !digit_ok by (Z.to_euclidean_division_equations; lia). done.
  - unfold decimal. cbn -[Z.div Z.modulo Z.mul Z.add Z.sub]. Z.to_euclidean_division_equations; lia.
Qed.

Lemma scan_pad_4 n l : 1000 <= n <= 9999 -> no_digit l -> scan_int (pad 4 32 n ++ l) = Some (n, l).
Proof.
  intros. rewrite pad_4 by done. apply scan_int_digits; try done; try lia.
  - simpl. rewrite !digit_ok by (Z.to_euclidean_division_equations; lia). done.
  - unfold decimal. cbn -[Z.div Z.modulo Z.mul Z.add Z.sub]. Z.to_euclidean_division_equations; lia.
Qed.

Lemma sscanf_int l fmt z l' :
  scan_int l = Some (z, l') -> sscanf l (Int :: fmt) = let! vs := sscanf l' fmt in Ok (VInt z :: vs).
Proof. intros H. simpl. by rewrite H. Qed.

Lemma sscanf_word w c l fmt :
  w <> [] -> forallb isalpha w = true -> zlen w < WORD_SIZE -> isalpha c = false ->
  sscanf (w ++ c :: l) (Word :: fmt) = let! vs := sscanf (c :: l) fmt in Ok (VWord w :: vs).
Proof.
  intros. simpl. rewrite span_app by done. destruct w; [done|]. case_match; [lia|done].
Qed.

Lemma sscanf_lit c l fmt : sscanf (c :: l) (Lit c :: fmt) = sscanf l fmt.
Proof. simpl. by rewrite Z.eqb_refl. Qed.

Definition no_space (l : list Z) : Prop := match l with c :: _ => isspace c = false | [] => True end.

Lemma sscanf_space l fmt : no_space l -> sscanf (32 :: l) (Space :: fmt) = sscanf l fmt.
Proof. intros H. destruct l as [|c l]; cbn; [done|]. by rewrite H. Qed.

Lemma no_space_above c l : 32 < c -> no_space (c :: l).
Proof. intros. unfold no_space, isspace. repeat bdestruct_one; simpl; done || lia. Qed.

Lemma no_space_pad_2 n l : 0 <= n < 100 -> no_space (pad 2 48 n ++ l).
Proof. intros. rewrite pad_2 by done. apply no_space_above. Z.to_euclidean_division_equations; lia. Qed.

Lemma no_space_pad_4 n l : 1000 <= n <= 9999 -> no_space (pad 4 32 n ++ l).
Proof. intros. rewrite pad_4 by done. apply no_space_above. Z.to_euclidean_division_equations; lia. Qed.

(** A printed name of a day or month is read as its index. *)
Definition named (w : list Z) : Prop := w <> [] /\ forallb isalpha w = true /\ zlen w = 3.

Ltac each_name Hi :=
  repeat (apply elem_of_cons in Hi as [->|Hi]; [eexists; split; [done|split; [split_and!; done|vm_compute; done]]|]);
  set_solver.

Lemma day_named i : 0 <= i < 7 -> exists w, znth day_of_week i = Some w /\ named w /\ scan_wday w = Ok (Some i).
Proof.
  intros. assert (i ∈ [0;1;2;3;4;5;6]) as Hi by set_solver by lia.
  each_name Hi.
Qed.

Lemma month_named i : 0 <= i < 12 -> exists w, znth months i = Some w /\ named w /\ scan_mon w = Ok (Some i).
Proof.
  intros. assert (i ∈ [0;1;2;3;4;5;6;7;8;9;10;11]) as Hi by set_solver by lia.
  each_name Hi.
Qed.

Lemma named_alpha w : named w -> exists c l, w = c :: l /\ isalpha c = true.
Proof.
  intros (?&Ha&?). destruct w as [|c w]; [done|]. simpl in Ha. apply andb_true_iff in Ha as [? _]. eauto.
Qed.

Lemma alpha_range c : isalpha c = true -> 65 <= c <= 122 /\ isdigit c = false /\ isspace c = false.
Proof. unfold isalpha, isupper, islower, isdigit, isspace. intros. repeat bdestruct_one; simpl in *; done || lia. Qed.

Lemma no_space_named w l : named w -> no_space (w ++ l).
Proof. intros (c&?&->&?%alpha_range)%named_alpha. simpl. tauto. Qed.

(** A date that begins with a name has none of the formats that begin with a number. *)
Lemma scan_int_named w l : named w -> scan_int (w ++ l) = None.
Proof.
  intros (c&w'&->&Hc%alpha_range)%named_alpha. unfold scan_int. cbn [app span].
  destruct Hc as (?&Hd&->). cbn [snd].
  replace (match c :: w' ++ l with 45 :: l0 => (-1, l0) | 43 :: l0 => (1, l0) | _ => (1, c :: w' ++ l) end) with (1, c :: w' ++ l).
  2:{ repeat (match goal with |- context [match ?x with _ => _ end] => is_var x; destruct x end); done || lia. }
  cbn [span]. by rewrite Hd.
Qed.

Lemma try_number w l fmt : named w -> sscanf (w ++ l) (Int :: fmt) = Ok [].
Proof. intros. simpl. by rewrite scan_int_named. Qed.

Section printed.
Variables (g : tm) (wd mo : list Z).
Hypotheses (Hg : in_ranges g) (Hwd : named wd) (Hmo : named mo).
Let text := date_text g (tm_year g + 1900) wd mo.

Ltac scan_step :=
  first [ rewrite sscanf_lit
        | rewrite sscanf_space by first [apply no_space_pad_2; lia | apply no_space_pad_4; lia | by apply no_space_named | done]
        | rewrite sscanf_word by first [apply Hwd | apply Hmo | done | rewrite (proj2 (proj2 Hwd)); done | rewrite (proj2 (proj2 Hmo)); done]
        | erewrite sscanf_int by first [apply scan_pad_2; [lia|done] | apply scan_pad_4; [lia|done]] ].

Lemma scan_clock l fmt :
  no_digit l ->
  sscanf (pad 2 48 (tm_hour g) ++ 58 :: pad 2 48 (tm_min g) ++ 58 :: pad 2 48 (tm_sec g) ++ l) (clock ++ fmt) =
  let! vs := sscanf l fmt in Ok (VInt (tm_hour g) :: VInt (tm_min g) :: VInt (tm_sec g) :: vs).
Proof.
  intros. destruct Hg as (?&?&?&?&?&?&?&?). unfold clock. cbn [app]. repeat scan_step.
  by destruct (sscanf l fmt).
Qed.

Lemma scan_dashed :
  sscanf text (Word :: Lit 44 :: Space :: date dash ++ Space :: clock ++ GMT) = Ok [VWord wd; VInt (tm_mday g)].
Proof.
  destruct Hg as (?&?&?&?&?&?&?&?). unfold text, date_text, date. cbn [app]. repeat scan_step.
  done.
Qed.

Lemma scan_spaced :
  sscanf text (Word :: Lit 44 :: Space :: date Space ++ Space :: clock ++ GMT) =
  Ok [VWord wd; VInt (tm_mday g); VWord mo; VInt (tm_year g + 1900); VInt (tm_hour g); VInt (tm_min g); VInt (tm_sec g)].
Proof.
  destruct Hg as (?&?&?&?&?&?&?&?). unfold text, date_text, date. cbn [app]. repeat scan_step.
  rewrite scan_clock by done. done.
Qed.

Lemma skip_blanks : snd (span (fun c => (c =? 32) || (c =? 9)) text) = text.
Proof.
  rewrite (span_app _ [] text); [done..|]. unfold text, date_text.
  destruct (named_alpha wd Hwd) as (c&w&->&?%alpha_range). simpl. repeat bdestruct_one; done || lia.
Qed.

Lemma try1_fails sep : try1 sep text = Ok None.
Proof. unfold try1, text, date_text. simpl app. by rewrite (try_number wd). Qed.
Lemma try2_fails sep : try2 sep text = Ok None.
Proof. unfold try2, text, date_text. simpl app. by rewrite (try_number wd). Qed.

Lemma read_text :
  scan_wday wd = Ok (Some (tm_wday g)) -> scan_mon mo = Ok (Some (tm_mon g)) -> httpdate_to_timet text = tm_to_time g.
Proof.
  intros Hw Hm. unfold httpdate_to_timet. rewrite skip_blanks. cbn [first_match].
  rewrite !try1_fails, !try2_fails. cbn [res_bind].
  unfold try3. rewrite scan_dashed, scan_spaced. cbn [res_bind].
  unfold with_wday_mon, with_mon. rewrite Hw. cbn [res_bind]. rewrite Hm. cbn [res_bind fmap option_fmap option_map].
  cbn. f_equal. destruct g as [????? y ?], Hg as (?&?&?&?&?&?&?&?). simpl in *. f_equal.
  unfold full_year. bdestruct_one; lia.
Qed.
End printed.

Lemma zlen_text g wd mo : in_ranges g -> named wd -> named mo -> zlen (date_text g (tm_year g + 1900) wd mo) = 29.
Proof.
  intros (?&?&?&?&?&?&?&?) (_&_&Hw) (_&_&Hm). unfold date_text.
  rewrite !pad_2, pad_4 by lia. repeat rewrite ?zlen_app, ?zlen_cons. rewrite Hw, Hm. done.
Qed.

(** Every second up to the end of the year 9999 is printed, and read back as
    a second that is off by the leap error of its date. *)
Lemma printed_and_read t strlen :
  0 <= t <= last_second -> 29 < strlen < 2147483648 ->
  exists g text, gmtime_r t = Some g /\ in_ranges g /\ seconds g = Some t /\
    timet_to_httpdate t strlen = Ok (0, Some text) /\ httpdate_to_timet text = Ok (t + 86400 * leap_error g).
Proof.
  intros Ht Hn. destruct (gmtime_spec t Ht) as (g&Hg&Hr&Hs). exists g. pose proof Hr as (?&?&?&?&?&?&?&?).
  destruct (day_named (tm_wday g)) as (wd&Hwd&Hdn&Hds); [lia|].
  destruct (month_named (tm_mon g)) as (mo&Hmo&Hmn&Hms); [lia|].
  pose proof (zlen_text g wd mo Hr Hdn Hmn) as Hl.
  exists (date_text g (tm_year g + 1900) wd mo). split_and!; try done.
  - unfold timet_to_httpdate. rewrite Hg, Hwd, Hmo. cbn [res_bind from_option_res].
    rewrite int_ok by lia. cbn [res_bind]. unfold snprintf. rewrite Hl.
    assert (u64 strlen = strlen) as -> by (unfold u64; apply Z.mod_small; lia).
    destruct (Z.eqb_spec strlen 0), (Z.eqb_spec 29 strlen); try lia.
    rewrite take_ge; [done|]. unfold zlen in Hl. lia.
  - rewrite read_text by done. by apply tm_to_time_spec.
Qed.

(** C34: A date printed by timet_to_httpdate into a buffer of at least 30 bytes
    is read back by httpdate_to_timet as the same second, for every second
    from 1970 to the end of 9999 whose month is January or February or whose
    year is not a multiple of 100. *)
Theorem httpdate_roundtrip t strlen g :
  0 <= t <= last_second -> 29 < strlen < 2147483648 ->
  gmtime_r t = Some g -> tm_mon g < 2 \/ tm_year g mod 100 <> 0 ->
  exists text, timet_to_httpdate t strlen = Ok (0, Some text) /\ httpdate_to_timet text = Ok t.
Proof.
  intros Ht Hn Hg Hd. destruct (printed_and_read t strlen Ht Hn) as (g'&text&Hg'&Hr&_&?&Hread).
  simplify_eq. exists text. split; [done|]. rewrite Hread, leap_error_zero; [f_equal; lia| |done].
  destruct Hr as (?&?&?&?&?&?&?&?). lia.
Qed.

Lemma httpdate_roundtrip_witness :
  exists text, timet_to_httpdate 1301118837 64 = Ok (0, Some text) /\ httpdate_to_timet text = Ok 1301118837.
Proof.
  apply (httpdate_roundtrip 1301118837 64 (mkTm 57 53 5 26 2 111 6)); [unfold last_second; lia|lia|done|].
  right. done.
Defined.

(** The day of a date in its year. *)
Lemma month_start_bound g d :
  in_ranges g -> month_start (tm_year g + 1900) (tm_mon g) = Some d ->
  0 <= d + (tm_mday g - 1) < year_days (tm_year g + 1900) /\ (tm_mon g < 2 -> d + (tm_mday g - 1) < 60).
Proof.
  intros (?&?&?&?&?&?&?&?). unfold month_start, year_days.
  assert (tm_mon g ∈ [0;1;2;3;4;5;6;7;8;9;10;11]) as Hi by set_solver by lia.
  destruct (leap _); repeat (apply elem_of_cons in Hi as [Hm|Hi]; [rewrite Hm in *; cbn; intros [= <-]; lia|]); set_solver.
Qed.

(** From March to December 2000 a printed date is read back as a second
    one day earlier: the leap day of the current year is computed from the
    years since 1900. *)
Theorem httpdate_2000 t strlen :
  951868800 <= t < 978307200 -> 29 < strlen < 2147483648 ->
  exists text, timet_to_httpdate t strlen = Ok (0, Some text) /\ httpdate_to_timet text = Ok (t - 86400).
Proof.
  intros Ht Hn. destruct (printed_and_read t strlen) as (g&text&Hg&Hr&Hs&?&Hread); [unfold last_second; lia|done|].
  exists text. split; [done|]. rewrite Hread. f_equal.
  enough (2 <= tm_mon g /\ tm_year g = 100) as [? Hy].
  { unfold leap_error. destruct (Z.leb_spec 2 (tm_mon g)); [|lia]. rewrite Hy.
    change (Z.b2z _ - Z.b2z _) with (-1). lia. }
  unfold seconds in Hs. destruct (month_start _ _) as [d|] eqn:Hd; [|done]. simpl in Hs. injection Hs as Hs.
  destruct (month_start_bound g d Hr Hd). destruct Hr as (?&?&?&?&?&?&?&?).
  assert (2000 <= tm_year g + 1900 < 2001).
  { apply year_bounds with (d + (tm_mday g - 1)); [|lia].
    change (days_before 2000) with 10957. change (days_before 2001) with 11323. lia. }
  assert (Hy : tm_year g = 100) by lia. split; [|done]. rewrite Hy in *.
  change (days_before (100 + 1900)) with 10957 in Hs. lia.
Qed.

Lemma httpdate_2000_witness :
  exists text, timet_to_httpdate 951868800 64 = Ok (0, Some text) /\ httpdate_to_timet text = Ok (951868800 - 86400).
Proof. apply (httpdate_2000 951868800 64); lia. Defined.
