(* ===== verification/Config.v ===== *)
(** * Configuration: [config.c], [mtcp_init] and the ports of [io_module.c]

    The files [mtcp.conf], [route.conf] and [arp.conf] are lists of bytes; the
    functions read them line by line into [mtcp_config], the structure
    [CONFIG] with the globals of the file. A function that can end the
    process returns an [out]: a value, the code of [exit], or the fault it
    stops with.

    Parameters: [inet_addr], the integers of GMP ([mpz_set_str]) and the
    system calls of [SetNetEnv] that detect the interfaces. The build has
    DPDK and neither PSIO nor netmap. *)

From Stdlib Require Import String.
From S2P Require Import Prelude SeqNum SpscQueue Rss Machine Network HttpDate.

(** ** Results *)

Inductive out (A : Type) := Val (a : A) | Exit (code : Z) | Crash (e : fault).
Arguments Val {A} a.
Arguments Exit {A} code.
Arguments Crash {A} e.

Definition out_bind {A B} (c : out A) (k : A -> out B) : out B :=
  match c with Val a => k a | Exit n => Exit n | Crash e => Crash e end.
Notation "'let^' x := c 'in' k" := (out_bind c (fun x => k)) (at level 200, x pattern, c at level 100, k at level 200).

(** A result that does not run out of fuel, and the property of its value. *)
Definition ok {A} (P : A -> Prop) (r : out A) : Prop :=
  match r with Val a => P a | Exit _ => True | Crash e => e <> OutOfFuel end.

Lemma ok_bind {A B} (P : A -> Prop) (Q : B -> Prop) r k :
  ok P r -> (forall a, P a -> ok Q (k a)) -> ok Q (out_bind r k).
Proof. destruct r; cbn; auto. Qed.
Lemma ok_mono {A} (P Q : A -> Prop) r : ok P r -> (forall a, P a -> Q a) -> ok Q r.
Proof. destruct r; cbn; auto. Qed.
Definition check (b : bool) : out unit := if b then Val tt else Crash AssertFailed.

Definition EXIT_FAILURE : Z := 1.

(** ** The C library *)

(** The characters before the first zero. *)
Fixpoint c_string (l : list Z) : list Z :=
  match l with [] => [] | c :: l => if c =? 0 then [] else c :: c_string l end.

(** [fgets] into an array of [n] characters: the line with its newline, and
    the rest of the file. *)
Fixpoint read_line (n : nat) (f : list Z) : list Z * list Z :=
  match n, f with
  | S n, c :: f => if c =? 10 then ([c], f) else let '(l, r) := read_line n f in (c :: l, r)
  | _, _ => ([], f)
  end.
Definition MAX_OPTLINE_LEN : Z := 1024.
Definition fgets (f : list Z) : option (list Z * list Z) :=
  match f with [] => None | _ => Some (read_line (Z.to_nat (MAX_OPTLINE_LEN - 1)) f) end.

Definition one_of (delim : list Z) (c : Z) : bool := existsb (Z.eqb c) delim.
(** [strtok_r]: the next token, and where the search goes on. *)
Definition strtok (delim s : list Z) : option (list Z * list Z) :=
  match snd (span (one_of delim) s) with
  | [] => None
  | s => let '(tok, r) := span (fun c => negb (one_of delim c)) s in Some (tok, drop 1 r)
  end.

(** The number [strtol] reads, before it is limited to the range of [long]. *)
Definition strtol_digits (l : list Z) : option Z :=
  let l := snd (span isspace l) in
  let '(sign, l) := match l with 45 :: l => (-1, l) | 43 :: l => (1, l) | _ => (1, l) end in
  match fst (span isdigit l) with [] => None | ds => Some (sign * decimal ds) end.
Definition LONG_MAX : Z := 9223372036854775807.
Definition LONG_MIN : Z := -9223372036854775808.
Definition in_long (z : Z) : bool := (LONG_MIN <=? z) && (z <=? LONG_MAX).
Definition to_long (z : Z) : Z := Z.max LONG_MIN (Z.min LONG_MAX z).

Definition hexdigit (c : Z) : option Z :=
  if isdigit c then Some (c - 48)
  else let c := tolower c in if (97 <=? c) && (c <=? 102) then Some (c - 87) else None.
Definition ishex (c : Z) : bool := match hexdigit c with Some _ => true | None => false end.
Definition hexval (ds : list Z) : Z := foldl (fun n c => n * 16 + default 0 (hexdigit c)) 0 ds.
(** The conversion [%x] of [sscanf], stored in an [unsigned int]. *)
Definition scan_hex (l : list Z) : option Z :=
  let l := snd (span isspace l) in
  let '(sign, l) := match l with 45 :: l => (-1, l) | 43 :: l => (1, l) | _ => (1, l) end in
  let l := match l with 48 :: 120 :: l | 48 :: 88 :: l => 48 :: l | _ => l end in
  match fst (span ishex l) with
  | [] => None
  | ds => Some (u32 (sign * Z.min (hexval ds) 18446744073709551615))
  end.

(** ** [CONFIG] *)

Record eth_table := mkEth { dev_name : list Z; ifindex : Z; ip_addr : Z; netmask : Z; eth_haddr : list Z; stat_print : bool }.
#[export] Instance eth_table_Rebuild : Rebuild eth_table := fun r =>
  mkEth (dev_name r) (ifindex r) (ip_addr r) (netmask r) (eth_haddr r) (stat_print r).

Inductive io_module := PSIO | DPDK | NETMAP | ONVM.

Record mtcp_config := mkCfg {
  c_eths : list eth_table; c_nif_to_eidx : list Z;
  c_rtable : list route; c_gateway : option nat;          (* the gateway by its index *)
  c_arp : list arp_entry; c_arp_gateway : option nat;
  num_cores : Z; num_mem_ch : Z; max_concurrency : Z; cpumask : Z; max_num_buffers : Z;
  rcvbuf_size : Z; sndbuf_size : Z; tcp_timewait : Z; tcp_timeout : Z; multi_process : Z;
  (* the globals of the file *)
  port_list : list Z; port_stat_list : list Z; g_num_cpus : Z; num_devices : Z; current_iomodule : io_module;
  bad_errno : bool                                         (* [errno] is [EINVAL] or [ERANGE] *)
}.
#[export] Instance mtcp_config_Rebuild : Rebuild mtcp_config := fun r =>
  mkCfg (c_eths r) (c_nif_to_eidx r) (c_rtable r) (c_gateway r) (c_arp r) (c_arp_gateway r) (num_cores r)
    (num_mem_ch r) (max_concurrency r) (cpumask r) (max_num_buffers r) (rcvbuf_size r) (sndbuf_size r)
    (tcp_timewait r) (tcp_timeout r) (multi_process r) (port_list r) (port_stat_list r) (g_num_cpus r)
    (num_devices r) (current_iomodule r) (bad_errno r).

Definition MAX_ROUTE_ENTRY : Z := 64.
Definition MAX_ARPENTRY : Z := 1024.
Definition MAX_DEVICES : Z := 16.
Definition ETH_ALEN : Z := 6.
Definition MAX_CPUS : Z := 16.
Definition TIME_TICK : Z := 1000.

Definition initial_config (stale : bool) : mtcp_config :=
  mkCfg [] [] [] None [] None 0 0 10000 0 10000 (-1) (-1) 0 30000 0 [] [] 0 0 DPDK stale.

(** ** Numbers *)

(** The value is an [int], so a number above the range of [long] gives -1 and
    is not noticed. *)
Definition mystrtol (l : list Z) (c : mtcp_config) : out (Z * mtcp_config) :=
  let c := c <| bad_errno := false |> in
  match strtol_digits l with
  | None => Exit EXIT_FAILURE
  | Some z =>
      let rval := s32 (to_long z) in
      if negb (in_long z) && (rval =? 0) then Exit EXIT_FAILURE
      else Val (rval, c <| bad_errno := negb (in_long z) |>)
  end.

(** [errno] is tested without being reset. *)
Definition GetIntValue (l : list Z) (c : mtcp_config) : Z * mtcp_config :=
  let z := default 0 (strtol_digits l) in
  let bad := bad_errno c || negb (in_long z) in
  (if bad then -1 else s32 (to_long z), c <| bad_errno := bad |>).

(** The string that starts at an offset in a buffer, of which the characters
    behind the terminating zero are not known. *)
Definition string_at (buf : list Z) (k : nat) : out (list Z) :=
  if (k <? length buf)%nat then Val (c_string (drop k buf)) else Crash OutOfBounds.

(** The bits of a byte from the highest one on. *)
Fixpoint high_bits (j n : nat) : Z :=
  match n with O => 0 | S n => Z.lor (Z.shiftl 1 (7 - Z.of_nat j)) (high_bits (S j) n) end.
Definition mask_byte (prefix i : Z) : Z :=
  if i <=? prefix / 8 then high_bits 0 (Z.to_nat (Z.min 8 (prefix - i * 8))) else 0.
(** The bytes are in network order, the value is that of the memory. *)
Definition MaskFromPrefix (prefix : Z) : Z :=
  mask_byte prefix 0 + 256 * mask_byte prefix 1 + 65536 * mask_byte prefix 2 + 16777216 * mask_byte prefix 3.

Section config.
Context (inet_addr : list Z -> Z) (mpz_set_str : list Z -> option Z).

(** ** Routes *)

Definition zero_eth : eth_table := mkEth [] 0 0 0 [0; 0; 0; 0; 0; 0] false.
(** The interface with a name among the first [num_devices] entries of the
    array, which has [MAX_DEVICES]; -1 if there is none. *)
Definition find_device (c : mtcp_config) (dev : list Z) : out Z :=
  let all := c_eths c ++ replicate (Z.to_nat MAX_DEVICES - length (c_eths c)) zero_eth in
  match List.find (fun e => bool_decide (dev_name e = dev)) (take (Z.to_nat (num_devices c)) all) with
  | Some e => Val (ifindex e)
  | None => if MAX_DEVICES <? num_devices c then Crash OutOfBounds else Val (-1)
  end.
Definition uses_dpdk (m : io_module) : bool := match m with DPDK | ONVM => true | _ => false end.

Definition EnrollRouteTableEntry (optstr : list Z) (c : mtcp_config) : out mtcp_config :=
  match strtok [47] optstr with
  | None => Crash AssertFailed
  | Some (daddr_s, save) =>
      match strtok [32] save with
      | None => Crash AssertFailed
      | Some (prefix, save) =>
          match strtok [10] save with
          | None => Crash AssertFailed
          | Some (dev, _) =>
              let^ ifidx := if uses_dpdk (current_iomodule c) then find_device c dev else Val (-1) in
              let ridx := zlen (c_rtable c) in
              if ridx =? MAX_ROUTE_ENTRY then Exit 4
              else
                let^ (p, c) := mystrtol prefix c in
                if (32 <? p) || (p <? 0) then Exit 4
                else
                  let daddr := inet_addr daddr_s in
                  let mask := MaskFromPrefix p in
                  let r := mkRoute daddr mask (Z.land daddr mask) p ifidx in
                  let c := c <| c_rtable := c_rtable c ++ [r] |> in
                  Val (if mask =? 0 then c <| c_gateway := Some (Z.to_nat ridx) |> else c)
          end
      end
  end.

Definition ROUTES : list Z := chars "ROUTES".
Definition starts_with (s l : list Z) : bool := bool_decide (take (length s) l = s).

Definition is_comment (l : list Z) : bool := match l with c :: _ => c =? 35 | [] => false end.

(** The loop over the [num] entries that follow; lines of comments do not
    count. Each round takes a line, so one more than the length of the file
    is enough fuel. *)
Fixpoint route_entries (fuel : nat) (num : Z) (f : list Z) (c : mtcp_config) : out (list Z * mtcp_config) :=
  if num <=? 0 then Val (f, c)
  else
    match fuel with
    | O => Crash OutOfFuel
    | S fuel =>
        match fgets f with
        | None => Val (f, c)
        | Some (line, f) =>
            let optstr := c_string line in
            if is_comment optstr then route_entries fuel num f c
            else
              match c_gateway c with
              | None => let^ c := EnrollRouteTableEntry optstr c in route_entries fuel (num - 1) f c
              | Some _ => Exit EXIT_FAILURE
              end
        end
    end.

Fixpoint route_lines (fuel : nat) (f : list Z) (c : mtcp_config) : out mtcp_config :=
  match fuel with
  | O => Crash OutOfFuel
  | S fuel =>
      match fgets f with
      | None => Val c
      | Some (line, f) =>
          let optstr := c_string line in
          if is_comment optstr then route_lines fuel f c
          else
            let text := fst (span (fun x => negb (x =? 35)) optstr) in
            (* a comment is cut off by a zero *)
            let buf := text ++ [0] ++ drop (S (length text)) (optstr ++ [0]) in
            if starts_with ROUTES text then
              let^ s := string_at buf (S (length ROUTES)) in
              let '(num, c) := GetIntValue s c in
              if num <=? 0 then Val c
              else
                let^ (f, c) := route_entries (S (length f)) num f c in
                route_lines fuel f c
            else route_lines fuel f c
      end
  end.
(** [None] when the file cannot be opened. *)
Definition SetRoutingTableFromFile (file : option (list Z)) (c : mtcp_config) : out (Z * mtcp_config) :=
  match file with
  | None => Val (-1, c)
  | Some f => let^ c := route_lines (S (length f)) f c in Val (0, c)
  end.

(** The number of times a mask can be shifted to the right, and one. *)
Fixpoint shifts (fuel : nat) (c : Z) : Z :=
  match fuel with
  | O => 0
  | S fuel => let c := Z.shiftr c 1 in if c =? 0 then 0 else 1 + shifts fuel c
  end.
Definition default_route (e : eth_table) : route :=
  let daddr := Z.land (ip_addr e) (netmask e) in
  mkRoute daddr (netmask e) daddr (shifts 32 (netmask e) + 1) (ifindex e).
Definition SetRoutingTable (ok : bool) (file : option (list Z)) (c : mtcp_config) : out (Z * mtcp_config) :=
  if negb ok then Exit EXIT_FAILURE
  else
    let c := c <| c_rtable := default_route <$> c_eths c |> in
    let^ (_, c) := SetRoutingTableFromFile file c in
    Val (0, c).

(** ** ARP entries *)

Fixpoint mac_tokens (fuel : nat) (s : list Z) (i : Z) (haddr : list Z) : out (list Z) :=
  match fuel with
  | O => Crash OutOfFuel
  | S fuel =>
      match strtok [58] s with
      | None => if i <? ETH_ALEN then Exit 4 else Val haddr
      | Some (str, save) =>
          if ETH_ALEN <=? i then Exit 4
          else
            match scan_hex str with
            | None => Exit 4
            | Some temp => mac_tokens fuel save (i + 1) (haddr ++ [u8 temp])
            end
      end
  end.
Definition ParseMACAddress (s : list Z) : out (list Z) := mac_tokens (S (length s)) s 0 [].

Definition INADDR_NONE : Z := 4294967295.
Definition ParseIPAddress (s : list Z) : Z * Z :=
  let ip := inet_addr s in if ip =? INADDR_NONE then (-1, 0) else (0, ip).

(** The index is not compared with the length of the array. *)
Definition EnrollARPTableEntry (optstr : list Z) (c : mtcp_config) : out mtcp_config :=
  match strtok [47] optstr with
  | None => Crash AssertFailed
  | Some (dip_s, save) =>
      match strtok [32] save with
      | None => Crash AssertFailed
      | Some (prefix_s, save) =>
          match strtok [10] save with
          | None => Crash AssertFailed
          | Some (daddr_s, _) =>
              let^ (prefix, c) := mystrtol prefix_s c in
              if (32 <? prefix) || (prefix <? 0) then Val c
              else
                let idx := length (c_arp c) in
                if MAX_ARPENTRY <=? Z.of_nat idx then Crash OutOfBounds
                else
                  let '(_, ip) := ParseIPAddress dip_s in
                  let^ haddr := ParseMACAddress daddr_s in
                  let dip_mask := MaskFromPrefix prefix in
                  let e := mkArp ip prefix dip_mask (Z.land ip dip_mask) haddr in
                  let c := c <| c_arp := c_arp c ++ [e] |> in
                  let is_gw := match c_gateway c ≫= fun g => c_rtable c !! g with
                               | Some r => Z.land (rt_daddr r) dip_mask =? arp_masked e
                               | None => false
                               end in
                  Val (if is_gw then c <| c_arp_gateway := Some idx |> else c)
          end
      end
  end.

(** A line without its comment and its leading spaces; of the trailing ones
    the loop removes only the last. The result is the buffer from [p] on, with
    what is left of the line behind the zeros. *)
Definition trimmed (line : list Z) : list Z :=
  let line := c_string line in
  let text := fst (span (fun x => negb (x =? 35)) line) in
  let p := snd (span isspace text) in
  let p := match last p with
           | Some x => if isspace x then take (length p - 1) p ++ [0] else p
           | None => []
           end in
  p ++ 0 :: drop (S (length text)) (line ++ [0]).

Definition ARP_ENTRY : list Z := chars "ARP_ENTRY".
Fixpoint arp_lines (fuel : nat) (f : list Z) (numEntry : Z) (hasNumEntry : bool) (c : mtcp_config) : out mtcp_config :=
  match fuel with
  | O => Crash OutOfFuel
  | S fuel =>
      match fgets f with
      | None => Val c
      | Some (line, f) =>
          let buf := trimmed line in
          let p := c_string buf in
          match p with
          | [] => arp_lines fuel f numEntry hasNumEntry c
          | _ =>
              if negb hasNumEntry && starts_with ARP_ENTRY p then
                let^ s := string_at buf (S (length ARP_ENTRY)) in
                let '(n, c) := GetIntValue s c in
                if n <=? 0 then Exit EXIT_FAILURE else arp_lines fuel f n true c
              else if numEntry <=? 0 then Exit EXIT_FAILURE
              else
                let^ c := EnrollARPTableEntry p c in
                arp_lines fuel f (numEntry - 1) hasNumEntry c
          end
      end
  end.
Definition InitARPTable (c : mtcp_config) : mtcp_config := c <| c_arp := [] |>.
Definition LoadARPTable (file : option (list Z)) (c : mtcp_config) : out (Z * mtcp_config) :=
  let c := InitARPTable c in
  match file with
  | None => Val (-1, c)
  | Some f => let^ c := arp_lines (S (length f)) f 0 false c in Val (0, c)
  end.

(** ** Options *)

(** The case of an option that is a number. *)
Definition int_option (q : list Z) (c : mtcp_config) (k : Z -> mtcp_config -> out (Z * mtcp_config)) : out (Z * mtcp_config) :=
  let^ (v, c) := mystrtol q c in k v c.

(** [SEC_TO_USEC(t) / TIME_TICK] in [int]. *)
Definition timeout_ticks (t : Z) : out Z :=
  if 0 <? t then if 2147483647 <? t * 1000000 then Crash SignedOverflow else Val (t * 1000000 / TIME_TICK)
  else Val t.

Definition SetMultiProcessSupport (s : list Z) (c : mtcp_config) : out (Z * mtcp_config) :=
  match strtok [32; 61] s with
  | None => Val (-1, c)
  | Some (sample, _) => int_option sample c (fun v c => Val (0, c <| multi_process := u8 v |>))
  end.

Definition AssignIOModule (m : list Z) : out io_module :=
  if bool_decide (m = chars "psio") then Val PSIO
  else if bool_decide (m = chars "dpdk") then Val DPDK
  else if bool_decide (m = chars "netmap") then Val NETMAP
  else if bool_decide (m = chars "onvm") then Val ONVM
  else Crash AssertFailed.

(** Whether the process may use the interface, a system call. *)
Context (permitted : io_module -> bool).

(** A line that fills the array is copied without its terminating zero. *)
Definition ParseConfiguration (line : list Z) (c : mtcp_config) : out (Z * mtcp_config) :=
  if MAX_OPTLINE_LEN - 1 <=? zlen line then Crash OutOfBounds else
  match strtok [32; 9; 61] line with
  | None => Val (-1, c)
  | Some (p, save) =>
      match strtok [32; 9; 61] save with
      | None => Val (-1, c)
      | Some (q, _) =>
          let named s := bool_decide (p = chars s) in
          (* the text behind the name and the character that follows it *)
          let rest := drop (S (length p)) line in
          if named "num_cores"%string then
            int_option q c (fun v c =>
              let c := c <| num_cores := v |> in
              if v <=? 0 then Val (-1, c)
              else if g_num_cpus c <? v then Val (-1, c)
              else Val (0, c <| g_num_cpus := v |>))
          else if named "core_mask"%string then
            Val (0, match mpz_set_str q with Some z => c <| cpumask := z |> | None => c end)
          else if named "max_concurrency"%string then
            int_option q c (fun v c => let c := c <| max_concurrency := v |> in Val (if v <? 0 then -1 else 0, c))
          else if named "max_num_buffers"%string then
            int_option q c (fun v c => let c := c <| max_num_buffers := v |> in Val (if v <? 0 then -1 else 0, c))
          else if named "rcvbuf"%string then
            int_option q c (fun v c => let c := c <| rcvbuf_size := v |> in Val (if v <? 64 then -1 else 0, c))
          else if named "sndbuf"%string then
            int_option q c (fun v c => let c := c <| sndbuf_size := v |> in Val (if v <? 64 then -1 else 0, c))
          else if named "tcp_timeout"%string then
            int_option q c (fun v c => let^ t := timeout_ticks v in Val (0, c <| tcp_timeout := t |>))
          else if named "tcp_timewait"%string then
            int_option q c (fun v c => let^ t := timeout_ticks v in Val (0, c <| tcp_timewait := t |>))
          else if named "stat_print"%string then Val (0, c <| port_stat_list := q |>)
          else if named "port"%string then
            Val (0, c <| port_list := if bool_decide (q = chars "all") then q else rest |>)
          else if named "io"%string then
            let^ m := AssignIOModule q in
            if permitted m then Val (0, c <| current_iomodule := m |>) else Exit EXIT_FAILURE
          else if named "num_mem_ch"%string then int_option q c (fun v c => Val (0, c <| num_mem_ch := v |>))
          else if named "multiprocess"%string then
            let^ (_, c) := SetMultiProcessSupport rest c in Val (0, c)
          else Val (-1, c)
      end
  end.

Fixpoint config_lines (fuel : nat) (f : list Z) (c : mtcp_config) : out (Z * mtcp_config) :=
  match fuel with
  | O => Crash OutOfFuel
  | S fuel =>
      match fgets f with
      | None => Val (0, c)
      | Some (line, f) =>
          match c_string (trimmed line) with
          | [] => config_lines fuel f c
          | p =>
              let^ (r, c) := ParseConfiguration p c in
              if r <? 0 then Val (-1, c) else config_lines fuel f c
          end
      end
  end.

(** Sizes that are not set are taken from each other. *)
Definition buffer_sizes (c : mtcp_config) : mtcp_config :=
  let c := if (sndbuf_size c =? -1) && negb (rcvbuf_size c =? -1) then c <| sndbuf_size := rcvbuf_size c |> else c in
  let c := if (rcvbuf_size c =? -1) && negb (sndbuf_size c =? -1) then c <| rcvbuf_size := sndbuf_size c |> else c in
  if (rcvbuf_size c =? -1) && (sndbuf_size c =? -1) then c <| sndbuf_size := 8192 |> <| rcvbuf_size := 8192 |> else c.

(** ** Interfaces: the end of [SetNetEnv] *)

(** The system calls before it find the interfaces and [num_devices]. *)
Context (detect : mtcp_config -> out mtcp_config).

Fixpoint number_ports (i : Z) (l : list eth_table) (stats : list Z) (t : list Z) : out (list eth_table * list Z) :=
  match l with
  | [] => Val ([], t)
  | e :: l =>
      let j := ifindex e in
      if MAX_DEVICES <=? j then Exit EXIT_FAILURE
      else if j <? 0 then Crash OutOfBounds
      else
        let e := if bool_decide (dev_name e = stats) then e <| stat_print := true |> else e in
        let^ (l, t) := number_ports (i + 1) l stats (<[Z.to_nat j := i]> t) in
        Val (e :: l, t)
  end.
Definition SetNetEnv (c : mtcp_config) : out (Z * mtcp_config) :=
  let^ c := detect c in
  let^ (l, t) := number_ports 0 (c_eths c) (port_stat_list c) (replicate (Z.to_nat MAX_DEVICES) (-1)) in
  Val (0, c <| c_eths := l |> <| c_nif_to_eidx := t |>).

Definition LoadConfiguration (file : option (list Z)) (c : mtcp_config) : out (Z * mtcp_config) :=
  match file with
  | None => Val (-1, c)
  | Some f =>
      let c := c <| cpumask := 0 |> in
      let^ (r, c) := config_lines (S (length f)) f c in
      if r <? 0 then Val (-1, c) else SetNetEnv (buffer_sizes c)
  end.

(** ** [mtcp_init], and the parameters an application sets *)

(** Up to the signal handlers; the address pools are those of [AddrPool]. *)
Definition mtcp_init (cpus : Z) (conf routes arps : option (list Z)) (c : mtcp_config) : out (Z * mtcp_config) :=
  let c := c <| g_num_cpus := if num_cores c =? 0 then cpus else num_cores c |> in
  let^ _ := check (1 <=? g_num_cpus c) in
  if MAX_CPUS <? g_num_cpus c then Exit EXIT_FAILURE
  else
    let^ (r, c) := LoadConfiguration conf c in
    if negb (r =? 0) then Val (-1, c)
    else
      let^ (r, c) := SetRoutingTable true routes c in
      if negb (r =? 0) then Val (-1, c)
      else let^ (_, c) := LoadARPTable arps c in Val (0, c).

Record mtcp_conf := mkConf {
  u_num_cores : Z; u_max_concurrency : Z; u_max_num_buffers : Z; u_rcvbuf_size : Z; u_sndbuf_size : Z;
  u_tcp_timewait : Z; u_tcp_timeout : Z }.
Definition mtcp_getconf (c : mtcp_config) : mtcp_conf :=
  mkConf (num_cores c) (max_concurrency c) (max_num_buffers c) (rcvbuf_size c) (sndbuf_size c) (tcp_timewait c)
    (tcp_timeout c).
Definition mtcp_setconf (u : mtcp_conf) (c : mtcp_config) : mtcp_config :=
  let pick new old := if 0 <? new then new else old in
  c <| num_cores := pick (u_num_cores u) (num_cores c) |>
    <| max_concurrency := pick (u_max_concurrency u) (max_concurrency c) |>
    <| max_num_buffers := pick (u_max_num_buffers u) (max_num_buffers c) |>
    <| rcvbuf_size := pick (u_rcvbuf_size u) (rcvbuf_size c) |>
    <| sndbuf_size := pick (u_sndbuf_size u) (sndbuf_size c) |>
    <| tcp_timewait := pick (u_tcp_timewait u) (tcp_timewait c) |>
    <| tcp_timeout := pick (u_tcp_timeout u) (tcp_timeout c) |>.

End config.
