(* ===== verification/ConfigOk.v ===== *)
(** * What a loaded configuration guarantees

    The masks of [MaskFromPrefix] select the leading bits of an address; the
    loops over the files end; after [mtcp_init] the routing table answers with
    the first route that covers an address, and the configuration is one the
    theorems about the stack assume ([NetOk]). *)

From Stdlib Require Import String.
From S2P Require Import Prelude SeqNum SpscQueue Rss Machine Network Invariant HttpDate Config.

(** ** Masks *)

Definition prefixes : list Z := Z.of_nat <$> seq 0 33.

Lemma prefix_cases (P : Z -> Prop) : Forall P prefixes -> forall p, 0 <= p <= 32 -> P p.
Proof.
  intros HP p Hp. rewrite Forall_forall in HP. apply HP. unfold prefixes. apply list_elem_of_fmap.
  exists (Z.to_nat p). split; [lia|]. apply elem_of_seq. lia.
Qed.

(** The loops over the bits compute the mask of ones followed by zeros. *)
Theorem mask_reference p : 0 <= p <= 32 -> ntohl (MaskFromPrefix p) = 2 ^ 32 - 2 ^ (32 - p).
Proof.
  intros Hp. apply Z.eqb_eq. revert p Hp. apply prefix_cases. apply (bool_decide_unpack _). vm_compute. exact I.
Qed.

Lemma mask_range p : 0 <= p <= 32 -> 0 <= MaskFromPrefix p < 2 ^ 32.
Proof.
  revert p. apply prefix_cases. apply (bool_decide_unpack _). vm_compute. exact I.
Qed.

Lemma land_byte a b : Z.land a b mod 256 = Z.land (a mod 256) (b mod 256).
Proof.
  change 256 with (2 ^ 8). rewrite <- !Z.land_ones by lia. apply Z.bits_inj'. intros i _. rewrite !Z.land_spec.
  by destruct (Z.testbit a i), (Z.testbit b i), (Z.testbit (Z.ones 8) i).
Qed.
Lemma land_div a b k : 0 <= k -> Z.land a b / 2 ^ k = Z.land (a / 2 ^ k) (b / 2 ^ k).
Proof. intros Hk. rewrite <- !Z.shiftr_div_pow2 by done. apply Z.shiftr_land. Qed.

Lemma land_append x y x' y' : 0 <= y < 256 -> 0 <= y' < 256 ->
  Z.land (x * 256 + y) (x' * 256 + y') = Z.land x x' * 256 + Z.land y y'.
Proof.
  intros Hy Hy'. rewrite (Z.div_mod (Z.land _ _) 256) by lia. rewrite land_byte.
  rewrite (land_div (x * 256 + y) (x' * 256 + y') 8 ltac:(lia) : _ / 256 = Z.land (_ / 256) (_ / 256)).
  replace ((x * 256 + y) / 256) with x by (Z.to_euclidean_division_equations; lia).
  replace ((x' * 256 + y') / 256) with x' by (Z.to_euclidean_division_equations; lia).
  replace ((x * 256 + y) mod 256) with y by (Z.to_euclidean_division_equations; lia).
  replace ((x' * 256 + y') mod 256) with y' by (Z.to_euclidean_division_equations; lia). lia.
Qed.

Definition horner (x : Z) : Z :=
  ((x mod 256 * 256 + x / 2 ^ 8 mod 256) * 256 + x / 2 ^ 16 mod 256) * 256 + x / 2 ^ 24 mod 256.
Lemma ntohl_horner x : ntohl x = horner x.
Proof.
  unfold ntohl, bswap32, horner. change (2 ^ 8) with 256. change (2 ^ 16) with 65536. change (2 ^ 24) with 16777216. lia.
Qed.

Lemma byte_range x : 0 <= x mod 256 < 256.
Proof. apply Z.mod_pos_bound. lia. Qed.

Lemma ntohl_land a b : ntohl (Z.land a b) = Z.land (ntohl a) (ntohl b).
Proof.
  rewrite !ntohl_horner. unfold horner. rewrite !land_append by apply byte_range.
  by rewrite !land_div, !land_byte by lia.
Qed.

Lemma land_high x k : 0 <= x < 2 ^ 32 -> 0 <= k <= 32 -> Z.land x (2 ^ 32 - 2 ^ k) = x / 2 ^ k * 2 ^ k.
Proof.
  intros Hx Hk. assert (E : 2 ^ 32 - 2 ^ k = Z.shiftl (Z.ones (32 - k)) k).
  { rewrite Z.shiftl_mul_pow2, Z.ones_equiv by lia. rewrite <- Z.sub_1_r, Z.mul_sub_distr_r.
    rewrite <- Z.pow_add_r by lia. f_equal; [f_equal; lia|lia]. }
  rewrite E. rewrite <- (Z.shiftl_mul_pow2 (x / 2 ^ k)), <- Z.shiftr_div_pow2 by lia.
  apply Z.bits_inj'. intros i Hi. rewrite Z.land_spec, !Z.shiftl_spec by lia.
  destruct (Z.lt_ge_cases i k).
  { rewrite (Z.testbit_neg_r (Z.ones _)), (Z.testbit_neg_r (Z.shiftr _ _)) by lia. apply andb_false_r. }
  rewrite Z.shiftr_spec by lia. replace (i - k + k) with i by lia.
  destruct (Z.lt_ge_cases i 32).
  { rewrite Z.ones_spec_low by lia. apply andb_true_r. }
  rewrite Z.ones_spec_high by lia. rewrite andb_false_r. symmetry.
  apply Z.bits_above_log2; [lia|]. destruct (Z.eq_dec x 0) as [->|]; [cbn; lia|].
  apply Z.log2_lt_pow2; [lia|]. apply Z.lt_le_trans with (2 ^ 32); [lia|]. apply Z.pow_le_mono_r; lia.
Qed.

Lemma land_range a b : 0 <= a < 2 ^ 32 -> 0 <= b -> 0 <= Z.land a b < 2 ^ 32.
Proof.
  intros Ha Hb. split; [apply Z.land_nonneg; lia|]. apply Z.le_lt_trans with a; [|lia].
  destruct (Z.eq_dec (Z.land a b) 0); [lia|]. apply Z.ldiff_le; [lia|].
  apply Z.bits_inj'. intros i Hi. rewrite Z.ldiff_spec, Z.land_spec, Z.bits_0. by destruct (Z.testbit a i), (Z.testbit b i).
Qed.

(** Two addresses that a mask makes equal have the same leading bits. *)
Theorem same_prefix a b p : 0 <= a < 2 ^ 32 -> 0 <= b < 2 ^ 32 -> 0 <= p <= 32 ->
  Z.land a (MaskFromPrefix p) = Z.land b (MaskFromPrefix p) <-> ntohl a / 2 ^ (32 - p) = ntohl b / 2 ^ (32 - p).
Proof.
  intros Ha Hb Hp. pose proof (mask_range p Hp).
  assert (E : forall x, 0 <= x < 2 ^ 32 -> ntohl (Z.land x (MaskFromPrefix p)) = ntohl x / 2 ^ (32 - p) * 2 ^ (32 - p)).
  { intros x Hx. rewrite ntohl_land, mask_reference by done. apply land_high; [apply bswap32_range|lia]. }
  pose proof (land_range a (MaskFromPrefix p) Ha ltac:(lia)). pose proof (land_range b (MaskFromPrefix p) Hb ltac:(lia)).
  split.
  - intros Hab. assert (Hn : ntohl (Z.land a (MaskFromPrefix p)) = ntohl (Z.land b (MaskFromPrefix p))) by congruence.
    rewrite !E in Hn by done. apply Z.mul_cancel_r in Hn; [done|]. apply Z.pow_nonzero; lia.
  - intros Hn. rewrite <- (bswap32_involutive (Z.land a _)), <- (bswap32_involutive (Z.land b _)) by done.
    f_equal. change (ntohl (Z.land a (MaskFromPrefix p)) = ntohl (Z.land b (MaskFromPrefix p))). rewrite !E by done. congruence.
Qed.

(** ** The loops end *)

Lemma read_line_shorter n f l r : read_line n f = (l, r) -> (length r <= length f)%nat.
Proof.
  revert f l. induction n as [|n IH]; intros [|x f] l; cbn; try by intros [= <- <-].
  destruct (x =? 10); [intros [= <- <-]; lia|]. destruct (read_line n f) as [l' r'] eqn:E. intros [= <- <-].
  apply IH in E. lia.
Qed.

Lemma fgets_shorter f line f' : fgets f = Some (line, f') -> (length f' < length f)%nat.
Proof.
  destruct f as [|x f]; [done|]. unfold fgets. change (Z.to_nat (MAX_OPTLINE_LEN - 1)) with (S 1022).
  generalize 1022%nat. intros n. cbn. destruct (x =? 10); [intros [= <- <-]; lia|].
  destruct (read_line n f) as [l r] eqn:E. intros [= <- <-]. apply read_line_shorter in E. lia.
Qed.

Section loops.
Context (inet_addr : list Z -> Z) (mpz_set_str : list Z -> option Z) (permitted : io_module -> bool).
Notation enroll := (EnrollRouteTableEntry inet_addr).
Notation enroll_arp := (EnrollARPTableEntry inet_addr).

Lemma mystrtol_spec l c :
  match mystrtol l c with
  | Val (v, c') => c' = c <| bad_errno := bad_errno c' |> /\ -2147483648 <= v < 2147483648
  | Exit n => n = EXIT_FAILURE
  | Crash _ => False
  end.
Proof.
  unfold mystrtol. destruct (strtol_digits l) as [z|]; [|done]. destruct (negb (in_long z) && _); [done|].
  split; [by destruct c|apply s32_range].
Qed.

Lemma strtok_token d s tok r : strtok d s = Some (tok, r) -> tok <> [] /\ (length r < length s)%nat.
Proof.
  unfold strtok. assert (Hs : (length (snd (span (one_of d) s)) <= length s)%nat).
  { induction s as [|x s IH]; cbn; [lia|]. destruct (one_of d x); [|cbn; lia]. destruct (span (one_of d) s). cbn in *. lia. }
  assert (Hh : match snd (span (one_of d) s) with [] => True | x :: _ => one_of d x = false end).
  { clear Hs. induction s as [|x s IH]; cbn; [done|]. destruct (one_of d x) eqn:E; [|done].
    by destruct (span (one_of d) s). }
  destruct (snd (span (one_of d) s)) as [|x s']; [done|]. cbn. rewrite Hh. cbn.
  destruct (span (fun c => negb (one_of d c)) s') as [t r'] eqn:E. intros [= <- <-]. split; [done|].
  assert (length r' <= length s')%nat; [|rewrite length_drop; cbn in Hs; lia].
  clear Hs Hh. revert t r' E. induction s' as [|y s' IH]; intros t r'; cbn; [by intros [= <- <-]|].
  destruct (one_of d y); cbn; [by intros [= <- <-]|]. destruct (span _ s') as [t2 r2]. intros [= <- <-].
  specialize (IH _ _ eq_refl). lia.
Qed.

(** ** Routes *)

Definition covers_bits (k da a : Z) : Prop := ntohl da / 2 ^ (32 - k) = ntohl a / 2 ^ (32 - k).

(** A route whose mask stands for [k] bits. *)
Record route_good (l : list eth_table) (r : route) (k : Z) : Prop := {
  rg_bits : 0 <= k <= 32;
  rg_mask : rt_mask r = MaskFromPrefix k;
  rg_addr : 0 <= rt_daddr r < 2 ^ 32;
  rg_masked : rt_masked r = Z.land (rt_daddr r) (rt_mask r);
  rg_prefix : 0 <= rt_prefix r /\ (rt_prefix r = 0 <-> k = 0);
  rg_nif : rt_nif r = -1 \/ exists e, e ∈ l /\ rt_nif r = ifindex e
}.

Definition gateway_last (c : mtcp_config) : Prop :=
  match c_gateway c with
  | None => Forall (fun r => 0 < rt_prefix r) (c_rtable c)
  | Some i => exists l r, c_rtable c = l ++ [r] /\ i = length l /\ rt_prefix r = 0 /\ Forall (fun r => 0 < rt_prefix r) l
  end.
Record routes_ok (c : mtcp_config) : Prop := {
  ro_good : Forall (fun r => exists k, route_good (c_eths c) r k) (c_rtable c);
  ro_len : zlen (c_rtable c) <= MAX_ROUTE_ENTRY;
  ro_gateway : gateway_last c
}.

(** What loading routes and ARP entries leaves alone. *)
Definition core (c : mtcp_config) : mtcp_config :=
  c <| c_rtable := [] |> <| c_gateway := None |> <| c_arp := [] |> <| c_arp_gateway := None |> <| bad_errno := false |>.

Lemma core_eths c c' : core c' = core c -> c_eths c' = c_eths c.
Proof. intros E. by apply (f_equal c_eths) in E. Qed.

Lemma find_device_spec c dev :
  dev <> [] -> ok (fun i => i = -1 \/ exists e, e ∈ c_eths c /\ i = ifindex e) (find_device c dev).
Proof.
  intros Hd. unfold find_device.
  destruct (List.find _ _) as [e|] eqn:E; [|destruct (MAX_DEVICES <? num_devices c); cbn; auto].
  apply List.find_some in E as [Hin Heq%bool_decide_eq_true_1]. right. exists e. split; [|done].
  apply list_elem_of_In, elem_of_take in Hin as (i & Hi & _).
  apply list_elem_of_lookup_2, elem_of_app in Hi as [Hi|Hi]; [done|].
  apply elem_of_replicate in Hi as [-> _]. by subst dev.
Qed.

Lemma mask_zero p : 0 <= p <= 32 -> (MaskFromPrefix p =? 0) = (p =? 0).
Proof.
  intros Hp. apply eqb_true_iff. revert p Hp. apply prefix_cases. apply (bool_decide_unpack _). vm_compute. exact I.
Qed.

Context (Hinet : forall s, 0 <= inet_addr s < 2 ^ 32).

Lemma enroll_ok optstr c :
  routes_ok c -> c_gateway c = None -> ok (fun c' => routes_ok c' /\ core c' = core c) (enroll optstr c).
Proof.
  intros [Hg Hl Hgw] Hno. unfold gateway_last in Hgw. rewrite Hno in Hgw. unfold EnrollRouteTableEntry.
  destruct (strtok [47] optstr) as [[daddr_s save]|]; [|done].
  destruct (strtok [32] save) as [[prefix save2]|]; [|done].
  destruct (strtok [10] save2) as [[dev save3]|] eqn:Hdev; [|done]. apply strtok_token in Hdev as [Hdev _].
  eapply (ok_bind (fun i => i = -1 \/ exists e, e ∈ c_eths c /\ i = ifindex e)).
  { destruct (uses_dpdk _); [by apply find_device_spec|by left]. }
  intros ifidx Hif. destruct (Z.eqb_spec (zlen (c_rtable c)) MAX_ROUTE_ENTRY); [done|].
  pose proof (mystrtol_spec prefix c) as Hm. destruct (mystrtol prefix c) as [[p c1]| |]; [|done|done].
  destruct Hm as [Hc1 _]. cbn [out_bind].
  destruct (Z.ltb_spec 32 p), (Z.ltb_spec p 0); [done..|]. cbn [orb].
  assert (Hr : exists k, route_good (c_eths c) (mkRoute (inet_addr daddr_s) (MaskFromPrefix p)
    (Z.land (inet_addr daddr_s) (MaskFromPrefix p)) p ifidx) k).
  { exists p. constructor; cbn; done || lia. }
  rewrite mask_zero by lia. rewrite Hc1.
  destruct (Z.eqb_spec p 0) as [->|Hp]; (split; [|reflexivity]); (constructor; cbn;
    [apply Forall_app; split; [done|by apply Forall_singleton]
    |unfold zlen, MAX_ROUTE_ENTRY in *; rewrite length_app; cbn; lia|]).
  - unfold gateway_last. cbn. eexists _, _. split_and!; [done|unfold zlen; lia|done|done].
  - unfold gateway_last. cbn. rewrite Hno. apply Forall_app. split; [done|]. apply Forall_singleton. cbn. lia.
Qed.

Lemma route_entries_ok fuel num f c :
  (length f < fuel)%nat -> routes_ok c ->
  ok (fun x => (length (fst x) <= length f)%nat /\ routes_ok (snd x) /\ core (snd x) = core c)
     (route_entries inet_addr fuel num f c).
Proof.
  revert num f c. induction fuel as [|fuel IH]; intros num f c Hf Hc; [lia|]. cbn [route_entries].
  destruct (num <=? 0); [by cbn|]. destruct (fgets f) as [[line f']|] eqn:Hg; [|by cbn].
  apply fgets_shorter in Hg.
  assert (Hnext : forall num c', routes_ok c' -> core c' = core c ->
    ok (fun x => (length (fst x) <= length f)%nat /\ routes_ok (snd x) /\ core (snd x) = core c)
       (route_entries inet_addr fuel num f' c')).
  { intros num' c' Hc' Hcore. eapply ok_mono; [apply IH; [lia|done]|]. intros [f2 c2] (? & ? & E). cbn in *.
    split_and!; [lia|done|congruence]. }
  destruct (is_comment (c_string line)); [by apply Hnext|].
  destruct (c_gateway c) eqn:Egw; [done|]. eapply ok_bind; [by apply enroll_ok|]. intros c' [Hc' E]. by apply Hnext.
Qed.

Lemma GetIntValue_core l c : core (snd (GetIntValue l c)) = core c /\ c_gateway (snd (GetIntValue l c)) = c_gateway c /\
  c_rtable (snd (GetIntValue l c)) = c_rtable c /\ c_arp (snd (GetIntValue l c)) = c_arp c.
Proof. done. Qed.

Lemma routes_ok_ext c c' :
  core c' = core c -> c_rtable c' = c_rtable c -> c_gateway c' = c_gateway c -> routes_ok c -> routes_ok c'.
Proof.
  intros E Er Eg [Hg Hl Hw]. constructor.
  - by rewrite Er, (core_eths _ _ E).
  - by rewrite Er.
  - revert Hw. unfold gateway_last. by rewrite Er, Eg.
Qed.

Lemma route_lines_ok fuel f c :
  (length f < fuel)%nat -> routes_ok c ->
  ok (fun c' => routes_ok c' /\ core c' = core c) (route_lines inet_addr fuel f c).
Proof.
  revert f c. induction fuel as [|fuel IH]; intros f c Hf Hc; [lia|]. cbn [route_lines].
  destruct (fgets f) as [[line f']|] eqn:Hg; [|done]. apply fgets_shorter in Hg.
  destruct (is_comment (c_string line)); [apply IH; [lia|done]|]. cbv zeta.
  destruct (starts_with _ _); [|apply IH; [lia|done]].
  eapply (ok_bind (fun _ => True)).
  { unfold string_at. destruct (_ <? _)%nat; done. }
  intros t _. pose proof (GetIntValue_core t c) as (E & Egw & Er & _).
  destruct (GetIntValue t c) as [num c1]. cbn in E, Egw, Er.
  assert (Hc1 : routes_ok c1) by by eapply routes_ok_ext.
  destruct (num <=? 0); [done|]. eapply ok_bind; [apply route_entries_ok; [lia|done]|].
  intros [f2 c2] (Hf2 & Hc2 & E2). cbn in Hf2, Hc2, E2. eapply ok_mono; [apply IH; [lia|done]|].
  intros c3 [? E3]. split; [done|congruence].
Qed.

(** An interface whose mask is that of a prefix. *)
Definition eth_ok (e : eth_table) : Prop :=
  0 <= ip_addr e < 2 ^ 32 /\ exists k, 1 <= k <= 32 /\ netmask e = MaskFromPrefix k.

Lemma shifts_nonneg n z : 0 <= shifts n z.
Proof. revert z. induction n as [|n IH]; intros z; cbn; [lia|]. destruct (_ =? 0); [lia|]. specialize (IH (Z.shiftr z 1)). lia. Qed.

Lemma default_route_good l e : e ∈ l -> eth_ok e -> exists k, 0 < k /\ route_good l (default_route e) k.
Proof.
  intros He (Ha & k & Hk & Hm). exists k. split; [lia|]. pose proof (shifts_nonneg 32 (netmask e)).
  pose proof (mask_range k ltac:(lia)).
  constructor; cbn [default_route rt_mask rt_daddr rt_masked rt_prefix rt_nif]; [lia|done| | |lia|eauto].
  - rewrite Hm. apply land_range; [done|lia].
  - by rewrite <- Z.land_assoc, Z.land_diag.
Qed.

Lemma SetRoutingTable_ok file c :
  Forall eth_ok (c_eths c) -> zlen (c_eths c) <= MAX_DEVICES -> c_gateway c = None ->
  ok (fun x => fst x = 0 /\ routes_ok (snd x) /\ core (snd x) = core c) (SetRoutingTable inet_addr true file c).
Proof.
  intros He Hn Hg. unfold SetRoutingTable. cbn [negb].
  assert (H0 : routes_ok (c <| c_rtable := default_route <$> c_eths c |>)).
  { constructor.
    - cbn. apply Forall_fmap, Forall_forall. intros e Hin. cbn.
      destruct (default_route_good (c_eths c) e Hin) as (k & _ & Hr); [by eapply Forall_forall in He|]. by exists k.
    - cbn. unfold zlen in *. rewrite length_fmap. unfold MAX_DEVICES, MAX_ROUTE_ENTRY in *. lia.
    - unfold gateway_last. cbn. rewrite Hg. apply Forall_fmap, Forall_forall. intros e Hin.
      pose proof (shifts_nonneg 32 (netmask e)). change (0 < shifts 32 (netmask e) + 1). lia. }
  eapply (ok_bind (fun x => routes_ok (snd x) /\ core (snd x) = core c)).
  - destruct file as [f|]; [|by cbn]. cbn [SetRoutingTableFromFile].
    eapply ok_bind; [apply route_lines_ok; [lia|exact H0]|]. intros c' [? E]. split; [done|exact E].
  - intros [r c'] [? ?]. by cbn.
Qed.
End loops.

(** ** The table as the stack uses it *)

(** The environment of the stack for a configuration; [base] supplies what
    does not come from the files. *)
Definition env_of (base : Env) (c : mtcp_config) : Env := {|
  Machine.tcp_timewait := tcp_timewait c; Machine.tcp_timeout := tcp_timeout c;
  Machine.sndbuf_size := sndbuf_size c; Machine.max_concurrency := max_concurrency c;
  eths := (fun e => (ip_addr e, eth_haddr e)) <$> c_eths c;
  nif_to_eidx := fun nif => default (-1) (c_nif_to_eidx c !! Z.to_nat nif);
  rtable := c_rtable c; gateway := c_gateway c ≫= fun i => c_rtable c !! i;
  arp_capacity := MAX_ARPENTRY; rand_r := @rand_r base; fresh_mem := @fresh_mem base;
  hw_checksum := @hw_checksum base; cpu := @cpu base; num_cpus := g_num_cpus c; num_queues := @num_queues base;
  endian_check := @endian_check base
|}.

(** The number of leading ones of a mask, and whether an address has the
    leading bits of a route. *)
Definition bits_of (mask : Z) : Z := 32 - Z.log2 (2 ^ 32 - ntohl mask).
Definition covers (da : Z) (r : route) : bool :=
  let k := 32 - bits_of (rt_mask r) in ntohl da / 2 ^ k =? ntohl (rt_daddr r) / 2 ^ k.

Lemma bits_of_mask k : 0 <= k <= 32 -> bits_of (MaskFromPrefix k) = k.
Proof.
  intros Hk. unfold bits_of. rewrite mask_reference by done.
  replace (2 ^ 32 - (2 ^ 32 - 2 ^ (32 - k))) with (2 ^ (32 - k)) by lia. rewrite Z.log2_pow2 by lia. lia.
Qed.

Lemma covers_spec l da r k : 0 <= da < 2 ^ 32 -> route_good l r k ->
  (Z.land da (rt_mask r) =? rt_masked r) = covers da r.
Proof.
  intros Hda [Hk Hm Ha Hmd _ _]. unfold covers. rewrite Hmd, Hm, bits_of_mask by done.
  replace (32 - k) with (32 - k) by lia. apply eq_bool_prop_intro.
  pose proof (same_prefix da (rt_daddr r) k Hda Ha Hk). rewrite !Is_true_true, !Z.eqb_eq. done.
Qed.

Lemma walk_first `{Env} l da rs :
  0 <= da < 2 ^ 32 -> Forall (fun r => exists k, route_good l r k) rs ->
  route_walk da rs = match List.find (covers da) rs with
                     | Some r => if 0 <? rt_prefix r then (rt_nif r, false)
                                 else match gateway with Some g => (rt_nif g, true) | None => (-1, false) end
                     | None => (-1, false)
                     end.
Proof.
  intros Hda. induction 1 as [|r rs [k Hr] _ IH]; [done|]. cbn. rewrite (covers_spec l da r k) by done.
  by destruct (covers da r).
Qed.

Lemma find_default da rs r :
  Forall (fun r => 0 < rt_prefix r) rs -> List.find (covers da) rs = Some r -> 0 < rt_prefix r.
Proof. intros Hall [Hin _]%List.find_some. apply list_elem_of_In in Hin. by eapply Forall_forall in Hall. Qed.

Lemma find_app_last da l r : List.find (covers da) (l ++ [r]) =
  match List.find (covers da) l with Some x => Some x | None => if covers da r then Some r else None end.
Proof. induction l as [|x l IH]; [done|]. cbn. by destruct (covers da x). Qed.

Lemma lookup_route base c da :
  routes_ok c -> 0 <= da < 2 ^ 32 ->
  @GetOutputInterface (env_of base c) da =
  match List.find (covers da) (c_rtable c) with
  | Some r => if rt_nif r <? 0 then Fault AssertFailed else Ok (rt_nif r, rt_prefix r =? 0)
  | None => Fault AssertFailed
  end.
Proof.
  intros [Hg _ Hgw] Hda. unfold GetOutputInterface. change (@rtable (env_of base c)) with (c_rtable c).
  rewrite (walk_first (c_eths c) da) by done. change (@gateway (env_of base c)) with (c_gateway c ≫= fun i => c_rtable c !! i).
  unfold gateway_last in Hgw. destruct (c_gateway c) as [i|].
  - destruct Hgw as (l & r & -> & -> & Hr & Hl). cbn [mbind option_bind]. rewrite list_lookup_middle by done.
    rewrite find_app_last. destruct (List.find (covers da) l) as [x|] eqn:E.
    { apply find_default in E; [|done]. destruct (Z.ltb_spec 0 (rt_prefix x)), (Z.eqb_spec (rt_prefix x) 0); done || lia. }
    destruct (covers da r); [|done]. by rewrite Hr.
  - destruct (List.find (covers da) (c_rtable c)) as [x|] eqn:E; [|done].
    apply find_default in E; [|done]. destruct (Z.ltb_spec 0 (rt_prefix x)), (Z.eqb_spec (rt_prefix x) 0); done || lia.
Qed.


(** ** ARP entries and options *)

Section files.
Context (inet_addr : list Z -> Z) (mpz_set_str : list Z -> option Z) (permitted : io_module -> bool).
Context (detect : mtcp_config -> out mtcp_config).

(** What loading ARP entries leaves alone. *)
Definition core_routes (c : mtcp_config) : mtcp_config :=
  c <| c_arp := [] |> <| c_arp_gateway := None |> <| bad_errno := false |>.
Definition arp_ok (c : mtcp_config) : Prop :=
  zlen (c_arp c) <= MAX_ARPENTRY /\
  Forall (fun e => length (arp_haddr e) = 6%nat /\ 0 <= arp_prefix e <= 32 /\ arp_mask e = MaskFromPrefix (arp_prefix e)) (c_arp c).

Lemma mac_tokens_ok fuel s i h :
  (length s < fuel)%nat -> i = zlen h -> i <= ETH_ALEN -> ok (fun h => length h = 6%nat) (mac_tokens fuel s i h).
Proof.
  revert s i h. induction fuel as [|fuel IH]; intros s i h Hf Hi Hle; [lia|]. cbn [mac_tokens].
  destruct (strtok [58] s) as [[str save]|] eqn:E.
  - apply strtok_token in E as [_ Hlt]. destruct (Z.leb_spec ETH_ALEN i); [done|].
    destruct (scan_hex str) as [t|]; [|done]. apply IH; [lia|unfold zlen in *; rewrite length_app; cbn; lia|lia].
  - destruct (Z.ltb_spec i ETH_ALEN); [done|]. cbn. unfold ETH_ALEN, zlen in *. lia.
Qed.

Lemma enroll_arp_ok optstr c :
  arp_ok c -> ok (fun c' => arp_ok c' /\ core_routes c' = core_routes c) (EnrollARPTableEntry inet_addr optstr c).
Proof.
  intros [Hn Hf]. unfold EnrollARPTableEntry.
  destruct (strtok [47] optstr) as [[dip_s save]|]; [|done].
  destruct (strtok [32] save) as [[prefix_s save2]|]; [|done].
  destruct (strtok [10] save2) as [[daddr_s save3]|]; [|done].
  pose proof (mystrtol_spec prefix_s c) as Hm. destruct (mystrtol prefix_s c) as [[p c1]| |]; [|done|done].
  destruct Hm as [Hc1 _]. cbn [out_bind]. rewrite Hc1.
  destruct (Z.ltb_spec 32 p), (Z.ltb_spec p 0); [done..|]. cbn [orb].
  destruct (Z.leb_spec MAX_ARPENTRY (Z.of_nat (length (c_arp (c <| bad_errno := bad_errno c1 |>))))) as [|Hlt]; [done|].
  destruct (ParseIPAddress inet_addr dip_s) as [r ip].
  eapply (ok_bind (fun h => length h = 6%nat)).
  { unfold ParseMACAddress. apply mac_tokens_ok; [lia|done|done]. }
  intros h Hh. cbn [ok]. case_match; (split; [|reflexivity]); (split; cbn in *;
    [unfold zlen in *; rewrite length_app; cbn; unfold MAX_ARPENTRY in *; lia
    |apply Forall_app; split; [done|]; apply Forall_singleton; cbn; split_and!; done || lia]).
Qed.

Lemma arp_lines_ok fuel f n h c :
  (length f < fuel)%nat -> arp_ok c ->
  ok (fun c' => arp_ok c' /\ core_routes c' = core_routes c) (arp_lines inet_addr fuel f n h c).
Proof.
  revert f n h c. induction fuel as [|fuel IH]; intros f n h c Hf Hc; [lia|]. cbn [arp_lines].
  destruct (fgets f) as [[line f']|] eqn:Hg; [|done]. apply fgets_shorter in Hg. cbv zeta.
  destruct (c_string (trimmed line)) as [|x p]; [apply IH; [lia|done]|].
  destruct (negb h && _).
  - eapply (ok_bind (fun _ => True)).
    { unfold string_at. destruct (_ <? _)%nat; done. }
    intros t _. unfold GetIntValue. cbv zeta. destruct (_ <=? 0); [done|]. eapply ok_mono; [apply IH; [lia|exact Hc]|].
    intros c' [? E]. split; [done|]. by rewrite E.
  - destruct (n <=? 0); [done|]. eapply ok_bind; [by apply enroll_arp_ok|]. intros c1 [Hc1 E1].
    eapply ok_mono; [apply IH; [lia|done]|]. intros c2 [? E2]. split; [done|congruence].
Qed.

Lemma LoadARPTable_ok file c :
  ok (fun x => arp_ok (snd x) /\ core_routes (snd x) = core_routes c) (LoadARPTable inet_addr file c).
Proof.
  assert (H0 : arp_ok (InitARPTable c)) by by split.
  unfold LoadARPTable. destruct file as [f|]; [|done].
  eapply ok_bind; [apply arp_lines_ok; [lia|exact H0]|]. intros c' [? E]. split; [done|exact E].
Qed.

(** The sizes of the buffers and the number of processors while the options
    are read. *)
Record sizes_ok (c : mtcp_config) : Prop := {
  sz_rcv : rcvbuf_size c = -1 \/ 64 <= rcvbuf_size c < 2147483648;
  sz_snd : sndbuf_size c = -1 \/ 64 <= sndbuf_size c < 2147483648;
  sz_conc : 0 <= max_concurrency c < 2147483648;
  sz_bufs : 0 <= max_num_buffers c < 2147483648;
  sz_cpus : 1 <= g_num_cpus c <= MAX_CPUS
}.

Lemma int_option_ok q c (P : Z * mtcp_config -> Prop) k :
  (forall v b, -2147483648 <= v < 2147483648 -> ok P (k v (c <| bad_errno := b |>))) -> ok P (int_option q c k).
Proof.
  intros Hk. unfold int_option. pose proof (mystrtol_spec q c) as Hm. destruct (mystrtol q c) as [[v c']| |]; [|done|done].
  cbn [out_bind]. destruct Hm as [-> Hv]. by apply Hk.
Qed.

(** What reading the options leaves alone. *)
Definition tables (c : mtcp_config) :=
  (c_eths c, c_nif_to_eidx c, c_rtable c, c_gateway c, c_arp c, c_arp_gateway c).

Ltac sizes := (split; [reflexivity|]); cbn; intros; try lia; constructor; cbn; try done; try lia.

Lemma ParseConfiguration_ok line c :
  sizes_ok c ->
  ok (fun x => tables (snd x) = tables c /\ (0 <= fst x -> sizes_ok (snd x)))
     (ParseConfiguration mpz_set_str permitted line c).
Proof.
  intros [Hr Hs Hc Hb Hn]. unfold ParseConfiguration. destruct (_ <=? zlen line); [done|].
  destruct (strtok _ line) as [[p save]|]; [|by cbn; split; [|lia]].
  destruct (strtok _ save) as [[q save2]|]; [|by cbn; split; [|lia]]. cbv zeta.
  repeat match goal with |- ok _ (if bool_decide (p = ?s) then _ else _) => destruct (bool_decide (p = s)) end;
    try (apply int_option_ok; intros v b Hv; cbn).
  - destruct (Z.leb_spec v 0); [sizes|]. destruct (Z.ltb_spec (g_num_cpus c) v); sizes.
  - destruct (mpz_set_str q); sizes.
  - destruct (Z.ltb_spec v 0); sizes.
  - destruct (Z.ltb_spec v 0); sizes.
  - destruct (Z.ltb_spec v 64); sizes.
  - destruct (Z.ltb_spec v 64); sizes.
  - unfold timeout_ticks. repeat case_match; cbn; try done; sizes.
  - unfold timeout_ticks. repeat case_match; cbn; try done; sizes.
  - sizes.
  - sizes.
  - eapply (ok_bind (fun _ => True)); [unfold AssignIOModule; by repeat case_match|]. intros m _.
    destruct (permitted m); [|done]. sizes.
  - sizes.
  - eapply (ok_bind (fun x => tables (snd x) = tables c /\ sizes_ok (snd x))).
    + unfold SetMultiProcessSupport. destruct (strtok _ _) as [[sample rest]|]; [|cbn; by split].
      apply int_option_ok. intros v b Hv. cbn. by split.
    + intros [r c'] [E Hc']. cbn. by split.
  - sizes.
Qed.

Lemma config_lines_ok fuel f c :
  (length f < fuel)%nat -> sizes_ok c ->
  ok (fun x => tables (snd x) = tables c /\ (0 <= fst x -> sizes_ok (snd x)))
     (config_lines mpz_set_str permitted fuel f c).
Proof.
  revert f c. induction fuel as [|fuel IH]; intros f c Hf Hc; [lia|]. cbn [config_lines].
  destruct (fgets f) as [[line f']|] eqn:Hg; [|by cbn]. apply fgets_shorter in Hg.
  destruct (c_string (trimmed line)) as [|x p]; [apply IH; [lia|done]|].
  eapply ok_bind; [by apply ParseConfiguration_ok|]. intros [r c1] [E H1]. cbn in E, H1.
  destruct (Z.ltb_spec r 0); [cbn; split; [done|lia]|]. eapply ok_mono; [apply IH; [lia|by apply H1]|].
  intros [r2 c2] [E2 H2]. cbn in *. split; [congruence|done].
Qed.

(** ** Interfaces *)

(** A table that leads from the number of an interface to its entry. *)
Definition port_ok (l : list eth_table) (t : list Z) (j : Z) : Prop :=
  0 <= j < MAX_DEVICES /\
  exists k e, t !! Z.to_nat j = Some (Z.of_nat k) /\ l !! k = Some e /\ ifindex e = j.

Lemma number_ports_ok i l stats t :
  zlen t = MAX_DEVICES ->
  ok (fun x => Forall2 (fun e e' => exists b, e' = e <| stat_print := b |>) l (fst x) /\ Forall (fun e => 0 <= ifindex e) (fst x) /\
        forall j, 0 <= j ->
          (exists k e, snd x !! Z.to_nat j = Some (i + Z.of_nat k) /\ fst x !! k = Some e /\ ifindex e = j /\ j < MAX_DEVICES)
          \/ (snd x !! Z.to_nat j = t !! Z.to_nat j /\ Forall (fun e => ifindex e <> j) (fst x)))
     (number_ports i l stats t).
Proof.
  revert i t. induction l as [|e l IH]; intros i t Ht; cbn [number_ports]; [cbn; naive_solver|]. cbv zeta.
  destruct (Z.leb_spec MAX_DEVICES (ifindex e)); [done|]. destruct (Z.ltb_spec (ifindex e) 0); [done|].
  eapply ok_bind; [apply IH; unfold zlen; by rewrite length_insert|]. intros [l' t'] (Hl & Hp & Hj). cbn in Hl, Hp, Hj. cbn [ok fst snd].
  set (e' := if bool_decide _ then _ else _).
  assert (He' : exists b, e' = e <| stat_print := b |>).
  { subst e'. case_bool_decide; [by exists true|]. exists (stat_print e). by destruct e. }
  assert (Hi' : ifindex e' = ifindex e) by (by destruct He' as [b ->]).
  split_and!; [by constructor|constructor; [lia|done]|]. intros j Hj0.
  destruct (Hj j Hj0) as [(k & x & E & Ek & Ex & ?)|[E Hno]].
  { left. exists (S k), x. split_and!; [rewrite E; f_equal; lia|done..]. }
  destruct (Z.eq_dec (ifindex e) j) as [<-|Hne].
  - left. exists 0%nat, e'. split_and!; [|done|done|done]. rewrite E, list_lookup_insert_eq; [f_equal; lia|].
    unfold zlen in Ht. lia.
  - right. split; [rewrite E; apply list_lookup_insert_ne; lia|]. constructor; [congruence|done].
Qed.

Lemma number_all l stats :
  ok (fun x => Forall2 (fun e e' => exists b, e' = e <| stat_print := b |>) l (fst x) /\
               Forall (fun e => port_ok (fst x) (snd x) (ifindex e)) (fst x))
     (number_ports 0 l stats (replicate (Z.to_nat MAX_DEVICES) (-1))).
Proof.
  eapply ok_mono; [apply number_ports_ok; done|]. intros [l' t'] (Hl & Hp & Hj). cbn in *. split; [done|].
  apply Forall_forall. intros e He. rewrite Forall_forall in Hp. specialize (Hp e He). split.
  - destruct (Hj _ Hp) as [(? & ? & ? & ? & ? & ?)|[_ Hno]]; [lia|]. rewrite Forall_forall in Hno. by destruct (Hno e He).
  - destruct (Hj _ Hp) as [(k & x & ? & ? & ? & ?)|[_ Hno]]; [by exists k, x|].
    rewrite Forall_forall in Hno. by destruct (Hno e He).
Qed.

(** What is assumed of the system calls that look for the interfaces: they
    store at most [MAX_DEVICES] of them, with the mask of a prefix. *)
Definition detects : Prop := forall c,
  ok (fun c' => exists l n, c' = c <| c_eths := l |> <| num_devices := n |> /\ Forall eth_ok l /\ zlen l <= MAX_DEVICES)
     (detect c).

Definition ports_ok (c : mtcp_config) : Prop := Forall (fun e => port_ok (c_eths c) (c_nif_to_eidx c) (ifindex e)) (c_eths c).

Lemma eths_stat l l' : Forall2 (fun e e' => exists b, e' = e <| stat_print := b |>) l l' ->
  Forall eth_ok l -> Forall eth_ok l' /\ zlen l' = zlen l.
Proof.
  intros Hl He. split; [|unfold zlen; by rewrite (Forall2_length _ _ _ Hl)].
  induction Hl as [|e e' l l' [b ->] _ IH]; [done|]. inv He. constructor; [done|by apply IH].
Qed.

Lemma SetNetEnv_ok c : detects ->
  ok (fun x => fst x = 0 /\ ports_ok (snd x) /\ Forall eth_ok (c_eths (snd x)) /\ zlen (c_eths (snd x)) <= MAX_DEVICES /\
        exists l t n, snd x = c <| c_eths := l |> <| num_devices := n |> <| c_nif_to_eidx := t |>)
     (SetNetEnv detect c).
Proof.
  intros Hd. unfold SetNetEnv. eapply ok_bind; [apply Hd|]. intros c1 (l & n & -> & Hl & Hn).
  eapply ok_bind; [apply number_all|]. intros [l' t] [Hl' Hp]. cbn in Hl', Hp. cbn.
  destruct (eths_stat _ _ Hl' Hl) as [? E]. split_and!; [done|exact Hp|done|lia|]. by exists l', t, n.
Qed.

Lemma buffer_sizes_eq c :
  let unset x := x =? -1 in
  let r := if unset (rcvbuf_size c) then if unset (sndbuf_size c) then 8192 else sndbuf_size c else rcvbuf_size c in
  let s := if unset (sndbuf_size c) then if unset (rcvbuf_size c) then 8192 else rcvbuf_size c else sndbuf_size c in
  buffer_sizes c = c <| sndbuf_size := s |> <| rcvbuf_size := r |>.
Proof.
  cbv zeta. unfold buffer_sizes. destruct (sndbuf_size c =? -1) eqn:Es, (rcvbuf_size c =? -1) eqn:Er;
    cbn -[Z.eqb]; rewrite ?Es, ?Er; cbn -[Z.eqb]; rewrite ?Es, ?Er; cbn -[Z.eqb]; rewrite ?Es, ?Er; by destruct c.
Qed.

Lemma buffer_sizes_ok c : sizes_ok c ->
  64 <= rcvbuf_size (buffer_sizes c) /\ 64 <= sndbuf_size (buffer_sizes c) /\
  sizes_ok (buffer_sizes c) /\ tables (buffer_sizes c) = tables c.
Proof.
  intros [Hr Hs Hc Hb Hn]. rewrite buffer_sizes_eq. cbv zeta.
  destruct (Z.eqb_spec (rcvbuf_size c) (-1)), (Z.eqb_spec (sndbuf_size c) (-1)); cbn;
    (split_and!; [lia|lia| |done]); constructor; cbn; lia.
Qed.

(** ** The whole configuration *)

Record config_ok (c : mtcp_config) : Prop := {
  ck_rcv : 64 <= rcvbuf_size c < 2147483648;
  ck_snd : 64 <= sndbuf_size c < 2147483648;
  ck_conc : 0 <= max_concurrency c < 2147483648;
  ck_cpus : 1 <= g_num_cpus c <= MAX_CPUS;
  ck_ports : ports_ok c;
  ck_routes : routes_ok c;
  ck_arp : arp_ok c
}.
(** The part of it that the first file sets. *)
Record loaded (c : mtcp_config) : Prop := {
  ld_rcv : 64 <= rcvbuf_size c < 2147483648;
  ld_snd : 64 <= sndbuf_size c < 2147483648;
  ld_sizes : sizes_ok c;
  ld_ports : ports_ok c;
  ld_eths : Forall eth_ok (c_eths c);
  ld_len : zlen (c_eths c) <= MAX_DEVICES;
  ld_gateway : c_gateway c = None
}.

Lemma sizes_ok_ext c c' : sizes_ok c ->
  rcvbuf_size c' = rcvbuf_size c -> sndbuf_size c' = sndbuf_size c -> max_concurrency c' = max_concurrency c ->
  max_num_buffers c' = max_num_buffers c -> g_num_cpus c' = g_num_cpus c -> sizes_ok c'.
Proof. intros [] E1 E2 E3 E4 E5. constructor; by rewrite ?E1, ?E2, ?E3, ?E4, ?E5. Qed.

Lemma LoadConfiguration_ok file c : detects -> sizes_ok c -> c_gateway c = None ->
  ok (fun x => fst x = 0 -> loaded (snd x)) (LoadConfiguration mpz_set_str permitted detect file c).
Proof.
  intros Hd Hc Hg. destruct file as [f|]; [|cbn; lia]. cbn [LoadConfiguration].
  eapply ok_bind.
  { apply config_lines_ok; [lia|]. by eapply sizes_ok_ext. }
  intros [r c1] [E H1]. cbn in E, H1. destruct (Z.ltb_spec r 0); [cbn; lia|].
  destruct (buffer_sizes_ok c1 (H1 ltac:(lia))) as (Hr & Hs & [Hr' Hs' Hk Hb Hn] & Et).
  eapply ok_mono; [by apply SetNetEnv_ok|]. intros [r2 c2] (_ & Hp & He & Hl & l & t & n & Ec) _. cbn [snd] in *. subst c2.
  constructor; try done; cbn -[buffer_sizes]; [lia|lia|].
  rewrite E in Et. unfold tables in Et. cbn -[buffer_sizes] in Et. congruence.
Qed.

Lemma core_routes_ext c c' : core_routes c' = core_routes c ->
  c_eths c' = c_eths c /\ c_nif_to_eidx c' = c_nif_to_eidx c /\ c_rtable c' = c_rtable c /\ c_gateway c' = c_gateway c /\ core c' = core c.
Proof. intros E. split_and!; [by apply (f_equal c_eths) in E|by apply (f_equal c_nif_to_eidx) in E|by apply (f_equal c_rtable) in E
  |by apply (f_equal c_gateway) in E|]. by apply (f_equal core) in E. Qed.

Context (Hinet : forall s, 0 <= inet_addr s < 2 ^ 32).

Lemma tables_ok routes arps c : loaded c ->
  ok (fun x => fst x = 0 -> config_ok (snd x))
     (let^ (r, c) := SetRoutingTable inet_addr true routes c in
      if negb (r =? 0) then Val (-1, c) else let^ (_, c) := LoadARPTable inet_addr arps c in Val (0, c)).
Proof.
  intros [Hr Hs [_ _ Hk _ Hn] Hp He Hl Hg].
  eapply ok_bind; [by apply SetRoutingTable_ok|]. intros [r c1] (Hr0 & H1 & E1). cbn in Hr0, H1, E1. subst r. cbn [Z.eqb negb].
  eapply ok_bind; [apply LoadARPTable_ok|]. intros [r c2] (H2 & E2). cbn in H2, E2. cbn. intros _.
  apply core_routes_ext in E2 as (Ee & En & Er & Eg & Ec).
  assert (E : core c2 = core c) by congruence. pose proof (core_eths _ _ E) as Ee'.
  assert (En' : c_nif_to_eidx c2 = c_nif_to_eidx c) by by apply (f_equal c_nif_to_eidx) in E.
  constructor; [by apply (f_equal rcvbuf_size) in E; cbn in E; rewrite E|by apply (f_equal sndbuf_size) in E; cbn in E; rewrite E
    |by apply (f_equal max_concurrency) in E; cbn in E; rewrite E|by apply (f_equal g_num_cpus) in E; cbn in E; rewrite E| | |done].
  - unfold ports_ok. by rewrite Ee', En'.
  - by apply (routes_ok_ext c1).
Qed.

(** The settings before the files are read; [mtcp_setconf] may have changed
    them. *)
Definition settings_ok (c : mtcp_config) : Prop := sizes_ok (c <| g_num_cpus := 1 |>) /\ c_gateway c = None.

Lemma mtcp_init_ok cpus conf routes arps c : detects -> settings_ok c ->
  ok (fun x => fst x = 0 -> config_ok (snd x))
     (mtcp_init inet_addr mpz_set_str permitted detect cpus conf routes arps c).
Proof.
  intros Hd [[Hr Hs Hc Hb _] Hg]. unfold mtcp_init. cbv zeta. set (n := if num_cores c =? 0 then _ else _). cbn in Hr, Hs, Hc, Hb.
  unfold check. cbn. destruct (Z.leb_spec 1 n); [|done]. cbn [out_bind].
  destruct (Z.ltb_spec MAX_CPUS n); [done|].
  eapply ok_bind; [apply LoadConfiguration_ok; [done| |exact Hg]; constructor; cbn; lia|].
  intros [r c1] H1. cbn in H1. destruct (Z.eqb_spec r 0); [|cbn; lia]. cbn [negb]. apply tables_ok. by apply H1.
Qed.
End files.

Lemma net_ok base c : config_ok c -> Forall (fun r => rt_nif r <> -1) (c_rtable c) -> @NetOk (env_of base c).
Proof.
  intros Hc Hn. pose proof (ck_ports c Hc) as Hp. destruct (ck_routes c Hc) as [Hg _ _].
  assert (H : Forall (fun r => @nif_ok (env_of base c) (rt_nif r)) (c_rtable c)).
  { apply Forall_forall. intros r Hin. rewrite Forall_forall in Hg, Hn. destruct (Hg r Hin) as [k [_ _ _ _ _ [?|(e & He & ->)]]].
    { by destruct (Hn r Hin). }
    unfold ports_ok in Hp. rewrite Forall_forall in Hp. destruct (Hp e He) as [Hj (i & e' & Ei & El & _)].
    unfold nif_ok, sender_of. unfold MAX_DEVICES in Hj. split; [lia|].
    destruct (Z.ltb_spec (ifindex e) 0); [lia|]. change (@nif_to_eidx (env_of base c) (ifindex e)) with (default (-1) (c_nif_to_eidx c !! Z.to_nat (ifindex e))).
    rewrite Ei. change (default (-1) (Some (Z.of_nat i))) with (Z.of_nat i). apply lookup_lt_Some in El. unfold eths_num.
    change (@eths (env_of base c)) with ((fun e => (ip_addr e, eth_haddr e)) <$> c_eths c). unfold zlen. rewrite length_fmap.
    destruct (Z.ltb_spec (Z.of_nat i) 0); [lia|]. destruct (Z.leb_spec (Z.of_nat (length (c_eths c))) (Z.of_nat i)); [lia|]. by eexists. }
  constructor; [exact H|]. intros g Hgw. change (@gateway (env_of base c)) with (c_gateway c ≫= fun i => c_rtable c !! i) in Hgw.
  destruct (c_gateway c) as [i|]; [|done]. cbn in Hgw. rewrite Forall_lookup in H. by eapply H.
Qed.

