(* ===== verification/ConfigDemo.v ===== *)
(** * Sample configurations

    The files of [config/] with two interfaces and a default gateway, read by
    the model; the theorems of [ConfigOk] applied to them, and what the code
    does with three files that are not as their comments ask. *)

From Stdlib Require Import String.
From S2P Require Import Prelude SeqNum SpscQueue Rss Machine Network Invariant Boot HttpDate Config ConfigOk.

(** A reader of dotted quads in the place of [inet_addr]. *)
Fixpoint quad (n : nat) (s : list Z) : list Z :=
  match n with
  | O => []
  | S n => match strtok [46] s with Some (t, s) => decimal t :: quad n s | None => [] end
  end.
Definition dotted (s : list Z) : Z :=
  match quad 5 s with [a; b; c; d] => u32 (a + 256 * b + 65536 * c + 16777216 * d) | _ => INADDR_NONE end.

Lemma dotted_range s : 0 <= dotted s < 2 ^ 32.
Proof. unfold dotted. repeat case_match; by (apply u32_range || done). Qed.

Definition file (lines : list string) : list Z := concat ((fun l => chars l ++ [10]) <$> lines).
Definition any_module (_ : io_module) : bool := true.
Definition no_mask (_ : list Z) : option Z := None.

Definition two_ports : list eth_table :=
  [mkEth (chars "dpdk0") 0 (dotted (chars "10.0.0.9")) (MaskFromPrefix 24) [2; 0; 0; 0; 0; 1] false;
   mkEth (chars "dpdk1") 1 (dotted (chars "10.0.1.9")) (MaskFromPrefix 24) [2; 0; 0; 0; 0; 2] false].
Definition find_two (c : mtcp_config) : out mtcp_config := Val (c <| c_eths := two_ports |> <| num_devices := 2 |>).

Lemma two_ports_ok : Forall eth_ok two_ports.
Proof.
  repeat constructor; try (apply dotted_range); exists 24; (split; [lia|reflexivity]).
Qed.

Lemma find_two_detects : detects find_two.
Proof. intros c. exists two_ports, 2. split_and!; [done|exact two_ports_ok|done]. Qed.

Definition mtcp_conf_file : list Z := file
  ["############### mtcp configuration file ###############"; ""; "io = dpdk"; "num_cores = 4"; "num_mem_ch = 4";
   "port = dpdk0 dpdk1"; "rcvbuf = 8192"; "sndbuf = 4096   # send"; "tcp_timeout = 30"; "tcp_timewait = 0"; "stat_print = dpdk1"]%string.
Definition route_file : list Z := file
  ["# (Destination address)/(Prefix) (Device name)"; ""; "ROUTES 2"; "10.0.2.1/24 dpdk1"; "# the gateway is last"; "10.0.0.10/0 dpdk0"]%string.
Definition arp_file : list Z := file
  ["ARP_ENTRY 2"; "10.0.0.10/32 00:00:00:00:00:01"; "10.0.1.1/32 00:1b:00:00:00:02"]%string.

Notation init conf routes arps := (mtcp_init dotted no_mask any_module find_two 8 (Some conf) (Some routes) (Some arps)
  (initial_config false)).

Definition loaded_config : mtcp_config :=
  match init mtcp_conf_file route_file arp_file with Val (_, c) => c | _ => initial_config false end.

Example sample_loads :
  match init mtcp_conf_file route_file arp_file with
  | Val (r, c) => (r, g_num_cpus c, (rcvbuf_size c, sndbuf_size c), tcp_timeout c, rt_nif <$> c_rtable c, c_gateway c, c_arp_gateway c,
                   arp_haddr <$> c_arp c, c_nif_to_eidx c !! 1%nat, stat_print <$> c_eths c)
                  = (0, 4, (8192, 4096), 30000, [0; 1; 1; 0], Some 3%nat, Some 0%nat,
                     [[0; 0; 0; 0; 0; 1]; [0; 27; 0; 0; 0; 2]], Some 1, [false; true])
  | _ => False
  end.
Proof. vm_compute. reflexivity. Qed.


Notation set_routes routes :=
  (SetRoutingTable dotted true (Some routes) (initial_config false <| c_eths := two_ports |> <| num_devices := 2 |>)).


Notation nif_of routes da :=
  (match set_routes routes with Val (_, c) => @GetOutputInterface (env_of Demo.env c) (dotted (chars da)) | _ => Fault OutOfFuel end).

(** The subnets of the interfaces, a route of the file, and the gateway. *)
Example sample_routes :
  (nif_of route_file "10.0.0.77", nif_of route_file "10.0.1.3", nif_of route_file "10.0.2.200", nif_of route_file "8.8.8.8")
  = (Ok (0, false), Ok (1, false), Ok (1, false), Ok (0, true)).
Proof. vm_compute. reflexivity. Qed.

(** The order of the routes decides, not the length of their prefixes. *)
Example first_not_longest :
  nif_of (file ["ROUTES 2"; "10.5.0.0/16 dpdk0"; "10.5.1.0/24 dpdk1"]%string) "10.5.1.7" = Ok (0, false).
Proof. vm_compute. reflexivity. Qed.

(** An entry behind the default route ends the process. *)
Example gateway_not_last : set_routes (file ["ROUTES 2"; "10.0.0.10/0 dpdk0"; "10.0.2.1/24 dpdk1"]%string) = Exit EXIT_FAILURE.
Proof. vm_compute. reflexivity. Qed.

(** A route with an unknown device is accepted, and stops the process when an
    address uses it. *)
Example unknown_device : nif_of (file ["ROUTES 1"; "10.9.0.0/16 eth7"]%string) "10.9.0.1" = Fault AssertFailed.
Proof. vm_compute. reflexivity. Qed.

(** A number above the range of [long] is read as -1. *)
Example overflow_unnoticed :
  match mystrtol (chars "99999999999999999999") (initial_config false) with Val (v, c) => (v, bad_errno c) | _ => (0, false) end
  = (-1, true).
Proof. vm_compute. reflexivity. Qed.

(** Such a number leaves [errno] set, and the next [GetIntValue] fails. *)
Example stale_errno : fst (GetIntValue (chars "2") (initial_config true)) = -1.
Proof. vm_compute. reflexivity. Qed.

(** A line that holds only the word [ROUTES] is read beyond its end. *)
Example routes_without_number : set_routes (chars "ROUTES") = Crash OutOfBounds.
Proof. vm_compute. reflexivity. Qed.

(** A timeout of more than 2147 seconds overflows an [int]. *)
Example timeout_overflow : init (file ["tcp_timeout = 3000"]%string) route_file arp_file = Crash SignedOverflow.
Proof. vm_compute. reflexivity. Qed.

(** The prefix of an interface is counted on the mask in the order of the
    network, so 20 leading bits are taken for 24. *)
Example prefix_of_mask : rt_prefix (default_route (mkEth (chars "dpdk0") 0 0 (MaskFromPrefix 20) [] false)) = 24.
Proof. reflexivity. Qed.
