(* ===== verification/RelayBuffer.v ===== *)
(** * The buffers of a relay: [util/ring_buffer.c]

    A buffer is an allocation with the data in one piece at the offset
    [r_data]; the data are moved to the front when the offset is in the
    second half. The header [rep.h] of the framed copy is not part of the
    repository: its size and layout are the parameter [rephdr].

    The buffers are queues of bytes ([contents]): what is read into one,
    moved to another and written out comes out in the order it came in. *)

From S2P Require Import Prelude.

Module Relay.

Record ring_buffer := mkBuf { r_mem : list Z; r_data : Z; tot_size : Z; data_size : Z; cum_size : Z }.
#[export] Instance ring_buffer_Rebuild : Rebuild ring_buffer := fun r =>
  mkBuf (r_mem r) (r_data r) (tot_size r) (data_size r) (cum_size r).

Definition assert (b : bool) : res unit := if b then Ok tt else Fault AssertFailed.
Definition INT_MAX : Z := 2147483647.

(** [fresh] is the content of the new allocation. *)
Definition InitBuffer (size : Z) (fresh : list Z) : ring_buffer := mkBuf fresh 0 size 0 0.

Definition GetTotSizeRBuffer (r : ring_buffer) : Z := tot_size r.
Definition GetDataSizeRBuffer (r : ring_buffer) : Z := data_size r.
Definition GetCumSizeRBuffer (r : ring_buffer) : Z := cum_size r.

Definition GetRemainBufferSize (r : ring_buffer) : res (Z * ring_buffer) :=
  let! _ := assert (0 <=? r_data r) in
  let! _ := assert (r_data r <=? tot_size r - 1) in
  if Z.quot (tot_size r) 2 <? r_data r then
    let! m := from_option_res OutOfBounds (mem_move (r_mem r) 0 (r_data r) (data_size r)) in
    Ok (tot_size r - data_size r, r <| r_mem := m |> <| r_data := 0 |>)
  else Ok (tot_size r - data_size r - r_data r, r).

Definition CheckAvailableSize (r : ring_buffer) (size : Z) : res (bool * ring_buffer) :=
  let! (remain_size, r) := GetRemainBufferSize r in Ok (size <=? remain_size, r).

Definition GetDataPoint (r : ring_buffer) : Z := r_data r.
Definition GetInputPoint (r : ring_buffer) : res Z :=
  let! _ := assert (data_size r <=? tot_size r) in Ok (r_data r + data_size r).

Definition RemoveDataFromBuffer (r : ring_buffer) (size : Z) : Z * ring_buffer :=
  if size <? 0 then (-1, r)
  else if data_size r <? size then (-1, r)
  else
    let r := r <| data_size := data_size r - size |> in
    (size, if data_size r =? 0 then r <| r_data := 0 |> else r <| r_data := r_data r + size |>).

(** The counter of all bytes is an [int]. *)
Definition AddDataLen (r : ring_buffer) (size : Z) : res ring_buffer :=
  let! _ := assert (data_size r + size <=? tot_size r) in
  if INT_MAX <? cum_size r + size then Fault SignedOverflow
  else Ok (r <| data_size := data_size r + size |> <| cum_size := cum_size r + size |>).

(** [memcpy] to the input point of a buffer. *)
Definition put (r : ring_buffer) (ip : Z) (d : list Z) : res ring_buffer :=
  let! m := from_option_res OutOfBounds (mem_write (r_mem r) ip d) in Ok (r <| r_mem := m |>).
Definition get (r : ring_buffer) (n : Z) : res (list Z) :=
  from_option_res OutOfBounds (mem_read (r_mem r) (GetDataPoint r) n).

Definition CopyData (dest src : ring_buffer) (len : Z) : res (Z * ring_buffer) :=
  let! (to_cpy, dest) := GetRemainBufferSize dest in
  if to_cpy <=? 0 then Ok (0, dest)
  else
    let to_cpy := Z.min (GetDataSizeRBuffer src) (Z.min to_cpy len) in
    let! ip := GetInputPoint dest in
    let! d := get src to_cpy in
    let! dest := put dest ip d in
    let! dest := AddDataLen dest to_cpy in
    Ok (to_cpy, dest).

(** The room behind the data is not looked at. *)
Definition MoveData (dest src : ring_buffer) (len : Z) : res (Z * ring_buffer * ring_buffer) :=
  let to_move := GetDataSizeRBuffer src in
  let to_move := if 0 <? len then Z.min to_move len else to_move in
  let to_move := Z.min (GetDataSizeRBuffer src) to_move in
  if to_move <=? 0 then Ok (0, dest, src)
  else
    let! ip := GetInputPoint dest in
    let! d := get src to_move in
    let! dest := put dest ip d in
    let! dest := AddDataLen dest to_move in
    let '(ret, src) := RemoveDataFromBuffer src to_move in
    let! _ := assert (to_move =? ret) in
    Ok (ret, dest, src).

Definition MAX_REP_LEN : Z := 10 * 1024.

Section rep.
(** The bytes of a header with a type, a command and a length. *)
Context (rephdr : Z -> Z -> Z -> list Z) (sizeof_rephdr : Z).

(** A round moves at least a byte, so the size of the data is enough fuel.
    The comparisons and the subtraction are unsigned. *)
Fixpoint rep_loop (fuel : nat) (dest src : ring_buffer) (dsize remain sum : Z) : res (Z * ring_buffer * ring_buffer) :=
  if (0 <? dsize) && (sizeof_rephdr <? u64 remain) then
    match fuel with
    | O => Fault OutOfFuel
    | S fuel =>
        let to_move := s32 (Z.min dsize (u64 (remain - sizeof_rephdr))) in
        let to_move := Z.min to_move MAX_REP_LEN in
        if to_move <=? 0 then Ok (0, dest, src)
        else
          let! ip := GetInputPoint dest in
          let! dest := put dest ip (rephdr 1 0 to_move) in
          let ip := ip + sizeof_rephdr in
          let! dest := AddDataLen dest sizeof_rephdr in
          let! d := get src to_move in
          let! dest := put dest ip d in
          let! dest := AddDataLen dest to_move in
          let '(ret, src) := RemoveDataFromBuffer src to_move in
          let! _ := assert (to_move =? ret) in
          rep_loop fuel dest src (dsize - to_move) (remain - sizeof_rephdr - to_move) (sum + to_move)
    end
  else Ok (sum, dest, src).
Definition MoveToREPData (dest src : ring_buffer) (len : Z) : res (Z * ring_buffer * ring_buffer) :=
  let dsize := GetDataSizeRBuffer src in
  let! (remain, dest) := GetRemainBufferSize dest in
  let dsize := if 0 <? len then Z.min dsize len else dsize in
  rep_loop (Z.to_nat dsize) dest src dsize remain 0.
End rep.

(** [mtcp_write] gets the bytes and answers with a number; the result is what
    it got as well. *)
Definition MtcpWriteFromBuffer (mtcp_write : list Z -> Z) (r : ring_buffer) : res (Z * list Z * ring_buffer) :=
  let to_send := GetDataSizeRBuffer r in
  if to_send <=? 0 then Ok (0, [], r)
  else
    let! d := get r to_send in
    let wr := mtcp_write d in
    if wr <? 0 then Ok (wr, [], r)
    else
      let '(ret, r) := RemoveDataFromBuffer r wr in
      let! _ := assert (wr =? ret) in
      Ok (wr, take (Z.to_nat wr) d, r).

(** [mtcp_read] gets the room and answers with bytes or an error. *)
Definition MtcpReadFromBuffer (mtcp_read : Z -> Z + list Z) (r : ring_buffer) : res (Z * ring_buffer) :=
  let! (free_len, r) := GetRemainBufferSize r in
  let! ip := GetInputPoint r in
  match mtcp_read free_len with
  | inl err => Ok (err, r)
  | inr d =>
      let! r := put r ip d in
      let! r := AddDataLen r (zlen d) in
      Ok (zlen d, r)
  end.

(** ** The queue *)

Definition contents (r : ring_buffer) : list Z := take (Z.to_nat (data_size r)) (drop (Z.to_nat (r_data r)) (r_mem r)).

Record buf_ok (r : ring_buffer) : Prop := {
  bo_mem : zlen (r_mem r) = tot_size r;
  bo_tot : 0 < tot_size r <= INT_MAX;
  bo_data : 0 <= r_data r < tot_size r;
  bo_size : 0 <= data_size r;
  bo_room : r_data r + data_size r <= tot_size r;
  bo_cum : data_size r <= cum_size r <= INT_MAX
}.

Lemma contents_len r : buf_ok r -> zlen (contents r) = data_size r.
Proof. intros []. unfold contents. apply zlen_take. rewrite zlen_drop; lia. Qed.

Lemma InitBuffer_ok size fresh : 0 < size <= INT_MAX -> zlen fresh = size ->
  buf_ok (InitBuffer size fresh) /\ contents (InitBuffer size fresh) = [].
Proof. intros. split; [|done]. constructor; cbn; lia. Qed.

Lemma get_contents r n : buf_ok r -> 0 <= n <= data_size r -> get r n = Ok (take (Z.to_nat n) (contents r)).
Proof.
  intros [] Hn. unfold get, GetDataPoint. rewrite mem_read_eq by lia. cbn. unfold contents.
  rewrite take_take. do 2 f_equal. lia.
Qed.

(** Making room keeps the contents; afterwards the offset is in the first
    half. *)
Lemma remain_spec r : buf_ok r ->
  exists n r', GetRemainBufferSize r = Ok (n, r') /\ buf_ok r' /\ contents r' = contents r /\ data_size r' = data_size r /\
    cum_size r' = cum_size r /\ tot_size r' = tot_size r /\ n = tot_size r' - data_size r' - r_data r' /\ 2 * r_data r' <= tot_size r'.
Proof.
  intros Hr. pose proof Hr as [Hm Ht Hd Hs Hroom Hc]. unfold GetRemainBufferSize, assert.
  destruct (Z.leb_spec 0 (r_data r)); [|lia]. destruct (Z.leb_spec (r_data r) (tot_size r - 1)); [|lia]. cbn [res_bind].
  rewrite Z.quot_div_nonneg by lia. destruct (Z.ltb_spec (tot_size r / 2) (r_data r)).
  - destruct (mem_move_is_Some (r_mem r) 0 (r_data r) (data_size r)) as [m Em]; try lia. rewrite Em. cbn [from_option_res res_bind].
    pose proof (mem_move_Some _ _ _ _ _ Em) as (_ & _ & _ & _ & _ & Hlen & _).
    eexists _, _. split_and!; [done| |  |done..|cbn; lia|cbn; lia].
    + constructor; cbn; lia.
    + unfold mem_move in Em. rewrite mem_read_eq in Em by lia. cbn [mbind option_bind] in Em.
      change (take (Z.to_nat (data_size r)) (drop (Z.to_nat (r_data r)) (r_mem r))) with (contents r) in Em.
      unfold mem_write in Em. rewrite contents_len in Em by done.
      destruct (_ && _) in Em; [|done]. injection Em as <-.
      transitivity (take (Z.to_nat (data_size r)) (contents r ++ drop (Z.to_nat (0 + data_size r)) (r_mem r))); [done|].
      rewrite take_app_le by (pose proof (contents_len r Hr); unfold zlen in *; lia).
      apply take_ge. pose proof (contents_len r Hr). unfold zlen in *. lia.
  - exists (tot_size r - data_size r - r_data r), r. split_and!; try done. pose proof (Z.mul_div_le (tot_size r) 2). lia.
Qed.

(** Writing at the input point appends to the contents. *)
Lemma append_spec r d : buf_ok r -> r_data r + data_size r + zlen d <= tot_size r -> cum_size r + zlen d <= INT_MAX ->
  exists r', res_bind (put r (r_data r + data_size r) d) (fun r => AddDataLen r (zlen d)) = Ok r' /\ buf_ok r' /\
    contents r' = contents r ++ d /\ r_data r' = r_data r /\ tot_size r' = tot_size r /\
    data_size r' = data_size r + zlen d /\ cum_size r' = cum_size r + zlen d.
Proof.
  intros Hr Hroom Hcum. pose proof Hr as [Hm Ht Hd Hs _ Hc]. pose proof (zlen_nonneg d). unfold put.
  destruct (mem_write_is_Some (r_mem r) (r_data r + data_size r) d) as [m Em]; try lia. rewrite Em. cbn [from_option_res res_bind].
  pose proof (mem_write_Some _ _ _ _ Em) as (_ & _ & Hlen & _).
  unfold AddDataLen, assert. change (data_size (r <| r_mem := m |>)) with (data_size r).
  change (cum_size (r <| r_mem := m |>)) with (cum_size r). change (tot_size (r <| r_mem := m |>)) with (tot_size r).
  destruct (Z.leb_spec (data_size r + zlen d) (tot_size r)); [|lia]. cbn [res_bind].
  destruct (Z.ltb_spec INT_MAX (cum_size r + zlen d)); [lia|].
  eexists. split; [done|]. split_and!; [constructor; cbn; lia| |done..].
  unfold mem_write in Em. destruct (_ && _) in Em; [|done]. injection Em as <-. unfold contents at 1.
  transitivity (take (Z.to_nat (data_size r + zlen d)) (drop (Z.to_nat (r_data r))
    (take (Z.to_nat (r_data r + data_size r)) (r_mem r) ++ d ++ drop (Z.to_nat (r_data r + data_size r + zlen d)) (r_mem r)))); [done|].
  assert (E : drop (Z.to_nat (r_data r)) (take (Z.to_nat (r_data r + data_size r)) (r_mem r)) = contents r).
  { unfold contents. rewrite skipn_firstn_comm. f_equal. lia. }
  rewrite drop_app_le by (rewrite length_take; unfold zlen in *; lia). rewrite E, app_assoc.
  apply take_app_length'. rewrite length_app. pose proof (contents_len r Hr). unfold zlen in *. lia.
Qed.

Lemma remove_spec r n : buf_ok r -> 0 <= n <= data_size r ->
  exists r', RemoveDataFromBuffer r n = (n, r') /\ buf_ok r' /\ contents r' = drop (Z.to_nat n) (contents r) /\
    data_size r' = data_size r - n /\ tot_size r' = tot_size r /\ cum_size r' = cum_size r.
Proof.
  intros Hr Hn. pose proof Hr as [Hm Ht Hd Hs Hroom Hc]. unfold RemoveDataFromBuffer.
  destruct (Z.ltb_spec n 0); [lia|]. destruct (Z.ltb_spec (data_size r) n); [lia|]. cbv zeta.
  change (data_size (r <| data_size := data_size r - n |>)) with (data_size r - n).
  destruct (Z.eqb_spec (data_size r - n) 0) as [E|E]; eexists; (split; [done|]); (split; [constructor; cbn; lia|]); (split; [|done]).
  - unfold contents. cbn. rewrite E. cbn. symmetry. apply drop_ge. rewrite length_take. lia.
  - unfold contents. cbn. rewrite skipn_firstn_comm, drop_drop. f_equal; [lia|f_equal; lia].
Qed.

(** ** The operations on two buffers *)

Lemma input_point r : buf_ok r -> GetInputPoint r = Ok (r_data r + data_size r).
Proof. intros []. unfold GetInputPoint, assert. destruct (Z.leb_spec (data_size r) (tot_size r)); [done|lia]. Qed.

Definition moved (src : ring_buffer) (len : Z) : Z := if 0 <? len then Z.min (data_size src) len else data_size src.

Lemma MoveData_spec dest src len : buf_ok dest -> buf_ok src ->
  let n := moved src len in
  r_data dest + data_size dest + n <= tot_size dest -> cum_size dest + n <= INT_MAX ->
  exists dest' src', MoveData dest src len = Ok (n, dest', src') /\ buf_ok dest' /\ buf_ok src' /\
    contents dest' = contents dest ++ take (Z.to_nat n) (contents src) /\ contents src' = drop (Z.to_nat n) (contents src) /\
    tot_size dest' = tot_size dest /\ tot_size src' = tot_size src /\ cum_size dest' = cum_size dest + n /\ cum_size src' = cum_size src.
Proof.
  intros Hd Hs. cbv zeta. intros Hroom Hcum. pose proof (bo_size _ Hs). unfold MoveData, GetDataSizeRBuffer. cbv zeta.
  change (if 0 <? len then _ else _) with (moved src len).
  assert (Hn : 0 <= moved src len <= data_size src) by (unfold moved; destruct (Z.ltb_spec 0 len); lia).
  replace (Z.min (data_size src) (moved src len)) with (moved src len) by lia.
  destruct (Z.leb_spec (moved src len) 0).
  { replace (moved src len) with 0 by lia. exists dest, src. rewrite app_nil_r. split_and!; done || lia. }
  rewrite input_point, get_contents by done. cbn [res_bind].
  set (d := take _ _). assert (Hdl : zlen d = moved src len) by (apply zlen_take; rewrite contents_len; done).
  destruct (append_spec dest d) as (dest' & E & Hd' & Ec & _ & Et & _ & Eu); [done|lia..|]. rewrite Hdl in E.
  destruct (put dest _ d) as [x|]; [|done]. cbn [res_bind] in E |- *. rewrite E. cbn [res_bind].
  destruct (remove_spec src (moved src len)) as (src' & -> & Hs' & Es & ? & ? & ?); [done|lia|].
  unfold assert. rewrite Z.eqb_refl. cbn [res_bind]. exists dest', src'. split_and!; done || lia.
Qed.

(** Without room behind the data the copy is out of bounds, even when there
    is room in front of them. *)
Lemma MoveData_overrun dest src len : buf_ok dest -> buf_ok src -> 0 < moved src len ->
  tot_size dest < r_data dest + data_size dest + moved src len -> MoveData dest src len = Fault OutOfBounds.
Proof.
  intros Hd Hs Hpos Hroom. unfold MoveData, GetDataSizeRBuffer. cbv zeta.
  change (if 0 <? len then _ else _) with (moved src len).
  assert (Hn : 0 <= moved src len <= data_size src) by (unfold moved in *; destruct (Z.ltb_spec 0 len); lia).
  replace (Z.min (data_size src) (moved src len)) with (moved src len) by lia.
  destruct (Z.leb_spec (moved src len) 0); [lia|].
  rewrite input_point, get_contents by done. cbn [res_bind]. unfold put, mem_write.
  rewrite zlen_take by (rewrite contents_len; done). rewrite (bo_mem _ Hd).
  destruct (Z.leb_spec 0 (r_data dest + data_size dest)); [|done].
  destruct (Z.leb_spec (r_data dest + data_size dest + moved src len) (tot_size dest)); [lia|done].
Qed.

Lemma CopyData_spec dest src len : buf_ok dest -> buf_ok src -> 0 <= len -> cum_size dest + data_size src <= INT_MAX ->
  exists n dest', CopyData dest src len = Ok (n, dest') /\ buf_ok dest' /\ 0 <= n <= Z.min len (data_size src) /\
    contents dest' = contents dest ++ take (Z.to_nat n) (contents src) /\ cum_size dest' = cum_size dest + n.
Proof.
  intros Hd Hs Hlen Hcum. pose proof (bo_size _ Hs). unfold CopyData.
  destruct (remain_spec dest Hd) as (n & d1 & -> & H1 & Ec & Eds & Ecum & Etot & En & _). cbn [res_bind].
  destruct (Z.leb_spec n 0).
  { exists 0, d1. rewrite app_nil_r. split_and!; done || lia. }
  unfold GetDataSizeRBuffer. cbv zeta. set (k := Z.min _ _). assert (0 <= k <= data_size src) by lia.
  rewrite input_point, get_contents by done. cbn [res_bind]. set (d := take _ _).
  assert (Hdl : zlen d = k) by (apply zlen_take; rewrite contents_len; done).
  destruct (append_spec d1 d) as (d2 & E & Hd2 & Ec2 & _ & _ & _ & Eu2); [done|lia..|]. rewrite Hdl in E.
  destruct (put d1 _ d) as [x|]; [|done]. cbn [res_bind] in E |- *. rewrite E. cbn [res_bind].
  exists k, d2. rewrite Ec2, Ec. split_and!; done || lia.
Qed.

Lemma read_spec rd r : buf_ok r ->
  exists n r1, GetRemainBufferSize r = Ok (n, r1) /\ 0 <= n <= tot_size r /\
    match rd n with
    | inl err => exists r', MtcpReadFromBuffer rd r = Ok (err, r') /\ buf_ok r' /\ contents r' = contents r /\
                   tot_size r' = tot_size r /\ cum_size r' = cum_size r
    | inr d => zlen d <= n -> cum_size r + zlen d <= INT_MAX ->
        exists r', MtcpReadFromBuffer rd r = Ok (zlen d, r') /\ buf_ok r' /\ contents r' = contents r ++ d /\
          tot_size r' = tot_size r /\ cum_size r' = cum_size r + zlen d
    end.
Proof.
  intros Hr. destruct (remain_spec r Hr) as (n & r1 & E & H1 & Ec & Eds & Ecum & Etot & En & _). exists n, r1.
  split; [done|]. pose proof H1 as [_ _ ? ? ? _]. split; [lia|]. unfold MtcpReadFromBuffer. rewrite E. cbn [res_bind].
  rewrite input_point by done. cbn [res_bind]. destruct (rd n) as [err|d].
  { exists r1. split_and!; done. }
  intros Hn Hcum. destruct (append_spec r1 d) as (r2 & E2 & H2 & Ec2 & _ & ? & _ & ?); [done|lia..|].
  destruct (put r1 _ d) as [x|]; [|done]. cbn [res_bind] in E2 |- *. rewrite E2. cbn [res_bind].
  exists r2. rewrite Ec2, Ec. split_and!; done || lia.
Qed.

Lemma write_spec wr r : buf_ok r -> (forall d, wr d <= zlen d) ->
  exists n d r', MtcpWriteFromBuffer wr r = Ok (n, d, r') /\ buf_ok r' /\ contents r = d ++ contents r' /\
    tot_size r' = tot_size r /\ cum_size r' = cum_size r.
Proof.
  intros Hr Hwr. pose proof (bo_size _ Hr). unfold MtcpWriteFromBuffer, GetDataSizeRBuffer.
  destruct (Z.leb_spec (data_size r) 0); [by exists 0, [], r|].
  rewrite get_contents by (done || lia). cbn [res_bind].
  assert (Ef : take (Z.to_nat (data_size r)) (contents r) = contents r).
  { apply take_ge. pose proof (contents_len r Hr). unfold zlen in *. lia. }
  rewrite Ef. destruct (Z.ltb_spec (wr (contents r)) 0); [by eexists _, [], r|].
  pose proof (Hwr (contents r)). rewrite contents_len in * by done.
  destruct (remove_spec r (wr (contents r))) as (r' & -> & H' & Ec & _ & ? & ?); [done|lia|].
  unfold assert. rewrite Z.eqb_refl. cbn [res_bind]. eexists _, _, r'. split_and!; try done. rewrite Ec. symmetry. apply take_drop.
Qed.

(** ** Framed copies *)

Section frames.
Context (rephdr : Z -> Z -> Z -> list Z) (sizeof_rephdr : Z).
Context (Hhdr : forall n, zlen (rephdr 1 0 n) = sizeof_rephdr) (Hpos : 0 < sizeof_rephdr < INT_MAX).

Definition frame (d : list Z) : list Z := rephdr 1 0 (zlen d) ++ d.

Lemma rep_loop_spec fuel dest src dsize remain sum :
  (Z.to_nat dsize <= fuel)%nat -> buf_ok dest -> buf_ok src -> dsize <= data_size src ->
  0 <= remain <= tot_size dest - data_size dest - r_data dest -> cum_size dest + remain <= INT_MAX ->
  exists ds dest' src', rep_loop rephdr sizeof_rephdr fuel dest src dsize remain sum = Ok (sum + zlen (concat ds), dest', src') /\
    buf_ok dest' /\ buf_ok src' /\ Forall (fun d => 0 < zlen d <= MAX_REP_LEN) ds /\
    contents dest' = contents dest ++ concat (frame <$> ds) /\ contents src = concat ds ++ contents src'.
Proof using Hhdr Hpos.
  revert dest src dsize remain sum. induction fuel as [|fuel IH]; intros dest src dsize remain sum Hf Hd Hs Hds Hrem Hcum.
  all: pose proof (bo_tot _ Hd); pose proof (bo_size _ Hd); pose proof (bo_data _ Hd); pose proof (bo_tot _ Hs).
  all: pose proof (bo_room _ Hs); pose proof (bo_data _ Hs); assert (HI : INT_MAX = 2147483647) by done.
  all: cbn [rep_loop]; unfold u64; rewrite (Z.mod_small remain) by lia; destruct (Z.ltb_spec 0 dsize); cbn [andb];
    [|exists [], dest, src; cbn; rewrite app_nil_r, Z.add_0_r; by split_and!].
  { lia. }
  destruct (Z.ltb_spec sizeof_rephdr remain); [|exists [], dest, src; cbn; rewrite app_nil_r, Z.add_0_r; by split_and!].
  rewrite (Z.mod_small (remain - _)) by lia. rewrite s32_small by lia. unfold MAX_REP_LEN.
  set (k := Z.min (Z.min dsize (remain - sizeof_rephdr)) (10 * 1024)). assert (Hk : 0 < k <= 10240) by lia. cbv zeta.
  destruct (Z.leb_spec k 0); [lia|]. rewrite input_point by done. cbn [res_bind].
  destruct (append_spec dest (rephdr 1 0 k)) as (d1 & E1 & H1' & Ec1 & Eo1 & Et1 & Es1 & Eu1); [done|rewrite Hhdr; lia..|].
  rewrite Hhdr in *. destruct (put dest _ _) as [x|]; [|done]. cbn [res_bind] in E1 |- *. rewrite E1. cbn [res_bind].
  rewrite get_contents by (done || lia). cbn [res_bind]. set (d := take (Z.to_nat k) (contents src)).
  assert (Hdl : zlen d = k) by (apply zlen_take; rewrite contents_len; [lia|done]).
  destruct (append_spec d1 d) as (d2 & E2 & H2' & Ec2 & Eo2 & Et2 & Es2 & Eu2); [done|lia..|].
  replace (r_data dest + data_size dest + sizeof_rephdr) with (r_data d1 + data_size d1) by lia. rewrite Hdl in E2.
  destruct (put d1 _ d) as [y|]; [|done]. cbn [res_bind] in E2 |- *. rewrite E2. cbn [res_bind].
  destruct (remove_spec src k) as (src' & -> & Hs' & Es & ? & ? & ?); [done|lia|].
  unfold assert. rewrite Z.eqb_refl. cbn [res_bind].
  destruct (IH d2 src' (dsize - k) (remain - sizeof_rephdr - k) (sum + k)) as (ds & dest' & src2 & -> & ? & ? & Hall & Ed & Esrc);
    [lia|done|done|lia..|].
  exists (d :: ds), dest', src2. cbn [concat fmap list_fmap]. split_and!; try done.
  - rewrite zlen_app. do 3 f_equal. lia.
  - constructor; [unfold MAX_REP_LEN; lia|done].
  - rewrite Ed, Ec2, Ec1. unfold frame. by rewrite Hdl, <- !app_assoc.
  - rewrite <- app_assoc, <- Esrc, Es. symmetry. apply take_drop.
Qed.

(** The data that leave the source arrive in frames of at most
    [MAX_REP_LEN] bytes behind a header with their length; the loop ends. *)
Lemma MoveToREPData_spec dest src len : buf_ok dest -> buf_ok src -> cum_size dest + tot_size dest <= INT_MAX ->
  exists ds dest' src', MoveToREPData rephdr sizeof_rephdr dest src len = Ok (zlen (concat ds), dest', src') /\
    buf_ok dest' /\ buf_ok src' /\ Forall (fun d => 0 < zlen d <= MAX_REP_LEN) ds /\
    contents dest' = contents dest ++ concat (frame <$> ds) /\ contents src = concat ds ++ contents src'.
Proof using Hhdr Hpos.
  intros Hd Hs Hcum. unfold MoveToREPData, GetDataSizeRBuffer.
  destruct (remain_spec dest Hd) as (n & d1 & -> & H1 & <- & Eds & Ecum & Etot & En & _). cbn [res_bind].
  pose proof H1 as [_ _ ? ? ? _].
  apply (rep_loop_spec _ _ _ _ _ 0); [done|done|done| |lia|lia]. destruct (Z.ltb_spec 0 len); lia.
Qed.
End frames.

(** ** A relay of two buffers *)

(** The client reads into one buffer, moves to the other after it has asked
    for the room, and writes from that. *)
Inductive relay_op := Read (rd : Z -> Z + list Z) | Move | Write (wr : list Z -> Z).
Record relay := mkRelay { from : ring_buffer; to : ring_buffer; received : list Z; sent : list Z }.

Definition relay_step (s : relay) (op : relay_op) : res relay :=
  match op with
  | Read rd =>
      let! (n, r) := MtcpReadFromBuffer rd (from s) in
      let got := drop (length (contents (from s))) (contents r) in
      Ok (mkRelay r (to s) (received s ++ got) (sent s))
  | Move =>
      let! (fits, dest) := CheckAvailableSize (to s) (GetDataSizeRBuffer (from s)) in
      if fits then
        let! (n, dest, src) := MoveData dest (from s) 0 in Ok (mkRelay src dest (received s) (sent s))
      else Ok (mkRelay (from s) dest (received s) (sent s))
  | Write wr =>
      let! (n, d, r) := MtcpWriteFromBuffer wr (to s) in Ok (mkRelay (from s) r (received s) (sent s ++ d))
  end.
Fixpoint relay_run (s : relay) (ops : list relay_op) : res relay :=
  match ops with [] => Ok s | op :: ops => let! s := relay_step s op in relay_run s ops end.

(** What [mtcp_read] and [mtcp_write] promise. *)
Definition op_ok (op : relay_op) : Prop :=
  match op with
  | Read rd => forall n, 0 <= n -> match rd n with inl _ => True | inr d => zlen d <= n end
  | Move => True
  | Write wr => forall d, wr d <= zlen d
  end.

Record relay_ok (size k : Z) (s : relay) : Prop := {
  rk_from : buf_ok (from s); rk_to : buf_ok (to s);
  rk_fsize : tot_size (from s) = size;
  rk_in : cum_size (from s) <= k * size;
  rk_all : cum_size (from s) = data_size (from s) + cum_size (to s);
  rk_fifo : received s = sent s ++ contents (to s) ++ contents (from s)
}.

Lemma relay_step_ok size k s op : op_ok op -> relay_ok size k s -> 0 <= k -> (k + 1) * size <= INT_MAX ->
  exists s', relay_step s op = Ok s' /\ relay_ok size (k + 1) s'.
Proof.
  intros Hop [Hf Ht Hsz Hin Hall Hfifo] Hk Hmax. pose proof (bo_size _ Hf). pose proof (bo_tot _ Hf). destruct op as [rd| |wr]; cbn [relay_step].
  - destruct (read_spec rd (from s) Hf) as (n & r1 & _ & Hn & Hrd). specialize (Hop n ltac:(lia)). destruct (rd n) as [err|d].
    + destruct Hrd as (r' & -> & H' & Ec & Et & Eu). cbn [res_bind]. rewrite Ec, drop_all, app_nil_r.
      eexists; split; [done|]. constructor; cbn; try done; try congruence; try lia.
      pose proof (contents_len _ H'). pose proof (contents_len _ Hf). rewrite Ec in *. lia.
    + destruct Hrd as (r' & -> & H' & Ec & Et & Eu); [done|lia|]. cbn [res_bind]. rewrite Ec, drop_app_length.
      eexists; split; [done|]. constructor; cbn; try done; try congruence; try lia.
      * pose proof (contents_len _ H') as E'. pose proof (contents_len _ Hf). rewrite Ec, zlen_app in E'. lia.
      * by rewrite Ec, Hfifo, !app_assoc.
  - unfold CheckAvailableSize, GetDataSizeRBuffer. destruct (remain_spec (to s) Ht) as (n & t1 & -> & H1 & Ec & Eds & Ecum & Etot & En & _).
    cbn [res_bind]. destruct (Z.leb_spec (data_size (from s)) n); cbn [res_bind].
    + destruct (MoveData_spec t1 (from s) 0) as (t2 & f2 & -> & ? & ? & Ec2 & Ef2 & ? & ? & Eu & ?); [done..|cbn; lia|cbn; lia|].
      cbn [res_bind]. change (moved (from s) 0) with (data_size (from s)) in *.
      assert (Hall' : take (Z.to_nat (data_size (from s))) (contents (from s)) = contents (from s)).
      { apply take_ge. pose proof (contents_len _ Hf). unfold zlen in *. lia. }
      assert (Hnil : drop (Z.to_nat (data_size (from s))) (contents (from s)) = []).
      { apply drop_ge. pose proof (contents_len _ Hf). unfold zlen in *. lia. }
      rewrite Hall' in Ec2. rewrite Hnil in Ef2.
      eexists; split; [done|]. constructor; cbn; try done; try congruence; try lia.
      * assert (El : zlen (contents f2) = data_size f2) by by apply contents_len. rewrite Ef2 in El. change (zlen []) with 0 in El. lia.
      * by rewrite Ec2, Ef2, app_nil_r, Ec.
    + eexists; split; [done|]. constructor; cbn; try done; try congruence; try lia.
  - destruct (write_spec wr (to s) Ht Hop) as (n & d & r' & -> & ? & Ec & ? & ?). cbn [res_bind].
    eexists; split; [done|]. constructor; cbn; try done; try congruence; try lia.
    by rewrite Hfifo, Ec, <- !app_assoc.
Qed.


(** A round trip through buffers of eight bytes, and the copy that is out of
    bounds although five bytes are free. *)
Definition bytes_of (n : nat) : list Z := Z.of_nat <$> seq 1 n.
Definition demo_ops : list relay_op :=
  [Read (fun n => inr (take (Z.to_nat n) (bytes_of 6))); Move; Write (fun d => Z.min 4 (zlen d)); Read (fun n => inr (take (Z.to_nat n) [7; 8]));
   Move; Write (fun d => zlen d)].


Example relay_delivers :
  match relay_run (mkRelay (InitBuffer 8 (replicate 8 0)) (InitBuffer 8 (replicate 8 0)) [] []) demo_ops with
  | Ok s => sent s = bytes_of 8
  | Fault _ => False
  end.
Proof. vm_compute. reflexivity. Qed.

Definition half_used : ring_buffer := mkBuf [0; 0; 0; 4; 5; 6; 0; 0] 3 8 3 6.
Example move_overrun : MoveData half_used (mkBuf [1; 2; 3] 0 3 3 3) 0 = Fault OutOfBounds.
Proof. reflexivity. Qed.
End Relay.
