(* ===== verification/HttpParse.v ===== *)
(** * HTTP headers: [util/http_parsing.c] and the options of [util/netlib.c]

    A string is the list of its characters without the terminating zero; a
    pointer into a string is the rest of the string behind it. A pointer that
    is moved behind the terminating zero is a fault, for the memory there is
    not known. [errno] is a flag: whether it is [EINVAL] or [ERANGE]. *)

From Stdlib Require Import String.
From S2P Require Import Prelude HttpDate Config.

(** ** Strings *)

Definition SPACE_OR_TAB (c : Z) : bool := (c =? 32) || (c =? 9).
Definition CR_OR_NEWLINE (c : Z) : bool := (c =? 13) || (c =? 10).

(** [s + n]. *)
Definition advance (n : nat) (s : list Z) : res (list Z) :=
  if (n <=? length s)%nat then Ok (drop n s) else Fault OutOfBounds.
(** [!strncasecmp (s, key, strlen (key))]. *)
Definition strncasecmp_eq (s key : list Z) : bool := bool_decide (tolower <$> take (length key) s = tolower <$> key).

Definition skip (p : Z -> bool) (s : list Z) : list Z := snd (span p s).
Definition prefix_while (p : Z -> bool) (s : list Z) : list Z := fst (span p s).

(** [strtol] into a [long]; the flag of [errno] is never cleared. *)
Definition strtol (s : list Z) (errno : bool) : Z * bool :=
  let z := default 0 (strtol_digits s) in (to_long z, errno || negb (in_long z)).

(** The first character has to match exactly. *)
Fixpoint nre_strcasestr (buf key : list Z) : option (list Z) :=
  match buf with
  | [] => None
  | c :: p =>
      match key with
      | [] => None
      | k :: key' => if (c =? k) && strncasecmp_eq p key' then Some buf else nre_strcasestr p key
      end
  end.

(** ** The end of a header *)

Definition head_is (c : Z) (s : list Z) : bool := match s with x :: _ => x =? c | [] => false end.
(** The loop over the newlines of a string that starts at offset [pos]. *)
Fixpoint header_end (pos : Z) (s : list Z) : Z :=
  match s with
  | [] => 0
  | c :: temp =>
      if c =? 10 then
        if head_is 10 temp then pos + 1 + 1
        else if head_is 13 temp && head_is 10 (drop 1 temp) then pos + 1 + 2
        else header_end (pos + 1) temp
      else header_end (pos + 1) temp
  end.
(** The character behind the data is replaced by a zero and put back; the
    last character of the header becomes a zero. *)
Definition find_http_header (data : list Z) (len : Z) : res (Z * list Z) :=
  if (len <? 0) || (zlen data <=? len) then Fault OutOfBounds
  else
    let hdr_len := header_end 0 (c_string (take (Z.to_nat len) data)) in
    Ok (hdr_len, if hdr_len =? 0 then data else <[Z.to_nat (hdr_len - 1) := 0]> data).

(** ** The first line *)

Definition HTTP_STR : list Z := chars "HTTP".
Definition HTTP_GET : list Z := chars "GET".
Definition HTTP_POST : list Z := chars "POST".
Definition GET : Z := 1.
Definition POST : Z := 2.

(** The length is compared as an unsigned number. *)
Definition is_http_request (data : list Z) (len : Z) : Z :=
  if (zlen HTTP_GET <=? u64 len) && starts_with HTTP_GET data then GET
  else if (zlen HTTP_POST <=? u64 len) && starts_with HTTP_POST data then POST
  else 0.
Definition is_http_response (data : list Z) (len : Z) : Z :=
  if u64 len <? zlen HTTP_STR then 0 else if starts_with HTTP_STR data then 1 else 0.

Inductive http_version := HTTP_09 | HTTP_10 | HTTP_11.
(** The result, the status code, the version, and [errno]. *)
Definition http_parse_first_resp_line (data : list Z) (errno : bool) : res (Z * option Z * option http_version * bool) :=
  if negb (starts_with HTTP_STR data) then Ok (0, None, None, errno)
  else
    let! p := advance (S (length HTTP_STR)) data in
    let ver := if starts_with (chars "1.1") p then HTTP_11 else if starts_with (chars "1.0") p then HTTP_10 else HTTP_09 in
    let! p := advance 4 p in
    let '(scode, errno) := strtol p errno in
    Ok (if errno then 0 else 1, Some (s32 scode), Some ver, errno).

Definition http_get_http_version_resp (data : list Z) (len value_len : Z) : option (list Z) :=
  if u64 len <? zlen HTTP_STR then None
  else if negb (starts_with HTTP_STR data) then None
  else Some (take (Z.to_nat (value_len - 1)) (prefix_while (fun c => negb (SPACE_OR_TAB c)) data)).

(** The value: the empty string if this is not a [GET]. *)
Definition http_get_url (data : list Z) (value_len : Z) : res (option (list Z) * list Z) :=
  if negb (starts_with HTTP_GET data) then Ok (None, [])
  else
    let! ret := advance (S (length HTTP_GET)) data in
    let ret := skip SPACE_OR_TAB ret in
    Ok (Some ret, take (Z.to_nat (value_len - 1)) (prefix_while (fun c => negb (c =? 32)) ret)).

(** The macro of the condition evaluates [*temp++] twice: every other
    character is compared with a blank, the ones between with a tab, and a
    string without a separator may be left. *)
Fixpoint skip_pairs (temp : list Z) : res (list Z) :=
  match temp with
  | [] => Ok []
  | c :: temp =>
      if c =? 32 then Ok temp
      else match temp with
           | [] => Fault OutOfBounds
           | d :: temp => if d =? 9 then Ok temp else skip_pairs temp
           end
  end.
Definition http_get_status_code (response : list Z) (errno : bool) : res (Z * bool) :=
  let! temp := skip_pairs response in
  let '(code, errno) := strtol temp errno in
  Ok (if errno then -1 else s32 code, errno).

(** ** Fields *)

(** [None] for a null pointer; the value is the empty string then. *)
Definition http_header_str_val (buf key : list Z) (keylen : nat) (value_len : Z) : res (option (list Z)) :=
  match nre_strcasestr buf key with
  | None => Ok None
  | Some temp =>
      let! temp := advance keylen temp in
      let temp := skip SPACE_OR_TAB temp in
      match temp with
      | [] => Ok None
      | c :: _ =>
          if CR_OR_NEWLINE c then Ok None
          else
            match take (Z.to_nat (value_len - 1)) (prefix_while (fun c => negb (CR_OR_NEWLINE c)) temp) with
            | [] => Ok None
            | value => Ok (Some value)
            end
      end
  end.

Definition C_TYPE_LEN : Z := 50.
Definition http_header_long_val (response key : list Z) (key_len : nat) (errno : bool) : res (Z * bool) :=
  let! temp := http_header_str_val response key key_len C_TYPE_LEN in
  match temp with
  | None => Ok (-1, errno)
  | Some temp => let '(len, errno) := strtol temp errno in Ok (if errno then -1 else len, errno)
  end.

Definition http_header_date (data field : list Z) (len : nat) : res Z :=
  let! buf := http_header_str_val data field len 256 in
  match buf with None => Ok (-1) | Some buf => httpdate_to_timet buf end.

Definition http_check_header_field (data field : list Z) : Z :=
  match nre_strcasestr data field with Some _ => 1 | None => 0 end.

(** [sizeof] counts the terminating zero, so the first digit is skipped. *)
Definition MAXAGE : list Z := chars "max-age=".
Definition SMAXAGE : list Z := chars "s-maxage=".
Definition age_at (key temp : list Z) (errno : bool) : res (Z * bool) :=
  let! temp := advance (S (length key)) temp in
  let '(len, errno) := strtol temp errno in
  Ok (if errno then -1 else s32 len, errno).
Definition http_get_maxage (cache_ctl : list Z) (errno : bool) : res (Z * bool) :=
  match cache_ctl with
  | [] => Ok (-1, errno)
  | _ =>
      match nre_strcasestr cache_ctl MAXAGE with
      | Some temp => age_at MAXAGE temp errno
      | None =>
          match nre_strcasestr cache_ctl SMAXAGE with
          | Some temp => age_at SMAXAGE temp errno
          | None => Ok (-1, errno)
          end
      end
  end.

(** ** [netlib.c] *)

Fixpoint strstr (buf key : list Z) : option (list Z) :=
  if starts_with key buf then Some buf else match buf with [] => None | _ :: p => strstr p key end.
Definition GetHeaderString (buf header : list Z) (hdrsize : nat) : res (option (list Z)) :=
  match strstr buf header with
  | None => Ok None
  | Some temp =>
      let! temp := advance hdrsize temp in
      match skip isspace temp with [] => Ok None | temp => Ok (Some temp) end
  end.
Definition GetHeaderLong (buf header : list Z) (hdrsize : nat) (errno : bool) : res (option Z * bool) :=
  let! temp := GetHeaderString buf header hdrsize in
  match temp with
  | None => Ok (None, errno)
  | Some temp => let '(v, errno) := strtol temp errno in Ok (if errno then None else Some v, errno)
  end.

(** The options have a name and a variable; the result is [exit (-1)] or the
    values of the variables. *)
Definition option_table : Type := list (list Z * option (list Z)).
Fixpoint set_option (name value : list Z) (ops : option_table) : option option_table :=
  match ops with
  | [] => None
  | (n, v) :: ops =>
      if bool_decide (n = name) then Some ((n, Some value) :: ops) else cons (n, v) <$> set_option name value ops
  end.
Fixpoint ParseOptions (argv : list (list Z)) (ops : option_table) : out option_table :=
  match argv with
  | [] => Val ops
  | name :: rest =>
      match set_option name [] ops with
      | None => Exit (-1)
      | Some _ =>
          match rest with
          | [] => Exit (-1)
          | value :: rest => match set_option name value ops with Some ops => ParseOptions rest ops | None => Exit (-1) end
          end
      end
  end.

(** ** The end of a header is the first blank line *)

Inductive blank : list Z -> Prop :=
| blank_lf : blank [10; 10]
| blank_crlf : blank [10; 13; 10].

Lemma blank_head b : blank b -> exists b', b = 10 :: b'.
Proof. destruct 1; eauto. Qed.

Lemma head_is_true c s : head_is c s = true -> exists s', s = c :: s'.
Proof. destruct s as [|x s]; [done|]. cbn. intros ->%Z.eqb_eq. by exists s. Qed.

(** A blank line at the front of the string ends where the loop says. *)
Lemma blank_first b r : blank b -> forall pos, header_end pos (b ++ r) = pos + zlen b.
Proof. destruct 1; intros pos; cbn; unfold zlen; cbn; lia. Qed.

Lemma header_end_step pos c s :
  (exists b r, blank b /\ c :: s = b ++ r) \/
  (header_end pos (c :: s) = header_end (pos + 1) s /\ forall b r, blank b -> c :: s <> b ++ r).
Proof.
  cbn [header_end]. destruct (Z.eqb_spec c 10) as [->|Hc].
  2: { right. split; [done|]. intros b r [b' ->]%blank_head. cbn. congruence. }
  destruct (head_is 10 s) eqn:E1.
  { apply head_is_true in E1 as [s' ->]. left. exists [10; 10], s'. by split; [constructor|]. }
  destruct (head_is 13 s) eqn:E2; cbn [andb].
  - apply head_is_true in E2 as [s' ->]. change (drop 1 (13 :: s')) with s'. destruct (head_is 10 s') eqn:E3.
    { apply head_is_true in E3 as [s2 ->]. left. exists [10; 13; 10], s2. by split; [constructor|]. }
    right. split; [done|]. intros b r Hb Heq. destruct Hb; cbn in Heq; [congruence|]. injection Heq as ->. by cbn in E3.
  - right. split; [done|]. intros b r Hb Heq. destruct Hb; cbn in Heq; injection Heq as ->; [by cbn in E1|by cbn in E2].
Qed.

Lemma blank_size b : blank b -> 2 <= zlen b <= 3.
Proof. destruct 1; unfold zlen; cbn; lia. Qed.

Lemma header_end_spec s : forall pos, 0 <= pos ->
  (header_end pos s = 0 /\ forall q b r, blank b -> s <> q ++ b ++ r) \/
  (exists q b r, blank b /\ s = q ++ b ++ r /\ header_end pos s = pos + zlen (q ++ b) /\
     forall q' b' r', blank b' -> s = q' ++ b' ++ r' -> zlen (q ++ b) <= zlen (q' ++ b')).
Proof.
  induction s as [|c s IH]; intros pos Hpos.
  { left. split; [done|]. intros q b r [b' ->]%blank_head. by destruct q. }
  destruct (header_end_step pos c s) as [(b & r & Hb & E)|[E Hno]].
  - right. exists [], b, r. split_and!; [done|done|rewrite E; by apply blank_first|].
    intros q' b' r' Hb' E'. cbn [app]. pose proof (blank_size b Hb). pose proof (blank_size b' Hb').
    destruct q' as [|x q']; [|rewrite zlen_app, zlen_cons; pose proof (zlen_nonneg q'); lia].
    rewrite E in E'. destruct Hb, Hb'; unfold zlen; cbn; by (lia || (cbn in E'; congruence)).
  - rewrite E. destruct (IH (pos + 1) ltac:(lia)) as [[E1 H1]|(q & b & r & Hb & -> & E1 & Hmin)].
    + left. split; [done|]. intros [|x q] b r Hb Heq; [by eapply Hno|]. injection Heq as -> Heq. by eapply H1.
    + right. exists (c :: q), b, r. split_and!; [done|done|rewrite E1; cbn [app]; rewrite zlen_cons; lia|].
      intros [|x q'] b' r' Hb' Heq; [by edestruct Hno|]. injection Heq as -> Heq. cbn [app]. rewrite !zlen_cons.
      specialize (Hmin q' b' r' Hb' Heq). lia.
Qed.

Lemma c_string_prefix s : exists r, s = c_string s ++ r /\ (r = [] \/ exists r', r = 0 :: r').
Proof.
  induction s as [|c s (r & E & Hr)]; [exists []; by split; [|left]|]. cbn. destruct (Z.eqb_spec c 0) as [->|].
  - exists (0 :: s). split; [done|]. right. by exists s.
  - exists r. split; [by rewrite E at 1|done].
Qed.
Lemma c_string_nonzero s : Forall (fun c => c <> 0) (c_string s).
Proof. induction s as [|c s IH]; [constructor|]. cbn. destruct (Z.eqb_spec c 0); by constructor. Qed.
Lemma c_string_app s r : Forall (fun c => c <> 0) s -> c_string (s ++ 0 :: r) = s.
Proof. induction 1 as [|c s Hc _ IH]; [done|]. cbn. destruct (Z.eqb_spec c 0); [done|]. by rewrite IH. Qed.

Lemma find_header_spec data len : 0 <= len < zlen data ->
  let s := c_string (take (Z.to_nat len) data) in
  (find_http_header data len = Ok (0, data) /\ forall q b r, blank b -> s <> q ++ b ++ r) \/
  (exists q b r, blank b /\ s = q ++ b ++ r /\
     find_http_header data len = Ok (zlen (q ++ b), <[(length (q ++ b) - 1)%nat := 0]> data) /\
     forall q' b' r', blank b' -> s = q' ++ b' ++ r' -> zlen (q ++ b) <= zlen (q' ++ b')).
Proof.
  intros Hlen s. unfold find_http_header.
  destruct (Z.ltb_spec len 0); [lia|]. destruct (Z.leb_spec (zlen data) len); [lia|]. cbn [orb]. cbv zeta. fold s.
  destruct (header_end_spec s 0 ltac:(lia)) as [[E H1]|(q & b & r & Hb & Es & E & Hmin)]; rewrite E.
  { left. by split. }
  right. rewrite Z.add_0_l. pose proof (blank_size b Hb). pose proof (zlen_nonneg q). exists q, b, r.
  assert (Hz : zlen (q ++ b) <> 0) by (rewrite zlen_app; lia).
  split_and!; [done|done| |done]. apply Z.eqb_neq in Hz as ->. do 3 f_equal. unfold zlen. lia.
Qed.

(** The string is cut off where the zero is written. *)
Lemma cut_string data n k : (k < length (c_string (take n data)))%nat ->
  c_string (<[k := 0]> data) = take k (c_string (take n data)).
Proof.
  set (s := c_string (take n data)). intros Hk. destruct (c_string_prefix (take n data)) as (t & Et & _). fold s in Et.
  assert (Ed : data = s ++ (t ++ drop n data)) by (rewrite app_assoc, <- Et; symmetry; apply take_drop).
  rewrite Ed at 1. rewrite insert_app_l by done. rewrite insert_take_drop by done. rewrite <- app_assoc. cbn [app].
  apply c_string_app. apply Forall_take, c_string_nonzero.
Qed.

(** C37: [find_http_header] returns the length of the shortest prefix of the
    data that ends in a blank line, with or without carriage return, and cuts
    the string off there; without a blank line it returns 0 and leaves the
    data alone. *)
Theorem header_found data len : 0 <= len < zlen data ->
  let s := c_string (take (Z.to_nat len) data) in
  (find_http_header data len = Ok (0, data) /\ forall q b r, blank b -> s <> q ++ b ++ r) \/
  (exists q b r data', blank b /\ s = q ++ b ++ r /\ find_http_header data len = Ok (zlen (q ++ b), data') /\
     c_string data' = take (length (q ++ b) - 1) s /\
     forall q' b' r', blank b' -> s = q' ++ b' ++ r' -> zlen (q ++ b) <= zlen (q' ++ b')).
Proof.
  intros Hlen s. destruct (find_header_spec data len Hlen) as [H1|(q & b & r & Hb & Es & E & Hmin)]; [by left|].
  right. fold s in Es, Hmin. exists q, b, r. eexists. split_and!; [done|done|exact E| |done].
  apply cut_string. fold s. pose proof (blank_size b Hb). pose proof (zlen_nonneg q). rewrite Es, !length_app. unfold zlen in *. lia.
Qed.

(** ** Looking up a field *)

Definition free (c : Z) (l : list Z) : Prop := Forall (fun x => x <> c) l.

(** A line of a header behind the newline that ends the line before, and a
    response with a status line, fields and the blank line. *)
Definition field : Type := list Z * list Z.
Definition header_line (f : field) : list Z := 10 :: fst f ++ [58; 32] ++ snd f ++ [13].
Definition render (status : list Z) (fields : list field) : list Z := status ++ concat (header_line <$> fields) ++ [10; 13; 10].

Record field_ok (f : field) : Prop := {
  fo_name : free 10 (fst f) /\ free 58 (fst f);
  fo_value : free 10 (snd f) /\ free 13 (snd f);
  fo_start : match snd f with [] => False | c :: _ => SPACE_OR_TAB c = false end
}.

Lemma tolower_colon c : tolower c = 58 -> c = 58.
Proof. unfold tolower, isupper. destruct (Z.leb_spec 65 c), (Z.leb_spec c 90); cbn; lia. Qed.

Lemma strcasestr_skip x r key : free 10 x -> nre_strcasestr (x ++ r) (10 :: key) = nre_strcasestr r (10 :: key).
Proof. induction 1 as [|c x Hc _ IH]; [done|]. cbn. destruct (Z.eqb_spec c 10); [done|]. by cbn. Qed.

(** A name is compared as a whole, because it ends with a colon. *)
Lemma name_match k key r : free 58 k -> free 58 key ->
  strncasecmp_eq (k ++ 58 :: r) (key ++ [58]) = bool_decide (tolower <$> k = tolower <$> key).
Proof.
  intros Hk Hkey. unfold strncasecmp_eq. apply bool_decide_ext.
  rewrite length_app. cbn [length]. rewrite fmap_app. cbn [fmap list_fmap]. change (tolower 58) with 58.
  split.
  - revert key Hkey. induction Hk as [|c k Hc Hk IH]; intros [|d key] Hkey; try done.
    + intros E%(f_equal head). inv Hkey. cbn -[tolower] in E.  symmetry in E. by apply tolower_colon in E.
    + intros E%(f_equal head). cbn -[tolower] in E.  by injection E as E%tolower_colon.
    + cbn -[tolower]. intros [= E1 E2]. rewrite E1. f_equal. apply IH; [by inv Hkey|done].
  - intros E. assert (Hl : length k = length key) by (apply (f_equal length) in E; by rewrite !length_fmap in E).
    rewrite <- Hl, Nat.add_comm. rewrite cons_middle, app_assoc. rewrite take_app_length' by (rewrite length_app; cbn; lia).
    rewrite fmap_app, E. done.
Qed.

Lemma span_stop p a c r : Forall (fun x => p x = true) a -> p c = false -> span p (a ++ c :: r) = (a, c :: r).
Proof. intros Ha Hc. induction Ha as [|x a Hx _ IH]; cbn; [by rewrite Hc|]. rewrite Hx. by rewrite IH. Qed.

Lemma advance_app a r : advance (length a) (a ++ r) = Ok r.
Proof.
  unfold advance. rewrite length_app. destruct (Nat.leb_spec (length a) (length a + length r)); [|lia]. by rewrite drop_app_length.
Qed.

Lemma value_read v r n : free 10 v -> free 13 v -> 2 <= n ->
  match v with [] => False | c :: _ => SPACE_OR_TAB c = false end ->
  let temp := skip SPACE_OR_TAB (32 :: v ++ 13 :: r) in
  match temp with
  | [] => Ok None
  | c :: _ =>
      if CR_OR_NEWLINE c then Ok None
      else match take (Z.to_nat (n - 1)) (prefix_while (fun c => negb (CR_OR_NEWLINE c)) temp) with
           | [] => Ok None
           | value => Ok (Some value)
           end
  end = Ok (Some (take (Z.to_nat (n - 1)) v)).
Proof.
  intros H1 H2 Hn Hv. destruct v as [|c v]; [done|]. assert (E : skip SPACE_OR_TAB (32 :: (c :: v) ++ 13 :: r) = c :: v ++ 13 :: r).
  { unfold skip. cbn. by rewrite Hv. }
  cbv zeta. rewrite E. assert (Hcr : forall x, x <> 10 -> x <> 13 -> CR_OR_NEWLINE x = false).
  { intros x ? ?. unfold CR_OR_NEWLINE. destruct (Z.eqb_spec x 13), (Z.eqb_spec x 10); done || lia. }
  assert (Hall : Forall (fun x => negb (CR_OR_NEWLINE x) = true) (c :: v)).
  { apply Forall_forall. intros x Hx. unfold free in *. rewrite Forall_forall in H1, H2. by rewrite Hcr by auto. }
  rewrite Hcr by (by inv H1; inv H2).
  assert (Ep : prefix_while (fun c => negb (CR_OR_NEWLINE c)) (c :: v ++ 13 :: r) = c :: v).
  { unfold prefix_while. change (c :: v ++ 13 :: r) with ((c :: v) ++ 13 :: r). by rewrite span_stop. }
  rewrite Ep. replace (Z.to_nat (n - 1)) with (S (Z.to_nat (n - 2))) by lia. done.
Qed.

Lemma no_field tail key : free 58 tail -> nre_strcasestr tail (10 :: key ++ [58]) = None.
Proof.
  intros Ht. assert (E : forall s, free 58 s -> strncasecmp_eq s (key ++ [58]) = false).
  { intros s Hs. unfold strncasecmp_eq. apply bool_decide_eq_false_2. intros E.
    apply (f_equal (fun l => last l)) in E. rewrite fmap_app in E. change (tolower <$> [58]) with [58] in E.
    rewrite last_snoc, fmap_last in E. destruct (last _) as [x|] eqn:El; [|done]. injection E as E%tolower_colon. subst x.
    apply last_Some_elem_of, elem_of_take in El as (i & Hi & _). apply list_elem_of_lookup_2 in Hi.
    unfold free in Hs. rewrite Forall_forall in Hs. by apply (Hs 58). }
  induction Ht as [|c tail Hc Ht IH]; [done|]. cbn [nre_strcasestr]. by rewrite E, andb_false_r.
Qed.

(** Fields in front of a text without a colon. *)
Lemma lookup_field status fields tail key n :
  free 10 status -> Forall field_ok fields -> free 58 tail -> free 10 key -> free 58 key -> 2 <= n ->
  http_header_str_val (status ++ concat (header_line <$> fields) ++ tail) (10 :: key ++ [58]) (length key + 2) n =
  Ok (match List.find (fun f => bool_decide (tolower <$> fst f = tolower <$> key)) fields with
      | Some (_, v) => Some (take (Z.to_nat (n - 1)) v)
      | None => None
      end).
Proof.
  intros Hst Hf Htail Hk1 Hk2 Hn. unfold http_header_str_val. rewrite strcasestr_skip by done.
  induction Hf as [|[k v] fields Hfo _ IH].
  - cbn [fmap list_fmap concat app List.find]. by rewrite no_field.
  - destruct Hfo as [[Hn1 Hn2] [Hv1 Hv2] Hs]. cbn [fst snd] in *.
    cbn [fmap list_fmap concat List.find]. unfold header_line at 1. cbn [fst snd]. cbn [app]. cbn [nre_strcasestr].
    change (10 =? 10) with true. cbn [andb]. rewrite <- !app_assoc. cbn [app]. rewrite name_match by done.
    case_bool_decide as Heq.
    + assert (Hl : (length key + 2)%nat = length (10 :: k ++ [58])).
      { apply (f_equal length) in Heq. rewrite !length_fmap in Heq. cbn. rewrite length_app. cbn. lia. }
      rewrite Hl. rewrite <- (app_assoc v). cbn [app].
      set (r := concat _ ++ _).
      replace (10 :: k ++ 58 :: 32 :: v ++ 13 :: r) with ((10 :: k ++ [58]) ++ 32 :: v ++ 13 :: r) by (cbn; by rewrite <- app_assoc).
      rewrite advance_app. cbn [res_bind].
      by apply value_read.
    + rewrite strcasestr_skip by done. rewrite <- ?app_assoc. set (r := concat _ ++ _) in *. cbn [app].
      rewrite (strcasestr_skip [58; 32] (v ++ 13 :: r)) by (repeat constructor; lia). rewrite strcasestr_skip by done.
      rewrite (strcasestr_skip [13] r) by (repeat constructor; lia). exact IH.
Qed.

(** In a response the value of a field is found by its name, whatever
    the case of its letters: [http_header_str_val] with the key "\nName:"
    returns the value of the first field of that name, cut to the size of the
    caller's array, and a null pointer if there is none. *)
Theorem header_lookup status fields key n : free 10 status -> Forall field_ok fields -> free 10 key -> free 58 key -> 2 <= n ->
  http_header_str_val (render status fields) (10 :: key ++ [58]) (length key + 2) n =
  Ok (match List.find (fun f => bool_decide (tolower <$> fst f = tolower <$> key)) fields with
      | Some (_, v) => Some (take (Z.to_nat (n - 1)) v)
      | None => None
      end).
Proof. intros. apply lookup_field; try done. repeat constructor; lia. Qed.

(** ** The header that is found *)

Definition field_starts (f : field) : Prop := match fst f with [] => False | c :: _ => c <> 10 /\ c <> 13 end.

Lemma header_end_skip a r pos : free 10 a -> header_end pos (a ++ r) = header_end (pos + zlen a) r.
Proof.
  intros Ha. revert pos. induction Ha as [|c a Hc _ IH]; intros pos; [by rewrite Z.add_0_r|]. cbn [app header_end].
  destruct (Z.eqb_spec c 10); [done|]. rewrite IH, zlen_cons. f_equal. lia.
Qed.

Lemma header_end_line pos temp : header_end pos (10 :: temp) =
  if head_is 10 temp then pos + 1 + 1
  else if head_is 13 temp && head_is 10 (drop 1 temp) then pos + 1 + 2 else header_end (pos + 1) temp.
Proof. reflexivity. Qed.

(** In a response the blank line is the one behind the fields. *)
Lemma header_end_render status fields x : free 10 status -> Forall field_ok fields -> Forall field_starts fields ->
  forall pos, header_end pos (render status fields ++ x) = pos + zlen (render status fields).
Proof.
  intros Hst Hf Hs pos. unfold render. rewrite <- app_assoc, header_end_skip by done. rewrite (zlen_app status), Z.add_assoc.
  generalize (pos + zlen status). clear pos. revert Hs. induction Hf as [|[k v] fields Hfo _ IH]; intros Hs pos.
  { cbn. unfold zlen. cbn. lia. }
  apply Forall_cons in Hs as [Hk Hs]. destruct Hfo as [[Hn1 _] [Hv1 _] _]. cbn [fst snd] in *.
  destruct k as [|c k]; [done|]. destruct Hk as [Hc1 Hc2]. cbn [fmap list_fmap concat]. rewrite <- !app_assoc, (zlen_app (header_line _)).
  assert (El : forall r, header_end pos (header_line (c :: k, v) ++ r) = header_end (pos + zlen (header_line (c :: k, v))) r).
  { intros r. unfold header_line at 1. cbn [fst snd app]. rewrite header_end_line.
    assert (E10 : head_is 10 (c :: (k ++ 58 :: 32 :: v ++ [13]) ++ r) = false) by by apply Z.eqb_neq.
    assert (E13 : head_is 13 (c :: (k ++ 58 :: 32 :: v ++ [13]) ++ r) = false) by by apply Z.eqb_neq.
    rewrite E10, E13. cbn [andb]. change (c :: (k ++ 58 :: 32 :: v ++ [13]) ++ r) with ((c :: k ++ 58 :: 32 :: v ++ [13]) ++ r).
    rewrite header_end_skip.
    - f_equal. unfold header_line. cbn [fst snd app]. rewrite !zlen_cons. lia.
    - change (c :: k ++ 58 :: 32 :: v ++ [13]) with ((c :: k) ++ [58; 32] ++ v ++ [13]). repeat apply Forall_app_2; [done|repeat constructor; lia|done|repeat constructor; lia]. }
  rewrite El, app_assoc, IH by done. lia.
Qed.

(** ** Examples *)

Definition sample_fields : list field :=
  [(chars "Host", chars "a.b:80"); (chars "connection", chars "Keep-Alive"); (chars "Content-Length", chars "1234")].
Definition sample_request : list Z := chars "GET /index.html HTTP/1.1" ++ [13] .

Lemma sample_fields_ok : Forall field_ok sample_fields.
Proof. repeat (apply Forall_cons; split); [..|by apply Forall_nil]; (constructor; [split|split|reflexivity]); repeat constructor; discriminate. Qed.

Lemma header_lookup_witness :
  http_header_str_val (render sample_request sample_fields) (10 :: chars "CONNECTION" ++ [58]) 12 128 = Ok (Some (chars "Keep-Alive")).
Proof.
  refine (header_lookup sample_request sample_fields (chars "CONNECTION") 128 _ sample_fields_ok _ _ _); [..|lia];
    repeat constructor; discriminate.
Defined.

Lemma header_found_witness :
  let data := chars "GET / HTTP/1.0" ++ [13; 10; 13; 10; 65; 66] in
  let s := c_string (take 19 data) in
  (find_http_header data 19 = Ok (0, data) /\ forall q b r, blank b -> s <> q ++ b ++ r) \/
  (exists q b r data', blank b /\ s = q ++ b ++ r /\ find_http_header data 19 = Ok (zlen (q ++ b), data') /\
     c_string data' = take (length (q ++ b) - 1) s /\
     forall q' b' r', blank b' -> s = q' ++ b' ++ r' -> zlen (q ++ b) <= zlen (q' ++ b')).
Proof. apply (header_found (chars "GET / HTTP/1.0" ++ [13; 10; 13; 10; 65; 66]) 19). split; reflexivity || discriminate. Defined.

Example header_length : find_http_header (chars "GET / HTTP/1.0" ++ [13; 10; 13; 10; 65; 66]) 19
  = Ok (18, chars "GET / HTTP/1.0" ++ [13; 10; 13; 0; 65; 66]).
Proof. reflexivity. Qed.

Example url_found : http_get_url sample_request 128 = Ok (Some (drop 4 sample_request), chars "/index.html").
Proof. reflexivity. Qed.

Example content_length : http_header_long_val (render sample_request sample_fields) (10 :: chars "Content-Length:") 16 false = Ok (1234, false).
Proof. reflexivity. Qed.

(** The first letter of a key has to have the right case. *)
Example case_of_first_letter :
  (http_check_header_field (chars "max-age=60") (chars "MAX-AGE="), http_check_header_field (chars "mAX-AGE=60") (chars "max-age=")) = (0, 1).
Proof. reflexivity. Qed.

(** The age loses its first digit. *)
Example maxage_first_digit : http_get_maxage (chars "max-age=3600") false = Ok (600, false).
Proof. reflexivity. Qed.

(** The status code is found when the blank is at an even offset only. *)
Example status_code_even : http_get_status_code (chars "HTTP/1.1 404 Not Found") false = Ok (404, false).
Proof. reflexivity. Qed.
Example status_code_odd : http_get_status_code (chars "HTTP/10.1 404") false = Fault OutOfBounds.
Proof. reflexivity. Qed.

(** After an error of another function a number is not accepted. *)
Example errno_not_cleared :
  http_header_long_val (render sample_request sample_fields) (10 :: chars "Content-Length:") 16 true = Ok (-1, true).
Proof. reflexivity. Qed.

(** A request that ends behind its method is read beyond its end. *)
Example url_beyond_end : http_get_url (chars "GET") 128 = Fault OutOfBounds.
Proof. reflexivity. Qed.

(** Options take effect in order; an unknown one ends the process. *)
Example options_parsed :
  let ops := [(chars "-p", None); (chars "-n", None)] in
  (ParseOptions [chars "-n"; chars "4"; chars "-p"; chars "80"; chars "-n"; chars "5"] ops, ParseOptions [chars "-p"] ops,
   ParseOptions [chars "-x"; chars "1"] ops)
  = (Val [(chars "-p", Some (chars "80")); (chars "-n", Some (chars "5"))], Exit (-1), Exit (-1)).
Proof. reflexivity. Qed.
