(* ===== verification/EpServer.v ===== *)
(** * A web server on the stack: [apps/example/epserver.c]

    The handlers of a server thread, from an event to the calls of the mTCP
    interface. The interface is the class [Stack]: the calls change a world
    and give answers, of which [StackOk] says what the server relies on. The
    calls that matter to a client are recorded in a log.

    The bytes a connection gets are a sequence of responses, each a header
    with the length of the body that follows ([responses_framed]); a file of
    the cache is sent whole ([file_served]). *)

From Stdlib Require Import String.
From S2P Require Import Prelude HttpDate Config HttpParse.

Module EpServer.

(** ** The interface *)

Inductive read_result := Bytes (d : list Z) | Eof | ReadError (again : bool).
Inductive ctl := ADD | DEL | MOD.
Definition EPOLLIN : Z := 1.
Definition EPOLLOUT : Z := 4.
Definition EPOLLERR : Z := 8.

Class Stack := {
  W : Type;
  mtcp_read : Z -> Z -> W -> read_result * W;
  mtcp_write : Z -> list Z -> W -> Z * W;
  mtcp_epoll_ctl : ctl -> Z -> Z -> W -> W;
  mtcp_close : Z -> W -> W;
  mtcp_accept : Z -> W -> option Z * W;
  mtcp_setsock_nonblock : Z -> W -> W;
  http_date : W -> list Z;                     (* [time], [gmtime] and [strftime] *)
  pending : W -> nat                           (* connections that wait to be accepted *)
}.
Class StackOk `{Stack} : Prop := {
  read_len : forall s n w d w', mtcp_read s n w = (Bytes d, w') -> 0 < zlen d <= n;
  write_len : forall s d w, fst (mtcp_write s d w) <= zlen d;
  accept_less : forall l w c w', mtcp_accept l w = (Some c, w') -> 0 <= c /\ (pending w' < pending w)%nat;
  ctl_pending : forall o s e w, pending (mtcp_epoll_ctl o s e w) = pending w;
  nonblock_pending : forall s w, pending (mtcp_setsock_nonblock s w) = pending w;
  date_len : forall w, zlen (http_date w) < 128
}.

(** ** Data *)

Definition HTTP_HEADER_LEN : Z := 1024.
Definition URL_LEN : Z := 128.
Definition NAME_LIMIT : Z := 256.
Definition SNDBUF_SIZE : Z := 8 * 1024.
Definition MAX_FLOW_NUM : Z := 10000.

Record file_cache := mkFile { fullname : list Z; f_size : Z; f_file : list Z }.
Definition no_file : file_cache := mkFile [] 0 [].

Record server_vars := mkSv {
  request : list Z; recv_len : Z; request_len : Z; total_read : Z; total_sent : Z;
  done : bool; rspheader_sent : bool; keep_alive : bool; fidx : Z; fname : list Z; fsize : Z }.
#[export] Instance server_vars_Rebuild : Rebuild server_vars := fun r =>
  mkSv (request r) (recv_len r) (request_len r) (total_read r) (total_sent r) (done r) (rspheader_sent r) (keep_alive r)
    (fidx r) (fname r) (fsize r).
Definition zero_vars : server_vars := mkSv (replicate (Z.to_nat HTTP_HEADER_LEN) 0) 0 0 0 0 false false false 0 [] 0.

Inductive action := Wrote (sock : Z) (d : list Z) | Ctl (o : ctl) (sock events : Z) | Closed (sock : Z) | Accepted (sock : Z).

Section server.
Context `{Stack}.

Record ep := mkEp { world : W; svars : gmap Z server_vars; finished : Z; log : list action }.
#[local] Instance ep_Rebuild : Rebuild ep := fun r => mkEp (world r) (svars r) (finished r) (log r).

(** The files read at the start; the array has more entries than [nfiles]. *)
Context (www_main : list Z) (fcache : list file_cache) (nfiles : nat).
Definition cached (i : Z) : res file_cache := from_option_res OutOfBounds (znth fcache i).

Definition vars (s : ep) (sockid : Z) : server_vars := default zero_vars (svars s !! sockid).
Definition set_vars (s : ep) (sockid : Z) (sv : server_vars) : ep := s <| svars := <[sockid := sv]> (svars s) |>.

(** Calls that are recorded. *)
Definition do_ctl (o : ctl) (sockid events : Z) (s : ep) : ep :=
  s <| world := mtcp_epoll_ctl o sockid events (world s) |> <| log := log s ++ [Ctl o sockid events] |>.
Definition do_close (sockid : Z) (s : ep) : ep :=
  s <| world := mtcp_close sockid (world s) |> <| log := log s ++ [Closed sockid] |>.
Definition do_write (sockid : Z) (d : list Z) (s : ep) : Z * ep :=
  let '(r, w) := mtcp_write sockid d (world s) in
  (r, s <| world := w |> <| log := log s ++ [Wrote sockid (take (Z.to_nat r) d)] |>).

(** ** Handlers *)

Definition StatusCodeToString (scode : Z) : list Z :=
  if scode =? 200 then chars "OK" else if scode =? 404 then chars "Not Found" else [].

(** The request and the file stay as they are. *)
Definition CleanServerVariable (sv : server_vars) : server_vars :=
  sv <| recv_len := 0 |> <| request_len := 0 |> <| total_read := 0 |> <| total_sent := 0 |> <| done := false |>
     <| rspheader_sent := false |> <| keep_alive := false |>.

Definition CloseConnection (sockid : Z) (s : ep) : ep := do_close sockid (do_ctl DEL sockid 0 s).

(** Each round but the last writes at least a byte, so what is left of the
    file is enough fuel. *)
Fixpoint send_loop (fuel : nat) (sockid : Z) (sv : server_vars) (sent : Z) (s : ep) : res (Z * server_vars * ep) :=
  let len := Z.min SNDBUF_SIZE (fsize sv - total_sent sv) in
  if len <=? 0 then Ok (sent, sv, s)
  else
    match fuel with
    | O => Fault OutOfFuel
    | S fuel =>
        let! f := cached (fidx sv) in
        let! d := from_option_res OutOfBounds (mem_read (f_file f) (total_sent sv) len) in
        let '(ret, s) := do_write sockid d s in
        if ret <? 0 then Ok (sent, sv, s)
        else
          let sv := sv <| total_sent := total_sent sv + ret |> in
          if 0 <? ret then send_loop fuel sockid sv (sent + ret) s else Ok (sent + ret, sv, s)
    end.

Definition SendUntilAvailable (sockid : Z) (s : ep) : res (Z * ep) :=
  let sv := vars s sockid in
  if done sv || negb (rspheader_sent sv) then Ok (0, s)
  else
    let! (sent, sv, s) := send_loop (Z.to_nat (fsize sv - total_sent sv)) sockid sv 0 s in
    let! f := cached (fidx sv) in
    if f_size f <=? total_sent sv then
      let sv := sv <| done := true |> in
      let s := s <| finished := finished s + 1 |> in
      if keep_alive sv then Ok (sent, set_vars (do_ctl MOD sockid EPOLLIN s) sockid (CleanServerVariable sv))
      else Ok (sent, CloseConnection sockid (set_vars s sockid sv))
    else Ok (sent, set_vars s sockid sv).

Definition crlf : list Z := [13; 10].
(** The text of the response; the dates and the length are printed. *)
Definition response_header (scode : Z) (t_str : list Z) (size : Z) (keep : bool) : list Z :=
  chars "HTTP/1.1 " ++ pad 0 32 scode ++ chars " " ++ StatusCodeToString scode ++ crlf
  ++ chars "Date: " ++ t_str ++ crlf
  ++ chars "Server: Webserver on Middlebox TCP (Ubuntu)" ++ crlf
  ++ chars "Content-Length: " ++ pad 0 32 size ++ crlf
  ++ chars "Connection: " ++ (if keep then chars "Keep-Alive" else chars "Close") ++ crlf ++ crlf.

(** The first file of the cache with a name. *)
Definition find_file (name : list Z) : option (nat * file_cache) :=
  list_find (fun f => fullname f = name) (take nfiles fcache).

Definition wants_keep_alive (req : list Z) : res bool :=
  let! v := http_header_str_val req (chars "Connection: ") 12 128 in
  Ok (match v with
      | Some v => match strstr v (chars "Keep-Alive") with Some _ => true | None => false end
      | None => false
      end).

(** The part that answers a request whose header is complete. *)
Definition answer_request (sockid : Z) (sv : server_vars) (s : ep) : res ep :=
  let req := c_string (request sv) in
  let! (_, url) := http_get_url req URL_LEN in
  let name := www_main ++ url in
  if NAME_LIMIT <=? zlen name then Fault OutOfBounds
  else
    let sv := sv <| fname := name |> in
    let! keep := wants_keep_alive req in
    let sv := sv <| keep_alive := keep |> in
    let '(scode, sv) := match find_file name with
                        | Some (i, f) => (200, sv <| fsize := f_size f |> <| fidx := Z.of_nat i |>)
                        | None => (404, sv)
                        end in
    let response := response_header scode (http_date (world s)) (fsize sv) (keep_alive sv) in
    if HTTP_HEADER_LEN <=? zlen response then Fault OutOfBounds
    else
      let '(sent, s) := do_write sockid response s in
      if negb (sent =? zlen response) then Fault AssertFailed
      else
        let sv := sv <| rspheader_sent := true |> in
        let s := do_ctl MOD sockid (Z.lor EPOLLIN EPOLLOUT) (set_vars s sockid sv) in
        let! (_, s) := SendUntilAvailable sockid s in
        Ok s.

Definition HandleReadEvent (sockid : Z) (s : ep) : res (read_result * ep) :=
  let sv := vars s sockid in
  let '(rd, w) := mtcp_read sockid HTTP_HEADER_LEN (world s) in
  let s := s <| world := w |> in
  match rd with
  | Eof | ReadError _ => Ok (rd, s)
  | Bytes d =>
      let n := Z.min (zlen d) (HTTP_HEADER_LEN - recv_len sv) in
      if n <? 0 then Fault OutOfBounds
      else
        let! req := from_option_res OutOfBounds (mem_write (request sv) (recv_len sv) (take (Z.to_nat n) d)) in
        let sv := sv <| request := req |> <| recv_len := recv_len sv + zlen d |> in
        let! (hlen, req) := find_http_header (request sv) (recv_len sv) in
        let sv := sv <| request := req |> <| request_len := hlen |> in
        if hlen <=? 0 then Ok (rd, set_vars s sockid sv)
        else let! s := answer_request sockid sv s in Ok (rd, s)
  end.

Definition AcceptConnection (listener : Z) (s : ep) : Z * ep :=
  let '(c, w) := mtcp_accept listener (world s) in
  let s := s <| world := w |> in
  match c with
  | None => (-1, s)
  | Some c =>
      if MAX_FLOW_NUM <=? c then (-1, s)
      else
        let s := set_vars s c (CleanServerVariable (vars s c)) in
        let s := s <| world := mtcp_setsock_nonblock c (world s) |> <| log := log s ++ [Accepted c] |> in
        (c, do_ctl ADD c EPOLLIN s)
  end.

(** ** The loop over the events *)

Record event := mkEvent { ev_sockid : Z; ev_events : Z }.
Definition has (ev : event) (bit : Z) : bool := negb (Z.land (ev_events ev) bit =? 0).

Definition handle_event (ev : event) (s : ep) : res ep :=
  let sockid := ev_sockid ev in
  if (sockid <? 0) || (MAX_FLOW_NUM <=? sockid) then Fault OutOfBounds
  else if has ev EPOLLERR then Ok (CloseConnection sockid s)
  else if has ev EPOLLIN then
    let! (rd, s) := HandleReadEvent sockid s in
    Ok (match rd with
        | Eof => CloseConnection sockid s
        | ReadError false => CloseConnection sockid s
        | _ => s
        end)
  else if has ev EPOLLOUT then
    if rspheader_sent (vars s sockid) then let! (_, s) := SendUntilAvailable sockid s in Ok s else Ok s
  else Fault AssertFailed.

Fixpoint events_loop (listener : Z) (evs : list event) (do_accept : bool) (s : ep) : res (bool * ep) :=
  match evs with
  | [] => Ok (do_accept, s)
  | ev :: evs =>
      if ev_sockid ev =? listener then events_loop listener evs true s
      else let! s := handle_event ev s in events_loop listener evs do_accept s
  end.

(** Connections are accepted until there is none. *)
Fixpoint accept_loop (fuel : nat) (listener : Z) (s : ep) : res ep :=
  match fuel with
  | O => Fault OutOfFuel
  | S fuel => let '(ret, s) := AcceptConnection listener s in if ret <? 0 then Ok s else accept_loop fuel listener s
  end.

(** A round of [RunServerThread] with the events of [mtcp_epoll_wait]. *)
Definition server_round (listener : Z) (evs : list event) (s : ep) : res ep :=
  let! (do_accept, s) := events_loop listener evs false s in
  if do_accept then accept_loop (S (pending (world s))) listener s else Ok s.

Fixpoint server_rounds (listener : Z) (rounds : list (list event)) (s : ep) : res ep :=
  match rounds with [] => Ok s | evs :: rounds => let! s := server_round listener evs s in server_rounds listener rounds s end.
End server.
#[export] Existing Instance ep_Rebuild.
End EpServer.
