(* ===== verification/EpServed.v ===== *)
(** * What a client of [epserver.c] gets

    The bytes written to a connection are a sequence of responses, each with
    the length of its body in the header; a request for a file of the cache is
    answered with that file. *)

From Stdlib Require Import String.
From S2P Require Import Prelude HttpDate Config HttpParse EpServer.
Import EpServer.

(** ** The stream of a connection *)

Definition stream_step (sock : Z) (acc : list Z) (a : action) : list Z :=
  match a with
  | Accepted c => if c =? sock then [] else acc
  | Wrote c d => if c =? sock then acc ++ d else acc
  | _ => acc
  end.
(** What was written since the connection was accepted. *)
Definition stream_of (sock : Z) (l : list action) : list Z := foldl (stream_step sock) [] l.

Lemma stream_snoc sock l a : stream_of sock (l ++ [a]) = stream_step sock (stream_of sock l) a.
Proof. unfold stream_of. by rewrite foldl_app. Qed.

Definition response (r : list Z) : Prop :=
  exists scode t_str keep body, r = response_header scode t_str (zlen body) keep ++ body.
(** Whole responses and the beginning of one. *)
Definition framed (l : list Z) : Prop :=
  exists rs p r, l = concat rs ++ p /\ Forall response rs /\ response r /\ p `prefix_of` r.

Lemma framed_nil : framed [].
Proof.
  exists [], [], (response_header 200 [] 0 false ++ []). split_and!; [done|constructor| |apply prefix_nil].
  exists 200, [], false, []. done.
Qed.

#[local] Arguments response_header : simpl never.

Section served.
Context `{Stack} `{!StackOk} (www_main : list Z) (fcache : list file_cache) (nfiles : nat).
Notation cached := (cached fcache).
Notation send_loop := (send_loop fcache).
Notation SendUntilAvailable := (SendUntilAvailable fcache).
Notation answer_request := (answer_request www_main fcache nfiles).
Notation HandleReadEvent := (HandleReadEvent www_main fcache nfiles).
Notation handle_event := (handle_event www_main fcache nfiles).

Definition cache_ok : Prop := fcache <> [] /\ Forall (fun f => f_size f = zlen (f_file f)) fcache.
Context (Hcache : cache_ok).

(** The file that is sent, and how much of it. *)
Definition body (sv : server_vars) : list Z :=
  match znth fcache (fidx sv) with Some f => take (Z.to_nat (fsize sv)) (f_file f) | None => [] end.

Definition no_blank (l : list Z) : Prop := forall q b r, blank b -> l <> q ++ b ++ r.

Record vars_ok (sv : server_vars) : Prop := {
  vo_request : zlen (request sv) = HTTP_HEADER_LEN;
  vo_recv : 0 <= recv_len sv;
  vo_file : exists f, znth fcache (fidx sv) = Some f /\ (fsize sv = f_size f \/ fsize sv = 0);
  vo_sent : 0 <= total_sent sv <= fsize sv;
  vo_idle : rspheader_sent sv = false -> total_sent sv = 0 /\ done sv = false;
  vo_busy : rspheader_sent sv = true ->
    let s := take (Z.to_nat (recv_len sv)) (request sv) in 0 ∈ s /\ no_blank (c_string s)
}.

(** The bytes of a connection whose current response has the header [h]. *)
Definition stream_ok (sv : server_vars) (l : list Z) : Prop :=
  exists rs, Forall response rs /\
    if rspheader_sent sv then
      exists scode t keep, l = concat rs ++ response_header scode t (fsize sv) keep ++ take (Z.to_nat (total_sent sv)) (body sv)
    else l = concat rs.

Definition sock_ok (sv : server_vars) (l : list Z) : Prop := vars_ok sv /\ stream_ok sv l.
Definition server_ok (s : ep) : Prop := forall sock, sock_ok (vars s sock) (stream_of sock (log s)).

Lemma body_len sv : vars_ok sv -> zlen (body sv) = fsize sv.
Proof.
  intros [_ _ (f & Ef & Hf) Hs _ _]. unfold body. rewrite Ef. apply zlen_take. destruct Hcache as [_ Hall].
  assert (E : f_size f = zlen (f_file f)).
  { unfold znth in Ef. destruct (fidx sv <? 0); [done|]. by eapply Forall_lookup in Hall. }
  pose proof (zlen_nonneg (f_file f)). lia.
Qed.

Lemma stream_ok_framed sv l : vars_ok sv -> stream_ok sv l -> framed l.
Proof.
  intros Hv (rs & Hrs & Hl). destruct (rspheader_sent sv).
  - destruct Hl as (scode & t & keep & ->). exists rs, (response_header scode t (fsize sv) keep ++ take (Z.to_nat (total_sent sv)) (body sv)).
    exists (response_header scode t (fsize sv) keep ++ body sv). split_and!; [done|done| |].
    + exists scode, t, keep, (body sv). by rewrite body_len.
    + apply prefix_app. exists (drop (Z.to_nat (total_sent sv)) (body sv)). symmetry. apply take_drop.
  - destruct framed_nil as (_ & _ & r & _ & _ & Hr & _). exists rs, [], r. rewrite app_nil_r. split_and!; [done|done|done|apply prefix_nil].
Qed.

(** ** Frames *)

Lemma vars_set s sock sv sock' : vars (set_vars s sock sv) sock' = if sock' =? sock then sv else vars s sock'.
Proof.
  unfold vars, set_vars. cbn. destruct (Z.eqb_spec sock' sock) as [->|]; [by rewrite lookup_insert_eq|].
  by rewrite lookup_insert_ne by congruence.
Qed.

Lemma stream_ctl s o c e sock : stream_of sock (log (do_ctl o c e s)) = stream_of sock (log s).
Proof. change (stream_of sock (log s ++ [Ctl o c e]) = stream_of sock (log s)). by rewrite stream_snoc. Qed.
Lemma stream_close s c sock : stream_of sock (log (CloseConnection c s)) = stream_of sock (log s).
Proof.
  change (stream_of sock ((log s ++ [Ctl DEL c 0]) ++ [Closed c]) = stream_of sock (log s)). by rewrite !stream_snoc.
Qed.
Lemma do_write_spec sock d s r s' : do_write sock d s = (r, s') ->
  r <= zlen d /\ svars s' = svars s /\ finished s' = finished s /\
  forall c, stream_of c (log s') = if c =? sock then stream_of c (log s) ++ take (Z.to_nat r) d else stream_of c (log s).
Proof.
  unfold do_write. pose proof (write_len sock d (world s)). destruct (mtcp_write sock d (world s)) as [r' w]. intros [= <- <-].
  split_and!; [done|done|done|]. intros c.
  change (stream_of c (log s ++ [Wrote sock (take (Z.to_nat r') d)]) = if c =? sock then stream_of c (log s) ++ take (Z.to_nat r') d else stream_of c (log s)).
  rewrite stream_snoc. cbn [stream_step]. by rewrite (Z.eqb_sym sock c).
Qed.


(** The bytes of the next write. *)
Lemma read_body sv len : vars_ok sv -> 0 <= len -> total_sent sv + len <= fsize sv ->
  exists f, cached (fidx sv) = Ok f /\ mem_read (f_file f) (total_sent sv) len = Some (take (Z.to_nat len) (drop (Z.to_nat (total_sent sv)) (body sv))).
Proof.
  intros Hv Hl Hs. pose proof (body_len _ Hv) as Hb. destruct Hv as [_ _ (f & Ef & Hf) Ht _ _]. exists f. unfold cached, body in *. rewrite Ef in *.
  split; [done|]. rewrite mem_read_eq; [|lia|lia|].
  - f_equal. rewrite skipn_firstn_comm, take_take. f_equal. lia.
  - unfold zlen in *. rewrite length_take in Hb. lia.
Qed.

(** The loop sends the file from where it stands; when every write takes a
    byte at least, it sends all of it. *)
Lemma send_loop_spec sock fuel sv sent s :
  vars_ok sv -> rspheader_sent sv = true -> (Z.to_nat (fsize sv - total_sent sv) <= fuel)%nat ->
  exists n s', send_loop fuel sock sv sent s = Ok (sent + n, sv <| total_sent := total_sent sv + n |>, s') /\
    0 <= n /\ total_sent sv + n <= fsize sv /\ svars s' = svars s /\ finished s' = finished s /\
    (forall c, stream_of c (log s') =
       if c =? sock then stream_of c (log s) ++ take (Z.to_nat n) (drop (Z.to_nat (total_sent sv)) (body sv)) else stream_of c (log s)) /\
    ((forall w d, 0 < zlen d -> 0 < fst (mtcp_write sock d w)) -> total_sent sv + n = fsize sv).
Proof.
  revert sv sent s. induction fuel as [|fuel IH]; intros sv sent s Hv Hsent Hf.
  all: pose proof (vo_sent _ Hv) as Ht; pose proof (body_len _ Hv) as Hbl; cbn [EpServer.send_loop]; unfold SNDBUF_SIZE.
  - destruct (Z.leb_spec (Z.min (8 * 1024) (fsize sv - total_sent sv)) 0); [|lia].
    exists 0, s. rewrite !Z.add_0_r. split_and!; try done; try lia.
    + by destruct sv.
    + intros c. rewrite app_nil_r. by destruct (c =? sock).
  - set (len := Z.min (8 * 1024) (fsize sv - total_sent sv)).
    assert (Hstop : forall s1, svars s1 = svars s -> finished s1 = finished s -> (forall c, stream_of c (log s1) = stream_of c (log s)) ->
      (0 < len -> exists w d, 0 < zlen d /\ fst (mtcp_write sock d w) <= 0) ->
      exists n s', Ok (sent, sv, s1) = Ok (sent + n, sv <| total_sent := total_sent sv + n |>, s') /\
      0 <= n /\ total_sent sv + n <= fsize sv /\ svars s' = svars s /\ finished s' = finished s /\
      (forall c, stream_of c (log s') =
         if c =? sock then stream_of c (log s) ++ take (Z.to_nat n) (drop (Z.to_nat (total_sent sv)) (body sv)) else stream_of c (log s)) /\
      ((forall w d, 0 < zlen d -> 0 < fst (mtcp_write sock d w)) -> total_sent sv + n = fsize sv)).
    { intros s1 E1 E2 E3 E4. exists 0, s1. rewrite !Z.add_0_r. split_and!; try done; try lia.
      - by destruct sv.
      - intros c. rewrite E3. cbn [Z.to_nat take]. rewrite app_nil_r. by destruct (c =? sock).
      - intros Hpos. destruct (Z.lt_ge_cases 0 len) as [Hl|Hl]; [|unfold len in Hl; lia].
        destruct (E4 Hl) as (w & d & Hd & Hw). specialize (Hpos w d Hd). lia. }
    destruct (Z.leb_spec len 0) as [Hlen|Hlen]; [apply Hstop; try done; lia|].
    destruct (read_body sv len Hv) as (f & -> & Em); [lia|unfold len; lia|]. cbn [res_bind]. rewrite Em. cbn [from_option_res res_bind].
    set (d := take _ _). assert (Hd : zlen d = len).
    { apply zlen_take. rewrite zlen_drop by lia. unfold len in *. lia. }
    destruct (do_write sock d s) as [ret s1] eqn:Ew. pose proof (do_write_spec _ _ _ _ _ Ew) as (Hret & Esv & Efin & Estr).
    assert (Hfst : fst (mtcp_write sock d (world s)) = ret).
    { unfold do_write in Ew. destruct (mtcp_write sock d (world s)). by injection Ew as <- _. }
    destruct (Z.ltb_spec ret 0).
    { apply Hstop; [done|done| |].
      - intros c. rewrite Estr. replace (Z.to_nat ret) with 0%nat by lia. cbn [take]. rewrite app_nil_r. by destruct (c =? sock).
      - intros _. exists (world s), d. lia. }
    destruct (Z.ltb_spec 0 ret).
    + destruct (IH (sv <| total_sent := total_sent sv + ret |>) (sent + ret) s1) as (n & s' & -> & Hn & Hn2 & E1 & E2 & E3 & E4);
        [|done|cbn; lia|].
      { destruct Hv. constructor; cbn; try done; [unfold len in *; lia|]. intros Hx. congruence. }
      cbn in Hn2, E3, E4. exists (ret + n), s'. split_and!; [|lia|lia|congruence|congruence| |intros Hw; specialize (E4 Hw); lia].
      * by rewrite !Z.add_assoc.
      * intros c. rewrite E3, Estr. destruct (c =? sock); [|done]. rewrite <- app_assoc. f_equal.
        change (body (sv <| total_sent := total_sent sv + ret |>)) with (body sv). subst d. rewrite take_take.
        rewrite Z2Nat.inj_add, <- drop_drop by lia. rewrite Z2Nat.inj_add by lia. rewrite <- take_take_drop. f_equal. f_equal. lia.
    + replace ret with 0 in * by lia. exists 0, s1. split_and!; try done; try lia.
      intros Hw. specialize (Hw (world s) d). lia.
Qed.

(** ** A round of sending *)

Definition sent_vars (sv : server_vars) (n : Z) : server_vars :=
  let sv := sv <| total_sent := total_sent sv + n |> in
  match znth fcache (fidx sv) with
  | Some f => if f_size f <=? total_sent sv then
                let sv := sv <| done := true |> in if keep_alive sv then CleanServerVariable sv else sv
              else sv
  | None => sv
  end.

Lemma send_spec sock s : let sv := vars s sock in
  vars_ok sv -> rspheader_sent sv = true -> done sv = false ->
  exists n s', SendUntilAvailable sock s = Ok (n, s') /\ 0 <= n /\ total_sent sv + n <= fsize sv /\
    (forall c, vars s' c = if c =? sock then sent_vars sv n else vars s c) /\
    (forall c, stream_of c (log s') =
       if c =? sock then stream_of c (log s) ++ take (Z.to_nat n) (drop (Z.to_nat (total_sent sv)) (body sv)) else stream_of c (log s)) /\
    ((forall w d, 0 < zlen d -> 0 < fst (mtcp_write sock d w)) -> total_sent sv + n = fsize sv) /\
    (forall f, znth fcache (fidx sv) = Some f -> f_size f <= total_sent sv + n -> keep_alive sv = false -> last (log s') = Some (Closed sock)).
Proof.
  intros sv Hv Hs Hd. unfold EpServer.SendUntilAvailable. fold sv. rewrite Hd, Hs. cbn [orb negb].
  destruct (send_loop_spec sock (Z.to_nat (fsize sv - total_sent sv)) sv 0 s Hv Hs) as (n & s1 & -> & Hn & Hn2 & E1 & E2 & E3 & E4); [lia|].
  cbn [res_bind]. change (fidx (sv <| total_sent := total_sent sv + n |>)) with (fidx sv).
  destruct (vo_file _ Hv) as (f & Ef & _). unfold EpServer.cached. rewrite Ef. cbn [from_option_res res_bind].
  exists n. unfold sent_vars. cbv zeta. change (fidx (sv <| total_sent := total_sent sv + n |>)) with (fidx sv). rewrite Ef.
  set (sv1 := sv <| total_sent := total_sent sv + n |>). change (keep_alive (sv1 <| done := true |>)) with (keep_alive sv).
  assert (Hvars : forall x sv' c, svars x = svars s1 -> vars (set_vars x sock sv') c = if c =? sock then sv' else vars s c).
  { intros x sv' c Ex. rewrite vars_set. destruct (c =? sock); [done|]. unfold vars. by rewrite Ex, E1. }
  destruct (Z.leb_spec (f_size f) (total_sent sv1)) as [Hle|Hgt]; [destruct (keep_alive sv)|]; eexists; (split; [reflexivity|]); split_and!; try done.
  - intros c. by apply Hvars.
  - intros c. rewrite <- E3. exact (stream_ctl (s1 <| finished := finished s1 + 1 |>) MOD sock EPOLLIN c).
  - intros c. by apply (Hvars _ (sv1 <| done := true |>)).
  - intros c. rewrite stream_close. apply E3.
  - intros _ _ _ _. apply last_snoc.
  - intros c. by apply Hvars.
  - intros g [= <-] Hg _. change (total_sent sv1) with (total_sent sv + n) in Hgt. lia.
Qed.

Lemma sent_vars_ok sv n l : sock_ok sv l -> rspheader_sent sv = true -> 0 <= n -> total_sent sv + n <= fsize sv ->
  sock_ok (sent_vars sv n) (l ++ take (Z.to_nat n) (drop (Z.to_nat (total_sent sv)) (body sv))).
Proof.
  intros [Hv (rs & Hrs & Hl)] Hs Hn Hn2. rewrite Hs in Hl. destruct Hl as (scode & t & keep & ->).
  pose proof (body_len _ Hv) as Hbl. pose proof Hv as [Hq Hr (f & Ef & Hf) Ht Hi Hb].
  assert (El : (concat rs ++ response_header scode t (fsize sv) keep ++ take (Z.to_nat (total_sent sv)) (body sv)) ++
    take (Z.to_nat n) (drop (Z.to_nat (total_sent sv)) (body sv)) =
    concat rs ++ response_header scode t (fsize sv) keep ++ take (Z.to_nat (total_sent sv + n)) (body sv)).
  { rewrite <- !app_assoc. do 2 f_equal. rewrite Z2Nat.inj_add by lia. apply take_take_drop. }
  rewrite El. unfold sent_vars. cbv zeta. change (fidx (sv <| total_sent := total_sent sv + n |>)) with (fidx sv). rewrite Ef.
  change (total_sent (sv <| total_sent := total_sent sv + n |>)) with (total_sent sv + n).
  change (keep_alive (_ <| done := true |>)) with (keep_alive sv).
  destruct (Z.leb_spec (f_size f) (total_sent sv + n)) as [Hdone|]; [destruct (keep_alive sv)|].
  - split.
    + constructor; cbn; try done; try lia. by exists f.
    + exists (rs ++ [response_header scode t (fsize sv) keep ++ body sv]). split.
      * apply Forall_app. split; [done|]. apply Forall_singleton. exists scode, t, keep, (body sv). by rewrite Hbl.
      * cbn. rewrite concat_app. cbn. rewrite app_nil_r. do 2 f_equal. apply take_ge.
        destruct Hcache as [_ Hall]. assert (E : f_size f = zlen (f_file f)).
        { unfold znth in Ef. destruct (fidx sv <? 0); [done|]. by eapply Forall_lookup in Hall. }
        pose proof (zlen_nonneg (f_file f)). unfold zlen in *. lia.
  - split; [constructor; cbn; try done; try lia; [by exists f|congruence]|]. exists rs. split; [done|]. cbn. rewrite Hs. by exists scode, t, keep.
  - split; [constructor; cbn; try done; try lia; [by exists f|congruence]|]. exists rs. split; [done|]. cbn. rewrite Hs. by exists scode, t, keep.
Qed.

Lemma send_ok sock s : server_ok s -> exists n s', SendUntilAvailable sock s = Ok (n, s') /\ server_ok s'.
Proof.
  intros Hs. destruct (Hs sock) as [Hv Hst]. destruct (done (vars s sock)) eqn:Ed.
  { exists 0, s. unfold EpServer.SendUntilAvailable. by rewrite Ed. }
  destruct (rspheader_sent (vars s sock)) eqn:Er.
  2: { exists 0, s. unfold EpServer.SendUntilAvailable. by rewrite Ed, Er. }
  destruct (send_spec sock s Hv Er Ed) as (n & s' & E & Hn & Hn2 & Ev & El & _ & _). exists n, s'. split; [done|].
  intros c. rewrite Ev, El. destruct (Z.eqb_spec c sock) as [->|]; [|apply Hs]. by apply sent_vars_ok.
Qed.

Lemma close_ok sock s : server_ok s -> server_ok (CloseConnection sock s).
Proof. intros Hs c. rewrite stream_close. apply Hs. Qed.

(** ** Answering a request *)

Lemma find_file_spec name i f : find_file fcache nfiles name = Some (i, f) ->
  znth fcache (Z.of_nat i) = Some f /\ fullname f = name /\ f_size f = zlen (f_file f).
Proof.
  unfold find_file. intros (Hi & Hn & _)%list_find_Some. apply lookup_take_Some in Hi as [Hi _].
  split_and!; [|done|].
  - unfold znth. destruct (Z.ltb_spec (Z.of_nat i) 0); [lia|]. by rewrite Nat2Z.id.
  - destruct Hcache as [_ Hall]. by eapply Forall_lookup in Hall.
Qed.

(** A request that is complete and not answered. *)
Definition ready (sv : server_vars) (l : list Z) : Prop :=
  vars_ok sv /\ rspheader_sent sv = false /\
  (let s := take (Z.to_nat (recv_len sv)) (request sv) in 0 ∈ s /\ no_blank (c_string s)) /\
  exists rs, Forall response rs /\ l = concat rs.

(** The variables with which the answer starts. *)
Definition answer_vars (sv : server_vars) (name : list Z) (keep : bool) : Z * server_vars :=
  let sv := sv <| fname := name |> <| keep_alive := keep |> in
  match find_file fcache nfiles name with
  | Some (i, f) => (200, sv <| fsize := f_size f |> <| fidx := Z.of_nat i |>)
  | None => (404, sv)
  end.

Lemma answer_vars_ok sv l name keep : ready sv l ->
  let sv' := snd (answer_vars sv name keep) <| rspheader_sent := true |> in
  vars_ok sv' /\ done sv' = false /\ total_sent sv' = 0 /\ keep_alive sv' = keep.
Proof.
  intros ([Hq Hr (f & Ef & Hf) Ht Hi Hb] & Hs & Hcut & _). destruct (Hi Hs) as [Ht0 Hd]. unfold answer_vars.
  destruct (find_file fcache nfiles name) as [[i g]|] eqn:E; cbn.
  - apply find_file_spec in E as (Ei & _ & Eg). pose proof (zlen_nonneg (f_file g)).
    split_and!; [|done|done|done]. constructor; cbn; try done; [|lia]. exists g. auto.
  - split_and!; [|done|done|done]. constructor; cbn; try done. by exists f.
Qed.

(** The step from a complete request to sending. *)
Lemma answer_spec sock sv s : answer_request sock sv s =
  let! (_, url) := http_get_url (c_string (request sv)) URL_LEN in
  let name := www_main ++ url in
  if NAME_LIMIT <=? zlen name then Fault OutOfBounds
  else
    let! keep := wants_keep_alive (c_string (request sv)) in
    let '(scode, sv1) := answer_vars sv name keep in
    let resp := response_header scode (http_date (world s)) (fsize sv1) (keep_alive sv1) in
    if HTTP_HEADER_LEN <=? zlen resp then Fault OutOfBounds
    else
      let '(sent, s) := do_write sock resp s in
      if negb (sent =? zlen resp) then Fault AssertFailed
      else
        let s := do_ctl MOD sock (Z.lor EPOLLIN EPOLLOUT) (set_vars s sock (sv1 <| rspheader_sent := true |>)) in
        let! (_, s) := SendUntilAvailable sock s in Ok s.
Proof. reflexivity. Qed.

Lemma answer_ok sock sv s : (forall c, c <> sock -> sock_ok (vars s c) (stream_of c (log s))) -> ready sv (stream_of sock (log s)) ->
  match answer_request sock sv s with Ok s' => server_ok s' | Fault _ => True end.
Proof.
  intros Hoth Hready. rewrite answer_spec. destruct (http_get_url _ _) as [[u url]|]; [|done]. cbn [res_bind]. cbv zeta.
  destruct (NAME_LIMIT <=? _); [done|]. destruct (wants_keep_alive _) as [keep|]; [|done]. cbn [res_bind].
  pose proof (answer_vars_ok sv _ (www_main ++ url) keep Hready) as Hv.
  destruct (answer_vars sv (www_main ++ url) keep) as [scode sv1]. cbn [snd] in Hv. cbv zeta in Hv. destruct Hv as (Hv & Hd & Ht & _).
  set (resp := response_header _ _ _ _). destruct (HTTP_HEADER_LEN <=? zlen resp); [done|].
  destruct (do_write sock resp s) as [n s1] eqn:Ew. apply do_write_spec in Ew as (_ & Esv & _ & Estr).
  destruct (Z.eqb_spec n (zlen resp)) as [->|]; [|done]. cbn [negb].
  set (s2 := do_ctl _ _ _ _). assert (H2 : server_ok s2).
  { intros c. assert (El : stream_of c (log s2) = stream_of c (log s1)) by apply (stream_ctl (set_vars s1 sock _)).
    assert (Ev : vars s2 c = if c =? sock then sv1 <| rspheader_sent := true |> else vars s1 c) by apply vars_set.
    rewrite El, Ev, Estr. unfold vars at 1. rewrite Esv. fold (vars s c). destruct (Z.eqb_spec c sock) as [->|Hc]; [|by apply Hoth].
    split; [done|]. destruct Hready as (_ & _ & _ & rs & Hrs & ->). exists rs. split; [done|].
    change (rspheader_sent (sv1 <| rspheader_sent := true |>)) with true. cbv iota. exists scode, (http_date (world s)), (keep_alive sv1).
    rewrite Ht. cbn [Z.to_nat take]. rewrite app_nil_r. f_equal. unfold zlen. rewrite Nat2Z.id. apply firstn_all. }
  destruct (send_ok sock s2 H2) as (k & s3 & -> & H3). done.
Qed.

(** ** Reading a request *)

Lemma c_string_zero a b : 0 ∈ a -> c_string (a ++ b) = c_string a.
Proof.
  induction a as [|x a IH]; [by intros ?%not_elem_of_nil|]. intros Hin. cbn. destruct (Z.eqb_spec x 0); [done|].
  f_equal. apply IH. apply elem_of_cons in Hin as [?|?]; [congruence|done].
Qed.

(** The data up to [recv_len] stay when more are stored behind them. *)
Lemma request_grows (req : list Z) k d m req' : mem_write req k d = Some req' -> 0 <= k -> k <= m ->
  zlen req' = zlen req /\ exists e, take (Z.to_nat m) req' = take (Z.to_nat k) req ++ e.
Proof.
  intros Hw Hk Hm. pose proof (mem_write_Some _ _ _ _ Hw) as (_ & Hd & Hlen & _). split; [done|].
  unfold mem_write in Hw. destruct (_ && _); [|done]. injection Hw as <-. pose proof (zlen_nonneg d).
  assert (Hl : length (take (Z.to_nat k) req) = Z.to_nat k) by (rewrite length_take; unfold zlen in *; lia).
  eexists. rewrite take_app, Hl. f_equal. apply take_ge. lia.
Qed.

(** What the header that was found leaves of the request. *)
Lemma header_cut data len n data' : find_http_header data len = Ok (n, data') -> 0 < n ->
  zlen data' = zlen data /\ let s := take (Z.to_nat len) data' in 0 ∈ s /\ no_blank (c_string s).
Proof.
  intros Hf Hn. assert (Hlen : 0 <= len < zlen data).
  { unfold find_http_header in Hf. destruct (Z.ltb_spec len 0), (Z.leb_spec (zlen data) len); done || lia. }
  destruct (find_header_spec data len Hlen) as [[E _]|(q & b & r & Hb & Es & E & Hmin)]; rewrite E in Hf; injection Hf as <- <-; [lia|].
  pose proof (blank_size b Hb). pose proof (zlen_nonneg q). set (k := (length (q ++ b) - 1)%nat).
  set (s0 := c_string (take (Z.to_nat len) data)) in *.
  assert (Hk : (k < length s0)%nat) by (rewrite Es, !length_app; subst k; rewrite length_app; unfold zlen in *; lia).
  assert (Hs0 : (length s0 <= Z.to_nat len)%nat).
  { destruct (c_string_prefix (take (Z.to_nat len) data)) as (t & Et & _). fold s0 in Et. apply (f_equal length) in Et.
    rewrite length_app, length_take in Et. lia. }
  split; [unfold zlen; by rewrite length_insert|]. cbv zeta.
  assert (Hzero : 0 ∈ take (Z.to_nat len) (<[k:=0]> data)).
  { apply list_elem_of_lookup. exists k. rewrite lookup_take_lt by lia. apply list_lookup_insert_eq. unfold zlen in *. lia. }
  split; [done|]. rewrite <- (c_string_zero _ (drop (Z.to_nat len) (<[k:=0]> data))) by done. rewrite take_drop.
  rewrite (cut_string data (Z.to_nat len)) by done. fold s0. intros q' b' r' Hb' Heq.
  assert (Hle : zlen (q ++ b) <= zlen (q' ++ b')).
  { apply (Hmin q' b' (r' ++ drop k s0)); [done|]. rewrite !app_assoc. rewrite app_assoc in Heq. rewrite <- Heq. symmetry. apply take_drop. }
  apply (f_equal length) in Heq. rewrite length_take, app_assoc, length_app in Heq. unfold zlen in *. subst k. lia.
Qed.

Lemma read_event_ok sock s : server_ok s -> match HandleReadEvent sock s with Ok (_, s') => server_ok s' | Fault _ => True end.
Proof.
  intros Hs. unfold EpServer.HandleReadEvent. set (sv := vars s sock). pose proof (Hs sock) as [Hv Hst]. fold sv in Hv, Hst.
  destruct (mtcp_read sock HTTP_HEADER_LEN (world s)) as [rd w]. destruct rd as [d| |]; [|exact Hs|exact Hs].
  destruct (_ <? 0); [done|].
  destruct (mem_write (request sv) (recv_len sv) _) as [req|] eqn:Em; [|done]. cbn [from_option_res res_bind].
  set (s1 := s <| world := w |>). pose proof (zlen_nonneg d). pose proof Hv as [Hq Hr Hfile Ht Hi Hb].
  destruct (request_grows _ _ _ (recv_len sv + zlen d) _ Em) as (Hlen & e & Etake); [done|lia|].
  cbv zeta. cbn [request recv_len].
  change (request (sv <| request := req |> <| recv_len := recv_len sv + zlen d |>)) with req.
  change (recv_len (sv <| request := req |> <| recv_len := recv_len sv + zlen d |>)) with (recv_len sv + zlen d).
  destruct (find_http_header req (recv_len sv + zlen d)) as [[hlen req2]|] eqn:Ef; [|done]. cbn [res_bind].
  assert (Hset : forall sv', sock_ok sv' (stream_of sock (log s)) -> server_ok (set_vars s1 sock sv')).
  { intros sv' H' c. rewrite vars_set. destruct (Z.eqb_spec c sock) as [->|]; [exact H'|apply Hs]. }
  destruct (rspheader_sent sv) eqn:Ers.
  - (* a response is being sent: the zero in the request hides what follows *)
    destruct (Hb eq_refl) as [Hzero Hnb]. assert (Hlt : 0 <= recv_len sv + zlen d < zlen req).
    { unfold find_http_header in Ef. destruct (Z.ltb_spec (recv_len sv + zlen d) 0), (Z.leb_spec (zlen req) (recv_len sv + zlen d)); done || lia. }
    assert (Es : c_string (take (Z.to_nat (recv_len sv + zlen d)) req) = c_string (take (Z.to_nat (recv_len sv)) (request sv))).
    { rewrite Etake. by apply c_string_zero. }
    destruct (find_header_spec req _ Hlt) as [[E _]|(q & b & r & Hbl & Eb & _)]; [|rewrite Es in Eb; by apply Hnb in Eb].
    rewrite E in Ef. injection Ef as <- <-. cbn [Z.leb Z.compare]. apply Hset. split; [|exact Hst].
    constructor; cbn; try done; try lia; try congruence. intros _. rewrite Es. split; [|done]. rewrite Etake. apply elem_of_app. by left.
  - destruct (Z.leb_spec hlen 0) as [Hz|Hz].
    + apply Hset. split; [|by destruct Hst as (rs & ? & Hl); exists rs; rewrite Ers in Hl; cbn; rewrite Ers].
      assert (Hl2 : zlen req2 = zlen req).
      { unfold find_http_header in Ef. destruct (_ || _); [done|]. injection Ef as <- <-. destruct (_ =? 0); [done|]. unfold zlen. by rewrite length_insert. }
      constructor; cbn; try done; try lia; by rewrite Ers.
    + destruct (header_cut _ _ _ _ Ef Hz) as [Hl2 Hcut].
      set (sv2 := _ <| request := req2 |> <| request_len := hlen |>).
      assert (Hready : ready sv2 (stream_of sock (log s1))).
      { split_and!; [|exact Ers|exact Hcut|].
        - constructor; cbn; try done; try lia; by rewrite Ers.
        - destruct Hst as (rs & ? & Hl). rewrite Ers in Hl. by exists rs. }
      pose proof (answer_ok sock sv2 s1 (fun c _ => Hs c) Hready) as Ha. by destruct (answer_request sock sv2 s1).
Qed.

(** ** The loop *)

Lemma clean_ok sv : vars_ok sv -> sock_ok (CleanServerVariable sv) [].
Proof.
  intros [Hq Hr (f & Ef & Hf) Ht _ _]. split.
  - constructor; cbn; try done; try lia. by exists f.
  - exists []. by split; [constructor|].
Qed.

Lemma accept_ok listener s : server_ok s -> server_ok (snd (AcceptConnection listener s)).
Proof.
  intros Hs. unfold AcceptConnection. destruct (mtcp_accept listener (world s)) as [[c|] w]; [|exact Hs].
  destruct (MAX_FLOW_NUM <=? c); [exact Hs|]. cbn [snd]. intros x. rewrite stream_ctl.
  set (s1 := s <| world := w |>).
  change (sock_ok (vars (set_vars s1 c (CleanServerVariable (vars s1 c))) x) (stream_of x (log s ++ [Accepted c]))).
  rewrite vars_set, stream_snoc. cbn [stream_step]. rewrite (Z.eqb_sym c x).
  destruct (Z.eqb_spec x c) as [->|]; [|apply Hs]. apply clean_ok, Hs.
Qed.

Lemma accept_pending listener s c s' : AcceptConnection listener s = (c, s') -> 0 <= c -> (pending (world s') < pending (world s))%nat.
Proof.
  unfold AcceptConnection. destruct (mtcp_accept listener (world s)) as [[c'|] w] eqn:E; [|intros [= <- _]; lia].
  apply accept_less in E as [_ Hlt]. destruct (MAX_FLOW_NUM <=? c'); intros [= <- <-]; [lia|]. intros _. cbn.
  by rewrite ctl_pending, nonblock_pending.
Qed.

(** Accepting ends. *)
Lemma accept_loop_ok fuel listener s : (pending (world s) < fuel)%nat -> server_ok s ->
  exists s', accept_loop fuel listener s = Ok s' /\ server_ok s'.
Proof.
  revert s. induction fuel as [|fuel IH]; intros s Hf Hs; [lia|]. cbn [accept_loop].
  pose proof (accept_ok listener s Hs) as Hs1. destruct (AcceptConnection listener s) as [c s1] eqn:E. cbn [snd] in Hs1.
  destruct (Z.ltb_spec c 0); [by exists s1|]. apply IH; [|done]. apply accept_pending in E; lia.
Qed.

Lemma handle_ok ev s : server_ok s -> match handle_event ev s with Ok s' => server_ok s' | Fault _ => True end.
Proof.
  intros Hs. unfold EpServer.handle_event. destruct (_ || _); [done|]. destruct (has ev EPOLLERR); [by apply close_ok|].
  destruct (has ev EPOLLIN).
  { pose proof (read_event_ok (ev_sockid ev) s Hs) as Hr. destruct (HandleReadEvent (ev_sockid ev) s) as [[rd s1]|]; [|done]. cbn [res_bind].
    destruct rd as [d| |[]]; try done; by apply close_ok. }
  destruct (has ev EPOLLOUT); [|done]. destruct (rspheader_sent _); [|done].
  destruct (send_ok (ev_sockid ev) s Hs) as (n & s1 & -> & H1). done.
Qed.

Lemma rounds_ok listener rounds s : server_ok s ->
  match server_rounds www_main fcache nfiles listener rounds s with Ok s' => server_ok s' | Fault _ => True end.
Proof.
  revert s. induction rounds as [|evs rounds IH]; intros s Hs; [done|]. cbn [server_rounds]. unfold server_round.
  assert (Hev : forall evs acc s, server_ok s ->
    match events_loop www_main fcache nfiles listener evs acc s with Ok (_, s') => server_ok s' | Fault _ => True end).
  { clear IH Hs s evs. induction evs as [|ev evs IH]; intros acc s Hs; [done|]. cbn [events_loop]. destruct (_ =? _); [by apply IH|].
    pose proof (handle_ok ev s Hs) as Hh. destruct (handle_event ev s); [|done]. cbn [res_bind]. by apply IH. }
  specialize (Hev evs false s Hs). destruct (events_loop _ _ _ _ _ _ _) as [[acc s1]|]; [|done]. cbn [res_bind].
  destruct acc; [|by apply IH]. destruct (accept_loop_ok (S (pending (world s1))) listener s1) as (s2 & -> & H2); [lia|done|].
  cbn [res_bind]. by apply IH.
Qed.

Lemma start_ok w : server_ok (mkEp w ∅ 0 []).
Proof.
  intros sock. unfold vars. cbn [svars]. rewrite lookup_empty. cbn [default]. destruct Hcache as [Hne _]. split.
  - constructor; cbn; try done; try lia. destruct fcache as [|f l]; [done|]. exists f. cbn. auto.
  - exists []. by split; [constructor|].
Qed.
End served.

(** C12: Whatever requests arrive, in whatever pieces, and however much each
    write takes: the bytes a connection of the web server has got since it
    was accepted are whole responses and the beginning of one, each a header
    whose Content-Length is the number of bytes of the body behind it. More
    requests that come in while a response is sent do not disturb it. *)
Theorem responses_framed `{Stack} `{!StackOk} www_main fcache nfiles listener rounds w s : cache_ok fcache ->
  server_rounds www_main fcache nfiles listener rounds (mkEp w ∅ 0 []) = Ok s ->
  forall sock, framed (stream_of sock (log s)).
Proof.
  intros Hc Hr sock. pose proof (rounds_ok www_main fcache nfiles Hc listener rounds (mkEp w ∅ 0 []) (start_ok fcache Hc w)) as Hs.
  rewrite Hr in Hs. destruct (Hs sock) as [Hv Hst]. by eapply stream_ok_framed.
Qed.

(** ** A request for a file *)

Lemma strcasestr_len buf key t : nre_strcasestr buf key = Some t -> (length key <= length t)%nat.
Proof.
  induction buf as [|c p IH]; [done|]. cbn [nre_strcasestr]. destruct key as [|k key]; [done|].
  destruct ((c =? k) && strncasecmp_eq p key) eqn:E; [|done]. intros [= <-]. apply andb_true_iff in E as [_ E].
  unfold strncasecmp_eq in E. apply bool_decide_eq_true_1, (f_equal length) in E. rewrite !length_fmap, length_take in E. cbn. lia.
Qed.

Lemma wants_total req : exists keep, wants_keep_alive req = Ok keep.
Proof.
  unfold wants_keep_alive, http_header_str_val. destruct (nre_strcasestr req _) as [t|] eqn:E; [|by eexists].
  apply strcasestr_len in E. change (length (chars "Connection: ")) with 12%nat in E. unfold advance.
  destruct (Nat.leb_spec 12 (length t)); [|lia]. cbn [res_bind]. destruct (skip SPACE_OR_TAB _) as [|c l]; [by eexists|].
  destruct (CR_OR_NEWLINE c); [by eexists|]. destruct (take _ _); by eexists.
Qed.

Lemma digits_len fuel n : (length (digits fuel n) <= fuel)%nat.
Proof. revert n. induction fuel as [|fuel IH]; intros n; cbn; [lia|]. destruct (n <? 10); cbn; [lia|]. rewrite length_app. specialize (IH (n / 10)). cbn. lia. Qed.
Lemma pad_len n : (length (pad 0 32 n) <= 21)%nat.
Proof.
  unfold pad. cbv zeta. rewrite Nat.sub_0_l. cbn [replicate app]. pose proof (digits_len 20 n). pose proof (digits_len 20 (- n)).
  destruct (n <? 0); cbn [length]; lia.
Qed.
Lemma header_short t n keep : zlen t < 128 -> zlen (response_header 200 t n keep) < HTTP_HEADER_LEN.
Proof.
  intros Ht. unfold response_header, crlf, HTTP_HEADER_LEN. unfold zlen in *. rewrite !length_app. pose proof (pad_len 200). pose proof (pad_len n).
  assert (length (if keep then chars "Keep-Alive" else chars "Close") <= 10)%nat by (by destruct keep; cbn; lia).
  change (length (chars "HTTP/1.1 ")) with 9%nat. change (length (chars " ")) with 1%nat. change (length (StatusCodeToString 200)) with 2%nat.
  change (length (chars "Date: ")) with 6%nat. change (length (chars "Server: Webserver on Middlebox TCP (Ubuntu)")) with 43%nat.
  change (length (chars "Content-Length: ")) with 16%nat. change (length (chars "Connection: ")) with 12%nat. cbn [length]. lia.
Qed.

(** The path of a request line. *)
Record path_ok (url : list Z) : Prop := {
  po_blank : free 32 url; po_tab : free 9 url; po_line : free 10 url; po_nonempty : url <> [] }.

Lemma url_read url r : path_ok url -> zlen url < URL_LEN -> http_get_url (chars "GET " ++ url ++ 32 :: r) URL_LEN = Ok (Some (url ++ 32 :: r), url).
Proof.
  intros [Hb Ht _ Hne] Hl. unfold http_get_url. assert (Hsw : starts_with HTTP_GET (chars "GET " ++ url ++ 32 :: r) = true) by done.
  rewrite Hsw. cbn [negb]. change (S (length HTTP_GET)) with (length (chars "GET ")). rewrite advance_app. cbn [res_bind].
  assert (Es : skip SPACE_OR_TAB (url ++ 32 :: r) = url ++ 32 :: r).
  { destruct url as [|c url]; [done|]. unfold skip. cbn. inv Hb. inv Ht. unfold SPACE_OR_TAB.
    destruct (Z.eqb_spec c 32); [done|]. by destruct (Z.eqb_spec c 9). }
  rewrite Es. unfold prefix_while. rewrite span_stop; [|apply (Forall_impl _ _ _ Hb); intros x ?; by destruct (Z.eqb_spec x 32)|done].
  cbn [fst]. rewrite take_ge; [done|]. unfold zlen, URL_LEN in *. lia.
Qed.

(** The request line is in front of the first blank line. *)
Lemma line_kept p r q b t : free 10 p -> p ++ r = q ++ b ++ t -> blank b -> exists r', take (length (q ++ b) - 1) (p ++ r) = p ++ r'.
Proof.
  intros Hp E Hb. assert (Hle : (length p <= length q)%nat).
  { destruct (Nat.le_gt_cases (length p) (length q)) as [|Hlt]; [done|]. exfalso. apply blank_head in Hb as [b' ->].
    assert (Hl : (p ++ r) !! length q = Some 10) by (rewrite E; apply list_lookup_middle; done).
    rewrite lookup_app_l in Hl by done. unfold free in Hp. by eapply Forall_lookup in Hp. }
  pose proof (blank_size b Hb). unfold zlen in *. rewrite length_app, take_app. eexists. f_equal. apply take_ge. lia.
Qed.

Section file.
Context `{Stack} `{!StackOk} (www_main : list Z) (fcache : list file_cache) (nfiles : nat).
Context (Hcache : cache_ok fcache) (sock : Z).
(** Every write takes a kilobyte at least. *)
Context (Hwrite : forall w d, 0 < zlen d -> Z.min (zlen d) HTTP_HEADER_LEN <= fst (mtcp_write sock d w)).

Lemma write_whole d s : 0 < zlen d < HTTP_HEADER_LEN -> fst (do_write sock d s) = zlen d.
Proof.
  intros Hd. unfold do_write. pose proof (Hwrite (world s) d ltac:(lia)). pose proof (write_len sock d (world s)).
  destruct (mtcp_write sock d (world s)) as [n w]. cbn in *. lia.
Qed.

Lemma answer_file sv s url r i f : ready fcache sv (stream_of sock (log s)) ->
  c_string (request sv) = chars "GET " ++ url ++ 32 :: r -> path_ok url -> zlen url < URL_LEN ->
  find_file fcache nfiles (www_main ++ url) = Some (i, f) -> zlen (www_main ++ url) < NAME_LIMIT ->
  exists keep s', answer_request www_main fcache nfiles sock sv s = Ok s' /\
    stream_of sock (log s') = stream_of sock (log s) ++ response_header 200 (http_date (world s)) (zlen (f_file f)) keep ++ f_file f /\
    if keep : bool then rspheader_sent (vars s' sock) = false /\ recv_len (vars s' sock) = 0 else last (log s') = Some (Closed sock).
Proof.
  intros Hready Ereq Hpath Hul Hfind Hnl. destruct (find_file_spec fcache nfiles Hcache _ _ _ Hfind) as (Ei & _ & Esz).
  rewrite answer_spec, Ereq, url_read by done. cbn [res_bind]. cbv zeta.
  destruct (Z.leb_spec NAME_LIMIT (zlen (www_main ++ url))); [lia|]. destruct (wants_total (chars "GET " ++ url ++ 32 :: r)) as [keep ->].
  cbn [res_bind]. pose proof (answer_vars_ok fcache nfiles Hcache sv _ (www_main ++ url) keep Hready) as Hv. cbv zeta in Hv.
  unfold answer_vars in Hv |- *. rewrite Hfind in Hv |- *. cbn [snd] in Hv. set (sv1 := _ <| fidx := Z.of_nat i |>) in *.
  change (fsize sv1) with (f_size f). change (keep_alive sv1) with keep. destruct Hv as (Hv & Hd & Ht & Hk).
  set (resp := response_header _ _ _ _). assert (Hresp : 0 < zlen resp < HTTP_HEADER_LEN).
  { split; [unfold resp, response_header; rewrite zlen_app; pose proof (zlen_nonneg (pad 0 32 200)); unfold zlen; cbn; lia|]. apply header_short, date_len. }
  destruct (Z.leb_spec HTTP_HEADER_LEN (zlen resp)); [lia|].
  pose proof (write_whole resp s Hresp) as Hw. destruct (do_write sock resp s) as [n s1] eqn:Ew. cbn [fst] in Hw. subst n.
  rewrite Z.eqb_refl. cbn [negb]. apply do_write_spec in Ew as (_ & Esv & _ & Estr).
  set (s2 := do_ctl _ _ _ _). assert (Ev2 : vars s2 sock = sv1 <| rspheader_sent := true |>).
  { transitivity (vars (set_vars s1 sock (sv1 <| rspheader_sent := true |>)) sock); [done|]. by rewrite vars_set, Z.eqb_refl. }
  assert (El2 : stream_of sock (log s2) = stream_of sock (log s) ++ resp).
  { transitivity (stream_of sock (log s1)); [apply (stream_ctl (set_vars s1 sock _))|]. rewrite Estr, Z.eqb_refl. f_equal.
    unfold zlen. rewrite Nat2Z.id. apply firstn_all. }
  pose proof (send_spec fcache Hcache sock s2) as Hsend. cbv zeta in Hsend. rewrite Ev2 in Hsend.
  destruct (Hsend Hv eq_refl Hd) as (n & s3 & -> & Hn & _ & Ev & El & Hall & Hclose). cbn [res_bind].
  assert (En : n = f_size f).
  { rewrite Ht in Hall. rewrite <- (Z.add_0_l n). apply Hall. intros w d Hpos. specialize (Hwrite w d Hpos). unfold HTTP_HEADER_LEN in *. lia. }
  exists keep, s3. split; [done|]. specialize (El sock). rewrite Z.eqb_refl, El2, Ht in El. split.
  - rewrite El, <- app_assoc, En, <- Esz. do 2 f_equal.
    assert (Eb : body fcache (sv1 <| rspheader_sent := true |>) = f_file f).
    { unfold body. change (fidx (sv1 <| rspheader_sent := true |>)) with (Z.of_nat i). rewrite Ei. apply take_ge.
      change (fsize (sv1 <| rspheader_sent := true |>)) with (f_size f). unfold zlen in *. lia. }
    rewrite Eb. change (drop (Z.to_nat 0) (f_file f)) with (f_file f). apply take_ge. unfold zlen in *. lia.
  - destruct keep; [|apply (Hclose f); [done|lia|done]].
    specialize (Ev sock). rewrite Z.eqb_refl in Ev. rewrite Ev. unfold sent_vars. cbn. rewrite Ei.
    cbn in Ht. rewrite Ht, En. destruct (Z.leb_spec (f_size f) (0 + f_size f)); [|lia]. done.
Qed.
End file.

Lemma c_string_free d : free 0 d -> c_string d = d.
Proof. induction 1 as [|c d Hc _ IH]; [done|]. cbn. destruct (Z.eqb_spec c 0); [done|]. by rewrite IH. Qed.

(** The request as it is stored when it comes in one piece. *)
Lemma request_stored req d url r : zlen req = HTTP_HEADER_LEN -> d = chars "GET " ++ url ++ 32 :: r -> path_ok url -> free 0 d ->
  zlen d < HTTP_HEADER_LEN -> (exists q b t, blank b /\ d = q ++ b ++ t) ->
  exists req1 req2 n r', mem_write req 0 d = Some req1 /\ find_http_header req1 (zlen d) = Ok (n, req2) /\ 0 < n /\
    zlen req1 = zlen req /\ c_string req2 = chars "GET " ++ url ++ 32 :: r'.
Proof.
  intros Hreq Ed Hpath Hz Hlen (q0 & b0 & t0 & Hb0 & E0). pose proof (zlen_nonneg d).
  destruct (mem_write_is_Some req 0 d) as [req1 Ew]; [lia|lia|]. pose proof (mem_write_Some _ _ _ _ Ew) as (_ & _ & Hl1 & _).
  assert (Et : take (Z.to_nat (zlen d)) req1 = d).
  { unfold mem_write in Ew. destruct (_ && _); [|done]. injection Ew as <-. cbn [take app Z.to_nat]. apply take_app_length'. unfold zlen. lia. }
  destruct (find_header_spec req1 (zlen d) ltac:(lia)) as [[_ Hno]|(q & b & t & Hb & Es & E & _)];
    rewrite Et, c_string_free in * by done; [by apply Hno in E0|].
  pose proof (blank_size b Hb). pose proof (zlen_nonneg q).
  destruct (line_kept (chars "GET " ++ url ++ [32]) r q b t) as [r' Er'].
  { unfold free. apply Forall_app. split; [apply (bool_decide_unpack _); vm_compute; exact I|]. apply Forall_app. split; [apply Hpath|by apply Forall_singleton]. }
  { rewrite <- !app_assoc. cbn [app]. by rewrite <- Es. }
  { done. }
  exists req1, (<[(length (q ++ b) - 1)%nat := 0]> req1), (zlen (q ++ b)), r'. split_and!; [done|done|rewrite zlen_app; lia|done|].
  rewrite (cut_string req1 (Z.to_nat (zlen d))); rewrite Et, c_string_free by done.
  - rewrite <- !app_assoc in Er'. cbn [app] in Er'. rewrite Ed. exact Er'.
  - rewrite Es, !length_app. unfold zlen in *. lia.
Qed.

