(* ===== verification/EpDemo.v ===== *)
(** * Sessions of the web server

    A small stack that hands out prepared requests and takes at most 3000
    bytes a write; the theorems of [EpServed] applied to sessions on it, and
    sessions in which the server does not do what its comments say. *)

From Stdlib Require Import String.
From S2P Require Import Prelude HttpDate Config HttpParse EpServer EpServed.
Import EpServer.

(** The requests that are read, in order, and the connections that wait. *)
Record wire := mkWire { requests : list (list Z); waiting : list Z }.

#[local] Instance demo_stack : Stack := {|
  W := wire;
  mtcp_read _ n w :=
    match requests w with
    | [] => (ReadError true, w)
    | d :: ds => (if (0 <? zlen d) && (zlen d <=? n) then Bytes d else Eof, mkWire ds (waiting w))
    end;
  mtcp_write _ d w := (Z.min 3000 (zlen d), w);
  mtcp_epoll_ctl _ _ _ w := w;
  mtcp_close _ w := w;
  mtcp_accept _ w := match waiting w with [] => (None, w) | c :: cs => (if 0 <=? c then Some c else None, mkWire (requests w) cs) end;
  mtcp_setsock_nonblock _ w := w;
  http_date _ := chars "Thu, 01 Jan 2026 00:00:00 GMT";
  pending w := length (waiting w)
|}.

#[local] Instance demo_stack_ok : StackOk.
Proof.
  constructor.
  - intros s n w d w'. cbn. destruct (requests w) as [|x ds]; [done|].
    destruct (Z.ltb_spec 0 (zlen x)), (Z.leb_spec (zlen x) n); cbn; intros [= <- <-]; lia.
  - intros s d w. cbn. lia.
  - intros l w c w'. cbn. destruct (waiting w) as [|x cs]; [done|]. destruct (Z.leb_spec 0 x); intros [= <- <-]. cbn. lia.
  - done.
  - done.
  - done.
Qed.

Definition www : list Z := chars "/www".
Definition page : list Z := chars "<html>hello</html>".
Definition big : list Z := replicate 7000 65.
Definition files : list file_cache := [mkFile (chars "/www/index.html") 18 page; mkFile (chars "/www/big") 7000 big; no_file].

Lemma files_ok : cache_ok files.
Proof. split; [done|]. repeat (apply Forall_cons; split); [vm_compute; reflexivity..|by apply Forall_nil]. Qed.

Definition get_page : list Z := chars "GET /index.html HTTP/1.1" ++ crlf ++ chars "Connection: Keep-Alive" ++ crlf ++ crlf.
Definition get_big : list Z := chars "GET /big HTTP/1.1" ++ crlf ++ crlf.
Definition get_none : list Z := chars "GET /none HTTP/1.1" ++ crlf ++ crlf.

Notation run reqs conns rounds := (server_rounds www files 2 0 rounds (@mkEp demo_stack (mkWire reqs conns) ∅ 0 [])).
Notation readable c := (mkEvent c EPOLLIN).
Notation writable c := (mkEvent c EPOLLOUT).
Definition date : list Z := chars "Thu, 01 Jan 2026 00:00:00 GMT".

(** A page in two pieces on a connection that is kept, and then a file. *)
Notation session := (run [take 20 get_page; drop 20 get_page; get_big] [7; 8]
  [[readable 0]; [readable 7]; [readable 7]; [writable 7]; [readable 7]]).

Example session_stream :
  match session with
  | Ok s => stream_of 7 (log s) = response_header 200 date 18 true ++ page ++ response_header 200 date 7000 false ++ big
            /\ last (log s) = Some (Closed 7) /\ finished s = 2 /\ stream_of 8 (log s) = []
  | Fault _ => False
  end.
Proof. vm_compute. done. Qed.

Lemma responses_framed_witness : match session with Ok s => forall sock, framed (stream_of sock (log s)) | Fault _ => False end.
Proof.
  destruct session as [s|] eqn:E; [|vm_compute in E; discriminate E].
  exact (responses_framed www files 2 0 _ _ s files_ok E).
Defined.

Notation before := (run [get_page] [7] [[readable 0]]).

(** A request for a file that does not exist is answered with the file of
    the request before it, on this connection or on an earlier one with the
    same number. *)
Example not_found_sends_old_file :
  match run [get_page; get_none] [7] [[readable 0]; [readable 7]; [readable 7]] with
  | Ok s => stream_of 7 (log s) = response_header 200 date 18 true ++ page ++ response_header 404 date 18 false ++ page
  | Fault _ => False
  end.
Proof. vm_compute. done. Qed.

(** The first such request of a connection is never finished. *)
Example not_found_hangs :
  match run [get_none] [7] [[readable 0]; [readable 7]; [writable 7]; [writable 7]] with
  | Ok s => stream_of 7 (log s) = response_header 404 date 0 false /\ finished s = 0 /\ ~ Closed 7 ∈ log s
  | Fault _ => False
  end.
Proof. vm_compute. split_and!; [done|done|]. intros Hin. repeat (apply elem_of_cons in Hin as [Hin|Hin]; [discriminate Hin|]). by apply not_elem_of_nil in Hin. Qed.

(** A request of a kilobyte is stored to the end of the array and a zero is
    written behind it. *)
Example long_request : run [replicate 1024 65] [7] [[readable 0]; [readable 7]] = Fault OutOfBounds.
Proof. vm_compute. reflexivity. Qed.

(** A connection with a number above the limit is left open. *)
Example high_number_leaks :
  match run [] [20000; 8] [[readable 0]] with Ok s => log s = [] /\ waiting (world s) = [8] | Fault _ => False end.
Proof. vm_compute. done. Qed.
