(* ===== verification/EpWget.v ===== *)
(** * The web client: [apps/example/epwget.c]

    The handlers of a client thread over the interface [Client]: calls of the
    stack and of the system that change a world and give answers. What is
    written to a file is recorded. The variables of a connection are kept in
    the array [wvars] and read again after a call that may change them: a
    connection that is opened when another is closed may get its number. *)

From Stdlib Require Import String.
From S2P Require Import Prelude HttpDate Config HttpParse EpServer.

Module EpWget.
Import EpServer.

Inductive connect_result := Connected | InProgress | ConnectError.

Class Client := {
  W : Type;
  mtcp_socket : W -> Z * W;
  mtcp_setsock_nonblock : Z -> W -> Z * W;
  mtcp_connect : Z -> W -> connect_result * W;
  mtcp_read : Z -> Z -> W -> read_result * W;
  mtcp_write : Z -> list Z -> W -> Z * W;
  mtcp_epoll_ctl : ctl -> Z -> Z -> W -> W;
  mtcp_close : Z -> W -> W;
  gettimeofday : W -> Z * W;                   (* in microseconds *)
  open_file : W -> Z * W;
  write_file : Z -> list Z -> W -> Z * W;
  close_file : Z -> W -> W;
  unread : Z -> W -> nat                       (* pieces that wait to be read *)
}.

(** ** Data *)

Definition HTTP_HEADER_LEN : Z := 1024.
Definition BUF_SIZE : Z := 8 * 1024.
Definition CONTENT_LENGTH_HDR : list Z := 10 :: chars "Content-Length:".

Record wget_vars := mkWv {
  request_sent : bool; response : list Z; resp_len : Z; headerset : bool; header_len : Z; file_len : Z; recv : Z; written : Z;
  t_start : Z; t_end : Z; fd : Z }.
#[export] Instance wget_vars_Rebuild : Rebuild wget_vars := fun r =>
  mkWv (request_sent r) (response r) (resp_len r) (headerset r) (header_len r) (file_len r) (recv r) (written r)
    (t_start r) (t_end r) (fd r).
Definition zero_wv : wget_vars := mkWv false (replicate (Z.to_nat HTTP_HEADER_LEN) 0) 0 false 0 0 0 0 0 0 0.

Record wget_stat := mkStat {
  st_waits : Z; st_events : Z; st_connects : Z; st_reads : Z; st_writes : Z; st_completes : Z; st_errors : Z; st_timedout : Z;
  sum_resp_time : Z; max_resp_time : Z }.
#[export] Instance wget_stat_Rebuild : Rebuild wget_stat := fun r =>
  mkStat (st_waits r) (st_events r) (st_connects r) (st_reads r) (st_writes r) (st_completes r) (st_errors r) (st_timedout r)
    (sum_resp_time r) (max_resp_time r).

Definition of_res {A} (r : res A) : out A := match r with Ok a => Val a | Fault e => Crash e end.

Definition zero_stat : wget_stat := mkStat 0 0 0 0 0 0 0 0 0 0.
Definition add64 (a b : Z) : Z := u64 (a + b).

(** The sums over the threads and the sum of their average response times. *)
Definition add_stat (acc : wget_stat * Z) (st : option wget_stat) : wget_stat * Z :=
  let '(total, total_resp_time) := acc in
  match st with
  | None => acc
  | Some st =>
      let avg_resp_time := if st_completes st =? 0 then 0 else sum_resp_time st / st_completes st in
      (mkStat (add64 (st_waits total) (st_waits st)) (add64 (st_events total) (st_events st))
         (add64 (st_connects total) (st_connects st)) (add64 (st_reads total) (st_reads st))
         (add64 (st_writes total) (st_writes st)) (add64 (st_completes total) (st_completes st))
         (add64 (st_errors total) (st_errors st)) (add64 (st_timedout total) (st_timedout st))
         (sum_resp_time total) (Z.max (max_resp_time st) (max_resp_time total)),
       add64 total_resp_time avg_resp_time)
  end.
(** What is printed, and the statistics behind it. *)
Definition PrintStats (g_stat : list (option wget_stat)) : (wget_stat * Z) * list (option wget_stat) :=
  let '(total, total_resp_time) := foldl add_stat (zero_stat, 0) g_stat in
  ((total, total_resp_time / zlen g_stat), option_map (const zero_stat) <$> g_stat).
Definition own_stat (g_stat : list (option wget_stat)) : wget_stat :=
  match g_stat with Some st :: _ => st | _ => zero_stat end.

Section client.
Context `{Client}.

(** The context of a thread, its element of [done], and [response_size]. *)
Record thread_context := mkCtx {
  world : W; wvars : gmap Z wget_vars;
  target : Z; started : Z; errors : Z; incompletes : Z; n_done : Z; pending : Z; stat : wget_stat;
  stop : bool; response_size : Z; bad_number : bool; saved : list (Z * list Z) }.
#[local] Instance thread_context_Rebuild : Rebuild thread_context := fun r =>
  mkCtx (world r) (wvars r) (target r) (started r) (errors r) (incompletes r) (n_done r) (pending r) (stat r)
    (stop r) (response_size r) (bad_number r) (saved r).

Context (url host : list Z) (concurrency max_fds : Z) (fio : bool).

Definition wv_of (s : thread_context) (sockid : Z) : wget_vars := default zero_wv (wvars s !! sockid).
Definition set_wv (sockid : Z) (wv : wget_vars) (s : thread_context) : thread_context :=
  s <| wvars := <[sockid := wv]> (wvars s) |>.

(** ** Connections *)

Definition CreateConnection (s : thread_context) : out (Z * thread_context) :=
  let '(sockid, w) := mtcp_socket (world s) in
  let s := s <| world := w |> in
  if sockid <? 0 then Val (-1, s)
  else if max_fds <=? sockid then Crash OutOfBounds
  else
    let s := set_wv sockid zero_wv s in
    let '(ret, w) := mtcp_setsock_nonblock sockid (world s) in
    let s := s <| world := w |> in
    if ret <? 0 then Exit (-1)
    else
      let '(ret, w) := mtcp_connect sockid (world s) in
      let s := s <| world := w |> in
      match ret with
      | ConnectError => Val (-1, s <| world := mtcp_close sockid (world s) |>)
      | _ =>
          let s := s <| started := started s + 1 |> <| pending := pending s + 1 |>
                     <| stat := stat s <| st_connects := add64 (st_connects (stat s)) 1 |> |> in
          Val (sockid, s <| world := mtcp_epoll_ctl ADD sockid EPOLLOUT (world s) |>)
      end.

(** Connections are opened up to the limit; each counts as started. *)
Fixpoint fill_loop (fuel : nat) (s : thread_context) : out thread_context :=
  if (pending s <? concurrency) && (started s <? target s) then
    match fuel with
    | O => Crash OutOfFuel
    | S fuel =>
        let^ (ret, s) := CreateConnection s in
        if ret <? 0 then Val (s <| stop := true |>) else fill_loop fuel s
    end
  else Val s.
Definition fill (s : thread_context) : out thread_context := fill_loop (Z.to_nat (target s - started s)) s.

Definition CloseConnection (sockid : Z) (s : thread_context) : out thread_context :=
  let s := s <| world := mtcp_close sockid (mtcp_epoll_ctl DEL sockid 0 (world s)) |>
             <| pending := pending s - 1 |> <| n_done := n_done s + 1 |> in
  let^ _ := check (0 <=? pending s) in
  fill s.

(** ** A request and its response *)

(** [resp_len] is not reset. *)
Definition request_text : list Z :=
  chars "GET " ++ url ++ chars " HTTP/1.0" ++ crlf ++ chars "User-Agent: Wget/1.12 (linux-gnu)" ++ crlf
  ++ chars "Accept: */*" ++ crlf ++ chars "Host: " ++ host ++ crlf ++ chars "Connection: Close" ++ crlf ++ crlf.
Definition SendHTTPRequest (sockid : Z) (s : thread_context) : out thread_context :=
  let wv := wv_of s sockid in
  let wv := wv <| headerset := false |> <| recv := 0 |> <| header_len := 0 |> <| file_len := 0 |> in
  let request := take (Z.to_nat (HTTP_HEADER_LEN - 1)) request_text in
  let '(wr, w) := mtcp_write sockid request (world s) in
  let s := s <| world := w |> <| stat := stat s <| st_writes := add64 (st_writes (stat s)) wr |> |> in
  let wv := wv <| request_sent := true |> in
  let s := s <| world := mtcp_epoll_ctl MOD sockid EPOLLIN (world s) |> in
  let '(now, w) := gettimeofday (world s) in
  let s := s <| world := w |> in
  let wv := wv <| t_start := now |> in
  if fio then
    let '(f, w) := open_file (world s) in
    if f <? 0 then Exit 1 else Val (set_wv sockid (wv <| fd := f |>) (s <| world := w |>))
  else Val (set_wv sockid wv s).

(** The variables are read after the connection was closed. *)
Definition DownloadComplete (sockid : Z) (s : thread_context) : out thread_context :=
  let '(now, w) := gettimeofday (world s) in
  let s := set_wv sockid (wv_of s sockid <| t_end := now |>) (s <| world := w |>) in
  let^ s := CloseConnection sockid s in
  let wv := wv_of s sockid in
  let s := s <| stat := stat s <| st_completes := add64 (st_completes (stat s)) 1 |> |> in
  let s := if response_size s =? 0 then s <| response_size := recv wv |> else s in
  let tdiff := u64 (t_end wv - t_start wv) in
  let s := s <| stat := stat s <| sum_resp_time := add64 (sum_resp_time (stat s)) tdiff |>
                               <| max_resp_time := Z.max tdiff (max_resp_time (stat s)) |> |> in
  Val (if fio && (0 <? fd wv) then s <| world := close_file (fd wv) (world s) |> else s).

(** All of the response has come; the sum is a 64-bit number. *)
Definition complete (wv : wget_vars) : bool :=
  negb (header_len wv =? 0) && (add64 (header_len wv) (file_len wv) <=? recv wv).

Definition count_error (s : thread_context) : thread_context :=
  s <| stat := stat s <| st_errors := add64 (st_errors (stat s)) 1 |> |> <| errors := errors s + 1 |>.

(** The piece with the header: the variables, how much of the piece is
    skipped and what is left of it; [None] when there is no header in it. The
    test of [file_len], an unsigned number, for a negative value is never
    true. *)
Definition read_header (d : list Z) (wv : wget_vars) (bad : bool) : out (option (Z * Z) * wget_vars * bool) :=
  let rd := zlen d in
  let copy_len := Z.min rd (HTTP_HEADER_LEN - resp_len wv) in
  let^ resp := of_res (from_option_res OutOfBounds (mem_write (response wv) (resp_len wv) (take (Z.to_nat copy_len) d))) in
  let wv := wv <| response := resp |> <| resp_len := resp_len wv + copy_len |> in
  let^ (hlen, resp) := of_res (find_http_header (response wv) (resp_len wv)) in
  let wv := wv <| response := resp |> <| header_len := hlen |> in
  if 0 <? hlen then
    if HTTP_HEADER_LEN <=? hlen then Crash OutOfBounds
    else
      let resp := <[Z.to_nat hlen := 0]> resp in
      let^ (len, bad) := of_res (http_header_long_val (c_string resp) CONTENT_LENGTH_HDR 16 bad) in
      let rest := u32 (resp_len wv - hlen) in
      let skip := u32 (rd - rest) in
      let wv := wv <| response := resp |> <| file_len := u64 len |> <| headerset := true |> <| recv := add64 (recv wv) skip |> in
      Val (Some (skip, s32 rest), wv, bad)
  else Val (None, wv <| recv := add64 (recv wv) rd |>, bad).

(** A part of the piece is written to the file, in one call. *)
Definition save (d : list Z) (skip rd : Z) (wv : wget_vars) (s : thread_context) : out (wget_vars * thread_context) :=
  if fio && (0 <? fd wv) && (0 <? rd) then
    let^ part := of_res (from_option_res OutOfBounds (mem_read d skip rd)) in
    let '(wr, w) := write_file (fd wv) part (world s) in
    let^ _ := check (wr =? rd) in
    Val (wv <| written := add64 (written wv) rd |>, s <| world := w |> <| saved := saved s ++ [(fd wv, part)] |>)
  else Val (wv, s).

Inductive loop_end := Returned | Left (rd : Z) (again : bool).

(** Each round takes a piece. *)
Fixpoint read_loop (fuel : nat) (sockid : Z) (s : thread_context) : out (loop_end * thread_context) :=
  match fuel with
  | O => Crash OutOfFuel
  | S fuel =>
      let '(r, w) := mtcp_read sockid BUF_SIZE (world s) in
      let s := s <| world := w |> in
      match r with
      | Eof => Val (Left 0 false, s)
      | ReadError again => Val (Left (-1) again, s)
      | Bytes d =>
          let rd := zlen d in
          let s := s <| stat := stat s <| st_reads := add64 (st_reads (stat s)) rd |> |> in
          let wv := wv_of s sockid in
          let^ (part, wv, bad) := if headerset wv then Val (Some (0, rd), wv, bad_number s) else read_header d wv (bad_number s) in
          let s := s <| bad_number := bad |> in
          match part with
          | None =>
              let^ s := CloseConnection sockid (count_error (set_wv sockid wv s)) in Val (Returned, s)
          | Some (skip, rd) =>
              let wv := wv <| recv := add64 (recv wv) rd |> in
              let^ (wv, s) := save d skip rd wv s in
              let s := set_wv sockid wv s in
              if complete wv then Val (Left rd false, s)
              else if 0 <? rd then read_loop fuel sockid s
              else Val (Left rd false, s)
          end
      end
  end.

Definition HandleReadEvent (sockid : Z) (s : thread_context) : out thread_context :=
  let^ (e, s) := read_loop (S (unread sockid (world s))) sockid s in
  match e with
  | Returned => Val s
  | Left rd again =>
      if 0 <? rd then
        if complete (wv_of s sockid) then DownloadComplete sockid s else Val s
      else if rd =? 0 then
        if complete (wv_of s sockid) then DownloadComplete sockid s
        else
          CloseConnection sockid (s <| stat := stat s <| st_errors := add64 (st_errors (stat s)) 1 |> |>
                                    <| incompletes := incompletes s + 1 |>)
      else if again then Val s
      else CloseConnection sockid (count_error s)
  end.

(** ** The loop *)

(** [timedout]: the answer of [mtcp_getsockopt] for a socket with an error. *)
Definition handle_event (timedout : Z -> bool) (ev : event) (s : thread_context) : out thread_context :=
  let sockid := ev_sockid ev in
  let in_wvars := (0 <=? sockid) && (sockid <? max_fds) in
  if has ev EPOLLERR then
    let s := count_error s in
    let s := if timedout sockid then s <| stat := stat s <| st_timedout := add64 (st_timedout (stat s)) 1 |> |> else s in
    CloseConnection sockid s
  else if has ev EPOLLIN then if in_wvars then HandleReadEvent sockid s else Crash OutOfBounds
  else if ev_events ev =? EPOLLOUT then
    if negb in_wvars then Crash OutOfBounds
    else if request_sent (wv_of s sockid) then Val s
    else SendHTTPRequest sockid s
  else Crash AssertFailed.

Fixpoint events_loop (timedout : Z -> bool) (evs : list event) (s : thread_context) : out thread_context :=
  match evs with [] => Val s | ev :: evs => let^ s := handle_event timedout ev s in events_loop timedout evs s end.

(** A round of [RunWgetMain] with the events of [mtcp_epoll_wait], [None] for
    a failure. The thread of core 0 prints the statistics of all threads every
    second, which clears them; those of the [others] are an argument. The
    result says whether the loop goes on, and when the statistics were printed
    last. *)
Definition wget_round (core : Z) (timedout : Z -> bool) (others : list (option wget_stat)) (evs : option (list event))
    (prev : Z) (s : thread_context) : out (bool * Z * thread_context) :=
  let '(cur, w) := gettimeofday (world s) in
  let s := s <| world := w |> in
  let sec := cur / 1000000 in
  let print := (core =? 0) && (prev <? sec) in
  let s := if print then s <| stat := own_stat (snd (PrintStats (Some (stat s) :: others))) |> else s in
  let prev := if print then sec else prev in
  let^ s := fill s in
  let s := s <| stat := stat s <| st_waits := add64 (st_waits (stat s)) 1 |> |> in
  match evs with
  | None => Val (false, prev, s <| stop := true |>)
  | Some evs =>
      let s := s <| stat := stat s <| st_events := add64 (st_events (stat s)) (zlen evs) |> |> in
      let^ s := events_loop timedout evs s in
      Val (negb (target s <=? n_done s), prev, s)
  end.

(** The rounds that are run with these answers; the result says whether the
    loop has ended. *)
Fixpoint wget_rounds (core : Z) (timedout : Z -> bool) (others : list (option wget_stat)) (rounds : list (option (list event)))
    (prev : Z) (s : thread_context) : out (bool * thread_context) :=
  if stop s then Val (true, s)
  else
    match rounds with
    | [] => Val (false, s)
    | evs :: rounds =>
        let^ (more, prev, s) := wget_round core timedout others evs prev s in
        if more then wget_rounds core timedout others rounds prev s else Val (true, s)
    end.

(** The context of a thread at the start of its loop. *)
Definition start_context (w : W) (n : Z) : thread_context :=
  mkCtx w ∅ n 0 0 0 0 0 zero_stat false 0 false [].
End client.
#[export] Existing Instance thread_context_Rebuild.

(** ** The start of the program *)

Definition MAX_URL_LEN : Z := 128.
Definition MAX_IP_STR_LEN : Z := 16.
Definition MAX_FILE_LEN : Z := 128.

(** [mystrtol] of [netlib.c]: the number is cut to an [int] before it is
    tested, so that an overflow is noticed only where the cut number is 0. *)
Definition netlib_mystrtol (l : list Z) : out Z :=
  match strtol_digits l with
  | None => Exit EXIT_FAILURE
  | Some z => let rval := s32 (to_long z) in if negb (in_long z) && (rval =? 0) then Exit EXIT_FAILURE else Val rval
  end.

(** The host and the path of the first argument. The array of the host has
    room for an address and a zero; a longer name in front of a slash fills
    it without a zero or is copied behind its end, one without a slash is
    cut. *)
Definition split_url (arg : list Z) : out (list Z * list Z) :=
  let '(name, path) := span (fun c => negb (c =? 47)) arg in
  match path with
  | [] => Val (take (Z.to_nat MAX_IP_STR_LEN) arg, [47])
  | _ => if MAX_IP_STR_LEN <? zlen name then Crash OutOfBounds else Val (name, path)
  end.

(** The options, as [getopt] hands them over. *)
Inductive opt := OptCores (v : list Z) | OptConcurrency (v : list Z) | OptOutput (v : list Z) | OptCpu (v : list Z) | OptFile (v : list Z).
Record settings := mkSettings {
  core_limit : Z; total_concurrency : Z; outfile : option (list Z); process_cpu : Z; conf_file : option (list Z) }.
#[export] Instance settings_Rebuild : Rebuild settings := fun r =>
  mkSettings (core_limit r) (total_concurrency r) (outfile r) (process_cpu r) (conf_file r).

(** [None] where [main] prints a message and returns. *)
Definition set_opt (num_cores : Z) (o : opt) (c : settings) : out (option settings) :=
  match o with
  | OptCores v =>
      let^ n := netlib_mystrtol v in
      Val (if num_cores <? n then None else if n <? 1 then None else Some (c <| core_limit := n |>))
  | OptConcurrency v => let^ n := netlib_mystrtol v in Val (Some (c <| total_concurrency := n |>))
  | OptOutput v => Val (if MAX_FILE_LEN <? zlen v then None else Some (c <| outfile := Some v |>))
  | OptCpu v =>
      let^ n := netlib_mystrtol v in
      Val (if core_limit c <? n then None else Some (c <| process_cpu := n |>))
  | OptFile v => Val (Some (c <| conf_file := Some v |>))
  end.
Fixpoint set_opts (num_cores : Z) (os : list opt) (c : settings) : out (option settings) :=
  match os with
  | [] => Val (Some c)
  | o :: os =>
      let^ c := set_opt num_cores o c in
      match c with None => Val None | Some c => set_opts num_cores os c end
  end.

(** The threads that are started, each with its number of flows. *)
Fixpoint start_threads (n : nat) (i per rem : Z) : list (Z * Z) :=
  match n with
  | O => []
  | S n =>
      let flows := per + (if 0 <? rem then 1 else 0) in
      (if flows =? 0 then [] else [(i, flows)]) ++ start_threads n (i + 1) per (rem - 1)
  end.

Record plan := mkPlan { p_host : list Z; p_url : list Z; p_concurrency : Z; p_max_fds : Z; p_threads : list (Z * Z); p_conf : list Z }.

(** [main] up to the start of the threads: the number of flows, the options,
    and the share of each thread. A starting CPU selects one thread. The
    arrays of the threads have [MAX_CPUS] elements. The calls that initialise
    the stack with these settings and create the threads are left out. *)
Definition wget_main (num_cores : Z) (url_arg flows_arg : list Z) (os : list opt) : out (option plan) :=
  if MAX_URL_LEN <? zlen url_arg then Val None
  else
    let^ (host, url) := split_url url_arg in
    let^ total_flows := netlib_mystrtol flows_arg in
    if total_flows <=? 0 then Val None
    else
      let^ c := set_opts num_cores os (mkSettings num_cores 0 None (-1) None) in
      match c with
      | None => Val None
      | Some c =>
          let core_limit := Z.min total_flows (core_limit c) in
          let concurrency := if 0 <? total_concurrency c then total_concurrency c / core_limit else 100 in
          match conf_file c with
          | None => Exit EXIT_FAILURE
          | Some conf =>
              let per := total_flows / core_limit in
              let rem := total_flows mod core_limit in
              let^ threads :=
                if process_cpu c =? -1 then
                  if MAX_CPUS <? core_limit then Crash OutOfBounds else Val (start_threads (Z.to_nat core_limit) 0 per rem)
                else if core_limit <=? process_cpu c then Val []
                else if (process_cpu c <? 0) || (MAX_CPUS <=? process_cpu c) then Crash OutOfBounds
                else Val (start_threads 1 (process_cpu c) per rem) in
              Val (Some (mkPlan host url concurrency (concurrency * 3) threads conf))
          end
      end.
End EpWget.
