(* ===== verification/EpWgetOk.v ===== *)
(** * A download

    A client of [epwget.c] that gets the response of [epserver.c] in pieces
    counts the download as complete when the last piece has come and has
    written the file of the server to its own. *)

From Stdlib Require Import String.
From S2P Require Import Prelude HttpDate Config HttpParse EpServer EpServed EpWget.
Import EpServer EpWget.

#[local] Arguments response_header : simpl never.

(** ** Numbers are read back *)

Lemma decimal_snoc ds c : decimal (ds ++ [c]) = decimal ds * 10 + (c - 48).
Proof. unfold decimal. by rewrite foldl_app. Qed.

Lemma digits_read fuel n : 0 <= n < 10 ^ Z.of_nat fuel -> (0 < fuel)%nat ->
  decimal (digits fuel n) = n /\ Forall (fun c => 48 <= c <= 57) (digits fuel n) /\ digits fuel n <> [].
Proof.
  revert n. induction fuel as [|fuel IH]; intros n Hn Hf; [lia|]. cbn [digits]. destruct (Z.ltb_spec n 10).
  - split_and!; [unfold decimal; cbn; lia|repeat constructor; lia|done].
  - assert (Hq : 0 <= n / 10 < 10 ^ Z.of_nat fuel).
    { split; [apply Z.div_pos; lia|]. apply Z.div_lt_upper_bound; [lia|]. rewrite Nat2Z.inj_succ, Z.pow_succ_r in Hn by lia. lia. }
    destruct (IH (n / 10) Hq) as (E & Hd & _).
    { destruct fuel; [|lia]. cbn in Hq. assert (n / 10 = 0) by lia. pose proof (Z.div_mod n 10). pose proof (Z.mod_pos_bound n 10). lia. }
    pose proof (Z.mod_pos_bound n 10). split_and!.
    + rewrite decimal_snoc, E. pose proof (Z.div_mod n 10). lia.
    + apply Forall_app. split; [done|]. repeat constructor; lia.
    + by destruct (digits fuel (n / 10)).
Qed.

Lemma span_all p l : Forall (fun x => p x = true) l -> span p l = (l, []).
Proof. induction 1 as [|x l Hx _ IH]; [done|]. cbn. by rewrite Hx, IH. Qed.

Lemma digit_case c : 48 <= c <= 57 -> c ∈ [48; 49; 50; 51; 52; 53; 54; 55; 56; 57].
Proof. intros Hc. rewrite !elem_of_cons. lia. Qed.

Lemma strtol_number ds : Forall (fun c => 48 <= c <= 57) ds -> ds <> [] -> strtol_digits ds = Some (decimal ds).
Proof.
  intros Hd Hne. assert (Hs : span isdigit ds = (ds, [])).
  { apply span_all. apply (Forall_impl _ _ _ Hd). intros c Hc. unfold isdigit. destruct (Z.leb_spec 48 c), (Z.leb_spec c 57); done || lia. }
  destruct ds as [|c ds]; [done|]. apply Forall_cons in Hd as [Hc%digit_case _].
  transitivity (match fst (span isdigit (c :: ds)) with [] => None | ds' => Some (1 * decimal ds') end).
  - clear Hs. rewrite !elem_of_cons in Hc.
    destruct Hc as [->|[->|[->|[->|[->|[->|[->|[->|[->|[->|Hc]]]]]]]]]]; [reflexivity..|by apply not_elem_of_nil in Hc].
  - rewrite Hs. cbn [fst]. by rewrite Z.mul_1_l.
Qed.

Lemma number_read n : 0 <= n < 10 ^ 18 -> strtol (pad 0 32 n) false = (n, false).
Proof.
  intros Hn. assert (E : pad 0 32 n = digits 20 n).
  { unfold pad. destruct (Z.ltb_spec n 0); [lia|]. by rewrite Nat.sub_0_l. }
  destruct (digits_read 20 n) as (Ed & Hd & Hne); [split; [lia|]; apply Z.lt_le_trans with (10 ^ 18); [lia|]; by apply Z.pow_le_mono_r|lia|].
  unfold strtol. rewrite E, strtol_number by done. rewrite Ed. change (default 0 (Some n)) with n. cbv zeta.
  assert (Hl : in_long n = true).
  { unfold in_long, LONG_MIN, LONG_MAX. destruct (Z.leb_spec (-9223372036854775808) n), (Z.leb_spec n 9223372036854775807); done || lia. }
  unfold to_long. rewrite Hl. cbn. f_equal. unfold LONG_MIN, LONG_MAX. lia.
Qed.

(** ** The header of the server *)

Definition status_line (scode : Z) : list Z := chars "HTTP/1.1 " ++ pad 0 32 scode ++ chars " " ++ StatusCodeToString scode ++ [13].
Definition response_fields (t_str : list Z) (size : Z) (keep : bool) : list field :=
  [(chars "Date", t_str); (chars "Server", chars "Webserver on Middlebox TCP (Ubuntu)"); (chars "Content-Length", pad 0 32 size);
   (chars "Connection", if keep then chars "Keep-Alive" else chars "Close")].

Lemma response_render scode t n keep : response_header scode t n keep = render (status_line scode) (response_fields t n keep).
Proof.
  unfold response_header, render, status_line, response_fields, header_line, crlf. generalize (pad 0 32 scode), (pad 0 32 n), (StatusCodeToString scode).
  intros a b c. cbn [fmap list_fmap concat fst snd]. rewrite <- !app_assoc. destruct keep; cbn; by rewrite <- ?app_assoc.
Qed.

(** What is assumed of the text of a date. *)
Record date_ok (t : list Z) : Prop := {
  dt_line : free 10 t; dt_cr : free 13 t; dt_zero : free 0 t;
  dt_start : match t with [] => False | c :: _ => SPACE_OR_TAB c = false end }.

Lemma pad_digits n : 0 <= n < 10 ^ 18 -> Forall (fun c => 48 <= c <= 57) (pad 0 32 n) /\ pad 0 32 n <> [].
Proof.
  intros Hn. assert (E : pad 0 32 n = digits 20 n).
  { unfold pad. destruct (Z.ltb_spec n 0); [lia|]. by rewrite Nat.sub_0_l. }
  rewrite E. destruct (digits_read 20 n) as (_ & Hd & Hne); [split; [lia|]; apply Z.lt_le_trans with (10 ^ 18); [lia|]; by apply Z.pow_le_mono_r|lia|]. done.
Qed.
Lemma pad_free n c : 0 <= n < 10 ^ 18 -> ~ 48 <= c <= 57 -> free c (pad 0 32 n).
Proof. intros Hn Hc. destruct (pad_digits n Hn) as [Hd _]. apply (Forall_impl _ _ _ Hd). intros x Hx ->. done. Qed.

Ltac free_text := apply (bool_decide_unpack _); vm_compute; exact I.

Lemma fields_ok t n keep : date_ok t -> 0 <= n < 10 ^ 18 ->
  Forall field_ok (response_fields t n keep) /\ Forall field_starts (response_fields t n keep).
Proof.
  intros [Ht1 Ht2 _ Ht3] Hn. destruct (pad_digits n Hn) as [Hd Hne]. split.
  - unfold response_fields. repeat (apply Forall_cons; split); [| | | |by apply Forall_nil].
    + constructor; cbn [fst snd]; [split; unfold free; free_text|done|done].
    + constructor; cbn [fst snd]; [split; unfold free; free_text|split; unfold free; free_text|reflexivity].
    + constructor; cbn [fst snd]; [split; unfold free; free_text|split; apply pad_free; lia|].
      destruct (pad 0 32 n) as [|c l]; [done|]. apply Forall_cons in Hd as [Hc _]. unfold SPACE_OR_TAB.
      destruct (Z.eqb_spec c 32), (Z.eqb_spec c 9); lia || done.
    + destruct keep; (constructor; cbn [fst snd]; [split; unfold free; free_text|split; unfold free; free_text|reflexivity]).
  - unfold response_fields. repeat (apply Forall_cons; split); [| | | |by apply Forall_nil]; split; discriminate.
Qed.

Lemma status_free c : ~ 48 <= c <= 57 -> Forall (fun x => x <> c) (chars "HTTP/1.1 ") -> Forall (fun x => x <> c) (chars " OK") -> c <> 13 ->
  free c (status_line 200).
Proof.
  intros Hc H1 H2 H3. unfold status_line. apply Forall_app. split; [done|]. apply Forall_app. split; [apply pad_free; lia|].
  change (chars " " ++ StatusCodeToString 200 ++ [13]) with (chars " OK" ++ [13]). apply Forall_app. split; [done|]. by repeat constructor.
Qed.

Lemma header_nonzero t n keep : date_ok t -> 0 <= n < 10 ^ 18 -> free 0 (response_header 200 t n keep).
Proof.
  intros [_ _ Ht _] Hn. unfold response_header, crlf. assert (Hp : free 0 (pad 0 32 n)) by (apply pad_free; lia).
  assert (Hs : free 0 (pad 0 32 200)) by (apply pad_free; lia). revert Hp Hs. generalize (pad 0 32 n), (pad 0 32 200). intros a b Ha Hb.
  unfold free in *. repeat (apply Forall_app; split); try done; try free_text. destruct keep; free_text.
Qed.

Lemma c_string_at l k : l !! k = Some 0 -> Forall (fun c => c <> 0) (take k l) -> c_string l = take k l.
Proof.
  intros Hk Hz. rewrite <- (take_drop_middle l k 0 Hk) at 1. by apply c_string_app.
Qed.

Lemma c_string_skip a b : Forall (fun c => c <> 0) a -> c_string (a ++ b) = a ++ c_string b.
Proof. induction 1 as [|c a Hc _ IH]; [done|]. cbn. destruct (Z.eqb_spec c 0); [done|]. by rewrite IH. Qed.

(** What is left of a response when its last newline is cut off. *)
Lemma render_cut status fields : take (length (render status fields) - 1) (render status fields) = status ++ concat (header_line <$> fields) ++ [10; 13].
Proof.
  assert (E : render status fields = (status ++ concat (header_line <$> fields) ++ [10; 13]) ++ [10]).
  { unfold render. by rewrite <- !app_assoc. }
  rewrite E. apply take_app_length'. rewrite (length_app _ [10]). cbn [length]. lia.
Qed.

Lemma write_front (m d m' : list Z) : mem_write m 0 d = Some m' -> exists r, m' = d ++ r.
Proof. unfold mem_write. destruct (_ && _); [|done]. intros [= <-]. by eexists. Qed.

Section header.
Context (t : list Z) (n : Z) (keep : bool) (Ht : date_ok t) (Hn : 0 <= n < 10 ^ 18).
Notation h := (response_header 200 t n keep).

Lemma length_read : http_header_long_val (take (length h - 1) h) CONTENT_LENGTH_HDR 16 false = Ok (n, false).
Proof.
  destruct (fields_ok t n keep Ht Hn) as [Hf _]. rewrite response_render, render_cut. unfold http_header_long_val.
  assert (E := lookup_field (status_line 200) (response_fields t n keep) [10; 13] (chars "Content-Length") C_TYPE_LEN).
  change (length (chars "Content-Length") + 2)%nat with 16%nat in E. change (10 :: chars "Content-Length" ++ [58]) with CONTENT_LENGTH_HDR in E.
  rewrite E; [|apply status_free; [lia|free_text|free_text|lia]|done|free_text|free_text|free_text|done].
  match goal with |- context [List.find ?p ?l] => assert (Ef : List.find p l = Some (chars "Content-Length", pad 0 32 n)) by reflexivity; rewrite Ef end.
  cbn [res_bind]. rewrite take_ge by (pose proof (pad_len n); unfold C_TYPE_LEN; lia). by rewrite number_read.
Qed.

Lemma header_parsed resp x r1 : zlen (h ++ x) < HTTP_HEADER_LEN -> zlen resp = HTTP_HEADER_LEN -> mem_write resp 0 (h ++ x) = Some r1 ->
  exists r2, find_http_header r1 (zlen (h ++ x)) = Ok (zlen h, r2) /\ zlen r2 = zlen resp /\
    http_header_long_val (c_string (<[Z.to_nat (zlen h) := 0]> r2)) CONTENT_LENGTH_HDR 16 false = Ok (n, false).
Proof.
  intros Hlt Hresp Ew. pose proof (mem_write_Some _ _ _ _ Ew) as (_ & Hfit & Hl1 & _). pose proof (zlen_nonneg (h ++ x)).
  apply write_front in Ew as [r Er]. rewrite <- app_assoc in Er. pose proof (header_nonzero t n keep Ht Hn) as Hz. destruct (fields_ok t n keep Ht Hn) as [Hf Hs].
  assert (Hpos : (1 <= length h)%nat).
  { unfold response_header. rewrite length_app. cbn [length]. change (length (chars "HTTP/1.1 ")) with 9%nat. lia. }
  assert (Eh : header_end 0 (c_string (take (Z.to_nat (zlen (h ++ x))) r1)) = zlen h).
  { rewrite Er, app_assoc, take_app_length' by (unfold zlen; lia). rewrite c_string_skip by done. rewrite response_render.
    rewrite header_end_render; [lia|apply status_free; [lia|free_text|free_text|lia]|done|done]. }
  exists (<[(length h - 1)%nat := 0]> r1). split_and!.
  - unfold find_http_header. destruct (Z.ltb_spec (zlen (h ++ x)) 0); [lia|]. destruct (Z.leb_spec (zlen r1) (zlen (h ++ x))); [lia|].
    cbn [orb]. rewrite Eh. destruct (Z.eqb_spec (zlen h) 0); [unfold zlen in *; lia|]. do 3 f_equal. unfold zlen. lia.
  - unfold zlen. rewrite length_insert. unfold zlen in *. lia.
  - rewrite <- length_read. f_equal. unfold zlen. rewrite Nat2Z.id.
    assert (Ek : take (length h - 1) (<[length h := 0]> (<[(length h - 1)%nat := 0]> r1)) = take (length h - 1) h).
    { rewrite take_insert_ge, take_insert_ge by lia. rewrite Er. apply take_app_le. lia. }
    rewrite <- Ek. apply c_string_at.
    + rewrite list_lookup_insert_ne by lia. apply list_lookup_insert_eq. rewrite Er, length_app. lia.
    + rewrite Ek. by apply Forall_take.
Qed.
End header.

(** ** The pieces of a response *)

Class ClientOk `{Client} := {
  pieces : Z -> W -> list (list Z);            (* what has come and is not read *)
  arrive : Z -> list (list Z) -> W -> W;
  arrive_pieces : forall s ps w, pieces s (arrive s ps w) = pieces s w ++ ps;
  unread_pieces : forall s w, unread s w = length (pieces s w);
  read_none : forall s n w, pieces s w = [] -> exists w', mtcp_read s n w = (ReadError true, w') /\ pieces s w' = [];
  read_some : forall s n w p ps, pieces s w = p :: ps -> zlen p <= n -> exists w', mtcp_read s n w = (Bytes p, w') /\ pieces s w' = ps;
  file_whole : forall f d w, exists w', write_file f d w = (zlen d, w') /\ forall s, pieces s w' = pieces s w
}.

Section download.
Context `{Client} `{!ClientOk} (concurrency max_fds : Z) (sock : Z).
Notation HandleReadEvent := (HandleReadEvent concurrency max_fds true).
Notation read_loop := (read_loop concurrency max_fds true).
Context (t : list Z) (keep : bool) (file : list Z) (Ht : date_ok t) (Hfile : zlen file < 10 ^ 18).
Notation h := (response_header 200 t (zlen file) keep).
Notation whole := (h ++ file).

(** The numbers of a context that reading data leaves alone. *)
Definition counts (s : thread_context) :=
  (target s, started s, errors s, incompletes s, n_done s, pending s, st_completes (stat s), stop s).

(** The variables when the bytes [got] have come, and what was saved. *)
Record got_so_far (f : Z) (before : list (Z * list Z)) (got : list Z) (s : thread_context) : Prop := {
  gs_wv : let wv := wv_of s sock in
    zlen (response wv) = HTTP_HEADER_LEN /\ fd wv = f /\
    if headerset wv then header_len wv = zlen h /\ file_len wv = zlen file /\ recv wv = zlen got
    else got = [] /\ resp_len wv = 0 /\ recv wv = 0 /\ header_len wv = 0;
  gs_bad : bad_number s = false;
  gs_saved : exists new, saved s = before ++ new /\ Forall (fun x => fst x = f) new /\
    (headerset (wv_of s sock) = true -> got = h ++ concat (snd <$> new)) /\ (headerset (wv_of s sock) = false -> new = [])
}.

(** The first piece holds the header and a byte behind it. *)
Definition first_ok (got p : list Z) : Prop :=
  got = [] -> exists x, p = h ++ x /\ x <> [] /\ zlen p < HTTP_HEADER_LEN.

Lemma wv_set s wv : wv_of (set_wv sock wv s) sock = wv.
Proof. unfold wv_of, set_wv. cbn. by rewrite lookup_insert_eq. Qed.

Lemma save_spec d skip rd wv s f : fd wv = f -> 0 < f -> 0 <= skip -> 0 < rd -> skip + rd = zlen d ->
  exists w, save true d skip rd wv s = Val (wv <| written := add64 (written wv) rd |>,
      s <| world := w |> <| saved := saved s ++ [(f, drop (Z.to_nat skip) d)] |>) /\ pieces sock w = pieces sock (world s).
Proof.
  intros Hfd Hf Hs Hr Hd. unfold save. rewrite Hfd. destruct (Z.ltb_spec 0 f); [|lia]. destruct (Z.ltb_spec 0 rd); [|lia]. cbn [andb].
  rewrite mem_read_eq by lia. rewrite take_ge by (rewrite length_drop; unfold zlen in *; lia). cbn [from_option_res of_res out_bind].
  destruct (file_whole f (drop (Z.to_nat skip) d) (world s)) as (w & -> & Ep). rewrite zlen_drop by lia.
  unfold check. destruct (Z.eqb_spec (zlen d - skip) rd); [|lia]. cbn [out_bind]. by exists w.
Qed.

Lemma header_size : 0 < zlen h.
Proof.
  unfold response_header. rewrite zlen_app. change (zlen (chars "HTTP/1.1 ")) with 9.
  match goal with |- 0 < 9 + zlen ?l => pose proof (zlen_nonneg l) end. lia.
Qed.

Lemma read_header_spec wv x : zlen (response wv) = HTTP_HEADER_LEN -> resp_len wv = 0 -> recv wv = 0 -> zlen (h ++ x) < HTTP_HEADER_LEN ->
  exists wv', read_header (h ++ x) wv false = Val (Some (zlen h, zlen x), wv', false) /\ zlen (response wv') = HTTP_HEADER_LEN /\
    fd wv' = fd wv /\ headerset wv' = true /\ header_len wv' = zlen h /\ file_len wv' = zlen file /\ recv wv' = zlen h.
Proof.
  intros Hr Hl Hv Hx. pose proof (zlen_nonneg file). pose proof (zlen_nonneg x) as Hx0. pose proof (zlen_nonneg h).
  assert (Hpos : 0 < zlen h) by apply header_size. pose proof (zlen_app h x) as Ezx.
  unfold read_header. rewrite Hl, Z.sub_0_r. assert (EH : HTTP_HEADER_LEN = 1024) by done. rewrite (Z.min_l (zlen (h ++ x))) by lia.
  rewrite (take_ge (h ++ x)) by (unfold zlen; lia).
  destruct (mem_write_is_Some (response wv) 0 (h ++ x)) as [r1 Ew]; [lia|lia|]. rewrite Ew. cbn [from_option_res of_res out_bind].
  destruct (header_parsed t (zlen file) keep Ht ltac:(lia) _ _ _ Hx Hr Ew) as (r2 & Ef & Hl2 & El).
  cbv zeta. change (response (_ <| response := r1 |> <| resp_len := _ |>)) with r1.
  change (resp_len (_ <| response := r1 |> <| resp_len := 0 + zlen (h ++ x) |>)) with (0 + zlen (h ++ x)). rewrite Z.add_0_l, Ef. cbn [of_res out_bind].
  destruct (Z.ltb_spec 0 (zlen h)); [|lia]. destruct (Z.leb_spec HTTP_HEADER_LEN (zlen h)); [lia|]. rewrite El. cbn [of_res out_bind].
  change (resp_len (_ <| response := r2 |> <| header_len := zlen h |>)) with (zlen (h ++ x)).
  assert (E1 : u32 (zlen (h ++ x) - zlen h) = zlen x) by (rewrite u32_small; lia). rewrite E1.
  assert (E2 : u32 (zlen (h ++ x) - zlen x) = zlen h) by (rewrite u32_small; lia). rewrite E2. rewrite (s32_small (zlen x)) by lia.
  eexists. split; [reflexivity|]. split_and!; try done.
  - cbn. unfold zlen. rewrite length_insert. unfold zlen in *. lia.
  - cbn. unfold u64. apply Z.mod_small. lia.
  - cbn. rewrite Hv. unfold add64, u64. apply Z.mod_small. lia.
Qed.


Lemma complete_spec f before got s : got_so_far f before got s -> headerset (wv_of s sock) = true ->
  zlen whole < 10 ^ 19 -> complete (wv_of s sock) = (zlen whole <=? zlen got).
Proof.
  intros [Hwv _ _] Hh Hw. cbv zeta in Hwv. rewrite Hh in Hwv. destruct Hwv as (_ & _ & E1 & E2 & E3).
  unfold complete. rewrite E1, E2, E3. pose proof header_size. pose proof (zlen_nonneg file).
  destruct (Z.eqb_spec (zlen h) 0); [lia|]. cbn [negb andb]. unfold add64, u64. rewrite zlen_app in *. by rewrite Z.mod_small by lia.
Qed.

(** One piece. *)
Lemma piece_spec f before got p ps s fuel : 0 < f -> got_so_far f before got s -> pieces sock (world s) = p :: ps ->
  0 < zlen p <= BUF_SIZE -> first_ok got p -> zlen (got ++ p) <= zlen whole -> zlen whole < 10 ^ 19 ->
  exists s' rd, 0 < rd /\ counts s' = counts s /\ pieces sock (world s') = ps /\ got_so_far f before (got ++ p) s' /\ headerset (wv_of s' sock) = true /\
    read_loop (S fuel) sock s = if complete (wv_of s' sock) then Val (Left rd false, s') else read_loop fuel sock s'.
Proof.
  intros Hf [Hwv Hbad (new & Hsv & Hnew & Hy & Hn)] Hp Hlen Hfirst Htot Hmax. cbv zeta in Hwv.
  destruct (read_some sock BUF_SIZE (world s) p ps Hp) as (w & Er & Ew); [lia|]. cbn [EpWget.read_loop]. rewrite Er.
  set (s1 := (s <| world := w |>) <| stat := _ |>). change (wv_of s1 sock) with (wv_of s sock). change (bad_number s1) with (bad_number s). rewrite Hbad.
  pose proof (zlen_nonneg got). pose proof (zlen_nonneg file). rewrite !zlen_app in Htot. rewrite zlen_app in Hmax.
  destruct (headerset (wv_of s sock)) eqn:Hh.
  - destruct Hwv as (Hr & Hfd & E1 & E2 & E3). cbn [out_bind].
    set (wv1 := wv_of s sock <| recv := add64 (recv (wv_of s sock)) (zlen p) |>).
    destruct (save_spec p 0 (zlen p) wv1 (s1 <| bad_number := false |>) f) as (w2 & -> & Ew2); [done|done|lia|lia|lia|]. cbn [out_bind].
    set (wv2 := wv1 <| written := _ |>). set (s2 := set_wv sock wv2 _). exists s2, (zlen p).
    assert (Ewv : wv_of s2 sock = wv2) by apply wv_set. change (drop (Z.to_nat 0) p) with p in *.
    assert (Erec : recv wv2 = zlen (got ++ p)).
    { cbn. rewrite E3, zlen_app. unfold add64, u64. apply Z.mod_small. lia. }
    split_and!; [lia|done|exact (eq_trans Ew2 Ew)| |by rewrite Ewv|].
    + constructor; rewrite ?Ewv; [cbv zeta; change (headerset wv2) with (headerset (wv_of s sock)); rewrite Hh; by split_and!|done|].
      exists (new ++ [(f, p)]). split_and!.
      * cbn. rewrite Hsv. by rewrite <- app_assoc.
      * apply Forall_app. by split; [|apply Forall_singleton].
      * intros _. rewrite (Hy eq_refl), fmap_app, concat_app. cbn. by rewrite app_nil_r, app_assoc.
      * change (headerset wv2) with (headerset (wv_of s sock)). rewrite Hh. done.
    + rewrite Ewv. destruct (complete wv2); [done|]. destruct (Z.ltb_spec 0 (zlen p)); [done|lia].
  - destruct Hwv as (Hr & Hfd & -> & E1 & E2 & _). destruct (Hfirst eq_refl) as (x & -> & Hx & Hx2). specialize (Hn eq_refl). subst new.
    destruct (read_header_spec (wv_of s sock) x Hr E1 E2 Hx2) as (wv0 & -> & F1 & F2 & F3 & F4 & F5 & F6). cbn [out_bind].
    set (wv1 := wv0 <| recv := _ |>). assert (Hxl : 0 < zlen x) by (destruct x; [done|rewrite zlen_cons; pose proof (zlen_nonneg x); lia]).
    pose proof header_size as Hhs.
    destruct (save_spec (h ++ x) (zlen h) (zlen x) wv1 (s1 <| bad_number := false |>) f) as (w2 & -> & Ew2);
      [by rewrite <- Hfd|done|lia|lia|by rewrite zlen_app|]. cbn [out_bind].
    assert (Ed : drop (Z.to_nat (zlen h)) (h ++ x) = x) by (unfold zlen; rewrite Nat2Z.id; apply drop_app_length). rewrite Ed.
    set (wv2 := wv1 <| written := _ |>). set (s2 := set_wv sock wv2 _). exists s2, (zlen x).
    assert (Ewv : wv_of s2 sock = wv2) by apply wv_set.
    assert (Erec : recv wv2 = zlen ([] ++ h ++ x)).
    { cbn. rewrite F6, zlen_app. unfold add64, u64. apply Z.mod_small. rewrite zlen_app in Htot. lia. }
    split_and!; [lia|done|exact (eq_trans Ew2 Ew)| |by rewrite Ewv|].
    + constructor; rewrite ?Ewv; [cbv zeta; change (headerset wv2) with (headerset wv0); rewrite F3; split_and!; try done; by rewrite <- Hfd|done|].
      exists [(f, x)]. split_and!; [cbn; by rewrite Hsv, app_nil_r|by apply Forall_singleton|intros _; cbn; by rewrite app_nil_r|].
      change (headerset wv2) with (headerset wv0). by rewrite F3.
    + rewrite Ewv. destruct (complete wv2); [done|]. destruct (Z.ltb_spec 0 (zlen x)); [done|lia].
Qed.

Context (Hmax : zlen whole < 10 ^ 19).

Lemma loop_spec f before ps : 0 < f -> forall got s fuel rest, got_so_far f before got s -> pieces sock (world s) = ps ->
  (length ps < fuel)%nat -> Forall (fun p => 0 < zlen p <= BUF_SIZE) ps -> match ps with [] => True | p :: _ => first_ok got p end ->
  got ++ concat ps ++ rest = whole ->
  exists s', counts s' = counts s /\ pieces sock (world s') = [] /\ got_so_far f before (got ++ concat ps) s' /\
    ((ps <> [] /\ rest = [] /\ complete (wv_of s' sock) = true /\ exists rd, 0 < rd /\ read_loop fuel sock s = Val (Left rd false, s')) \/
     ((ps = [] \/ rest <> []) /\ read_loop fuel sock s = Val (Left (-1) true, s'))).
Proof.
  intros Hf. induction ps as [|p ps IH]; intros got s fuel rest Hg Hp Hfuel Hps Hfirst Eall.
  - destruct fuel as [|fuel]; [cbn in Hfuel; lia|]. destruct (read_none sock BUF_SIZE (world s) Hp) as (w & Er & Ew).
    exists (s <| world := w |>). cbn [concat]. rewrite app_nil_r. split_and!; [done|done|by destruct Hg|].
    right. split; [by left|]. cbn [EpWget.read_loop]. by rewrite Er.
  - destruct fuel as [|fuel]; [cbn in Hfuel; lia|]. apply Forall_cons in Hps as [Hp1 Hps]. cbn [concat] in Eall |- *.
    assert (Eall' : (got ++ p) ++ concat ps ++ rest = whole) by (by rewrite <- Eall, <- !app_assoc).
    assert (Ezl : zlen whole = zlen (got ++ p) + (zlen (concat ps) + zlen rest)) by (by rewrite <- Eall', !zlen_app).
    pose proof (zlen_nonneg (concat ps)). pose proof (zlen_nonneg rest). assert (Etot : zlen (got ++ p) <= zlen whole) by lia.
    destruct (piece_spec f before got p ps s fuel Hf Hg Hp Hp1 Hfirst Etot Hmax) as (s1 & rd & Hrd & Ec & Ep & Hg1 & Hh1 & Er).
    rewrite (complete_spec f before _ _ Hg1 Hh1 Hmax) in Er.
    rewrite (app_assoc got).
    destruct (Z.leb_spec (zlen whole) (zlen (got ++ p))) as [Hdone|Hmore].
    + assert (ps = []) as ->.
      { destruct ps as [|q ps]; [done|]. apply Forall_cons in Hps as [Hq _].
        assert (zlen (concat (q :: ps)) = zlen q + zlen (concat ps)) by apply zlen_app. pose proof (zlen_nonneg (concat ps)). lia. }
      assert (rest = []) as ->.
      { destruct rest as [|y rest]; [done|]. assert (zlen (y :: rest) = zlen rest + 1) by apply zlen_cons. pose proof (zlen_nonneg rest). lia. }
      exists s1. cbn [concat]. rewrite app_nil_r. split_and!; [done|done|done|]. left. split_and!; [done|done| |by exists rd].
      rewrite (complete_spec f before _ _ Hg1 Hh1 Hmax). apply Z.leb_le. lia.
    + destruct (IH (got ++ p) s1 fuel rest Hg1 Ep) as (s2 & Ec2 & Ep2 & Hg2 & Hend); [cbn in Hfuel; lia|done| |done|].
      { destruct ps as [|q ps]; [done|]. intros Hnil. apply (f_equal zlen) in Hnil. rewrite zlen_app in Hnil. pose proof (zlen_nonneg got). change (zlen []) with 0 in Hnil. lia. }
      exists s2. split_and!; [congruence|done|done|]. rewrite Er.
      destruct Hend as [(Hne & Hr & Hc & rd2 & ? & ?)|[Hor ?]]; [left; split_and!; try done; by exists rd2|].
      right. split; [|done]. right. destruct Hor as [->|]; [|done]. intros ->. change (zlen []) with 0 in Ezl. change (zlen (concat [])) with 0 in Ezl. lia.
Qed.

(** ** Events *)

Definition batch_ok (ps : list (list Z)) : Prop := Forall (fun p => 0 < zlen p <= BUF_SIZE) ps.

(** The data come in batches; each is followed by an event. *)
Fixpoint download (batches : list (list (list Z))) (s : thread_context) : out thread_context :=
  match batches with
  | [] => Val s
  | ps :: batches => let^ s := HandleReadEvent sock (s <| world := arrive sock ps (world s) |>) in download batches s
  end.

(** What a completed download changes. *)
Definition finished_counts (s : thread_context) :=
  (target s, started s, errors s, incompletes s, n_done s + 1, pending s - 1, add64 (st_completes (stat s)) 1, stop s).

Lemma DownloadComplete_spec s : target s <= started s -> 1 <= pending s ->
  exists s', DownloadComplete concurrency max_fds true sock s = Val s' /\ counts s' = finished_counts s /\ saved s' = saved s.
Proof.
  intros Ht1 Hp. unfold DownloadComplete. destruct (gettimeofday (world s)) as [now w]. set (s1 := set_wv sock _ _).
  assert (Eclose : exists w', CloseConnection concurrency max_fds sock s1 =
    Val (s1 <| world := w' |> <| pending := pending s1 - 1 |> <| n_done := n_done s1 + 1 |>)).
  { eexists. unfold CloseConnection, check. match goal with |- context [0 <=? ?x] => change x with (pending s - 1) end.
    destruct (Z.leb_spec 0 (pending s - 1)); [|lia]. cbn [out_bind]. unfold fill.
    match goal with |- fill_loop _ _ ?n ?x = _ => assert (El : forall k, fill_loop concurrency max_fds k x = Val x) end.
    { intros k. assert (Hlt : (started s <? target s) = false) by (apply Z.ltb_ge; lia). destruct k; cbn -[Z.ltb]; rewrite Hlt, andb_false_r; done. }
    by rewrite El. }
  destruct Eclose as [w' ->]. cbn [out_bind]. eexists. split; [reflexivity|].
  match goal with |- context [if ?b then _ else _] => destruct b end; match goal with |- context [if ?b then _ else _] => destruct b | _ => idtac end; done.
Qed.

(** An event hands over what has come. *)
Lemma event_spec f before got ps rest s : 0 < f -> got_so_far f before got s -> pieces sock (world s) = [] ->
  batch_ok ps -> match ps with [] => True | p :: _ => first_ok got p end -> got ++ concat ps ++ rest = whole ->
  let s1 := s <| world := arrive sock ps (world s) |> in
  (rest <> [] -> exists s', HandleReadEvent sock s1 = Val s' /\ counts s' = counts s /\ pieces sock (world s') = [] /\ got_so_far f before (got ++ concat ps) s') /\
  (rest = [] -> ps <> [] -> target s <= started s -> 1 <= pending s ->
     exists s' new, HandleReadEvent sock s1 = Val s' /\ counts s' = finished_counts s /\ saved s' = before ++ new /\
       Forall (fun x => fst x = f) new /\ concat (snd <$> new) = file).
Proof.
  intros Hf Hg Hp Hps Hfirst Eall s1. assert (Hp1 : pieces sock (world s1) = ps) by (cbn; by rewrite arrive_pieces, Hp).
  assert (Hg1 : got_so_far f before got s1) by (by destruct Hg).
  destruct (loop_spec f before ps Hf got s1 (S (unread sock (world s1))) rest Hg1 Hp1) as (s2 & Ec & Ep & Hg2 & Hend);
    [by rewrite unread_pieces, Hp1; lia|done|done|done|].
  assert (Ec' : counts s2 = counts s) by done.
  unfold EpWget.HandleReadEvent. split.
  - intros Hrest. destruct Hend as [(_ & ? & _)|[_ ->]]; [done|]. cbn [out_bind]. by exists s2.
  - intros Hrest Hne Ht1 Hpend. destruct Hend as [(_ & _ & Hc & rd & Hrd & ->)|[[?|?] _]]; [|done|done]. cbn [out_bind].
    destruct (Z.ltb_spec 0 rd); [|lia]. rewrite Hc. unfold counts in Ec'. injection Ec' as C1 C2 C3 C4 C5 C6 C7 C8.
    destruct (DownloadComplete_spec s2) as (s' & -> & Ecs & Esv); [lia|lia|].
    destruct Hg2 as [Hwv _ (new & Hsv & Hnew & Hy & Hno)]. exists s', new. split_and!; [done| |congruence|done|].
    + rewrite Ecs. unfold finished_counts. by rewrite C1, C2, C3, C4, C5, C6, C7, C8.
    + subst rest. rewrite app_nil_r in Eall. destruct (headerset (wv_of s2 sock)) eqn:Hh.
      * specialize (Hy eq_refl). rewrite Eall in Hy. by apply app_inv_head in Hy.
      * exfalso. unfold complete in Hc. cbv zeta in Hwv. rewrite Hh in Hwv. destruct Hwv as (_ & _ & _ & _ & _ & E0). rewrite E0 in Hc. done.
Qed.

Lemma downloads f before last bs : 0 < f -> last <> [] -> batch_ok last -> forall got s, got_so_far f before got s ->
  pieces sock (world s) = [] -> Forall batch_ok bs -> match concat (bs ++ [last]) with [] => True | p :: _ => first_ok got p end ->
  got ++ concat (concat (bs ++ [last])) = whole -> target s <= started s -> 1 <= pending s ->
  exists s' new, download (bs ++ [last]) s = Val s' /\ counts s' = finished_counts s /\ saved s' = before ++ new /\
    Forall (fun x => fst x = f) new /\ concat (snd <$> new) = file.
Proof.
  intros Hf Hne Hlast. induction bs as [|b bs IH]; intros got s Hg Hp Hbs Hfirst Eall Ht1 Hpend.
  - cbn [app concat] in Hfirst, Eall. rewrite app_nil_r in Hfirst, Eall.
    destruct (event_spec f before got last [] s Hf Hg Hp Hlast Hfirst) as [_ Hend]; [by rewrite app_nil_r|].
    destruct (Hend eq_refl Hne Ht1 Hpend) as (s' & new & E & Hc & Hs & Hn & Hfl). exists s', new. cbn [app download]. rewrite E. done.
  - apply Forall_cons in Hbs as [Hb Hbs]. cbn [app concat] in Hfirst, Eall. rewrite concat_app in Eall.
    set (rest := concat (concat (bs ++ [last]))) in *. assert (Hrest : rest <> []).
    { destruct last as [|q l]; [done|]. apply Forall_cons in Hlast as [Hq _]. subst rest. rewrite concat_app, concat_app. cbn [concat]. rewrite app_nil_r. cbn [concat].
      intros Hnil%(f_equal zlen). rewrite !zlen_app in Hnil. pose proof (zlen_nonneg (concat (concat bs))). pose proof (zlen_nonneg (concat l)). change (zlen []) with 0 in Hnil. lia. }
    assert (Hfb : match b with [] => True | p :: _ => first_ok got p end) by (by destruct b).
    destruct (event_spec f before got b rest s Hf Hg Hp Hb Hfb Eall) as [Hev _]. destruct (Hev Hrest) as (s1 & E & Ec & Ep & Hg1).
    cbn [app download]. rewrite E. cbn [out_bind]. assert (Ec' := Ec). unfold counts in Ec'. injection Ec' as C1 C2 C3 C4 C5 C6 C7 C8.
    destruct (IH (got ++ concat b) s1 Hg1 Ep Hbs) as (s' & new & E' & Hc & Hs & Hn & Hfl); [|by rewrite <- app_assoc|lia|lia|].
    { destruct b as [|p b]; [by rewrite app_nil_r|]. destruct (concat (bs ++ [last])) as [|q l]; [done|]. intros Hnil%(f_equal zlen).
      apply Forall_cons in Hb as [Hp1 _]. cbn [concat] in Hnil. rewrite !zlen_app in Hnil. pose proof (zlen_nonneg got). pose proof (zlen_nonneg (concat b)).
      change (zlen []) with 0 in Hnil. lia. }
    exists s', new. split_and!; try done. rewrite Hc. unfold finished_counts. by rewrite C1, C2, C3, C4, C5, C6, C7, C8.
Qed.
End download.

(** The state of a connection behind its request. *)
Definition requested `{Client} (sock f : Z) (s : thread_context) : Prop :=
  let wv := wv_of s sock in
  zlen (response wv) = HTTP_HEADER_LEN /\ fd wv = f /\ headerset wv = false /\ resp_len wv = 0 /\ recv wv = 0 /\ header_len wv = 0.

(** [SendHTTPRequest] leads to it on a connection without data. *)
Lemma request_state `{Client} url host sock s s' : zlen (response (wv_of s sock)) = HTTP_HEADER_LEN -> resp_len (wv_of s sock) = 0 ->
  SendHTTPRequest url host true sock s = Val s' -> exists f, 0 <= f /\ requested sock f s'.
Proof.
  intros Hr Hl. unfold SendHTTPRequest. destruct (mtcp_write _ _ _) as [wr w1]. destruct (gettimeofday _) as [now w2].
  destruct (open_file _) as [f w3]. destruct (Z.ltb_spec f 0); [done|]. intros [= <-]. exists f. split; [done|]. unfold requested. rewrite wv_set. done.
Qed.

