(* ===== verification/EpWgetRun.v ===== *)
(** * Runs of the web client

    The counters of a thread of [epwget.c] over its rounds: whatever the
    events and the answers of the stack, no connection is counted twice or
    forgotten, and the loops of a round end. And the start of the program:
    the flows are spread over the threads. *)

From Stdlib Require Import String.
From S2P Require Import Prelude HttpDate Config HttpParse EpServer EpWget.
Import EpServer EpWget.

Lemma long_val_ok d key k bad : match http_header_long_val d key k bad with Ok _ => True | Fault e => e <> OutOfFuel end.
Proof.
  unfold http_header_long_val, http_header_str_val, advance. destruct (nre_strcasestr _ _) as [l|]; [|done].
  destruct (k <=? length l)%nat; [|done]. cbn [res_bind]. destruct (skip _ _); [done|]. destruct (CR_OR_NEWLINE _); [done|].
  destruct (take _ _); [done|]. cbn [res_bind]. by destruct (strtol _ _).
Qed.

(** ** The counters *)

(** What is assumed of the calls: reading takes a piece, writing a file leaves
    the pieces alone. *)
Class ReadsEnd `{Client} : Prop := {
  read_takes : forall s n w d w', mtcp_read s n w = (Bytes d, w') -> (unread s w' < unread s w)%nat;
  file_keeps : forall s f d w, unread s (snd (write_file f d w)) = unread s w
}.

Section counts.
Context `{Client} `{!ReadsEnd} (url host : list Z) (concurrency max_fds : Z) (fio : bool) (n : Z).
Context (Hconc : 0 <= concurrency) (Hn : 0 <= n).
Notation fill := (fill concurrency max_fds).
Notation CloseConnection := (CloseConnection concurrency max_fds).
Notation read_loop := (read_loop concurrency max_fds fio).

(** Connections opened are waiting or done; [k] of those done are not counted
    as done yet. *)
Record counted (k : Z) (s : thread_context) : Prop := {
  ct_target : target s = n;
  ct_pending : 0 <= pending s <= concurrency;
  ct_started : started s = n_done s + pending s;
  ct_target_le : started s <= n;
  ct_errors : 0 <= errors s /\ 0 <= incompletes s /\ errors s + incompletes s <= n_done s + k
}.

Definition same_counts (s s' : thread_context) : Prop :=
  target s' = target s /\ pending s' = pending s /\ started s' = started s /\ n_done s' = n_done s /\ errors s' = errors s /\ incompletes s' = incompletes s.

Lemma counted_same k s s' : counted k s -> same_counts s s' -> counted k s'.
Proof. intros [] (? & ? & ? & ? & ? & ?). constructor; rewrite ?H1; lia. Qed.

Lemma CreateConnection_counted s : counted 0 s -> pending s < concurrency -> started s < target s ->
  ok (fun '(ret, s') => counted 0 s' /\ (0 <= ret -> started s' = started s + 1)) (CreateConnection max_fds s).
Proof.
  intros Hc Hp Hs. unfold CreateConnection. destruct (mtcp_socket (world s)) as [sockid w]. destruct (Z.ltb_spec sockid 0).
  { cbn. split; [by destruct Hc|lia]. }
  destruct (max_fds <=? sockid); [done|]. destruct (mtcp_setsock_nonblock _ _) as [ret w2]. destruct (ret <? 0); [done|].
  destruct (mtcp_connect _ _) as [[] w3]; cbn; destruct Hc; (split; [constructor; cbn; lia|lia]).
Qed.

Lemma fill_loop_counted fuel : forall s, counted 0 s -> (Z.to_nat (target s - started s) <= fuel)%nat ->
  ok (counted 0) (fill_loop concurrency max_fds fuel s).
Proof.
  induction fuel as [|fuel IH]; intros s Hc Hf; cbn [fill_loop];
    destruct (Z.ltb_spec (pending s) concurrency), (Z.ltb_spec (started s) (target s)); cbn [andb]; try done; [lia|].
  eapply ok_bind; [by apply CreateConnection_counted|]. intros [ret s'] [Hc' Hr]. destruct (Z.ltb_spec ret 0); [by destruct Hc'|].
  apply IH; [done|]. destruct Hc, Hc'. lia.
Qed.
Lemma fill_counted s : counted 0 s -> ok (counted 0) (fill s).
Proof. intros Hc. by apply fill_loop_counted. Qed.

Lemma close_counted sockid s : counted 1 s -> ok (counted 0) (CloseConnection sockid s).
Proof.
  intros Hc. unfold EpWget.CloseConnection, check. cbn -[EpWget.fill Z.leb]. destruct (Z.leb_spec 0 (pending s - 1)); [|done].
  cbn [out_bind]. apply fill_counted. destruct Hc. constructor; cbn; lia.
Qed.

Lemma of_res_ok {A} (P : A -> Prop) (r : res A) : match r with Ok a => P a | Fault e => e <> OutOfFuel end -> ok P (of_res r).
Proof. by destruct r. Qed.
Lemma read_header_ok d wv bad : ok (fun _ => True) (read_header d wv bad).
Proof.
  unfold read_header. eapply ok_bind; [apply of_res_ok; instantiate (1 := fun _ => True); by destruct (mem_write _ _ _)|]. intros resp _.
  eapply ok_bind; [apply of_res_ok; instantiate (1 := fun _ => True); unfold find_http_header; by destruct (_ || _)|]. intros [hlen resp'] _.
  destruct (0 <? hlen); [|done]. destruct (HTTP_HEADER_LEN <=? hlen); [done|].
  eapply ok_bind; [apply of_res_ok, long_val_ok|]. by intros [].
Qed.

Lemma save_ok sockid d sk rd wv s : ok (fun '(_, s') => same_counts s s' /\ unread sockid (world s') = unread sockid (world s)) (save fio d sk rd wv s).
Proof.
  unfold save. destruct (_ && _); [|done]. eapply ok_bind; [apply of_res_ok; instantiate (1 := fun _ => True); by destruct (mem_read _ _ _)|].
  intros part _. pose proof (file_keeps sockid (fd wv) part (world s)) as Hk. destruct (write_file _ _ _) as [wr w]. unfold check.
  by destruct (wr =? rd).
Qed.

Lemma read_loop_counted sockid fuel : forall s, counted 0 s -> (unread sockid (world s) < fuel)%nat ->
  ok (fun '(_, s') => counted 0 s') (read_loop fuel sockid s).
Proof.
  induction fuel as [|fuel IH]; intros s Hc Hf; [lia|]. cbn [EpWget.read_loop]. destruct (mtcp_read sockid BUF_SIZE (world s)) as [r w] eqn:Er.
  destruct r as [d| |again]; [|by destruct Hc..]. apply read_takes in Er.
  eapply ok_bind; [instantiate (1 := fun _ => True); match goal with |- ok _ (if ?b then _ else _) => destruct b end; [done|apply read_header_ok]|].
  intros [[[[skip rd]|] wv] bad] _; cbn [fst snd].
  - eapply ok_bind; [apply (save_ok sockid)|]. intros [wv' s'] [Hs Hu]. cbn [world] in Hu.
    assert (Hc' : counted 0 (set_wv sockid wv' s')) by (eapply counted_same; [exact Hc|exact Hs]).
    destruct (complete wv'); [done|]. destruct (0 <? rd); [|done]. apply IH; [done|]. cbn in Hu |- *. lia.
  - eapply ok_bind; [apply close_counted; destruct Hc; constructor; cbn; lia|]. done.
Qed.

Lemma DownloadComplete_counted sockid s : counted 0 s -> ok (counted 0) (DownloadComplete concurrency max_fds fio sockid s).
Proof.
  intros Hc. unfold DownloadComplete. destruct (gettimeofday (world s)) as [now w].
  eapply ok_bind; [apply close_counted; destruct Hc; constructor; cbn; lia|]. intros s' Hc'. cbn [ok].
  match goal with |- context [if ?b then _ else _] => destruct b end; match goal with |- context [if ?b then _ else _] => destruct b end; by destruct Hc'.
Qed.

Lemma HandleReadEvent_counted sockid s : counted 0 s -> ok (counted 0) (HandleReadEvent concurrency max_fds fio sockid s).
Proof.
  intros Hc. unfold HandleReadEvent. eapply ok_bind; [apply read_loop_counted; [done|lia]|]. intros [e s'] Hc'.
  destruct e as [|rd again]; [done|]. destruct (0 <? rd); [destruct (complete _); [by apply DownloadComplete_counted|done]|].
  destruct (rd =? 0).
  - destruct (complete _); [by apply DownloadComplete_counted|]. apply close_counted. destruct Hc'. constructor; cbn; lia.
  - destruct again; [done|]. apply close_counted. destruct Hc'. constructor; cbn; lia.
Qed.

Lemma SendHTTPRequest_counted sockid s : counted 0 s -> ok (counted 0) (SendHTTPRequest url host fio sockid s).
Proof.
  intros Hc. unfold SendHTTPRequest. destruct (mtcp_write _ _ _) as [wr w]. destruct (gettimeofday _) as [now w2].
  destruct fio; [|by destruct Hc]. destruct (open_file _) as [f w3]. destruct (f <? 0); [done|]. by destruct Hc.
Qed.

Lemma handle_event_counted timedout ev s : counted 0 s -> ok (counted 0) (handle_event url host concurrency max_fds fio timedout ev s).
Proof.
  intros Hc. unfold handle_event. destruct (has ev EPOLLERR).
  { apply close_counted. destruct (timedout _); destruct Hc; constructor; cbn; lia. }
  destruct (has ev EPOLLIN); [destruct (_ && _); [by apply HandleReadEvent_counted|done]|]. destruct (ev_events ev =? EPOLLOUT); [|done].
  destruct (negb _); [done|]. destruct (request_sent _); [done|]. by apply SendHTTPRequest_counted.
Qed.
Lemma events_counted timedout evs : forall s, counted 0 s -> ok (counted 0) (events_loop url host concurrency max_fds fio timedout evs s).
Proof.
  induction evs as [|ev evs IH]; intros s Hc; [done|]. cbn [events_loop]. eapply ok_bind; [by apply handle_event_counted|]. done.
Qed.

(** The loop goes on, has been stopped, or all flows are done. *)
Lemma round_counted core timedout others evs prev s : counted 0 s ->
  ok (fun '(more, _, s') => counted 0 s' /\ (more = false -> stop s' = true \/ n <= n_done s'))
     (wget_round url host concurrency max_fds fio core timedout others evs prev s).
Proof.
  intros Hc. unfold wget_round. destruct (gettimeofday (world s)) as [cur w]. eapply ok_bind.
  { apply fill_counted. destruct (_ && _); by destruct Hc. }
  intros s' Hc'. destruct evs as [evs|]; [|by split; [destruct Hc'|left]].
  eapply ok_bind; [apply events_counted; by destruct Hc'|]. intros s2 Hc2. cbn [ok]. split; [done|]. intros Hm. right.
  destruct Hc2 as [Et _ _ _ _]. rewrite Et in Hm. destruct (Z.leb_spec n (n_done s2)); done.
Qed.
Lemma rounds_counted core timedout others rounds : forall prev s, counted 0 s ->
  ok (fun '(fin, s') => counted 0 s' /\ (fin = true -> stop s' = true \/ n <= n_done s'))
     (wget_rounds url host concurrency max_fds fio core timedout others rounds prev s).
Proof.
  induction rounds as [|evs rounds IH]; intros prev s Hc; cbn [wget_rounds]; destruct (stop s) eqn:E; try by (cbn; auto).
  eapply ok_bind; [by apply round_counted|]. intros [[more prev'] s'] [Hc' Hm]. destruct more; [by apply IH|]. cbn. auto.
Qed.
End counts.


(** ** The start of the program *)

Definition sum_flows (l : list (Z * Z)) : Z := foldr Z.add 0 (snd <$> l).

Lemma start_threads_spec k : forall i per rem, 1 <= per -> rem <= Z.of_nat k ->
  fst <$> start_threads k i per rem = seqZ i (Z.of_nat k) /\ sum_flows (start_threads k i per rem) = Z.of_nat k * per + Z.max 0 rem /\
  Forall (fun x => per <= snd x <= per + 1) (start_threads k i per rem).
Proof.
  induction k as [|k IH]; intros i per rem Hp Hr; [split_and!; [done|cbn; lia|by apply Forall_nil]|]. cbn [start_threads].
  set (fl := per + _). assert (Hfl : per <= fl <= per + 1) by (subst fl; destruct (0 <? rem); lia).
  destruct (Z.eqb_spec fl 0); [lia|]. destruct (IH (i + 1) per (rem - 1)) as (E1 & E2 & E3); [lia|lia|]. split_and!.
  - rewrite fmap_app, E1. rewrite Nat2Z.inj_succ, (seqZ_cons i) by lia. cbn. do 2 f_equal; lia.
  - unfold sum_flows in *. rewrite fmap_app, foldr_app, E2. cbn. subst fl. destruct (Z.ltb_spec 0 rem); lia.
  - apply Forall_app. split; [by apply Forall_singleton|done].
Qed.

Lemma set_opts_cores num_cores os : 1 <= num_cores -> forall c c', 1 <= core_limit c <= num_cores -> set_opts num_cores os c = Val (Some c') ->
  1 <= core_limit c' <= num_cores.
Proof.
  intros Hn. induction os as [|o os IH]; intros c c' Hc; cbn [set_opts]; [by intros [= <-]|].
  assert (Ho : forall c2, set_opt num_cores o c = Val (Some c2) -> 1 <= core_limit c2 <= num_cores).
  { intros c2. unfold set_opt. destruct o; try (destruct (netlib_mystrtol v) as [x| |]; cbn [out_bind]; [|done|done]);
      repeat match goal with |- context [if ?a <? ?b then _ else _] => destruct (Z.ltb_spec a b) end; intros [= <-]; cbn; lia. }
  destruct (set_opt num_cores o c) as [[c2|]| |]; cbn [out_bind]; try done. apply IH. by apply Ho.
Qed.

(** When the web client starts threads on all its cores, they are numbered
    without a gap, together they download exactly the number of flows asked
    for, each takes at least one, and no two differ by more than one. *)
Theorem flows_spread num_cores url_arg flows_arg os total p c :
  1 <= num_cores -> netlib_mystrtol flows_arg = Val total ->
  set_opts num_cores os (mkSettings num_cores 0 None (-1) None) = Val (Some c) -> process_cpu c = -1 ->
  wget_main num_cores url_arg flows_arg os = Val (Some p) ->
  exists k per, fst <$> p_threads p = seqZ 0 k /\ 1 <= k <= num_cores /\ k <= MAX_CPUS /\ sum_flows (p_threads p) = total /\
    1 <= per /\ Forall (fun x => per <= snd x <= per + 1) (p_threads p).
Proof.
  intros Hn Hf Hc Hcpu. unfold wget_main. destruct (_ <? zlen url_arg); [done|]. destruct (split_url url_arg) as [[h u]| |]; cbn [out_bind]; try done.
  rewrite Hf. cbn [out_bind]. destruct (Z.leb_spec total 0); [done|]. rewrite Hc. cbn [out_bind]. destruct (conf_file c); [|done].
  apply set_opts_cores in Hc; [|done|cbn; lia]. rewrite Hcpu. cbn [Z.eqb Pos.eqb]. set (k := Z.min total (core_limit c)).
  assert (Hk : 1 <= k <= total) by (subst k; lia). destruct (Z.ltb_spec MAX_CPUS k); [done|]. intros [= <-]. cbn [p_threads].
  assert (Hper : 1 <= total / k) by (apply Z.div_le_lower_bound; lia). pose proof (Z.mod_pos_bound total k).
  destruct (start_threads_spec (Z.to_nat k) 0 (total / k) (total mod k) Hper) as (E1 & E2 & E3); [lia|].
  exists k, (total / k). rewrite E1, E2. pose proof (Z.div_mod total k). split_and!; try done; try (f_equal; lia); subst k; lia.
Qed.
