(* ===== verification/EpWgetDemo.v ===== *)
(** * Sessions of the web client

    A small stack that hands out prepared pieces; the theorems of [EpWgetOk]
    and [EpWgetRun] applied to sessions on it, and sessions in which the
    client does not count or store what the server has sent. *)

From Stdlib Require Import String.
From S2P Require Import Prelude HttpDate Config HttpParse EpServer EpWget EpWgetOk EpWgetRun.
Import EpServer EpWget.

(** The pieces that wait at each socket, the next socket and file, the time. *)
Record net := mkNet { inbox : gmap Z (list (list Z)); next_socket : Z; next_file : Z; clock : Z }.
Definition waiting_at (s : Z) (w : net) : list (list Z) := default [] (inbox w !! s).
Definition put (s : Z) (ps : list (list Z)) (w : net) : net := mkNet (<[s := ps]> (inbox w)) (next_socket w) (next_file w) (clock w).

#[local] Instance demo_client : Client := {|
  W := net;
  mtcp_socket w := (next_socket w, mkNet (inbox w) (next_socket w + 1) (next_file w) (clock w));
  mtcp_setsock_nonblock _ w := (0, w);
  mtcp_connect _ w := (InProgress, w);
  mtcp_read s n w :=
    match waiting_at s w with
    | [] => (ReadError true, w)
    | p :: ps => if zlen p <=? n then (Bytes p, put s ps w) else (ReadError false, w)
    end;
  mtcp_write _ d w := (zlen d, w);
  mtcp_epoll_ctl _ _ _ w := w;
  mtcp_close _ w := w;
  gettimeofday w := (clock w, mkNet (inbox w) (next_socket w) (next_file w) (clock w + 200000));
  open_file w := (next_file w, mkNet (inbox w) (next_socket w) (next_file w + 1) (clock w));
  write_file _ d w := (zlen d, w);
  close_file _ w := w;
  unread s w := length (waiting_at s w)
|}.

Lemma put_waiting s ps w : waiting_at s (put s ps w) = ps.
Proof. unfold waiting_at, put. cbn. by rewrite lookup_insert_eq. Qed.

#[local] Program Instance demo_client_ok : ClientOk := {| pieces := waiting_at; arrive s ps w := put s (waiting_at s w ++ ps) w |}.
Next Obligation. intros s ps w. apply put_waiting. Qed.
Next Obligation. done. Qed.
Next Obligation. intros s n w E. cbn. rewrite E. by exists w. Qed.
Next Obligation.
  intros s n w p ps E Hn. cbn. rewrite E. destruct (Z.leb_spec (zlen p) n); [|lia]. exists (put s ps w). split; [done|apply put_waiting].
Qed.
Next Obligation. intros f d w. by exists w. Qed.

#[local] Instance demo_reads_end : ReadsEnd.
Proof.
  constructor; [|done]. intros s n w d w'. cbn. destruct (waiting_at s w) as [|p ps]; [done|].
  destruct (zlen p <=? n); [|done]. intros [= <- <-]. rewrite put_waiting. cbn. lia.
Qed.

Definition date : list Z := chars "Thu, 01 Jan 2026 00:00:00 GMT".
Definition page : list Z := chars "<html>hello</html>".
Definition header (n : Z) : list Z := response_header 200 date n false.
Definition path : list Z := chars "/index.html".
Definition server : list Z := chars "10.0.0.1".
Definition fresh : net := mkNet ∅ 3 5 7000000.
Notation readable c := (mkEvent c EPOLLIN).
Notation writable c := (mkEvent c EPOLLOUT).
Notation run ps n rounds := (wget_rounds path server 1 10 true 0 (fun _ => false) [] rounds 7 (start_context (put 3 ps fresh) n)).

Lemma date_is_ok : date_ok date.
Proof. constructor; [apply (bool_decide_unpack _); vm_compute; exact I..|reflexivity]. Qed.

(** ** A download in three pieces *)

Notation asked := (let^ s := fill 1 10 (@start_context demo_client fresh 1) in SendHTTPRequest path server true 3 s).
Definition batches : list (list (list Z)) := [[header 18 ++ chars "<ht"]].
Definition final_batch : list (list Z) := [chars "ml>hello"; chars "</html>"].


(** ** Counters *)

Notation session := (run [header 18 ++ page] 2 [Some [writable 3]; Some [readable 3]; Some [writable 4; mkEvent 4 EPOLLERR]]).

Example session_result :
  match session with
  | Val (fin, s) => (fin, n_done s, errors s, concat (snd <$> saved s)) = (true, 2, 1, page)
  | _ => False
  end.
Proof. vm_compute. reflexivity. Qed.


Notation options := [OptCores (chars "4"); OptConcurrency (chars "10"); OptFile (chars "epwget.conf")].
Example main_plan :
  wget_main 8 (chars "10.0.0.1/a") (chars "10") options =
  Val (Some (mkPlan (chars "10.0.0.1") (chars "/a") 2 6 [(0, 3); (1, 3); (2, 2); (3, 2)] (chars "epwget.conf"))).
Proof. vm_compute. reflexivity. Qed.

Lemma flows_spread_witness :
  match wget_main 8 (chars "10.0.0.1/a") (chars "10") options with
  | Val (Some p) => exists k per, fst <$> p_threads p = seqZ 0 k /\ 1 <= k <= 8 /\ k <= MAX_CPUS /\ sum_flows (p_threads p) = 10 /\
      1 <= per /\ Forall (fun x => per <= snd x <= per + 1) (p_threads p)
  | _ => False
  end.
Proof.
  destruct (wget_main _ _ _ _) as [[p|]| |] eqn:E; [|vm_compute in E; discriminate E..].
  by apply (flows_spread 8 (chars "10.0.0.1/a") (chars "10") options 10 p (mkSettings 4 10 None (-1) (Some (chars "epwget.conf")))).
Defined.

(** ** Where the client fails *)

(** The outcome of a session of one flow. *)
Notation outcome ps n := (match run ps 1 (Some [writable 3] :: replicate n (Some [readable 3])) with
  | Val (_, s) => Some (st_completes (stat s), errors s, incompletes s, concat (snd <$> saved s)) | _ => None end).

Example whole_response : outcome [header 18 ++ page] 1%nat = Some (1, 0, 0, page).
Proof. vm_compute. reflexivity. Qed.

(** A piece that ends with the header: nothing is left of it, which the
    handler takes for the end of the connection. *)
Example header_alone : outcome [header 18; page] 1%nat = Some (0, 0, 1, []).
Proof. vm_compute. reflexivity. Qed.

(** A header in two pieces: the first counts as an error. *)
Example header_in_two : outcome [take 40 (header 18); drop 40 (header 18) ++ page] 2%nat = Some (0, 1, 0, []).
Proof. vm_compute. reflexivity. Qed.

(** A response without the field [Content-Length]: the length is -1, which an
    unsigned number does not show, and the download is complete at once. *)
Example length_missing : outcome [chars "HTTP/1.1 200 OK" ++ crlf ++ crlf ++ chars "<ht"; chars "ml>"] 1%nat = Some (1, 0, 0, chars "<ht").
Proof. vm_compute. reflexivity. Qed.

(** A first piece of a kilobyte or more, as for every larger file: the parser
    writes behind the array. *)
Example long_first_piece :
  run [header 2000 ++ replicate 1000 65] 1 [Some [writable 3]; Some [readable 3]] = Crash OutOfBounds.
Proof. vm_compute. reflexivity. Qed.

(** A starting CPU equal to the number of cores passes the test and starts no
    thread. *)
Example no_thread :
  match wget_main 4 (chars "10.0.0.1/a") (chars "10") [OptCpu (chars "4"); OptFile (chars "c")] with
  | Val (Some p) => p_threads p = [] | _ => False
  end.
Proof. vm_compute. reflexivity. Qed.

(** A name of more than 16 characters in front of a slash overflows the array
    of the host. *)
Example long_host : wget_main 4 (chars "www.a-long-name.org/a") (chars "10") [OptFile (chars "c")] = Crash OutOfBounds.
Proof. vm_compute. reflexivity. Qed.

(** Fewer concurrent connections than cores: the limit of each thread is 0,
    and so is the size of its arrays. *)
Example no_concurrency :
  match wget_main 4 (chars "10.0.0.1/a") (chars "10") [OptConcurrency (chars "3"); OptFile (chars "c")] with
  | Val (Some p) => p_concurrency p = 0 /\ p_max_fds p = 0 | _ => False
  end.
Proof. vm_compute. done. Qed.
