(* ===== verification/Echo.v ===== *)
(** * The echo samples: [src/src]

    The echo server on the stack ([echo-mtcp-server.c]), the one on the
    sockets of the system ([echo-server.c]) and the client ([echo-client.c]),
    over an interface of calls that change a world. What is received and sent
    is recorded. *)

From Stdlib Require Import String.
From S2P Require Import Prelude HttpDate Config HttpParse EpServer.

Module Echo.
Import EpServer.

Inductive write_result := Took (n : Z) | WriteError (again : bool).
Definition written (r : write_result) : Z := match r with Took n => n | WriteError _ => -1 end.

Class Net := {
  W : Type;
  socket : W -> Z * W;
  bind : Z -> Z -> W -> Z * W;
  listen : Z -> Z -> W -> Z * W;
  read : Z -> Z -> W -> read_result * W;
  write : Z -> list Z -> W -> write_result * W;
  accept : Z -> W -> Z * W;
  set_nonblock : Z -> W -> Z * W;
  ctl : ctl -> Z -> Z -> W -> Z * W;
  close : Z -> W -> W;
  unaccepted : W -> nat                        (* connections that wait *)
}.

Definition ECHO_PORT : Z := 31700.
Definition LISTEN_BACKLOG : Z := 16.
Definition BUF_SIZE : Z := 2048.
Definition CLIENT_BUF_SIZE : Z := 512.         (* of the client *)

Inductive traffic := Got (sock : Z) (d : list Z) | Sent (sock : Z) (d : list Z) | Shut (sock : Z).

Section net.
Context `{Net}.

Record state := mkState { world : W; trace : list traffic }.
#[local] Instance state_Rebuild : Rebuild state := fun r => mkState (world r) (trace r).
Definition note (e : traffic) (s : state) : state := s <| trace := trace s ++ [e] |>.

(** ** The server on the stack *)

(** The number of the socket, or -1 when a step fails, behind which the socket
    is closed. *)
Definition create_listener (s : state) : Z * state :=
  let '(listener, w) := socket (world s) in
  if listener <? 0 then (-1, s <| world := w |>)
  else
    let fail w := (-1, s <| world := close listener w |>) in
    let '(ret, w) := set_nonblock listener w in
    if ret <? 0 then fail w
    else
      let '(ret, w) := bind listener ECHO_PORT w in
      if ret <? 0 then fail w
      else
        let '(ret, w) := listen listener LISTEN_BACKLOG w in
        if ret <? 0 then fail w else (listener, s <| world := snd (ctl ADD listener EPOLLIN w) |>).

(** Connections with a number that is positive are taken; one that cannot be
    made non-blocking is left open and not watched. *)
Fixpoint accept_conns (fuel : nat) (listener : Z) (s : state) : out state :=
  let '(connfd, w) := accept listener (world s) in
  let s := s <| world := w |> in
  if 0 <? connfd then
    match fuel with
    | O => Crash OutOfFuel
    | S fuel =>
        let '(ret, w) := set_nonblock connfd (world s) in
        let s := s <| world := w |> in
        if ret <? 0 then accept_conns fuel listener s
        else accept_conns fuel listener (s <| world := snd (ctl ADD connfd EPOLLIN (world s)) |>)
    end
  else Val s.
Definition accept_all (listener : Z) (s : state) : out state := accept_conns (unaccepted (world s)) listener s.

Definition close_conn (sockid : Z) (s : state) : state :=
  note (Shut sockid) (s <| world := close sockid (snd (ctl DEL sockid 0 (world s))) |>).

(** [d]: what is left to be sent. *)
Fixpoint write_back (fuel : nat) (connfd : Z) (d : list Z) (s : state) : out state :=
  if 0 <? zlen d then
    match fuel with
    | O => Crash OutOfFuel
    | S fuel =>
        let '(r, w) := write connfd d (world s) in
        let s := s <| world := w |> in
        let ret := written r in
        if ret <=? 0 then Val s
        else write_back fuel connfd (drop (Z.to_nat ret) d) (note (Sent connfd (take (Z.to_nat ret) d)) s)
    end
  else Val s.

(** Any failure to read closes the connection. *)
Definition echo (connfd : Z) (s : state) : out state :=
  let '(r, w) := read connfd BUF_SIZE (world s) in
  let s := s <| world := w |> in
  match r with
  | Bytes buf => write_back (length buf) connfd buf (note (Got connfd buf) s)
  | _ => Val (close_conn connfd s)
  end.

Definition echo_event (listener : Z) (ev : event) (s : state) : out state :=
  if ev_sockid ev =? listener then accept_all listener s
  else if has ev EPOLLERR then Val (close_conn (ev_sockid ev) s)
  else if ev_sockid ev <? 0 then Val s
  else echo (ev_sockid ev) s.
Fixpoint echo_events (listener : Z) (evs : list event) (s : state) : out state :=
  match evs with [] => Val s | ev :: evs => let^ s := echo_event listener ev s in echo_events listener evs s end.
(** The loop, with the events of each wait up to the first that fails. *)
Fixpoint server_loop (listener : Z) (waits : list (option (list event))) (s : state) : out state :=
  match waits with
  | [] => Val s
  | None :: _ => Val (s <| world := close listener (world s) |>)
  | Some evs :: waits => let^ s := echo_events listener evs s in server_loop listener waits s
  end.

(** ** The server on the sockets of the system *)

(** What was read is sent with one call; what it does not take is lost. A
    connection is closed before it is taken off the watched ones. *)
Definition plain_event (listenfd : Z) (ev : event) (s : state) : out state :=
  let sockfd := ev_sockid ev in
  if sockfd =? listenfd then accept_all listenfd s
  else if sockfd <? 0 then Val s
  else
    let '(r, w) := read sockfd BUF_SIZE (world s) in
    let s := s <| world := w |> in
    match r with
    | Bytes buf =>
        let s := note (Got sockfd buf) s in
        let '(r, w) := write sockfd buf (world s) in
        let s := s <| world := w |> in
        Val (if 0 <? written r then note (Sent sockfd (take (Z.to_nat (written r)) buf)) s else s)
    | _ => Val (note (Shut sockfd) (s <| world := snd (ctl DEL sockfd 0 (close sockfd (world s))) |>))
    end.
Fixpoint plain_events (listenfd : Z) (evs : list event) (s : state) : out state :=
  match evs with [] => Val s | ev :: evs => let^ s := plain_event listenfd ev s in plain_events listenfd evs s end.
Fixpoint plain_loop (listenfd : Z) (waits : list (option (list event))) (s : state) : out state :=
  match waits with
  | [] => Val s
  | None :: _ => Val (s <| world := close listenfd (world s) |>)
  | Some evs :: waits => let^ s := plain_events listenfd evs s in plain_loop listenfd waits s
  end.

(** ** The client *)

(** Everything there is to read goes into the buffer. The end of the
    connection, and a full buffer, read 0 bytes, and the loop goes on. *)
Fixpoint read_text (fuel : nat) (fd : Z) (buf : list Z) (s : state) : out (list Z * state) :=
  match fuel with
  | O => Crash OutOfFuel
  | S fuel =>
      let '(r, w) := read fd (CLIENT_BUF_SIZE - zlen buf - 1) (world s) in
      let s := s <| world := w |> in
      match r with
      | ReadError false => Exit (-1)
      | ReadError true => Val (buf, s)
      | Eof => read_text fuel fd buf s
      | Bytes d => read_text fuel fd (buf ++ d) (note (Got fd d) s)
      end
  end.

(** Each write starts at the number of bytes the one before it has taken. *)
Fixpoint send_line (fuel : nat) (fd : Z) (buf : list Z) (nsend nread : Z) (s : state) : out state :=
  if 0 <? nread then
    match fuel with
    | O => Crash OutOfFuel
    | S fuel =>
        match mem_read buf nsend nread with
        | None => Crash OutOfBounds
        | Some d =>
            let '(r, w) := write fd d (world s) in
            let s := s <| world := w |> in
            match r with
            | WriteError false => Exit (-1)
            | WriteError true => send_line fuel fd buf (-1) (nread + 1) s
            | Took n => send_line fuel fd buf n (nread - n) (note (Sent fd (take (Z.to_nat n) d)) s)
            end
        end
    end
  else Val s.

(** An event; [lines] is the input, as [fgets] hands it over, and the result
    has what is left of it and what is printed. *)
Definition talk_event (fuel : nat) (ev : event) (lines : list (list Z)) (s : state) : out (list (list Z) * list Z * state) :=
  let fd := ev_sockid ev in
  let^ (text, s) := if has ev EPOLLIN then let^ (buf, s) := read_text fuel fd [] s in Val (c_string buf, s) else Val ([], s) in
  if has ev EPOLLOUT then
    match lines with
    | [] => Val ([], text, s)
    | line :: lines =>
        let buf := take (Z.to_nat CLIENT_BUF_SIZE) (line ++ replicate (Z.to_nat CLIENT_BUF_SIZE) 0) in
        let^ s := send_line fuel fd buf 0 (zlen (c_string buf)) s in
        Val (lines, text, s)
    end
  else Val (lines, text, s).
Fixpoint talk_events (fuel : nat) (evs : list event) (lines : list (list Z)) (s : state) : out (list (list Z) * list Z * state) :=
  match evs with
  | [] => Val (lines, [], s)
  | ev :: evs =>
      let^ (lines, text, s) := talk_event fuel ev lines s in
      let^ (lines, text', s) := talk_events fuel evs lines s in
      Val (lines, text ++ text', s)
  end.
End net.
#[export] Existing Instance state_Rebuild.
End Echo.
