(* ===== verification/EchoOk.v ===== *)
(** * What the echo samples send back

    The server on the stack returns every byte it has read, in order, on the
    connection it came from; the one on the sockets of the system does so as
    long as no call takes a part. The client sends a line that needs no more
    than two writes; sessions show what happens beyond. *)

From Stdlib Require Import String.
From S2P Require Import Prelude HttpDate Config HttpParse EpServer Echo.
Import EpServer Echo.

(** The bytes received and sent on a connection. *)
Fixpoint got_on (sock : Z) (t : list traffic) : list Z :=
  match t with [] => [] | Got s d :: t => (if s =? sock then d else []) ++ got_on sock t | _ :: t => got_on sock t end.
Fixpoint sent_on (sock : Z) (t : list traffic) : list Z :=
  match t with [] => [] | Sent s d :: t => (if s =? sock then d else []) ++ sent_on sock t | _ :: t => sent_on sock t end.
Definition echoed (t : list traffic) : Prop := forall sock, sent_on sock t = got_on sock t.

Lemma got_on_app sock t u : got_on sock (t ++ u) = got_on sock t ++ got_on sock u.
Proof. induction t as [|[] t IH]; cbn; rewrite ?IH, <- ?app_assoc; done. Qed.
Lemma sent_on_app sock t u : sent_on sock (t ++ u) = sent_on sock t ++ sent_on sock u.
Proof. induction t as [|[] t IH]; cbn; rewrite ?IH, <- ?app_assoc; done. Qed.
Lemma got_note `{Net} sock e (s : state) : got_on sock (trace (note e s)) = got_on sock (trace s) ++ got_on sock [e].
Proof. unfold note. cbn -[got_on app]. apply got_on_app. Qed.
Lemma sent_note `{Net} sock e (s : state) : sent_on sock (trace (note e s)) = sent_on sock (trace s) ++ sent_on sock [e].
Proof. unfold note. cbn -[sent_on app]. apply sent_on_app. Qed.
Lemma trace_world `{Net} w (s : state) : trace (s <| world := w |>) = trace s.
Proof. done. Qed.
Ltac on_trace := repeat (rewrite ?got_note, ?sent_note, ?trace_world); cbn [got_on sent_on]; rewrite ?Z.eqb_refl, ?app_nil_r.

(** What is assumed of the calls: accepting takes a connection that waits,
    the calls behind it do not change the waiting ones. *)
Class AcceptEnds `{Net} : Prop := {
  accept_takes : forall l w c w', accept l w = (c, w') -> 0 < c -> (unaccepted w' < unaccepted w)%nat;
  accept_nonblock : forall c w, unaccepted (snd (set_nonblock c w)) = unaccepted w;
  accept_ctl : forall o c e w, unaccepted (snd (ctl o c e w)) = unaccepted w
}.
(** A write takes some of the data, one of all of them takes them all. *)
Class WritesTake `{Net} : Prop := write_takes : forall c d w, 0 < zlen d -> exists n w', write c d w = (Took n, w') /\ 0 < n <= zlen d.
Class WritesAll `{Net} : Prop := write_all : forall c d w, exists w', write c d w = (Took (zlen d), w').

Section servers.
Context `{Net} `{!AcceptEnds}.

Lemma accept_trace fuel l : forall s, (unaccepted (world s) <= fuel)%nat -> exists s', accept_conns fuel l s = Val s' /\ trace s' = trace s.
Proof.
  induction fuel as [|fuel IH]; intros s Hf; cbn [accept_conns]; destruct (accept l (world s)) as [c w] eqn:Ea;
    (destruct (Z.ltb_spec 0 c) as [Hc|]; [|by eexists]); apply accept_takes in Ea; try done; [lia|]. cbn -[ctl].
  pose proof (accept_nonblock c w) as Hb. destruct (set_nonblock c w) as [ret w2]. cbn in Hb.
  destruct (ret <? 0); [apply (IH (mkState w2 (trace s))); cbn; lia|]. apply (IH (mkState (snd (ctl ADD c EPOLLIN w2)) (trace s))). cbn [world]. rewrite accept_ctl. lia.
Qed.

Context `{!WritesTake}.

Lemma send_trace c fuel : forall d s, (length d <= fuel)%nat ->
  exists s', write_back fuel c d s = Val s' /\ (forall sock, got_on sock (trace s') = got_on sock (trace s)) /\
    forall sock, sent_on sock (trace s') = sent_on sock (trace s) ++ (if c =? sock then d else []).
Proof.
  induction fuel as [|fuel IH]; intros d s Hf; cbn [write_back].
  - destruct d; [|cbn in Hf; lia]. exists s. split_and!; [done|done|]. intros sock. destruct (c =? sock); by rewrite app_nil_r.
  - destruct (Z.ltb_spec 0 (zlen d)) as [Hd|Hd].
    2: { destruct d as [|x d]; [|rewrite zlen_cons in Hd; pose proof (zlen_nonneg d); lia].
         exists s. split_and!; [done|done|]. intros sock. destruct (c =? sock); by rewrite app_nil_r. }
    destruct (write_takes c d (world s) Hd) as (n & w & -> & Hn). cbn [written]. destruct (Z.leb_spec n 0); [lia|].
    destruct (IH (drop (Z.to_nat n) d) (note (Sent c (take (Z.to_nat n) d)) (s <| world := w |>))) as (s' & E & Eg & Es); [rewrite length_drop; lia|].
    exists s'. split_and!; [done| |]; intros sock; rewrite ?Eg, ?Es; on_trace; [done|].
    rewrite <- app_assoc. destruct (c =? sock); [by rewrite take_drop|done].
Qed.

Lemma event_echoed l ev s : echoed (trace s) -> exists s', echo_event l ev s = Val s' /\ echoed (trace s').
Proof.
  intros He. unfold echo_event. destruct (ev_sockid ev =? l).
  { destruct (accept_trace (unaccepted (world s)) l s) as (s' & E & Et); [lia|]. exists s'. by rewrite Et. }
  assert (Hshut : forall c (s0 : state), trace s0 = trace s -> echoed (trace (close_conn c s0))).
  { intros c s0 E sock. unfold close_conn. on_trace. rewrite E. apply He. }
  destruct (has ev EPOLLERR); [eexists; split; [done|by apply Hshut]|]. destruct (ev_sockid ev <? 0); [by exists s|].
  unfold echo. destruct (read _ _ _) as [[d| |again] w]; [|eexists; split; [done|by apply Hshut]..].
  set (s1 := note _ _). destruct (send_trace (ev_sockid ev) (length d) d s1) as (s' & -> & Eg & Es); [done|]. exists s'. split; [done|].
  intros sock. rewrite Eg, Es. subst s1. on_trace. by rewrite He.
Qed.
Lemma events_echoed l evs : forall s, echoed (trace s) -> exists s', echo_events l evs s = Val s' /\ echoed (trace s').
Proof.
  induction evs as [|ev evs IH]; intros s He; [by exists s|]. cbn [echo_events].
  destruct (event_echoed l ev s He) as (s1 & -> & He1). by apply IH.
Qed.
End servers.

(** C36: Whatever connections and data arrive and however little each write
    takes, as long as it takes a byte, the loop of the echo server on the stack handles every event
    without a fault, and on every connection it has sent back exactly the
    bytes it has read, in order. *)
Theorem echo_all `{Net} `{!AcceptEnds} `{!WritesTake} l waits w :
  exists s, server_loop l waits (mkState w []) = Val s /\ echoed (trace s).
Proof.
  assert (He : echoed (trace (mkState w []))) by done. revert He. generalize (mkState w []).
  induction waits as [|[evs|] waits IH]; intros s He; cbn [server_loop]; [by exists s| |by eexists].
  destruct (events_echoed l evs s He) as (s1 & -> & He1). by apply IH.
Qed.

(** The server on the sockets of the system does the same when every send
    takes all it is given. *)
Theorem plain_echo_all `{Net} `{!AcceptEnds} `{!WritesAll} l evs : forall s, echoed (trace s) -> exists s', plain_events l evs s = Val s' /\ echoed (trace s').
Proof.
  induction evs as [|ev evs IH]; intros s He; [by exists s|]. cbn [plain_events].
  assert (Hev : exists s1, plain_event l ev s = Val s1 /\ echoed (trace s1)); [|destruct Hev as (s1 & -> & He1); by apply IH].
  unfold plain_event. destruct (ev_sockid ev =? l).
  { destruct (accept_trace (unaccepted (world s)) l s) as (s' & E & Et); [lia|]. exists s'. by rewrite Et. }
  destruct (ev_sockid ev <? 0); [by exists s|]. destruct (read _ _ _) as [[d| |again] w].
  2,3: eexists; split; [done|]; intros sock; on_trace; apply He.
  destruct (write_all (ev_sockid ev) d w) as [w' Ew].
  match goal with |- context [write (ev_sockid ev) d ?x] => change x with w end. rewrite Ew. cbn [written]. eexists. split; [done|]. intros sock.
  destruct (Z.ltb_spec 0 (zlen d)) as [Hd|Hd].
  - rewrite take_ge by (unfold zlen; lia). on_trace. by rewrite He.
  - destruct d as [|x d]; [|rewrite zlen_cons in Hd; pose proof (zlen_nonneg d); lia]. on_trace. destruct (_ =? _); rewrite ?app_nil_r; apply He.
Qed.

(** The client reads for ever once the server has closed the connection. *)
Theorem client_reads_for_ever `{Net} fd buf w : (forall n, read fd n w = (Eof, w)) -> forall fuel s, world s = w -> read_text fuel fd buf s = Crash OutOfFuel.
Proof.
  intros Hr fuel. induction fuel as [|fuel IH]; intros s Hs; [done|]. cbn [read_text]. rewrite Hs, Hr. by apply IH.
Qed.

(** A line that goes in two writes is sent whole. *)
Theorem client_two_writes `{Net} fd buf n k s w1 w2 : 0 < k < n -> n <= zlen buf ->
  write fd (take (Z.to_nat n) buf) (world s) = (Took k, w1) ->
  write fd (drop (Z.to_nat k) (take (Z.to_nat n) buf)) w1 = (Took (n - k), w2) ->
  exists s', send_line 3 fd buf 0 n s = Val s' /\ sent_on fd (trace s') = sent_on fd (trace s) ++ take (Z.to_nat n) buf.
Proof.
  intros Hk Hn E1 E2. cbn [send_line]. destruct (Z.ltb_spec 0 n); [|lia]. rewrite mem_read_eq by lia. change (drop (Z.to_nat 0) buf) with buf.
  rewrite E1. destruct (Z.ltb_spec 0 (n - k)); [|lia]. rewrite mem_read_eq by lia.
  assert (Ed : take (Z.to_nat (n - k)) (drop (Z.to_nat k) buf) = drop (Z.to_nat k) (take (Z.to_nat n) buf)) by (rewrite skipn_firstn_comm; f_equal; lia).
  rewrite Ed. match goal with |- context [write fd (drop ?a ?b) ?x] => change x with w1 end.
  rewrite E2. destruct (Z.ltb_spec 0 (n - k - (n - k))); [lia|]. eexists. split; [done|]. on_trace. rewrite <- app_assoc. f_equal.
  rewrite (take_ge (drop _ _)) by (rewrite length_drop, length_take; lia). apply take_drop.
Qed.
