(* ===== verification/EchoDemo.v ===== *)
(** * Sessions of the echo samples

    A network with prepared data and connections, on which a write takes at
    most [limit] bytes. *)

From Stdlib Require Import String.
From S2P Require Import Prelude HttpDate Config HttpParse EpServer Echo EchoOk.
Import EpServer Echo.

(** What is read and which connections wait, and how many writes are refused
    for now. *)
Record wires := mkWires { arriving : gmap Z (list (list Z)); knocking : list Z; refused : nat }.

Definition demo_net (limit : Z) : Net := {|
  W := wires;
  socket w := (1, w);
  bind _ _ w := (0, w);
  listen _ _ w := (0, w);
  read s n w :=
    match arriving w !! s with
    | None => (Eof, w)
    | Some [] => (ReadError true, w)
    | Some (d :: ds) => if (0 <? zlen d) && (zlen d <=? n) then (Bytes d, mkWires (<[s := ds]> (arriving w)) (knocking w) (refused w)) else (Eof, w)
    end;
  write _ d w :=
    match refused w with
    | O => (Took (Z.min limit (zlen d)), w)
    | S k => (WriteError true, mkWires (arriving w) (knocking w) k)
    end;
  accept _ w := match knocking w with [] => (-1, w) | c :: cs => (c, mkWires (arriving w) cs (refused w)) end;
  set_nonblock _ w := (0, w);
  ctl _ _ _ w := (0, w);
  close _ w := w;
  unaccepted w := length (knocking w)
|}.

(** The same without refusals, for the theorem. *)
#[local] Instance steady_net : Net := {|
  W := wires;
  socket := @socket (demo_net 2); bind := @bind (demo_net 2); listen := @listen (demo_net 2);
  read := @read (demo_net 2);
  write _ d w := (Took (Z.min 2 (zlen d)), w);
  accept := @accept (demo_net 2); set_nonblock := @set_nonblock (demo_net 2); ctl := @ctl (demo_net 2); close := @close (demo_net 2);
  unaccepted := @unaccepted (demo_net 2)
|}.
#[local] Instance steady_accept : AcceptEnds.
Proof. constructor; [|done|done]. intros l w c w'. cbn. destruct (knocking w); intros [= <- <-]; cbn; lia. Qed.
#[local] Instance steady_writes : WritesTake.
Proof. intros c d w Hd. exists (Z.min 2 (zlen d)), w. split; [done|lia]. Qed.

Notation readable c := (mkEvent c EPOLLIN).
Notation writable c := (mkEvent c EPOLLOUT).
Definition talk : wires := mkWires {[ 7 := [chars "hello"; chars "again"]; 8 := [chars "you"] ]} [7; 8] 0.
Notation waits := [Some [readable 1]; Some [readable 7; readable 8]; Some [readable 7]].

Example echo_session : match server_loop 1 waits (mkState talk []) with
  | Val s => sent_on 7 (trace s) = chars "helloagain" /\ sent_on 8 (trace s) = chars "you" | _ => False end.
Proof. vm_compute. done. Qed.

Lemma echo_all_witness : exists s, server_loop 1 waits (mkState talk []) = Val s /\ echoed (trace s).
Proof. apply (@echo_all steady_net steady_accept steady_writes 1 waits talk). Defined.

(** The server on the system's sockets loses what a call does not take. *)
Example plain_loses : match plain_loop 1 waits (mkState (H := demo_net 2) talk []) with
  | Val s => sent_on 7 (trace s) = chars "heag" | _ => False end.
Proof. vm_compute. done. Qed.

(** A write that is refused ends the loop, and the rest of the data is lost. *)
Example refused_write_loses : match server_loop 1 [Some [readable 7]; Some [readable 7]]
    (mkState (H := demo_net 2) (mkWires {[ 7 := [chars "hello"; chars "again"] ]} [] 1) []) with
  | Val s => sent_on 7 (trace s) = chars "again" | _ => False end.
Proof. vm_compute. done. Qed.

(** An event without data closes the connection. *)
Example spurious_event : match server_loop 1 [Some [readable 7]] (mkState (mkWires {[7 := []]} [] 0) []) with
  | Val s => trace s = [Shut 7] | _ => False end.
Proof. vm_compute. done. Qed.

(** A line that needs three writes is sent wrong: the third starts where the
    second did. *)
Example three_writes : match talk_event (H := demo_net 2) 10 (writable 7) [chars "abcdef"] (mkState (H := demo_net 2) (mkWires ∅ [] 0) []) with
  | Val (_, _, s) => sent_on 7 (trace s) = chars "abcdcd" | _ => False end.
Proof. vm_compute. done. Qed.

(** A write that would block moves the start in front of the buffer. *)
Example write_blocks : talk_event (H := demo_net 2) 10 (writable 7) [chars "abcdef"] (mkState (H := demo_net 2) (mkWires ∅ [] 1) []) = Crash OutOfBounds.
Proof. vm_compute. done. Qed.

(** A line goes there and comes back. *)
Example echo_line :
  match talk_event 10 (writable 7) [chars "hi"] (mkState (mkWires ∅ [] 0) []) with
  | Val (_, _, c) =>
      match server_loop 1 [Some [readable 3]] (mkState (mkWires {[3 := [sent_on 7 (trace c)]]} [] 0) []) with
      | Val s =>
          match talk_event 10 (readable 7) [] (mkState (mkWires {[7 := [sent_on 3 (trace s)]]} [] 0) []) with
          | Val (_, text, _) => text = chars "hi" | _ => False end
      | _ => False end
  | _ => False end.
Proof. vm_compute. done. Qed.
