(* ===== verification/MperfTimer.v ===== *)
(** * The timers of mperf: [mperf/timer.c]

    Active timers form a doubly linked list sorted by time, cancelled ones a
    free list. The nodes live in a heap; [malloc] answers with an address that
    is not in use, or with none. The list of nodes is the abstract state: the
    operations insert into it, remove from it and walk it. A timer's
    procedure belongs to the client; its calls are recorded, and it is taken
    not to call back into this file. The present time, which [getnow] takes
    from the caller or from the clock, is an argument. Times and periods, 64-bit in the code,
    are unbounded here. *)

From S2P Require Import Prelude.
From Stdlib Require Import Sorting.Sorted.

Notation addr := Z.

Record timeval := mkTv { tv_sec : Z; tv_usec : Z }.
#[global] Instance timeval_Rebuild : Rebuild timeval := fun r => mkTv (tv_sec r) (tv_usec r).

Record Timer := mkTimer {
  timer_proc : Z; client_data : Z; usecs : Z; periodic : bool; time : timeval;
  prev : option addr; next : option addr }.
#[global] Instance Timer_Rebuild : Rebuild Timer := fun r =>
  mkTimer (timer_proc r) (client_data r) (usecs r) (periodic r) (time r) (prev r) (next r).

(** A call of a timer's procedure: the timer, procedure, data and time. *)
Definition call : Type := addr * Z * Z * timeval.

Record tstate := mkState { heap : gmap addr Timer; timers : option addr; free_timers : option addr; calls : list call }.
#[global] Instance tstate_Rebuild : Rebuild tstate := fun r =>
  mkState (heap r) (timers r) (free_timers r) (calls r).

Definition tinit : tstate := mkState ∅ None None [].

Definition deref (s : tstate) (p : addr) : res Timer := from_option_res UseAfterFree (heap s !! p).
Definition write (p : addr) (f : Timer -> Timer) (s : tstate) : res tstate :=
  let! x := deref s p in Ok (s <| heap := <[p := f x]> (heap s) |>).
Definition set_prev (p : addr) (v : option addr) : tstate -> res tstate := write p (fun x => x <| prev := v |>).
Definition set_next (p : addr) (v : option addr) : tstate -> res tstate := write p (fun x => x <| next := v |>).

(** ** The sorted list *)

Definition before (a b : timeval) : bool :=
  (tv_sec a <? tv_sec b) || ((tv_sec a =? tv_sec b) && (tv_usec a <? tv_usec b)).

Fixpoint add_walk (fuel : nat) (t : addr) (tm : timeval) (t2prev : addr) (t2 : option addr) (s : tstate) : res tstate :=
  match t2 with
  | None =>
      let! s := set_next t2prev (Some t) s in
      let! s := set_prev t (Some t2prev) s in
      set_next t None s
  | Some q =>
      match fuel with
      | O => Fault OutOfFuel
      | S fuel =>
          let! y := deref s q in
          if before tm (time y) then
            let! s := set_next t2prev (Some t) s in
            let! s := set_prev t (Some t2prev) s in
            let! s := set_next t (Some q) s in
            set_prev q (Some t) s
          else add_walk fuel t tm q (next y) s
      end
  end.

Definition list_add (t : addr) (s : tstate) : res tstate :=
  match timers s with
  | None =>
      let s := s <| timers := Some t |> in
      let! s := set_next t None s in
      set_prev t None s
  | Some hd =>
      let! x := deref s t in
      let! y := deref s hd in
      if before (time x) (time y) then
        let! s := set_prev t None s in
        let! s := set_next t (Some hd) s in
        let! s := set_prev hd (Some t) s in
        Ok (s <| timers := Some t |>)
      else add_walk (size (heap s)) t (time x) hd (next y) s
  end.

Definition list_remove (t : addr) (s : tstate) : res tstate :=
  let! x := deref s t in
  let! s := match prev x with
            | None => Ok (s <| timers := next x |>)
            | Some p => set_next p (next x) s
            end in
  let! x := deref s t in
  match next x with
  | None => Ok s
  | Some q => set_prev q (prev x) s
  end.

Definition list_resort (t : addr) (s : tstate) : res tstate := let! s := list_remove t s in list_add t s.

Definition add_usecs (t : timeval) (us : Z) : timeval :=
  let sec := tv_sec t + Z.quot us 1000000 in
  let usec := tv_usec t + Z.rem us 1000000 in
  if 1000000 <=? usec then mkTv (sec + Z.quot usec 1000000) (Z.rem usec 1000000) else mkTv sec usec.

(** ** Operations *)

(** [mal] is the result of [malloc], [junk] what the new memory holds. *)
Definition take_node (mal : option addr) (junk : Timer) (s : tstate) : res (option addr * tstate) :=
  match free_timers s with
  | Some t => let! x := deref s t in Ok (Some t, s <| free_timers := next x |>)
  | None =>
      match mal with
      | None => Ok (None, s)
      | Some t => Ok (Some t, s <| heap := <[t := junk]> (heap s) |>)
      end
  end.

Definition tmr_create (now : timeval) (proc data us : Z) (per : bool) (mal : option addr) (junk : Timer) (s : tstate)
  : res (option addr * tstate) :=
  let! (o, s) := take_node mal junk s in
  match o with
  | None => Ok (None, s)
  | Some t =>
      let! s := write t (fun x => x <| timer_proc := proc |> <| client_data := data |> <| usecs := us |>
                                    <| periodic := per |> <| time := add_usecs now us |>) s in
      let! s := list_add t s in
      Ok (Some t, s)
  end.

Definition tmr_timeout (now : timeval) (s : tstate) : res (option timeval) :=
  match timers s with
  | None => Ok None
  | Some t =>
      let! x := deref s t in
      let us := (tv_sec (time x) - tv_sec now) * 1000000 + (tv_usec (time x) - tv_usec now) in
      let us := if us <=? 0 then 0 else us in
      Ok (Some (mkTv (Z.quot us 1000000) (Z.rem us 1000000)))
  end.

Definition tmr_cancel (t : addr) (s : tstate) : res tstate :=
  let! s := list_remove t s in
  let! s := set_next t (free_timers s) s in
  set_prev t None (s <| free_timers := Some t |>).

Definition tmr_reset (now : timeval) (t : addr) (s : tstate) : res tstate :=
  let! s := write t (fun x => x <| time := add_usecs now (usecs x) |>) s in list_resort t s.

Fixpoint run_loop (fuel : nat) (now : timeval) (t : option addr) (s : tstate) : res tstate :=
  match t with
  | None => Ok s
  | Some t =>
      match fuel with
      | O => Fault OutOfFuel
      | S fuel =>
          let! x := deref s t in
          if before now (time x) then Ok s
          else
            let s := s <| calls := calls s ++ [(t, timer_proc x, client_data x, now)] |> in
            let! s := if periodic x then
                        let! s := write t (fun x => x <| time := add_usecs (time x) (usecs x) |>) s in list_resort t s
                      else tmr_cancel t s in
            run_loop fuel now (next x) s
      end
  end.
Definition tmr_run (fuel : nat) (now : timeval) (s : tstate) : res tstate := run_loop fuel now (timers s) s.

Fixpoint cleanup_loop (fuel : nat) (s : tstate) : res tstate :=
  match free_timers s with
  | None => Ok s
  | Some t =>
      match fuel with
      | O => Fault OutOfFuel
      | S fuel => let! x := deref s t in cleanup_loop fuel (s <| free_timers := next x |> <| heap := delete t (heap s) |>)
      end
  end.
Definition tmr_cleanup (s : tstate) : res tstate := cleanup_loop (size (heap s)) s.

Fixpoint cancel_all (fuel : nat) (s : tstate) : res tstate :=
  match timers s with
  | None => Ok s
  | Some t =>
      match fuel with
      | O => Fault OutOfFuel
      | S fuel => let! s := tmr_cancel t s in cancel_all fuel s
      end
  end.
Definition tmr_destroy (s : tstate) : res tstate := let! s := cancel_all (size (heap s)) s in tmr_cleanup s.

(** ** The nodes of a list *)

Definition entry : Type := addr * Timer.

(** A node without its links: what the client put into it. *)
Definition core (x : Timer) : Timer := x <| prev := None |> <| next := None |>.

Definition cell (h : gmap addr Timer) (p : addr) (pv nx : option addr) : Prop :=
  exists x, h !! p = Some x /\ prev x = pv /\ next x = nx.

Definition head_or (l : list addr) (o : option addr) : option addr := match l with p :: _ => Some p | [] => o end.
Definition last_or (l : list addr) (o : option addr) : option addr := match last l with Some p => Some p | None => o end.

(** The nodes [l], linked both ways between [pv] and [nx]. *)
Fixpoint linked (h : gmap addr Timer) (pv : option addr) (l : list addr) (nx : option addr) : Prop :=
  match l with
  | [] => True
  | p :: l => cell h p pv (head_or l nx) /\ linked h (Some p) l nx
  end.

(** The nodes [l], linked by [next] from [o]. *)
Fixpoint chain (h : gmap addr Timer) (o : option addr) (l : list addr) : Prop :=
  match l with
  | [] => o = None
  | p :: l => o = Some p /\ exists x, h !! p = Some x /\ chain h (next x) l
  end.

Definition contents (h : gmap addr Timer) (A : list entry) : Prop :=
  Forall (fun e => core <$> h !! fst e = Some (snd e)) A.

(** The active timers are [A], the free ones [f]; the nodes [loose] are on
    neither list. *)
Record rep (s : tstate) (A : list entry) (f loose : list addr) : Prop := {
  rep_seg : linked (heap s) None A.*1 None;
  rep_timers : timers s = head_or A.*1 None;
  rep_contents : contents (heap s) A;
  rep_free : chain (heap s) (free_timers s) f;
  rep_nodup : NoDup (A.*1 ++ f ++ loose);
  rep_dom : forall p, is_Some (heap s !! p) <-> p ∈ A.*1 ++ f ++ loose
}.

Lemma linked_app h pv l1 l2 nx :
  linked h pv (l1 ++ l2) nx <-> linked h pv l1 (head_or l2 nx) /\ linked h (last_or l1 pv) l2 nx.
Proof.
  revert pv. induction l1 as [|p l1 IH]; intros pv; [simpl; tauto|].
  simpl app. cbn [linked]. rewrite IH. replace (last_or (p :: l1) pv) with (last_or l1 (Some p)).
  2:{ unfold last_or. rewrite last_cons. by destruct (last l1). }
  destruct l1; simpl; tauto.
Qed.

Lemma linked_frame h h' pv l nx : (forall p, p ∈ l -> h' !! p = h !! p) -> linked h pv l nx -> linked h' pv l nx.
Proof.
  revert pv. induction l as [|p l IH]; intros pv Hf; [done|]. simpl. intros [(x & Hx & ?) Hs].
  split; [exists x; rewrite Hf by set_solver; done|]. apply IH; [|done]. intros. apply Hf. set_solver.
Qed.

Lemma chain_frame h h' o l : (forall p, p ∈ l -> h' !! p = h !! p) -> chain h o l -> chain h' o l.
Proof.
  revert o. induction l as [|p l IH]; intros o Hf; [done|]. simpl. intros (Ho & x & Hx & Hs).
  split; [done|]. exists x. rewrite Hf by set_solver. split; [done|]. apply IH; [|done]. intros. apply Hf. set_solver.
Qed.

Lemma last_or_app l p o : last_or (l ++ [p]) o = Some p.
Proof. unfold last_or. by rewrite last_snoc. Qed.

(** [h'] differs from [h] in the links of the nodes [l] only. *)
Definition relinked (l : list addr) (h h' : gmap addr Timer) : Prop :=
  (forall p, core <$> h' !! p = core <$> h !! p) /\ (forall p, ~ p ∈ l -> h' !! p = h !! p).

Lemma relinked_refl l h : relinked l h h.
Proof. by split. Qed.

Lemma relinked_insert l h h' p x y :
  relinked l h h' -> h' !! p = Some x -> core y = core x -> p ∈ l -> relinked l h (<[p := y]> h').
Proof.
  intros [H1 H2] Hp Hc Hl. split.
  - intros q. destruct (decide (q = p)) as [->|]; [|by rewrite lookup_insert_ne].
    rewrite lookup_insert_eq, <- H1, Hp. simpl. by rewrite Hc.
  - intros q Hq. rewrite lookup_insert_ne by set_solver. by apply H2.
Qed.

Lemma relinked_some l h h' p : relinked l h h' -> is_Some (h' !! p) <-> is_Some (h !! p).
Proof. intros [H _]. specialize (H p). destruct (h' !! p), (h !! p); simpl in H; naive_solver. Qed.

Lemma relinked_contents l h h' A : relinked l h h' -> contents h A -> contents h' A.
Proof. intros [H _] Hc. apply (Forall_impl _ _ _ Hc). intros e He. by rewrite H. Qed.

Lemma write_ok p g s x : heap s !! p = Some x -> write p g s = Ok (s <| heap := <[p := g x]> (heap s) |>).
Proof. intros H. unfold write, deref. by rewrite H. Qed.

Lemma node_ok s p x : heap s !! p = Some x -> deref s p = Ok x.
Proof. intros H. unfold deref. by rewrite H. Qed.

(** The result of relinking: the nodes of the active list in a new order. *)
Lemma rep_relink s s' A A' f loose loose' L :
  rep s A f loose -> relinked L (heap s) (heap s') -> (forall p, p ∈ L -> ~ p ∈ f) ->
  free_timers s' = free_timers s -> timers s' = head_or A'.*1 None -> linked (heap s') None A'.*1 None ->
  contents (heap s) A' -> A'.*1 ++ loose' ≡ₚ A.*1 ++ loose -> rep s' A' f loose'.
Proof.
  intros [] Hl Hf Hfr Ht Hs Hc Hp.
  assert (Hq : A'.*1 ++ f ++ loose' ≡ₚ A.*1 ++ f ++ loose).
  { rewrite (Permutation_app_comm f loose'), (Permutation_app_comm f loose), !app_assoc. by rewrite Hp. }
  split; try done.
  - by apply (relinked_contents L (heap s)).
  - rewrite Hfr. apply (chain_frame (heap s)); [|done]. intros p Hpf. apply Hl. naive_solver.
  - by rewrite Hq.
  - intros p. rewrite (relinked_some L (heap s)), rep_dom0 by done. by rewrite Hq.
Qed.

(** ** Inserting *)

Fixpoint insert (e : entry) (A : list entry) : list entry :=
  match A with
  | [] => [e]
  | e' :: A => if before (time (snd e)) (time (snd e')) then e :: e' :: A else e' :: insert e A
  end.

Lemma insert_perm e A : insert e A ≡ₚ e :: A.
Proof.
  induction A as [|e' A IH]; simpl; [done|]. destruct (before _ _); [done|].
  rewrite IH. apply Permutation_swap.
Qed.

Lemma core_time x c : core x = c -> time x = time c.
Proof. by intros <-. Qed.

Lemma last_or_cons p l : last_or (p :: l) None = match l with [] => Some p | _ => last_or l None end.
Proof.
  unfold last_or. rewrite last_cons. destruct l as [|q l]; [done|]. destruct (last (q :: l)) eqn:E; [done|].
  by apply last_None in E.
Qed.

Lemma last_or_elem l p : last_or l None = Some p -> p ∈ l.
Proof. unfold last_or. destruct (last l) eqn:E; [|done]. intros [= ->]. by apply last_Some_elem_of. Qed.

(** The last node gets a new successor. *)
Lemma linked_relast h h' pv l nx nx' :
  NoDup l -> linked h pv l nx ->
  (forall p y, p ∈ l -> h !! p = Some y -> cell h' p (prev y) (if decide (last_or l None = Some p) then nx' else next y)) ->
  linked h' pv l nx'.
Proof.
  revert pv. induction l as [|p l IH]; intros pv Hn; [done|]. apply NoDup_cons in Hn as [Hp Hn].
  simpl linked. intros [(y & Hy & <- & Hnx) Hs] Hu. pose proof (Hu p y ltac:(set_solver) Hy) as Hc.
  rewrite last_or_cons in *. split.
  - destruct l as [|q l]; [by rewrite decide_True in Hc|].
    rewrite decide_False, Hnx in Hc by (intros E; apply last_or_elem in E; done). done.
  - apply IH; [done..|]. intros p' y' Hp' Hy'. specialize (Hu p' y' ltac:(set_solver) Hy'). by destruct l; [set_solver|].
Qed.

(** The first node gets a new predecessor. *)
Lemma linked_rehead h h' pv pv' l nx :
  NoDup l -> linked h pv l nx ->
  (forall p y, p ∈ l -> h !! p = Some y -> cell h' p (if decide (head_or l None = Some p) then pv' else prev y) (next y)) ->
  linked h' pv' l nx.
Proof.
  destruct l as [|q l]; [done|]. rewrite NoDup_cons. simpl. intros [Hq Hn] [(y & Hy & Hpv & <-) Hs] Hu.
  split; [pose proof (Hu q y ltac:(set_solver) Hy) as Hc; by rewrite decide_True in Hc|].
  assert (Hf : forall p y, p ∈ l -> h !! p = Some y -> cell h' p (prev y) (next y)).
  { intros p z Hp Hz. pose proof (Hu p z ltac:(set_solver) Hz) as Hc. rewrite decide_False in Hc by congruence. done. }
  clear -Hs Hf. revert Hs. generalize (Some q). induction l as [|p l IH]; intros pv; [done|].
  simpl. intros [(y & Hy & <- & <-) Hs]. split; [apply Hf; set_solver|]. apply IH; [|done]. intros. apply Hf; set_solver.
Qed.

(** Splicing [t] between two parts of the list. *)
Lemma linked_splice h h' l1 t l2 :
  linked h None (l1 ++ l2) None -> NoDup (l1 ++ t :: l2) -> cell h' t (last_or l1 None) (head_or l2 None) ->
  (forall p y, p ∈ l1 ++ l2 -> h !! p = Some y ->
    cell h' p (if decide (head_or l2 None = Some p) then Some t else prev y)
              (if decide (last_or l1 None = Some p) then Some t else next y)) ->
  linked h' None (l1 ++ t :: l2) None.
Proof.
  rewrite !linked_app. intros [H1 H2] (Hn1 & Hd & Hn2)%NoDup_app Ht Hu. apply NoDup_cons in Hn2 as [_ Hn2]. simpl. split_and!.
  - apply (linked_relast h h' None l1 _ _ Hn1 H1). intros p y Hp Hy. specialize (Hu p y ltac:(set_solver) Hy).
    rewrite decide_False in Hu; [done|]. destruct l2; [done|]. specialize (Hd p Hp). simpl. set_solver.
  - exact Ht.
  - apply (linked_rehead h h' _ _ l2 _ Hn2 H2). intros p y Hp Hy. specialize (Hu p y ltac:(set_solver) Hy).
    rewrite (decide_False (P := last_or _ _ = _)) in Hu; [done|]. intros E%last_or_elem. specialize (Hd p E). set_solver.
Qed.

(** Taking [t] out again. *)
Lemma linked_unsplice h h' l1 t l2 :
  linked h None (l1 ++ t :: l2) None -> NoDup (l1 ++ t :: l2) ->
  (forall p y, p ∈ l1 ++ l2 -> h !! p = Some y ->
    cell h' p (if decide (head_or l2 None = Some p) then last_or l1 None else prev y)
              (if decide (last_or l1 None = Some p) then head_or l2 None else next y)) ->
  linked h' None (l1 ++ l2) None.
Proof.
  rewrite !linked_app. intros (H1 & _ & H2) (Hn1 & Hd & Hn2)%NoDup_app Hu. apply NoDup_cons in Hn2 as [_ Hn2]. split.
  - apply (linked_relast h h' None l1 _ _ Hn1 H1). intros p y Hp Hy. specialize (Hu p y ltac:(set_solver) Hy).
    rewrite (decide_False (P := head_or _ _ = _)) in Hu; [done|]. destruct l2; [done|]. specialize (Hd p Hp). simpl. set_solver.
  - apply (linked_rehead h h' _ _ l2 _ Hn2 H2). intros p y Hp Hy. specialize (Hu p y ltac:(set_solver) Hy).
    rewrite (decide_False (P := last_or _ _ = _)) in Hu; [done|]. intros E%last_or_elem. specialize (Hd p E). set_solver.
Qed.

(** The links after a splice, whatever the order of the writes. *)
Lemma rep_splice s s' A1 A2 f t loose c :
  rep s (A1 ++ A2) f (t :: loose) -> core <$> heap s !! t = Some c ->
  free_timers s' = free_timers s -> timers s' = head_or (A1 ++ (t, c) :: A2).*1 None ->
  (forall p, heap s' !! p = (fun y =>
     if decide (p = t) then y <| prev := last_or A1.*1 None |> <| next := head_or A2.*1 None |>
     else y <| prev := if decide (head_or A2.*1 None = Some p) then Some t else prev y |>
            <| next := if decide (last_or A1.*1 None = Some p) then Some t else next y |>) <$> heap s !! p) ->
  rep s' (A1 ++ (t, c) :: A2) f loose.
Proof.
  intros Hr Hc Hfr Ht Hh. pose proof Hr as []. rewrite fmap_app in *.
  assert (Hn : NoDup (A1.*1 ++ t :: A2.*1) /\ (forall p, p ∈ A1.*1 ++ t :: A2.*1 -> ~ p ∈ f)).
  { assert (Hp : (A1.*1 ++ A2.*1) ++ f ++ t :: loose ≡ₚ (A1.*1 ++ t :: A2.*1) ++ f ++ loose) by solve_Permutation.
    rewrite Hp in rep_nodup0. apply NoDup_app in rep_nodup0 as (? & Hd & _). split; [done|]. intros p Hp1 Hp2.
    apply (Hd p Hp1). set_solver. }
  destruct Hn as [Hn Hf].
  apply (rep_relink s s' (A1 ++ A2) _ f (t :: loose) loose (A1.*1 ++ t :: A2.*1)); 
    rewrite ?fmap_app; change (((t, c) :: A2).*1) with (t :: A2.*1) in *; try done.
  - split; intros p.
    + rewrite Hh. destruct (heap s !! p); simpl; [|done]. by destruct (decide (p = t)).
    + intros Hp. rewrite Hh. destruct (heap s !! p) as [y|] eqn:Ey; simpl; [|done].
      rewrite decide_False by set_solver. rewrite !decide_False; [by destruct y| |].
      * destruct A2; [done|]. simpl in *. set_solver.
      * intros E%last_or_elem. set_solver.
  - apply (linked_splice (heap s)); try done.
    + destruct (heap s !! t) as [x|] eqn:Ex; [|done]. exists (x <| prev := last_or A1.*1 None |> <| next := head_or A2.*1 None |>).
      rewrite Hh, Ex. simpl. by rewrite decide_True.
    + intros p y Hp Hy. eexists. rewrite Hh, Hy. simpl. rewrite decide_False; [done|]. intros ->.
      apply NoDup_app in Hn as (_ & Hd & Hn). apply NoDup_cons in Hn as [Hn _].
      apply elem_of_app in Hp as [Hp|Hp]; [|done]. specialize (Hd t Hp). set_solver.
  - apply Forall_app in rep_contents0 as [??]. apply Forall_app; split; [done|]. by constructor.
  - simpl. solve_Permutation.
Qed.

Lemma find_entry (A : list entry) p : p ∈ A.*1 -> exists A1 c A2, A = A1 ++ (p, c) :: A2.
Proof. intros ([? c] & -> & (A1 & A2 & ->)%list_elem_of_split)%list_elem_of_fmap. eauto. Qed.

Lemma rep_some s A f loose p : rep s A f loose -> p ∈ A.*1 ++ f ++ loose -> exists x, heap s !! p = Some x.
Proof. intros [] H. by apply rep_dom0. Qed.

(** The node of an entry of the list. *)
Lemma rep_node s A1 p c A2 f loose :
  rep s (A1 ++ (p, c) :: A2) f loose ->
  exists x, heap s !! p = Some x /\ core x = c /\ prev x = last_or A1.*1 None /\ next x = head_or A2.*1 None.
Proof.
  intros []. rewrite fmap_app in *. apply linked_app in rep_seg0 as [_ [(x & Hx & ? & ?) _]].
  apply Forall_app in rep_contents0 as [_ [Hc _]%Forall_cons]. exists x. simpl in *. rewrite Hx in Hc. naive_solver.
Qed.

Lemma rep_nodup_active s A f loose : rep s A f loose -> NoDup (A.*1).
Proof. intros []. by apply NoDup_app in rep_nodup0 as [? _]. Qed.

Lemma rep_loose_fresh s A f t loose : rep s A f (t :: loose) -> ~ t ∈ A.*1.
Proof. intros [] H. apply NoDup_app in rep_nodup0 as (_ & Hd & _). specialize (Hd t H). set_solver. Qed.

(** Evaluate the writes to nodes that are known to be there. *)
Ltac writes :=
  repeat (unfold set_prev, set_next; erewrite write_ok by (simpl; simplify_map_eq; reflexivity); cbn [res_bind]).

(** Compare the links of each node after the writes with those wanted. *)
Ltac links :=
  let p := fresh "p" in
  intros p; simpl; rewrite ?fmap_app, ?last_or_app; simpl; rewrite ?lookup_insert;
  repeat case_decide; simplify_eq; simpl; simplify_map_eq; try done;
  match goal with
  | |- context [?h !! p] => destruct (h !! p) as [[]|]; simpl; done
  | _ => idtac
  end.

Lemma rep_splice_after s s' A1 a ca A2 f t loose c :
  rep s (A1 ++ (a, ca) :: A2) f (t :: loose) -> core <$> heap s !! t = Some c ->
  free_timers s' = free_timers s -> timers s' = timers s ->
  (forall p, heap s' !! p = (fun y =>
     if decide (p = t) then y <| prev := Some a |> <| next := head_or A2.*1 None |>
     else y <| prev := if decide (head_or A2.*1 None = Some p) then Some t else prev y |>
            <| next := if decide (Some a = Some p) then Some t else next y |>) <$> heap s !! p) ->
  rep s' (A1 ++ (a, ca) :: (t, c) :: A2) f loose.
Proof.
  intros Hr Hc Hf Ht Hh. pose proof (rep_timers _ _ _ _ Hr) as Hh0.
  change ((a, ca) :: (t, c) :: A2) with ([(a, ca)] ++ (t, c) :: A2). change ((a, ca) :: A2) with ([(a, ca)] ++ A2) in Hr.
  rewrite app_assoc in *. apply (rep_splice s s' (A1 ++ [(a, ca)]) A2); try done.
  - rewrite Ht, Hh0, !fmap_app. by destruct A1.
  - rewrite fmap_app. simpl. rewrite last_or_app. done.
Qed.

Lemma add_walk_ok fuel : forall A1 a ca A2 s f t c loose,
  rep s (A1 ++ (a, ca) :: A2) f (t :: loose) -> core <$> heap s !! t = Some c -> (length A2 <= fuel)%nat ->
  exists s', add_walk fuel t (time c) a (head_or A2.*1 None) s = Ok s' /\
    rep s' (A1 ++ (a, ca) :: insert (t, c) A2) f loose /\ calls s' = calls s.
Proof.
  induction fuel as [|fuel IH]; intros A1 a ca A2 s f t c loose Hr Hc Hl.
  all: pose proof (rep_loose_fresh _ _ _ _ _ Hr) as Hta; rewrite fmap_app in Hta.
  all: assert (a <> t) by set_solver; destruct (rep_node _ _ _ _ _ _ _ Hr) as (xa & Ha & _).
  all: destruct (heap s !! t) as [xt|] eqn:Ht; [|done].
  all: destruct A2 as [|[b cb] A2]; [|try (simpl in Hl; lia)].
  1, 2: simpl; writes; eexists; split; [done|]; split; [|done]; apply (rep_splice_after s); rewrite ?Ht; try done; links.
  simpl. assert (b <> t) by set_solver.
  assert (a <> b) by (apply rep_nodup_active in Hr; rewrite fmap_app in Hr; apply NoDup_app in Hr as (_ & _ & Hr);
    simpl in Hr; apply NoDup_cons in Hr as [? _]; set_solver).
  change ((a, ca) :: (b, cb) :: A2) with ([(a, ca)] ++ (b, cb) :: A2) in Hr. rewrite app_assoc in Hr.
  destruct (rep_node _ _ _ _ _ _ _ Hr) as (xb & Hb & <- & Hbp & Hbn).
  rewrite (node_ok _ _ _ Hb). cbn [res_bind]. change (time (core xb)) with (time xb). destruct (before _ _) eqn:E.
  - writes. eexists. split; [done|]. split; [|done]. rewrite <- app_assoc in Hr.
    apply (rep_splice_after s); rewrite ?Ht; try done. links.
  - rewrite Hbn. destruct (IH (A1 ++ [(a, ca)]) b (core xb) A2 s f t c loose) as (s' & ? & Hr' & ?);
      [done|by rewrite Ht|simpl in Hl; lia|].
    exists s'. split_and!; try done. by rewrite <- app_assoc in Hr'.
Qed.

Lemma rep_length s A f loose : rep s A f loose -> (length A <= size (heap s))%nat.
Proof.
  intros []. assert (length A = length (A.*1)) as -> by (by rewrite length_fmap).
  rewrite <- (size_dom (D := gset addr)). apply NoDup_app in rep_nodup0 as [Hn _].
  rewrite <- (size_list_to_set (C := gset addr)) by done. apply subseteq_size. intros p Hp. apply elem_of_dom, rep_dom0. set_solver.
Qed.

Lemma list_add_ok s A f t c loose :
  rep s A f (t :: loose) -> core <$> heap s !! t = Some c ->
  exists s', list_add t s = Ok s' /\ rep s' (insert (t, c) A) f loose /\ calls s' = calls s.
Proof.
  intros Hr Hc. unfold list_add. pose proof (rep_timers _ _ _ _ Hr) as Hh.
  pose proof (rep_loose_fresh _ _ _ _ _ Hr) as Hta.
  destruct (heap s !! t) as [xt|] eqn:Ht; [|done]. injection Hc as <-.
  destruct A as [|[a ca] A]; simpl in Hh; rewrite Hh.
  - writes. eexists. split; [done|]. split; [|done]. apply (rep_splice s _ [] []); rewrite ?Ht; try done. links.
  - destruct (rep_node s [] _ _ _ _ _ Hr) as (xa & Ha & <- & _ & Han). rewrite (node_ok _ _ _ Ht), (node_ok _ _ _ Ha).
    cbn [res_bind]. simpl. change (time (core ?x)) with (time x). assert (a <> t) by set_solver.
    destruct (before _ _) eqn:E.
    + writes. eexists. split; [done|]. split; [|done]. apply (rep_splice s _ [] ((a, core xa) :: A)); rewrite ?Ht; try done. links.
    + rewrite Han. apply (add_walk_ok _ [] a (core xa) A s f t (core xt)); [done|by rewrite Ht|]. pose proof (rep_length _ _ _ _ Hr) as Hl. by apply Nat.lt_le_incl.
Qed.

(** ** Removing *)

Lemma rep_remove s s' A1 t c A2 f loose :
  rep s (A1 ++ (t, c) :: A2) f loose ->
  free_timers s' = free_timers s -> timers s' = head_or (A1 ++ A2).*1 None ->
  (forall p, heap s' !! p = (fun y =>
     y <| prev := if decide (head_or A2.*1 None = Some p) then last_or A1.*1 None else prev y |>
       <| next := if decide (last_or A1.*1 None = Some p) then head_or A2.*1 None else next y |>) <$> heap s !! p) ->
  rep s' (A1 ++ A2) f (t :: loose).
Proof.
  intros Hr Hfr Ht Hh. pose proof Hr as []. rewrite fmap_app in *.
  change (((t, c) :: A2).*1) with (t :: A2.*1) in *.
  assert (Hf : forall p, p ∈ A1.*1 ++ A2.*1 -> ~ p ∈ f).
  { intros p Hp1 Hp2. apply NoDup_app in rep_nodup0 as (? & Hd & _). apply (Hd p); set_solver. }
  apply (rep_relink s s' (A1 ++ (t, c) :: A2) _ f loose (t :: loose) (A1.*1 ++ A2.*1));
    rewrite ?fmap_app; change (((t, c) :: A2).*1) with (t :: A2.*1) in *; try done.
  - split; intros p.
    + rewrite Hh. by destruct (heap s !! p).
    + intros Hp. rewrite Hh. destruct (heap s !! p) as [y|] eqn:Ey; simpl; [|done].
      rewrite !decide_False; [by destruct y| |].
      * destruct A2; [done|]. simpl in *. set_solver.
      * intros E%last_or_elem. set_solver.
  - apply (linked_unsplice (heap s) _ _ t); [done|apply rep_nodup_active in Hr; by rewrite fmap_app in Hr|].
    intros p y Hp Hy. eexists. rewrite Hh, Hy. done.
  - apply Forall_app in rep_contents0 as [? [_ ?]%Forall_cons]. by apply Forall_app.
  - simpl. solve_Permutation.
Qed.

(** The same with the links read off the heap of a run. *)
Ltac derefs := repeat (erewrite node_ok by (simpl; simplify_map_eq; reflexivity); cbn [res_bind]; simpl).

Lemma list_remove_ok s A1 t c A2 f loose :
  rep s (A1 ++ (t, c) :: A2) f loose ->
  exists s', list_remove t s = Ok s' /\ rep s' (A1 ++ A2) f (t :: loose) /\ calls s' = calls s /\
    core <$> heap s' !! t = Some c.
Proof.
  intros Hr. destruct (rep_node _ _ _ _ _ _ _ Hr) as (x & Hx & Hcx & Hp & Hn).
  pose proof (rep_timers _ _ _ _ Hr) as Ht. pose proof (rep_nodup_active _ _ _ _ Hr) as Hd.
  assert (Hdom : forall p, p ∈ A1.*1 ++ A2.*1 -> exists y, heap s !! p = Some y).
  { intros p Hpl. apply (rep_some _ _ _ _ _ Hr). rewrite fmap_app. set_solver. }
  enough (exists s', list_remove t s = Ok s' /\ free_timers s' = free_timers s /\
    timers s' = head_or (A1 ++ A2).*1 None /\ calls s' = calls s /\
    forall p, heap s' !! p = (fun y =>
     y <| prev := if decide (head_or A2.*1 None = Some p) then last_or A1.*1 None else prev y |>
       <| next := if decide (last_or A1.*1 None = Some p) then head_or A2.*1 None else next y |>) <$> heap s !! p)
    as (s' & ? & Hfr & Hti & ? & Hh).
  { exists s'. split_and!; [done|by apply (rep_remove s s' A1 t c A2)|done|]. rewrite Hh, Hx. by rewrite <- Hcx. }
  unfold list_remove. rewrite (node_ok _ _ _ Hx). cbn [res_bind]. rewrite Hp, Hn. rewrite !fmap_app in *.
  destruct (list_snoc_inv A1) as [->|(A1' & [a ca] & ->)], A2 as [|[b cb] A2];
    rewrite ?fmap_app in *; simpl in *; rewrite ?last_or_app in *; simpl in *.
  - derefs. rewrite Hn. eexists. split_and!; try done. links.
  - destruct (Hdom b ltac:(set_solver)) as [y Hy]. assert (b <> t) by (apply NoDup_cons in Hd; set_solver).
    derefs. rewrite Hn, Hp. writes. eexists. split_and!; try done. links.
  - destruct (Hdom a ltac:(set_solver)) as [y Hy]. apply NoDup_app in Hd as (_ & Hd & _). specialize (Hd a ltac:(set_solver)).
    assert (a <> t) by set_solver. writes. derefs. rewrite Hn. eexists. split_and!; try done; [simpl; rewrite Ht; by destruct A1'|]. links.
  - destruct (Hdom a ltac:(set_solver)) as [y Hy], (Hdom b ltac:(set_solver)) as [z Hz].
    apply NoDup_app in Hd as (_ & Hd & Hd2). specialize (Hd a ltac:(set_solver)). apply NoDup_cons in Hd2 as [Hd2 _].
    assert (a <> t) by set_solver. assert (a <> b) by set_solver. assert (b <> t) by set_solver.
    writes. derefs. rewrite Hn, Hp. writes. eexists. split_and!; try done; [simpl; rewrite Ht; by destruct A1'|]. links.
Qed.

(** ** Contents and the free list *)

Lemma linked_same h h' pv l nx :
  (forall p, (fun x => (prev x, next x)) <$> h' !! p = (fun x => (prev x, next x)) <$> h !! p) ->
  linked h pv l nx -> linked h' pv l nx.
Proof.
  intros Hh. revert pv. induction l as [|p l IH]; intros pv; [done|]. simpl. intros [(x & Hx & <- & <-) Hs].
  split; [|by apply IH]. specialize (Hh p). rewrite Hx in Hh. destruct (h' !! p) as [y|] eqn:E; [|done].
  simpl in Hh. exists y. naive_solver.
Qed.

(** Writing the contents of a node that is not free. *)
Lemma rep_write s A A' f loose t x y :
  rep s A f loose -> heap s !! t = Some x -> prev y = prev x -> next y = next x -> ~ t ∈ f ->
  A'.*1 = A.*1 -> contents (<[t := y]> (heap s)) A' -> rep (s <| heap := <[t := y]> (heap s) |>) A' f loose.
Proof.
  intros [] Ht Hp Hn Hf HA Hc. split; simpl; rewrite ?HA; try done.
  - apply (linked_same (heap s)); [|done]. intros p. destruct (decide (p = t)) as [->|]; simplify_map_eq; [|done]. congruence.
  - apply (chain_frame (heap s)); [|done]. intros p Hpf. apply lookup_insert_ne. congruence.
  - intros p. rewrite <- rep_dom0. destruct (decide (p = t)) as [->|]; simplify_map_eq; [|done]. split; eauto.
Qed.

Lemma rep_active_not_free s A f loose t : rep s A f loose -> t ∈ A.*1 -> ~ t ∈ f.
Proof. intros [] H1 H2. apply NoDup_app in rep_nodup0 as (_ & Hd & _). apply (Hd t H1). set_solver. Qed.

Lemma contents_other h A t y : contents h A -> ~ t ∈ A.*1 -> contents (<[t := y]> h) A.
Proof.
  unfold contents. rewrite !Forall_forall. intros H Ht e He. rewrite lookup_insert_ne; [by apply H|].
  intros ->. apply Ht. by apply list_elem_of_fmap_2.
Qed.

(** A change of the client's fields. *)
Definition plain (g : Timer -> Timer) : Prop :=
  forall x, core (g x) = g (core x) /\ prev (g x) = prev x /\ next (g x) = next x.

Lemma write_active s A1 t c A2 f loose g :
  rep s (A1 ++ (t, c) :: A2) f loose -> plain g ->
  exists s', write t g s = Ok s' /\ rep s' (A1 ++ (t, g c) :: A2) f loose /\ calls s' = calls s.
Proof.
  intros Hr Hg. destruct (rep_node _ _ _ _ _ _ _ Hr) as (x & Hx & <- & _). destruct (Hg x) as (Hc & ? & ?).
  rewrite (write_ok _ _ _ x) by done. eexists. split; [done|]. split; [|done].
  pose proof (rep_nodup_active _ _ _ _ Hr) as Hn.
  apply (rep_write s (A1 ++ (t, core x) :: A2) _ f loose t x); try done.
  - apply (rep_active_not_free _ _ _ _ _ Hr). rewrite fmap_app. set_solver.
  - by rewrite !fmap_app.
  - rewrite fmap_app in Hn. simpl in Hn. apply NoDup_app in Hn as (_ & Hd & [Hn _]%NoDup_cons).
    destruct Hr. apply Forall_app in rep_contents0 as [H1 [_ H2]%Forall_cons].
    apply Forall_app. split; [|constructor].
    + apply contents_other; [done|]. intros Hin. specialize (Hd t Hin). set_solver.
    + simpl. rewrite lookup_insert_eq. simpl. by rewrite Hc.
    + by apply contents_other.
Qed.

Lemma write_loose s A f t loose x g :
  rep s A f (t :: loose) -> heap s !! t = Some x -> plain g ->
  exists s', write t g s = Ok s' /\ rep s' A f (t :: loose) /\ calls s' = calls s /\ core <$> heap s' !! t = Some (g (core x)).
Proof.
  intros Hr Hx Hg. destruct (Hg x) as (Hc & ? & ?). rewrite (write_ok _ _ _ x) by done.
  eexists. split; [done|]. split; [|simpl; rewrite lookup_insert_eq; simpl; by rewrite Hc].
  apply (rep_write s A _ f _ t x); try done.
  - destruct Hr. apply NoDup_app in rep_nodup0 as (_ & _ & Hn). apply NoDup_app in Hn as (_ & Hd & _).
    intros Hf. apply (Hd t Hf). set_solver.
  - apply contents_other; [apply Hr|]. by apply rep_loose_fresh in Hr.
Qed.

Lemma take_free s A t f loose :
  rep s A (t :: f) loose ->
  exists x, heap s !! t = Some x /\ free_timers s = Some t /\ rep (s <| free_timers := next x |>) A f (t :: loose).
Proof.
  intros []. destruct rep_free0 as (Hf & x & Hx & Hc). exists x. split_and!; [done..|].
  assert (Hp : A.*1 ++ (t :: f) ++ loose ≡ₚ A.*1 ++ f ++ t :: loose) by solve_Permutation.
  split; try done; [by rewrite <- Hp|]. intros p. by rewrite <- Hp.
Qed.

Lemma take_new s A f loose t junk :
  rep s A f loose -> heap s !! t = None -> rep (s <| heap := <[t := junk]> (heap s) |>) A f (t :: loose).
Proof.
  intros [] Ht. assert (Hn : ~ t ∈ A.*1 ++ f ++ loose) by (rewrite <- rep_dom0, Ht; by intros [??]).
  assert (Hp : A.*1 ++ f ++ t :: loose ≡ₚ t :: (A.*1 ++ f ++ loose)) by solve_Permutation.
  split; simpl; try done.
  - apply (linked_frame (heap s)); [|done]. intros p Hpl. apply lookup_insert_ne. set_solver.
  - apply contents_other; [done|set_solver].
  - apply (chain_frame (heap s)); [|done]. intros p Hpl. apply lookup_insert_ne. set_solver.
  - rewrite Hp. by constructor.
  - intros p. rewrite Hp, elem_of_cons, <- rep_dom0. destruct (decide (p = t)) as [->|]; simplify_map_eq; naive_solver.
Qed.

(** A loose node is put on the free list. *)
Lemma put_free s A f t loose :
  rep s A f (t :: loose) ->
  exists s', (let! s := set_next t (free_timers s) s in set_prev t None (s <| free_timers := Some t |>)) = Ok s' /\
    rep s' A (t :: f) loose /\ calls s' = calls s.
Proof.
  intros Hr. destruct (rep_some _ _ _ _ t Hr ltac:(set_solver)) as [x Hx]. writes. eexists. split; [done|]. split; [|done].
  pose proof (rep_loose_fresh _ _ _ _ _ Hr) as Hta. destruct Hr.
  assert (Hp : A.*1 ++ (t :: f) ++ loose ≡ₚ A.*1 ++ f ++ t :: loose) by solve_Permutation.
  assert (Htf : ~ t ∈ f).
  { rewrite Permutation_app_comm in rep_nodup0. apply NoDup_app in rep_nodup0 as (Hn & _ & _).
    apply NoDup_app in Hn as (_ & Hd & _). intros Hf. apply (Hd t Hf). set_solver. }
  split; simpl; rewrite ?Hp; try done.
  - apply (linked_frame (heap s)); [|done]. intros p Hpl. by rewrite !lookup_insert_ne by set_solver.
  - apply contents_other; [|done]. by apply contents_other.
  - split; [done|]. eexists. split; [by simplify_map_eq|]. simpl. apply (chain_frame (heap s)); [|done].
    intros p Hpl. by rewrite !lookup_insert_ne by set_solver.
  - intros p. rewrite Hp, <- rep_dom0. destruct (decide (p = t)) as [->|]; simplify_map_eq; naive_solver.
Qed.
