(* ===== verification/MperfRun.v ===== *)
(** * What the timers of mperf do

    The operations of [MperfTimer] on the abstract state: the active timers in
    the order of their times, and the free nodes. A run of the due timers
    ends when periods are positive; it calls every timer that is due. *)

From S2P Require Import Prelude MperfTimer.
From Stdlib Require Import Sorting.Sorted.

(** ** Order of times *)

Definition later (e e' : entry) : Prop := before (time (snd e')) (time (snd e)) = false.
Definition sorted (A : list entry) : Prop := StronglySorted later A.

Ltac times := unfold later, before in *; repeat bdestruct_one; simpl in *; try done; try lia.

Lemma later_trans e1 e2 e3 : later e1 e2 -> later e2 e3 -> later e1 e3.
Proof. times. Qed.
Lemma before_later e e' : before (time (snd e)) (time (snd e')) = true -> later e e'.
Proof. times. Qed.

Lemma insert_sorted e A : sorted A -> sorted (insert e A).
Proof.
  induction 1 as [|e' A HA IH Hf]; simpl; [repeat constructor|]. destruct (before _ _) eqn:E.
  - constructor; [by constructor|]. constructor; [by apply before_later|].
    apply (Forall_impl _ _ _ Hf). intros. eapply later_trans; [by apply before_later|done].
  - constructor; [done|]. rewrite (insert_perm e A). by constructor.
Qed.

Lemma sorted_app A1 A2 : sorted (A1 ++ A2) <-> sorted A1 /\ sorted A2 /\ Forall (fun e => Forall (later e) A2) A1.
Proof.
  unfold sorted. induction A1 as [|e A1 IH]; simpl.
  - split; [intros; split_and!; [constructor|done|constructor]|tauto].
  - split.
    + intros [H1 H2]%StronglySorted_inv. apply Forall_app in H2 as [??]. apply IH in H1 as (?&?&?). split_and!; [by constructor|done|by constructor].
    + intros ([? ?]%StronglySorted_inv & ? & [? ?]%Forall_cons). constructor; [apply IH; tauto|]. by apply Forall_app.
Qed.

(** Where an entry goes in a sorted list in two parts. *)
Lemma insert_app_l x A1 e A2 :
  before (time (snd x)) (time (snd e)) = true -> insert x (A1 ++ e :: A2) = insert x A1 ++ e :: A2.
Proof.
  intros He. induction A1 as [|e' A1 IH]; cbn [insert app]; [by rewrite He|].
  destruct (before (time (snd x)) (time (snd e'))); [done|]. by rewrite IH.
Qed.

Lemma insert_app_r x A1 e A2 :
  sorted (A1 ++ e :: A2) -> before (time (snd x)) (time (snd e)) = false ->
  insert x (A1 ++ e :: A2) = A1 ++ insert x (e :: A2).
Proof.
  intros (_ & _ & Hs)%sorted_app He. induction Hs as [|e' A1 Hf Hs IH]; [done|].
  change ((e' :: A1) ++ e :: A2) with (e' :: (A1 ++ e :: A2)). cbn [insert].
  assert (before (time (snd x)) (time (snd e')) = false) as ->; [|by rewrite IH].
  apply Forall_cons in Hf as [Hf _]. exact (later_trans _ _ _ Hf He).
Qed.

(** ** A run of the due timers *)

Definition tick (c : Timer) : Timer := c <| time := add_usecs (time c) (usecs c) |>.
Definition called (now : timeval) (p : addr) (c : Timer) : call := (p, timer_proc c, client_data c, now).

(** The timers before the current one, those from it on, the free nodes and
    the calls so far. *)
Fixpoint arun (fuel : nat) (now : timeval) (pre suf : list entry) (f : list addr) (log : list call)
  : option (list entry * list addr * list call) :=
  match suf with
  | [] => Some (pre, f, log)
  | (p, c) :: suf' =>
      match fuel with
      | O => None
      | S fuel =>
          if before now (time c) then Some (pre ++ suf, f, log)
          else
            let log := log ++ [called now p c] in
            if periodic c then
              let e := (p, tick c) in
              match suf' with
              | [] => Some (insert e pre, f, log)
              | e' :: _ =>
                  if before (time (snd e)) (time (snd e')) then arun fuel now (insert e pre) suf' f log
                  else arun fuel now pre (insert e suf') f log
              end
            else arun fuel now pre suf' (p :: f) log
      end
  end.

Lemma tick_plain : plain tick.
Proof. by intros []. Qed.

Lemma tmr_cancel_ok s A1 t c A2 f loose :
  rep s (A1 ++ (t, c) :: A2) f loose ->
  exists s', tmr_cancel t s = Ok s' /\ rep s' (A1 ++ A2) (t :: f) loose /\ calls s' = calls s.
Proof.
  intros Hr. unfold tmr_cancel. destruct (list_remove_ok _ _ _ _ _ _ _ Hr) as (s1 & -> & Hr1 & Hc1 & _).
  cbn [res_bind]. rewrite <- Hc1. by apply put_free.
Qed.

(** Changing the contents of an active timer and sorting it in again. *)
Lemma resort_ok s A1 t c A2 f loose g :
  rep s (A1 ++ (t, c) :: A2) f loose -> plain g ->
  exists s', (let! s := write t g s in list_resort t s) = Ok s' /\
    rep s' (insert (t, g c) (A1 ++ A2)) f loose /\ calls s' = calls s.
Proof.
  intros Hr Hg. destruct (write_active _ _ _ _ _ _ _ _ Hr Hg) as (s1 & -> & Hr1 & <-). cbn [res_bind]. unfold list_resort.
  destruct (list_remove_ok _ _ _ _ _ _ _ Hr1) as (s2 & -> & Hr2 & <- & Hc). cbn [res_bind].
  by apply list_add_ok.
Qed.

Lemma resorted p c pre suf :
  sorted (pre ++ (p, c) :: suf) ->
  sorted (pre ++ suf) /\
  insert (p, tick c) (pre ++ suf) =
    match suf with
    | [] => insert (p, tick c) pre
    | e' :: _ => if before (time (tick c)) (time (snd e')) then insert (p, tick c) pre ++ suf else pre ++ insert (p, tick c) suf
    end.
Proof.
  intros Hs. assert (Hs' : sorted (pre ++ suf)).
  { apply sorted_app in Hs as (? & [? _]%StronglySorted_inv & Hf). apply sorted_app. split_and!; [done..|].
    apply (Forall_impl _ _ _ Hf). by intros e [_ ?]%Forall_cons. }
  split; [done|]. destruct suf as [|e' suf]; [by rewrite app_nil_r|].
  destruct (before _ _) eqn:E; [by apply insert_app_l|by apply insert_app_r].
Qed.

(** The loop of the code does what [arun] does. *)
Lemma run_loop_ok now fuel : forall pre suf s f A' f' log',
  rep s (pre ++ suf) f [] -> sorted (pre ++ suf) -> arun fuel now pre suf f (calls s) = Some (A', f', log') ->
  exists s', run_loop fuel now (head_or suf.*1 None) s = Ok s' /\ rep s' A' f' [] /\ sorted A' /\ calls s' = log'.
Proof.
  induction fuel as [|fuel IH]; intros pre [|[p c] suf] s f A' f' log' Hr Hs; simpl; try done.
  1, 2: rewrite app_nil_r in *; intros [= <- <- <-]; eauto.
  destruct (rep_node _ _ _ _ _ _ _ Hr) as (x & Hx & Hc & _ & Hn). rewrite (node_ok _ _ _ Hx). cbn [res_bind].
  assert (time x = time c /\ periodic x = periodic c /\ timer_proc x = timer_proc c /\ client_data x = client_data c)
    as (-> & -> & -> & ->) by (by rewrite <- Hc).
  destruct (before _ _); [intros [= <- <- <-]; eauto|]. rewrite Hn.
  set (s0 := s <| calls := _ |>). assert (Hr0 : rep s0 (pre ++ (p, c) :: suf) f []) by (by destruct Hr).
  destruct (resorted p c pre suf Hs) as [Hs' Hi]. change (calls s ++ [called now p c]) with (calls s0). destruct (periodic c).
  - destruct (resort_ok _ _ _ _ _ _ _ _ Hr0 tick_plain) as (s1 & E1 & Hr1 & <-). fold tick. rewrite E1. cbn [res_bind].
    pose proof (insert_sorted (p, tick c) _ Hs') as Hs1. rewrite Hi in Hr1, Hs1. destruct suf as [|e' suf].
    + intros [= <- <- <-]. destruct fuel; simpl; eauto.
    + change (add_usecs (time c) (usecs c)) with (time (tick c)). destruct (before (time (tick c)) _) eqn:E.
      * intros Ha. apply (IH _ _ _ _ _ _ _ Hr1 Hs1 Ha).
      * intros Ha. replace (head_or (e' :: suf).*1 None) with (head_or (insert (p, tick c) (e' :: suf)).*1 None).
        { apply (IH _ _ _ _ _ _ _ Hr1 Hs1 Ha). }
        cbn [insert]. change (snd (p, tick c)) with (tick c). by rewrite E.
  - destruct (tmr_cancel_ok _ _ _ _ _ _ _ Hr0) as (s1 & -> & Hr1 & <-). cbn [res_bind].
    intros Ha. apply (IH _ _ _ _ _ _ _ Hr1 Hs' Ha).
Qed.

(** ** The run ends *)

Definition us (t : timeval) : Z := tv_sec t * 1000000 + tv_usec t.
Definition normal (t : timeval) : Prop := 0 <= tv_usec t < 1000000.
(** A timer as clients create it: with a period that is not negative, and
    positive when it is periodic. *)
Definition proper (c : Timer) : Prop := normal (time c) /\ 0 <= usecs c /\ (periodic c = true -> 0 < usecs c).

Lemma before_us a b : normal a -> normal b -> before a b = (us a <? us b).
Proof. unfold normal, us, before. intros. repeat bdestruct_one; simpl; done || lia. Qed.

Lemma add_usecs_us t d : normal t -> 0 <= d -> normal (add_usecs t d) /\ us (add_usecs t d) = us t + d.
Proof.
  unfold normal, us, add_usecs. intros. rewrite Z.quot_div_nonneg, Z.rem_mod_nonneg by lia.
  pose proof (Z.mod_pos_bound d 1000000 ltac:(lia)). pose proof (Z.div_mod d 1000000 ltac:(lia)).
  bdestruct_one; simpl; [|lia]. rewrite Z.quot_div_nonneg, Z.rem_mod_nonneg by lia.
  Z.to_euclidean_division_equations; lia.
Qed.

Lemma tick_proper c : proper c -> proper (tick c) /\ us (time (tick c)) = us (time c) + usecs c.
Proof. intros (Hn & Hu & Hp). destruct (add_usecs_us (time c) (usecs c) Hn Hu). by split; [split|]. Qed.

(** How often a timer can still be called before [now]. *)
Definition weight (now : timeval) (c : Timer) : nat :=
  if before now (time c) then 0
  else if periodic c then S (Z.to_nat ((us now - us (time c)) / usecs c)) else 1.
Fixpoint run_bound (now : timeval) (A : list entry) : nat :=
  match A with [] => 0 | e :: A => weight now (snd e) + run_bound now A end.

Lemma run_bound_insert now e A : run_bound now (insert e A) = (weight now (snd e) + run_bound now A)%nat.
Proof. induction A as [|e' A IH]; simpl; [done|]. destruct (before _ _); simpl; lia. Qed.

Lemma weight_tick now c :
  normal now -> proper c -> before now (time c) = false -> periodic c = true -> (weight now (tick c) < weight now c)%nat.
Proof.
  intros Hw Hc Hd Hp. destruct (tick_proper c Hc) as [Ht Hu]. unfold weight. rewrite Hd, Hp.
  replace (periodic (tick c)) with true by done. change (usecs (tick c)) with (usecs c).
  rewrite before_us in * by (done || apply Hc || apply Ht). destruct Hc as (_ & _ & Hpos). specialize (Hpos Hp).
  bdestruct_one; [lia|]. bdestruct_one; [done|]. rewrite Hu in *.
  replace (us now - us (time c)) with (us now - (us (time c) + usecs c) + 1 * usecs c) by lia. rewrite Z.div_add by lia.
  pose proof (Z.div_pos (us now - (us (time c) + usecs c)) (usecs c)). lia.
Qed.

Lemma insert_Forall (Q : entry -> Prop) e A : Q e -> Forall Q A -> Forall Q (insert e A).
Proof. intros. rewrite insert_perm. by constructor. Qed.

Lemma arun_ends now fuel : normal now -> forall pre suf f log,
  Forall (fun e => proper (snd e)) suf -> (run_bound now suf < fuel)%nat -> is_Some (arun fuel now pre suf f log).
Proof.
  intros Hw. induction fuel as [|fuel IH]; intros pre [|[p c] suf] f log Hs Hb; simpl in *; try done; try lia.
  apply Forall_cons in Hs as [Hc Hs]. simpl in Hc. destruct (before now (time c)) eqn:Hd; [done|].
  destruct (periodic c) eqn:Hp.
  - pose proof (weight_tick now c Hw Hc Hd Hp). destruct suf as [|e' suf]; [done|].
    change (add_usecs (time c) (usecs c)) with (time (tick c)). destruct (before (time (tick c)) _) eqn:E; apply IH; try done; try lia.
    + apply insert_Forall; [apply (tick_proper c Hc)|done].
    + rewrite run_bound_insert. simpl in *. lia.
  - apply IH; [done|]. unfold weight in Hb. rewrite Hd, Hp in Hb. lia.
Qed.

(** ** What a run does to each timer *)

Definition caller (x : call) : addr := fst (fst (fst x)).
Definition count (p : addr) (l : list call) : nat := length (filter (fun x => caller x = p) l).

(** A timer that is not due is left alone. A periodic timer that is due is
    called at least once, and its time moves on by one period per call. A
    one-shot timer that is due is called once and is no longer active. *)
Definition outcome (now : timeval) (p : addr) (c : Timer) (k : nat) (A' : list entry) : Prop :=
  if before now (time c) then k = O /\ (p, c) ∈ A'
  else if periodic c then (1 <= k)%nat /\ (p, Nat.iter k tick c) ∈ A'
  else k = 1%nat /\ ~ p ∈ A'.*1.

Lemma count_cons p x l : count p (x :: l) = ((if decide (caller x = p) then 1 else 0) + count p l)%nat.
Proof. unfold count. rewrite filter_cons. by case_decide. Qed.

Lemma count_zero p l : (forall x, x ∈ l -> caller x <> p) -> count p l = O.
Proof.
  induction l as [|x l IH]; [done|]. intros H. rewrite count_cons, decide_False by (apply H; set_solver).
  rewrite IH; [done|]. intros. apply H. set_solver.
Qed.

Lemma outcome_tick now p c k A' :
  before now (time c) = false -> periodic c = true -> outcome now p (tick c) k A' -> outcome now p c (S k) A'.
Proof.
  unfold outcome. intros -> Hp. rewrite Hp. change (periodic (tick c)) with (periodic c). rewrite Hp.
  destruct (before now (time (tick c))); intros [Hk Hin]; [by subst k|].
  split; [lia|]. by rewrite Nat.iter_succ_r.
Qed.

(** The effect of a run from [pre] and [suf] on, with the calls [new]. *)
Definition effect (now : timeval) (pre suf A' : list entry) (new : list call) : Prop :=
  (forall p c, (p, c) ∈ pre -> (p, c) ∈ A') /\
  (forall p c, (p, c) ∈ suf -> outcome now p c (count p new) A') /\
  (forall x, x ∈ new -> caller x ∈ suf.*1) /\ A'.*1 ⊆ (pre ++ suf).*1.

Lemma effect_stop now pre p c suf :
  sorted (pre ++ (p, c) :: suf) -> before now (time c) = true -> effect now pre ((p, c) :: suf) (pre ++ (p, c) :: suf) [].
Proof.
  intros (_ & [_ Hs]%StronglySorted_inv & _)%sorted_app Hd. split_and!; [set_solver| |set_solver|done].
  intros q d Hq. assert (before now (time d) = true) as E.
  { apply elem_of_cons in Hq as [[= -> ->]|Hq]; [done|]. rewrite Forall_forall in Hs. specialize (Hs _ Hq). simpl in Hs.
    times. }
  unfold outcome. rewrite E. split; [done|set_solver].
Qed.

Lemma effect_step now p c pre suf pre1 suf1 A' new x :
  NoDup (pre ++ (p, c) :: suf).*1 -> before now (time c) = false -> caller x = p ->
  (forall e, e ∈ pre -> e ∈ pre1) -> (forall e, e ∈ suf -> e ∈ suf1) ->
  (forall e, e ∈ suf1 -> fst e = p \/ e ∈ suf) -> (pre1 ++ suf1).*1 ⊆ (pre ++ (p, c) :: suf).*1 ->
  effect now pre1 suf1 A' new -> outcome now p c (S (count p new)) A' ->
  effect now pre ((p, c) :: suf) A' (x :: new).
Proof.
  intros Hn Hd Hx Hpre Hsuf Hsuf1 Hsub (H1 & H2 & H3 & H4) Ho. rewrite fmap_app in Hn.
  apply NoDup_app in Hn as (_ & _ & [Hp _]%NoDup_cons). split_and!.
  - intros q d Hq. by apply H1, Hpre.
  - intros q d Hq. rewrite count_cons, Hx. apply elem_of_cons in Hq as [[= -> ->]|Hq]; [by rewrite decide_True|].
    rewrite decide_False; [by apply H2, Hsuf|]. intros ->. apply Hp. by apply (list_elem_of_fmap_2 fst) in Hq.
  - intros y [->|Hy]%elem_of_cons; [set_solver|]. specialize (H3 y Hy).
    apply list_elem_of_fmap in H3 as (e & -> & He). destruct (Hsuf1 e He) as [->|He']; [set_solver|].
    apply (list_elem_of_fmap_2 fst) in He'. set_solver.
  - by etransitivity.
Qed.

Lemma insert_elem e e' A : e' ∈ insert e A <-> e' = e \/ e' ∈ A.
Proof. by rewrite insert_perm, elem_of_cons. Qed.

Lemma tick_called now p c pre suf A' new pre1 :
  NoDup (pre ++ (p, c) :: suf).*1 -> before now (time c) = false -> periodic c = true ->
  (p, tick c) ∈ pre1 -> effect now pre1 suf A' new -> outcome now p c (S (count p new)) A'.
Proof.
  intros Hn Hd Hp Hin (H1 & _ & H3 & _). rewrite count_zero.
  - unfold outcome. rewrite Hd, Hp. split; [lia|]. by apply H1.
  - intros x Hx E. specialize (H3 x Hx). rewrite fmap_app in Hn. apply NoDup_app in Hn as (_ & _ & [Hnp _]%NoDup_cons).
    by rewrite E in H3.
Qed.

Lemma keys_resort p c (pre suf pre1 suf1 : list entry) :
  pre1 ++ suf1 ≡ₚ (p, tick c) :: pre ++ suf -> (pre1 ++ suf1).*1 ≡ₚ (pre ++ (p, c) :: suf).*1.
Proof. intros ->. rewrite !fmap_cons, !fmap_app, fmap_cons. simpl. solve_Permutation. Qed.

Lemma arun_effect now fuel : forall pre suf f log A' f' log',
  sorted (pre ++ suf) -> NoDup (pre ++ suf).*1 -> arun fuel now pre suf f log = Some (A', f', log') ->
  exists new, log' = log ++ new /\ effect now pre suf A' new.
Proof.
  assert (Hnil : forall pre, effect now pre [] pre []).
  { intros pre. split_and!; [done|set_solver..|]. by rewrite app_nil_r. }
  induction fuel as [|fuel IH]; intros pre [|[p c] suf] f log A' f' log' Hs Hn; simpl; try done.
  1, 2: intros [= <- <- <-]; exists []; by rewrite app_nil_r.
  destruct (before now (time c)) eqn:Hd.
  { intros [= <- <- <-]. exists []. rewrite app_nil_r. split; [done|]. by apply effect_stop. }
  destruct (resorted p c pre suf Hs) as [Hs' Hi]. pose proof (insert_sorted (p, tick c) _ Hs') as Hs1. rewrite Hi in Hs1.
  destruct (periodic c) eqn:Hp; [destruct suf as [|e' suf]|].
  - intros [= <- <- <-]. exists [called now p c]. split; [done|].
    apply (effect_step now p c pre [] (insert (p, tick c) pre) []); try done; try set_solver.
    + intros e He. apply insert_elem. by right.
    + rewrite (keys_resort p c pre [] (insert (p, tick c) pre) []); [done|]. by rewrite !app_nil_r, insert_perm.
    + apply (tick_called now p c pre [] _ _ (insert (p, tick c) pre)); try done. apply insert_elem. by left.
  - change (add_usecs (time c) (usecs c)) with (time (tick c)). destruct (before (time (tick c)) _) eqn:E; intros Ha.
    + assert (Hk := keys_resort p c pre (e' :: suf) (insert (p, tick c) pre) (e' :: suf) ltac:(by rewrite insert_perm)).
      destruct (IH _ _ _ _ _ _ _ Hs1 ltac:(by rewrite Hk) Ha) as (new & -> & He). exists (called now p c :: new).
      rewrite <- app_assoc. split; [done|].
      apply (effect_step now p c pre (e' :: suf) (insert (p, tick c) pre) (e' :: suf)); try done; try (by right).
      * intros e ?. apply insert_elem. by right.
      * by rewrite Hk.
      * apply (tick_called now p c pre (e' :: suf) _ _ (insert (p, tick c) pre)); try done. apply insert_elem. by left.
    + assert (Hk := keys_resort p c pre (e' :: suf) pre (insert (p, tick c) (e' :: suf))
        ltac:(rewrite insert_perm; solve_Permutation)).
      destruct (IH _ _ _ _ _ _ _ Hs1 ltac:(by rewrite Hk) Ha) as (new & -> & He). exists (called now p c :: new).
      rewrite <- app_assoc. split; [done|].
      apply (effect_step now p c pre (e' :: suf) pre (insert (p, tick c) (e' :: suf))); try done.
      * intros e ?. apply insert_elem. by right.
      * intros e [->|?]%insert_elem; [by left|by right].
      * by rewrite Hk.
      * apply outcome_tick; try done. destruct He as (_ & H2 & _). apply H2, insert_elem. by left.
  - intros Ha. rewrite fmap_app in Hn. simpl in Hn. pose proof Hn as Hn0. rewrite <- Permutation_middle in Hn.
    apply NoDup_cons in Hn as [Hnp Hn]. rewrite <- fmap_app in Hn, Hnp.
    destruct (IH _ _ _ _ _ _ _ Hs' Hn Ha) as (new & -> & He). exists (called now p c :: new).
    rewrite <- app_assoc. split; [done|].
    apply (effect_step now p c pre suf pre suf); try done; try (by right).
    + by rewrite fmap_app.
    + rewrite !fmap_app. set_solver.
    + unfold outcome. rewrite Hd, Hp. destruct He as (_ & _ & H3 & H4). split; [|by intros ?%H4].
      rewrite count_zero; [done|]. intros x Hx <-. specialize (H3 x Hx). rewrite fmap_app in Hnp. set_solver.
Qed.


(** ** Sequences of operations *)

Inductive op :=
| Create (now : timeval) (proc data us : Z) (per : bool) (mal : option addr) (junk : Timer)
| Reset (now : timeval) (t : addr)
| Cancel (t : addr)
| Run (fuel : nat) (now : timeval)
| Cleanup
| Destroy.

Definition tstep (o : op) (s : tstate) : res tstate :=
  match o with
  | Create now proc data us per mal junk => let! (_, s) := tmr_create now proc data us per mal junk s in Ok s
  | Reset now t => tmr_reset now t s
  | Cancel t => tmr_cancel t s
  | Run fuel now => tmr_run fuel now s
  | Cleanup => tmr_cleanup s
  | Destroy => tmr_destroy s
  end.
Fixpoint texec (l : list op) (s : tstate) : res tstate :=
  match l with [] => Ok s | o :: l => let! s := tstep o s in texec l s end.

(** The abstract timers: the active ones by time, the free nodes, the calls. *)
Definition atimers : Type := list entry * list addr * list call.

Fixpoint split_at (t : addr) (A : list entry) : option (list entry * Timer * list entry) :=
  match A with
  | [] => None
  | (p, c) :: A =>
      if decide (p = t) then Some ([], c, A)
      else '(A1, d, A2) ← split_at t A; Some ((p, c) :: A1, d, A2)
  end.

(** There is no result when the client breaks the rules: a timer reset or
    cancelled that is not active, an address from [malloc] that is in use, or
    a run with too little fuel. *)
Definition astep (o : op) (a : atimers) : option atimers :=
  let '(A, f, log) := a in
  match o with
  | Create now proc data us per mal junk =>
      let c := mkTimer proc data us per (add_usecs now us) None None in
      match f, mal with
      | t :: f, _ => Some (insert (t, c) A, f, log)
      | [], Some t => if decide (t ∈ A.*1) then None else Some (insert (t, c) A, [], log)
      | [], None => Some (A, [], log)
      end
  | Reset now t => '(A1, c, A2) ← split_at t A; Some (insert (t, c <| time := add_usecs now (usecs c) |>) (A1 ++ A2), f, log)
  | Cancel t => '(A1, c, A2) ← split_at t A; Some (A1 ++ A2, t :: f, log)
  | Run fuel now => arun fuel now [] A f log
  | Cleanup => Some (A, [], log)
  | Destroy => Some ([], [], log)
  end.
Fixpoint aexec (l : list op) (a : atimers) : option atimers :=
  match l with [] => Some a | o :: l => a ← astep o a; aexec l a end.

Definition refines (s : tstate) (a : atimers) : Prop :=
  let '(A, f, log) := a in rep s A f [] /\ sorted A /\ calls s = log.

Lemma split_at_eq t A A1 c A2 : split_at t A = Some (A1, c, A2) -> A = A1 ++ (t, c) :: A2.
Proof.
  revert A1. induction A as [|[p d] A IH]; intros A1; simpl; [done|]. case_decide as E; [by intros [= <- <- <-]; subst|].
  intros ([[B1 d'] B2] & Hs & [= <- <- <-])%bind_Some. simpl. by rewrite (IH _ Hs).
Qed.

Lemma sorted_delete A1 e A2 : sorted (A1 ++ e :: A2) -> sorted (A1 ++ A2).
Proof.
  intros (? & [? _]%StronglySorted_inv & Hf)%sorted_app. apply sorted_app. split_and!; [done..|].
  apply (Forall_impl _ _ _ Hf). by intros e' [_ ?]%Forall_cons.
Qed.

Lemma tmr_create_ok s A f log now proc data us per mal junk a' :
  refines s (A, f, log) -> astep (Create now proc data us per mal junk) (A, f, log) = Some a' ->
  exists s', tstep (Create now proc data us per mal junk) s = Ok s' /\ refines s' a'.
Proof.
  intros (Hr & Hs & Hl). set (g := fun x : Timer => x <| timer_proc := proc |> <| client_data := data |> <| usecs := us |>
                                    <| periodic := per |> <| time := add_usecs now us |>).
  assert (Hg : plain g) by (by intros []).
  assert (Hadd : forall s1 f1 t x, rep s1 A f1 [t] -> heap s1 !! t = Some x -> calls s1 = log ->
    exists s', (let! s := write t g s1 in let! s := list_add t s in Ok s) = Ok s' /\
      refines s' (insert (t, mkTimer proc data us per (add_usecs now us) None None) A, f1, log)).
  { intros s1 f1 t x Hr1 Hx Hc1. destruct (write_loose _ _ _ _ _ _ _ Hr1 Hx Hg) as (s2 & -> & Hr2 & Hc2 & Hx2). cbn [res_bind].
    destruct (list_add_ok _ _ _ _ _ _ Hr2 Hx2) as (s3 & -> & Hr3 & Hc3). exists s3. split; [done|].
    split_and!; [by destruct x|by apply insert_sorted|congruence]. }
  unfold tstep, tmr_create, take_node, astep. destruct f as [|t f].
  - assert (free_timers s = None) as -> by apply Hr. destruct mal as [t|].
    + case_decide as Ht; [done|]. intros [= <-]. cbn [res_bind].
      assert (heap s !! t = None).
      { apply eq_None_not_Some. intros Hx%(rep_dom _ _ _ _ Hr). set_solver. }
      destruct (Hadd _ [] t junk (take_new s A [] [] t junk Hr ltac:(done))) as (s' & E & ?); [by simpl; simplify_map_eq|done|].
      exists s'. split; [|done]. fold g. destruct (write t g _); simpl in *; [|done]. by destruct (list_add t a).
    + intros [= <-]. cbn [res_bind]. by exists s.
  - intros Ha. destruct mal; injection Ha as <-.
    all: destruct (take_free _ _ _ _ _ Hr) as (x & Hx & -> & Hr1); rewrite (node_ok _ _ _ Hx); cbn [res_bind];
      destruct (Hadd _ f t x Hr1 Hx Hl) as (s' & E & ?); exists s'; split; [|done]; fold g;
      destruct (write t g _); simpl in *; [|done]; by destruct (list_add t a).
Qed.

Lemma rep_delete s A f t loose : rep s A f (t :: loose) -> rep (s <| heap := delete t (heap s) |>) A f loose.
Proof.
  intros []. assert (Hp : A.*1 ++ f ++ t :: loose ≡ₚ t :: (A.*1 ++ f ++ loose)) by solve_Permutation.
  rewrite Hp in rep_nodup. apply NoDup_cons in rep_nodup as [Ht Hn].
  assert (Hne : forall p, p ∈ A.*1 ++ f ++ loose -> delete t (heap s) !! p = heap s !! p)
    by (intros p Hpl; apply lookup_delete_ne; congruence).
  split; simpl; try done.
  - apply (linked_frame (heap s)); [|done]. intros. apply Hne. set_solver.
  - unfold contents in *. rewrite Forall_forall in *. intros e He. rewrite Hne by (apply (list_elem_of_fmap_2 fst) in He; set_solver). auto.
  - apply (chain_frame (heap s)); [|done]. intros. apply Hne. set_solver.
  - intros p. destruct (decide (p = t)) as [->|].
    + rewrite lookup_delete_eq. split; [by intros [??]|done].
    + rewrite lookup_delete_ne, rep_dom, Hp by done. set_solver.
Qed.

Lemma cleanup_ok fuel : forall s A f,
  rep s A f [] -> (length f <= fuel)%nat ->
  exists s', cleanup_loop fuel s = Ok s' /\ rep s' A [] [] /\ calls s' = calls s.
Proof.
  induction fuel as [|fuel IH]; intros s A [|t f] Hr Hf; simpl in *; try lia.
  1, 2: assert (free_timers s = None) as -> by apply Hr; eauto.
  destruct (take_free _ _ _ _ _ Hr) as (x & Hx & -> & Hr1). rewrite (node_ok _ _ _ Hx). cbn [res_bind].
  apply rep_delete in Hr1. destruct (IH _ A f Hr1) as (s' & ? & ? & ?); [lia|]. eauto.
Qed.

Lemma cancel_all_ok fuel : forall s A f,
  rep s A f [] -> (length A <= fuel)%nat ->
  exists s' f', cancel_all fuel s = Ok s' /\ rep s' [] f' [] /\ calls s' = calls s.
Proof.
  induction fuel as [|fuel IH]; intros s [|[t c] A] f Hr Hf; simpl in *; try lia.
  1, 2: rewrite (rep_timers _ _ _ _ Hr); eauto.
  rewrite (rep_timers _ _ _ _ Hr). simpl. destruct (tmr_cancel_ok s [] t c A f [] Hr) as (s1 & -> & Hr1 & <-). cbn [res_bind].
  apply (IH s1 A (t :: f) Hr1). lia.
Qed.

Lemma rep_free_length s A f loose : rep s A f loose -> (length f <= size (heap s))%nat.
Proof.
  intros []. rewrite <- (size_dom (D := gset addr)). apply NoDup_app in rep_nodup as (_ & _ & [Hn _]%NoDup_app).
  rewrite <- (size_list_to_set (C := gset addr)) by done. apply subseteq_size. intros p Hp. apply elem_of_dom, rep_dom. set_solver.
Qed.

Lemma tmr_cleanup_ok s A f : rep s A f [] -> exists s', tmr_cleanup s = Ok s' /\ rep s' A [] [] /\ calls s' = calls s.
Proof. intros Hr. unfold tmr_cleanup. by apply (cleanup_ok _ s A f), (rep_free_length _ A f []). Qed.

Lemma tstep_refines o s a a' : refines s a -> astep o a = Some a' -> exists s', tstep o s = Ok s' /\ refines s' a'.
Proof.
  destruct a as [[A f] log], o.
  { by apply tmr_create_ok. }
  all: intros (Hr & Hs & Hl); unfold astep, tstep.
  - intros ([[A1 c] A2] & E%split_at_eq & [= <-])%bind_Some. subst A. unfold tmr_reset.
    destruct (resort_ok _ _ _ _ _ _ _ (fun x => x <| time := add_usecs now (usecs x) |>) Hr) as (s' & -> & Hr' & Hc'); [by intros []|].
    exists s'. split; [done|]. split_and!; [done| |congruence]. by apply insert_sorted, (sorted_delete _ (t, c)).
  - intros ([[A1 c] A2] & E%split_at_eq & [= <-])%bind_Some. subst A.
    destruct (tmr_cancel_ok _ _ _ _ _ _ _ Hr) as (s' & -> & Hr' & Hc'). exists s'. split; [done|].
    split_and!; [done| |congruence]. by apply (sorted_delete _ (t, c)).
  - intros Ha. destruct a' as [[A' f'] log']. rewrite <- Hl in Ha.
    destruct (run_loop_ok now fuel [] A s f A' f' _ Hr Hs Ha) as (s' & E & ? & ? & ?). exists s'.
    unfold tmr_run. by rewrite (rep_timers _ _ _ _ Hr).
  - intros [= <-]. destruct (tmr_cleanup_ok s A f Hr) as (s' & ? & ? & ?). exists s'. split; [done|]. split_and!; try done. congruence.
  - intros [= <-]. unfold tmr_destroy.
    destruct (cancel_all_ok (size (heap s)) s A f Hr (rep_length _ _ _ _ Hr)) as (s1 & f1 & -> & Hr1 & Hc1). cbn [res_bind].
    destruct (tmr_cleanup_ok s1 [] f1 Hr1) as (s2 & ? & ? & ?). exists s2. split; [done|]. split_and!; [done|constructor|congruence].
Qed.

Lemma tmr_timeout_ok s A f now :
  rep s A f [] -> sorted A -> normal now -> Forall (fun e => normal (time (snd e))) A ->
  match A with
  | [] => tmr_timeout now s = Ok None
  | _ => exists tv e, tmr_timeout now s = Ok (Some tv) /\ normal tv /\ e ∈ A /\
           us tv = Z.max 0 (us (time (snd e)) - us now) /\ forall e', e' ∈ A -> us (time (snd e)) <= us (time (snd e'))
  end.
Proof.
  intros Hr Hs Hn HA. unfold tmr_timeout. rewrite (rep_timers _ _ _ _ Hr). destruct A as [|[p c] A]; [done|]. simpl.
  destruct (rep_node s [] p c A f [] Hr) as (x & Hx & <- & _). rewrite (node_ok _ _ _ Hx). cbn [res_bind].
  eexists _, (p, core x). split; [done|]. simpl. change (time (core x)) with (time x).
  apply Forall_cons in HA as [Hx1 HA]. simpl in Hx1. change (time (core x)) with (time x) in Hx1.
  split_and!.
  - unfold normal, us in *; simpl. bdestruct_one; Z.to_euclidean_division_equations; lia.
  - set_solver.
  - unfold us in *; simpl. bdestruct_one; Z.to_euclidean_division_equations; lia.
  - apply StronglySorted_inv in Hs as [_ Hs]. intros e' [->|He']%elem_of_cons; [done|]. rewrite Forall_forall in *.
    specialize (Hs e' He'). specialize (HA e' He'). unfold later in Hs. rewrite before_us in Hs by done. bdestruct_one; [done|].
    done.
Qed.

Lemma texec_refines ops : forall s a a',
  refines s a -> aexec ops a = Some a' -> exists s', texec ops s = Ok s' /\ refines s' a'.
Proof.
  induction ops as [|o ops IH]; intros s a a' Hr; simpl; [intros [= <-]; eauto|].
  intros (a1 & H1 & H2)%bind_Some. destruct (tstep_refines o s a a1 Hr H1) as (s1 & -> & Hr1). simpl. by apply (IH s1 a1).
Qed.

Lemma tinit_refines : refines tinit ([], [], []).
Proof.
  split_and!; [|constructor|done]. split; simpl; try done; [constructor..|].
  intros p. split; [by intros [??]|set_solver].
Qed.


Definition junk : Timer := mkTimer 0 0 0 false (mkTv 0 0) None None.
Definition demo_ops : list op :=
  [Create (mkTv 10 0) 1 0 500 false (Some 100) junk; Create (mkTv 10 0) 2 0 200 true (Some 101) junk;
   Create (mkTv 10 0) 3 0 900000 false (Some 102) junk; Run 10 (mkTv 10 600); Reset (mkTv 11 0) 101;
   Cancel 102; Create (mkTv 11 0) 4 0 100 false None junk; Cleanup].


Definition demo_entries : list entry :=
  [(101, mkTimer 2 0 200 true (mkTv 10 200) None None); (100, mkTimer 1 0 500 false (mkTv 10 500) None None);
   (102, mkTimer 3 0 900000 false (mkTv 10 900000) None None)].
Definition demo_state : tstate := match texec (take 3 demo_ops) tinit with Ok s => s | Fault _ => tinit end.

Lemma demo_refines : refines demo_state (demo_entries, [], []).
Proof.
  unfold demo_state. destruct (texec_refines (take 3 demo_ops) tinit _ (demo_entries, [], []) tinit_refines) as (s & -> & Hr);
    [vm_compute; reflexivity|done].
Qed.


(** With two periodic timers of period zero a run has no end. *)
Definition zero_ops : list op :=
  [Create (mkTv 10 0) 1 0 0 true (Some 100) junk; Create (mkTv 10 0) 2 0 0 true (Some 101) junk].
Definition zero_heap (first second : Z) (p1 p2 : Z) : gmap addr Timer :=
  <[p1 := mkTimer first 0 0 true (mkTv 10 0) None (Some p2)]>
  (<[p2 := mkTimer second 0 0 true (mkTv 10 0) (Some p1) None]> ∅).
Definition zero_state (flip : bool) (l : list call) : tstate :=
  if flip then mkState (zero_heap 2 1 101 100) (Some 101) None l else mkState (zero_heap 1 2 100 101) (Some 100) None l.

Definition zero_call (flip : bool) : call := if flip then (101, 2, 0, mkTv 10 0) else (100, 1, 0, mkTv 10 0).

Lemma zero_step fuel flip l :
  run_loop (S fuel) (mkTv 10 0) (timers (zero_state flip l)) (zero_state flip l) =
  run_loop fuel (mkTv 10 0) (timers (zero_state (negb flip) (l ++ [zero_call flip]))) (zero_state (negb flip) (l ++ [zero_call flip])).
Proof. destruct flip; reflexivity. Qed.

Theorem zero_period_diverges fuel :
  exists s, texec zero_ops tinit = Ok s /\ tmr_run fuel (mkTv 10 0) s = Fault OutOfFuel.
Proof.
  exists (zero_state false []). split; [vm_compute; reflexivity|]. unfold tmr_run.
  generalize false (@nil call). induction fuel as [|fuel IH]; intros flip l; [by destruct flip|].
  rewrite zero_step. apply IH.
Qed.
