(* ===== verification/MperfProg.v ===== *)
(** * The bandwidth tool mperf: [mperf_util.c], [mperf_config.c],
    [mperf_api.c], [server.c] and [client.c]

    A worker runs [mperf_server_loop] or [mperf_client_loop] over the calls of
    [mtcp_api.h] and [mtcp_epoll.h]. The functions are programs over these
    calls; what a call answers is left open here. [MperfNet] runs a client and
    a server against each other over a network.

    The text of a JSON object, which the vendored [cjson.c] prints and reads,
    is a parameter: [json_print] and [json_parse] of the class [Json]. *)

From Stdlib Require Import String.
From S2P Require Import Prelude.

(** ** Programs over the calls of the stack *)

(** The error numbers the tool distinguishes; [EWOULDBLOCK] is [EAGAIN]. *)
Inductive err := E_INTR | E_AGAIN | E_NOBUFS | E_INPROGRESS | E_OTHER.
(** A result, or -1 with an error number. *)
Inductive io (A : Type) := Got (a : A) | Err (e : err).
Arguments Got {A} a.
Arguments Err {A} e.

Inductive call : Type -> Type :=
| Socket : call (io Z)
| Nonblock (fd : Z) : call (io unit)
| Bind (fd ip port : Z) : call (io unit)
| Listen (fd backlog : Z) : call (io unit)
| Accept (fd : Z) : call (io (Z * Z * Z))          (* socket, address and port of the peer *)
| Connect (fd ip port : Z) : call (io unit)
| Read (fd n : Z) : call (io (list Z))
| Write (fd : Z) (buf : list Z) : call (io Z)
| EpollCtl (op fd events : Z) : call unit
| Close (fd : Z) : call unit
| EpollWait : call (io (list Z))                    (* the sockets that have an event *)
| Malloc (n : Z) : call bool                        (* whether an allocation succeeds *)
| Rand : call (list Z)                              (* the eight bytes of [rte_rand] *)
| Uninit (n : Z) : call (list Z).                   (* what uninitialised bytes hold *)

Inductive prog (A : Type) : Type :=
| Ret (a : A)
| Stop (e : fault)
| Call {R : Type} (c : call R) (k : R -> prog A).
Arguments Ret {A} a.
Arguments Stop {A} e.
Arguments Call {A R} c k.

Fixpoint pbind {A B} (p : prog A) (f : A -> prog B) : prog B :=
  match p with
  | Ret a => f a
  | Stop e => Stop e
  | Call c k => Call c (fun r => pbind (k r) f)
  end.
Notation "'let+' x := c 'in' k" := (pbind c (fun x => k)) (at level 200, x pattern, c at level 100, k at level 200).
Definition do {R} (c : call R) : prog R := Call c Ret.

(** ** [mperf_util.c] *)

Definition NET_HARDERROR : Z := -1.
Definition NET_SOFTERROR : Z := -2.

(** The result, an [int], and the bytes stored; each round reads at least one
    byte. *)
Fixpoint nread_loop (fuel : nat) (fd count nleft : Z) (acc : list Z) : prog (Z * list Z) :=
  if nleft <=? 0 then Ret (s32 (count - nleft), acc)
  else
    match fuel with
    | O => Stop OutOfFuel
    | S fuel =>
        let+ r := do (Read fd nleft) in
        match r with
        | Err E_INTR | Err E_AGAIN => Ret (s32 (count - nleft), acc)
        | Err _ => Ret (NET_HARDERROR, acc)
        | Got [] => Ret (s32 (count - nleft), acc)
        | Got d => nread_loop fuel fd count (nleft - zlen d) (acc ++ d)
        end
    end.
Definition nread (fd count : Z) : prog (Z * list Z) := nread_loop (Z.to_nat count) fd count count [].

Fixpoint nwrite_loop (fuel : nat) (fd : Z) (buf : list Z) (count nleft : Z) : prog Z :=
  if nleft <=? 0 then Ret (s32 count)
  else
    match fuel with
    | O => Stop OutOfFuel
    | S fuel =>
        let+ r := do (Write fd (take (Z.to_nat nleft) buf)) in
        match r with
        | Err E_INTR | Err E_AGAIN => Ret (s32 (count - nleft))
        | Err E_NOBUFS => Ret NET_SOFTERROR
        | Err _ => Ret NET_HARDERROR
        | Got r => if r =? 0 then Ret NET_SOFTERROR else nwrite_loop fuel fd (drop (Z.to_nat r) buf) count (nleft - r)
        end
    end.
Definition nwrite (fd : Z) (buf : list Z) (count : Z) : prog Z := nwrite_loop (Z.to_nat count) fd buf count count.

(** ** The worker *)

Definition TEST_STATE_UNINIT : Z := 0.
Definition TEST_STATE_CREATE_STREAM : Z := 1.
Definition TEST_STATE_START : Z := 2.
Definition TEST_STATE_RUNNING : Z := 3.
Definition TEST_STATE_END : Z := 4.
Definition TEST_STATE_PARAM_EXCHANGE : Z := 5.
Definition TEST_STATE_ACCESS_DENY : Z := 6.
Definition TEST_STATE_ERROR : Z := 7.
Definition RX_BUF_SIZE : Z := 4096.
Definition BACKLOG : Z := 4096.
Definition DEFAULT_TCP_BLKSIZE : Z := 131072.
Definition DURATION : Z := 10.
Definition EPOLL_ADD : Z := 1.
Definition EPOLL_DEL : Z := 2.
Definition EPOLLIN : Z := 1.
Definition EPOLLOUT : Z := 4.
Definition EPOLLET : Z := 2147483648.

Record conn_config := mkConf { blksize : Z; rate : Z; burst : Z; bytes : Z; blocks : Z; duration : Z }.
#[global] Instance conn_config_Rebuild : Rebuild conn_config := fun r =>
  mkConf (blksize r) (rate r) (burst r) (bytes r) (blocks r) (duration r).

(** [global_conf]: the address and port of the server, the configuration of
    the connections. *)
Record mperf_config := mkConfig { saddr : Z; sport : Z; template : conn_config }.

Inductive mperf_role := ROLE_SERVER | ROLE_CLIENT.

(** The fields of [struct worker_context], with those of its server and its
    client part. *)
Record worker := mkWorker {
  role : mperf_role; conn_conf : conn_config; inited : bool; ctlfd : Z; datafd : Z; test_state : Z;
  listenfd : Z; cli_ip : Z; cli_ctl_port : Z; cli_data_port : Z; rx_bytes : Z;
  tx_bytes : Z; tx_data : option (list Z); done_flag : bool }.
#[global] Instance worker_Rebuild : Rebuild worker := fun r =>
  mkWorker (role r) (conn_conf r) (inited r) (ctlfd r) (datafd r) (test_state r) (listenfd r) (cli_ip r)
    (cli_ctl_port r) (cli_data_port r) (rx_bytes r) (tx_bytes r) (tx_data r) (done_flag r).

(** [close_mtcp_fd] on a field of the worker. *)
Definition close_mtcp_fd (fd : Z) : prog unit := if fd =? -1 then Ret tt else do (Close fd).

Definition mperf_set_test_state (state : Z) (w : worker) : prog (Z * worker) :=
  let w := w <| test_state := state |> in
  let+ r := nwrite (ctlfd w) [state] 1 in
  Ret (if r <? 0 then -1 else 0, w).

(** ** Exchange of the configuration: [mperf_config.c] *)

Inductive jval := Num (z : Z) | Str (s : list Z).
Definition json : Type := list (string * jval).

Class Json := {
  json_print : json -> list Z;
  json_parse : list Z -> option json;
  package_string : list Z
}.

Section mperf.
Context `{Json}.

Definition be_bytes (x : Z) : list Z := [x / 16777216 mod 256; x / 65536 mod 256; x / 256 mod 256; x mod 256].
Definition be_value (l : list Z) : Z := foldl (fun n c => n * 256 + c) 0 l.

(** [cJSON_GetObjectItem]: the first item with the name; the names used here
    are in lower case, and so are those [mperf_send_conf] writes. *)
Fixpoint item (j : json) (k : string) : option jval :=
  match j with
  | [] => None
  | (k', v) :: j => if String.eqb k' k then Some v else item j k
  end.

(** An integer as a [double], to the nearest, ties to even. *)
Definition to_double (z : Z) : Z :=
  if z <? 2 ^ 53 then z
  else
    let u := 2 ^ (Z.log2 z - 52) in
    let q := z / u in
    let r := 2 * (z mod u) in
    (if (u <? r) || ((r =? u) && Z.odd q) then q + 1 else q) * u.

(** The field [valueint], an [int64_t]. *)
Definition valueint (v : jval) : Z := match v with Num z => Z.min z (2 ^ 63 - 1) | Str _ => 0 end.

(** The characters before the terminating zero. *)
Fixpoint c_str (l : list Z) : list Z :=
  match l with [] => [] | c :: l => if c =? 0 then [] else c :: c_str l end.

(** The buffer has [hsize + 1] bytes, a [uint32_t]: with the largest length it
    has none. *)
Definition JSON_read (fd : Z) : prog (option json) :=
  let+ junk := do (Uninit 4) in
  let+ (r, d) := nread fd 4 in
  if r <? 0 then Ret None
  else
    let hsize := be_value (d ++ drop (length d) junk) in
    let+ ok := do (Malloc (u32 (hsize + 1))) in
    if negb ok then Ret None
    else
      let+ (rc, str) := nread fd hsize in
      if u32 (hsize + 1) <? zlen str then Stop OutOfBounds
      else Ret (if (0 <=? rc) && (rc =? hsize) then json_parse (c_str str) else None).

Definition JSON_write (fd : Z) (j : json) : prog Z :=
  let+ ok := do (Malloc 1) in
  if negb ok then Ret (-1)
  else
  let str := json_print j in
  let hsize := u32 (zlen str) in
  let+ r := nwrite fd [TEST_STATE_PARAM_EXCHANGE] 1 in
  if r <? 0 then Ret (-1)
  else
    let+ r := nwrite fd (be_bytes hsize) 4 in
    if r <? 0 then Ret (-1)
    else
      let+ r := nwrite fd str hsize in
      Ret (if r <? 0 then -1 else 0).

Definition number (k : string) (z : Z) : json := if z =? 0 then [] else [(k, Num (to_double z))].
Definition conf_json (c : conn_config) : json :=
  [("duration"%string, Num (to_double (duration c)))] ++ number "blksize" (blksize c) ++ number "rate" (rate c) ++
  number "burst" (burst c) ++ number "bytes" (bytes c) ++ number "blocks" (blocks c) ++
  [("client_version"%string, Str package_string)].

Definition mperf_send_conf (w : worker) : prog Z :=
  match role w with
  | ROLE_SERVER => Ret (-1)
  | ROLE_CLIENT =>
      let+ ok := do (Malloc 1) in
      if negb ok then Ret (-1)
      else
      let+ r := JSON_write (ctlfd w) (conf_json (conn_conf w)) in
      Ret (if r <? 0 then -1 else 0)
  end.

Definition apply_conf (j : json) (c : conn_config) : conn_config :=
  let get k := valueint <$> item j k in
  let c := match get "duration"%string with Some z => c <| duration := u32 z |> | None => c end in
  let c := match get "blksize"%string with Some z => c <| blksize := u32 z |> | None => c end in
  let c := match get "rate"%string with Some z => c <| rate := u64 z |> | None => c end in
  let c := match get "burst"%string with Some z => c <| burst := u32 z |> | None => c end in
  let c := match get "bytes"%string with Some z => c <| bytes := u32 z |> | None => c end in
  match get "blocks"%string with Some z => c <| blocks := u32 z |> | None => c end.

(** [memcmp] over the length of [PACKAGE_STRING]; a value that is no string has
    no [valuestring], and a shorter string ends the comparison. *)
Definition version_matches (v : jval) : res bool :=
  match v with
  | Num _ => Fault NullDeref
  | Str s => Ok (bool_decide (take (length package_string) (s ++ [0]) = package_string))
  end.

Definition mperf_recv_conf (w : worker) : prog (Z * worker) :=
  match role w with
  | ROLE_CLIENT => Ret (-1, w)
  | ROLE_SERVER =>
      let+ o := JSON_read (ctlfd w) in
      match o with
      | None => Ret (-1, w)
      | Some j =>
          let w := w <| conn_conf := apply_conf j (conn_conf w) |> in
          match item j "client_version"%string with
          | None => Ret (-1, w)
          | Some v =>
              match version_matches v with
              | Fault e => Stop e
              | Ok b => Ret (if b then 0 else -1, w)
              end
          end
      end
  end.

Definition mperf_exchange_conf (w : worker) : prog (Z * worker) :=
  match role w with
  | ROLE_CLIENT => let+ r := mperf_send_conf w in Ret (r, w)
  | ROLE_SERVER =>
      let+ (r, w) := mperf_recv_conf w in
      if r <? 0 then Ret (r, w)
      else
        let+ (r, w) := mperf_set_test_state TEST_STATE_CREATE_STREAM w in
        Ret (if r <? 0 then -1 else 0, w)
  end.

(** ** The server: [server.c] *)

Definition mperf_create_listener (global : mperf_config) (w : worker) : prog (Z * worker) :=
  if negb (inited w) then Ret (-1, w)
  else
    let+ r := do Socket in
    match r with
    | Err _ => Ret (-1, w)
    | Got listener =>
        let close_listener := let+ _ := close_mtcp_fd listener in Ret (-1, w) in
        let+ r := do (Nonblock listener) in
        match r with
        | Err _ => close_listener
        | Got _ =>
            let+ r := do (Bind listener (saddr global) (sport global)) in
            match r with
            | Err _ => close_listener
            | Got _ =>
                let+ r := do (Listen listener BACKLOG) in
                match r with
                | Err _ => close_listener
                | Got _ =>
                    let+ _ := do (EpollCtl EPOLL_ADD listener EPOLLIN) in
                    Ret (0, w <| listenfd := listener |>)
                end
            end
        end
    end.

Definition access_deny (sock : Z) (w : worker) : prog (Z * worker) :=
  let+ _ := nwrite sock [TEST_STATE_ACCESS_DENY] 1 in
  let+ _ := close_mtcp_fd sock in
  Ret (-1, w).

Definition mperf_accept (w : worker) : prog (Z * worker) :=
  let+ r := do (Accept (listenfd w)) in
  match r with
  | Err _ => Ret (-1, w)
  | Got (sock, ip, port) =>
      if ctlfd w =? -1 then
        let w := w <| ctlfd := sock |> in
        let+ _ := do (Nonblock sock) in
        let+ _ := do (EpollCtl EPOLL_ADD sock (Z.lor EPOLLIN EPOLLET)) in
        let+ (r, w) := mperf_set_test_state TEST_STATE_PARAM_EXCHANGE w in
        if r <? 0 then
          let+ _ := do (EpollCtl EPOLL_DEL sock 0) in
          let+ _ := do (Close (ctlfd w)) in
          Ret (-1, w)
        else Ret (0, w <| cli_ctl_port := port |> <| cli_ip := ip |>)
      else if (test_state w =? TEST_STATE_CREATE_STREAM) && (datafd w =? -1) then
        if negb (cli_ip w =? ip) then access_deny sock w
        else
          let+ _ := do (Nonblock sock) in
          let+ _ := do (EpollCtl EPOLL_ADD sock EPOLLIN) in
          let+ (r, w) := mperf_set_test_state TEST_STATE_RUNNING w in
          if r <? 0 then
            let+ _ := do (EpollCtl EPOLL_DEL sock 0) in
            let+ _ := do (Close sock) in
            Ret (-1, w)
          else Ret (0, w <| datafd := sock |> <| cli_data_port := port |>)
      else access_deny sock w
  end.

Definition mperf_handle_server_msg (w : worker) : prog (Z * worker) :=
  let+ (ret, d) := nread (ctlfd w) 1 in
  let state := hd 0 d in
  if ret =? 0 then Ret (0, w <| test_state := TEST_STATE_END |>)
  else if ret <? 0 then Ret (-1, w)
  else if state =? TEST_STATE_PARAM_EXCHANGE then
    if test_state w =? TEST_STATE_PARAM_EXCHANGE then
      let+ (r, w) := mperf_recv_conf w in
      if r <? 0 then
        let+ (_, w) := mperf_set_test_state TEST_STATE_ERROR w in
        Ret (-1, w)
      else
        let+ (r, w) := mperf_set_test_state TEST_STATE_CREATE_STREAM w in
        if r <? 0 then Ret (-1, w <| test_state := TEST_STATE_ERROR |>)
        else Ret (0, w)
    else
      let+ (_, w) := mperf_set_test_state TEST_STATE_ERROR w in
      Ret (-1, w)
  else if state =? TEST_STATE_ERROR then Ret (1, w <| test_state := TEST_STATE_ERROR |>)
  else if state =? TEST_STATE_END then Ret (1, w <| test_state := TEST_STATE_END |>)
  else Ret (-1, w).

(** Each round of the loop reads at least one byte. *)
Fixpoint mperf_recv_loop (fuel : nat) (nleft : Z) (w : worker) : prog (Z * worker) :=
  if nleft <=? 0 then Ret (0, w)
  else
    match fuel with
    | O => Stop OutOfFuel
    | S fuel =>
        let+ r := do (Read (datafd w) RX_BUF_SIZE) in
        match r with
        | Err E_INTR | Err E_AGAIN => Ret (0, w)
        | Err _ => Ret (-1, w)
        | Got [] => Ret (-1, w)
        | Got d => mperf_recv_loop fuel (nleft - zlen d) (w <| rx_bytes := u64 (rx_bytes w + zlen d) |>)
        end
    end.
Definition mperf_recv (w : worker) : prog (Z * worker) :=
  mperf_recv_loop (Z.to_nat (blksize (conn_conf w))) (blksize (conn_conf w)) w.

Definition mperf_init_server (w : worker) : worker :=
  w <| conn_conf := mkConf DEFAULT_TCP_BLKSIZE 0 0 0 0 DURATION |> <| listenfd := -1 |> <| cli_ip := 0 |>
    <| cli_ctl_port := 0 |> <| cli_data_port := 0 |> <| rx_bytes := 0 |> <| ctlfd := -1 |> <| datafd := -1 |>.

Definition mperf_destroy_server (w : worker) : prog worker :=
  let w := w <| cli_ip := 0 |> <| cli_ctl_port := 0 |> <| cli_data_port := 0 |> in
  let+ _ := close_mtcp_fd (datafd w) in
  let+ _ := close_mtcp_fd (ctlfd w) in
  let+ _ := close_mtcp_fd (listenfd w) in
  Ret (w <| datafd := -1 |> <| ctlfd := -1 |> <| listenfd := -1 |>).

(** The [for] loop over the events: [ret] and the worker when it ends or
    breaks. *)
Fixpoint server_events (evs : list Z) (ret : Z) (w : worker) : prog (Z * worker) :=
  match evs with
  | [] => Ret (ret, w)
  | fd :: evs =>
      if fd =? listenfd w then
        let+ (r, w) := mperf_accept w in
        if r <? 0 then Ret (-1, w) else server_events evs ret w
      else if fd =? ctlfd w then
        let+ (ret, w) := mperf_handle_server_msg w in
        if ret <? 0 then Ret (ret, w)
        else if 0 <? ret then Ret (ret, w)
        else server_events evs ret w
      else if fd =? datafd w then
        let+ (ret, w) := mperf_recv w in
        if ret <? 0 then Ret (ret, w <| test_state := TEST_STATE_ERROR |>)
        else server_events evs ret w
      else server_events evs ret w
  end.

Definition test_over (w : worker) : bool :=
  (test_state w =? TEST_STATE_END) || (test_state w =? TEST_STATE_ERROR).

(** The [while] loop; one unit of fuel for a call of [mtcp_epoll_wait]. *)
Fixpoint server_while (fuel : nat) (ret : Z) (w : worker) : prog (Z * worker) :=
  if done_flag w then Ret (ret, w)
  else
    match fuel with
    | O => Stop OutOfFuel
    | S fuel =>
        let+ r := do EpollWait in
        match r with
        | Err _ => Ret (0, w)
        | Got evs =>
            let+ (ret, w) := server_events evs ret w in
            if test_over w then Ret (ret, w) else server_while fuel ret w
        end
    end.

Definition mperf_server_loop (fuel : nat) (global : mperf_config) (w : worker) : prog (Z * worker) :=
  let w := mperf_init_server w in
  let+ (ret, w) := mperf_create_listener global w in
  if negb (ret =? 0) then Ret (1, w)
  else
    let w := w <| test_state := TEST_STATE_START |> in
    let+ (ret, w) := server_while fuel ret w in
    let w := w <| done_flag := true |> in
    let+ w := mperf_destroy_server w in
    Ret (ret, w).

(** ** The client: [client.c] *)

Definition mperf_connect (global : mperf_config) (is_ctl : bool) (w : worker) : prog (Z * worker) :=
  let+ r := do Socket in
  match r with
  | Err _ => Ret (-1, w)
  | Got sock =>
      let+ _ := do (Nonblock sock) in
      let+ r := do (Connect sock (saddr global) (sport global)) in
      match r with
      | Got _ | Err E_INPROGRESS =>
          if is_ctl then
            let+ _ := do (EpollCtl EPOLL_ADD sock (Z.lor EPOLLIN EPOLLET)) in
            Ret (0, w <| ctlfd := sock |>)
          else Ret (0, w <| datafd := sock |>)
      | Err _ =>
          let+ _ := do (Close sock) in
          Ret (-1, w)
      end
  end.

(** The random bytes: [rte_rand] gives eight at a time. *)
Fixpoint random_data (fuel : nat) (nleft : Z) (acc : list Z) : prog (list Z) :=
  if nleft <=? 0 then Ret acc
  else
    match fuel with
    | O => Stop OutOfFuel
    | S fuel =>
        let+ pr := do Rand in
        random_data fuel (nleft - Z.min 8 nleft) (acc ++ take (Z.to_nat (Z.min 8 nleft)) pr)
    end.

Definition mperf_init_client (global : mperf_config) (w : worker) : prog (Z * worker) :=
  let w := w <| conn_conf := template global |> <| ctlfd := -1 |> <| datafd := -1 |> in
  let n := blksize (conn_conf w) in
  let+ ok := do (Malloc n) in
  if negb ok then Ret (-1, w)
  else
    let+ data := random_data (Z.to_nat n) n [] in
    Ret (0, w <| tx_data := Some data |> <| tx_bytes := 0 |>).

Definition mperf_destroy_client (w : worker) : prog worker :=
  let w := w <| tx_data := None |> in
  let+ _ := close_mtcp_fd (datafd w) in
  let+ _ := close_mtcp_fd (ctlfd w) in
  Ret (w <| datafd := -1 |> <| ctlfd := -1 |>).

Definition mperf_handle_client_msg (global : mperf_config) (w : worker) : prog (Z * worker) :=
  let+ (ret, d) := nread (ctlfd w) 1 in
  let state := hd 0 d in
  if ret =? 0 then Ret (0, w <| test_state := TEST_STATE_END |>)
  else if ret <? 0 then Ret (-1, w)
  else if state =? TEST_STATE_PARAM_EXCHANGE then
    if test_state w =? TEST_STATE_START then
      let+ r := mperf_send_conf w in
      if r <? 0 then
        let+ (_, w) := mperf_set_test_state TEST_STATE_ERROR w in
        Ret (-1, w)
      else Ret (0, w <| test_state := TEST_STATE_PARAM_EXCHANGE |>)
    else Ret (-1, w)
  else if state =? TEST_STATE_CREATE_STREAM then
    if test_state w =? TEST_STATE_PARAM_EXCHANGE then
      let+ (r, w) := mperf_connect global false w in
      if r <? 0 then
        let+ (_, w) := mperf_set_test_state TEST_STATE_ERROR w in
        Ret (-1, w)
      else Ret (0, w <| test_state := TEST_STATE_CREATE_STREAM |>)
    else Ret (-1, w)
  else if state =? TEST_STATE_RUNNING then
    if test_state w =? TEST_STATE_CREATE_STREAM then
      let w := w <| test_state := TEST_STATE_RUNNING |> in
      let+ _ := do (EpollCtl EPOLL_ADD (datafd w) EPOLLOUT) in
      Ret (0, w)
    else Ret (-1, w)
  else if state =? TEST_STATE_ERROR then Ret (1, w <| test_state := TEST_STATE_ERROR |>)
  else Ret (-1, w).

Definition mperf_send (w : worker) : prog (Z * worker) :=
  match tx_data w with
  | None => Stop NullDeref
  | Some data =>
      let+ ret := nwrite (datafd w) data (blksize (conn_conf w)) in
      if ret <? 0 then Ret (ret, w)
      else Ret (0, w <| tx_bytes := u64 (tx_bytes w + ret) |>)
  end.

Fixpoint client_events (global : mperf_config) (evs : list Z) (ret : Z) (w : worker) : prog (Z * worker) :=
  match evs with
  | [] => Ret (ret, w)
  | fd :: evs =>
      if fd =? ctlfd w then
        let+ (ret, w) := mperf_handle_client_msg global w in
        if ret <? 0 then Ret (-1, w)
        else if 0 <? ret then Ret (ret, w)
        else client_events global evs ret w
      else if fd =? datafd w then
        let+ (ret, w) := mperf_send w in
        if ret <? 0 then Ret (ret, w <| test_state := TEST_STATE_ERROR |>)
        else
          let+ (_, w) := mperf_set_test_state TEST_STATE_END w in
          client_events global evs ret w
      else client_events global evs ret w
  end.

Fixpoint client_while (fuel : nat) (global : mperf_config) (ret : Z) (w : worker) : prog (Z * worker) :=
  if done_flag w then Ret (ret, w)
  else
    match fuel with
    | O => Stop OutOfFuel
    | S fuel =>
        let+ r := do EpollWait in
        match r with
        | Err _ => Ret (0, w)
        | Got evs =>
            let+ (ret, w) := client_events global evs ret w in
            if test_over w then Ret (if test_state w =? TEST_STATE_END then 0 else -1, w)
            else client_while fuel global ret w
        end
    end.

Definition mperf_client_loop (fuel : nat) (global : mperf_config) (w : worker) : prog (Z * worker) :=
  let+ (ret, w) := mperf_init_client global w in
  let+ (ret, w) :=
    (if ret <? 0 then Ret (ret, w <| test_state := TEST_STATE_ERROR |>)
     else
       let+ (ret, w) := mperf_connect global true w in
       client_while fuel global ret (w <| test_state := TEST_STATE_START |>)) in
  let w := w <| done_flag := true |> in
  let+ w := mperf_destroy_client w in
  Ret (ret, w).

End mperf.
