(* ===== verification/MperfArgs.v ===== *)
(** * The arguments of mperf: [units.c] and [mperf_parse_args] of
    [mperf_api.c]

    Numbers with a unit, and the options that set the global configuration.
    [getopt_long] splits the command line into the list of options and their
    arguments; [inet_aton] is a parameter. *)

From Stdlib Require Import String.
From S2P Require Import Prelude HttpDate MperfProg.

(** ** [units.c] *)

Record unit_entry := mkUnit { symbol : Z; shift : Z }.
Definition unit_list : list unit_entry :=
  [mkUnit 98 0; mkUnit 107 10; mkUnit 109 20; mkUnit 103 30; mkUnit 116 40].
Definition UNIT_MAX : Z := 5.

(** The index of the first unit with the symbol. *)
Fixpoint match_from (i : Z) (l : list unit_entry) (lower : Z) : Z :=
  match l with
  | [] => UNIT_MAX
  | u :: l => if lower =? symbol u then i else match_from (i + 1) l lower
  end.
Definition unit_match (s : Z) : Z := match_from 0 unit_list (tolower s).

(** The conversion [%lu] of [sscanf]: the number and what follows. *)
Definition scan_ulong (l : list Z) : option (Z * list Z) :=
  let '(_, l) := span isspace l in
  let '(neg, l) := match l with 45 :: l => (true, l) | 43 :: l => (false, l) | _ => (false, l) end in
  match span isdigit l with
  | ([], _) => None
  | (ds, r) =>
      let v := decimal ds in
      Some (if 18446744073709551616 <=? v then 18446744073709551615 else if neg then u64 (- v) else v, r)
  end.

(** A string that has no number leaves the suffix as it was set, a zero. *)
Definition unit_atolu (s : list Z) : Z :=
  let '(num, suffix) :=
    match scan_ulong s with
    | Some (n, c :: _) => (n, c)
    | Some (n, []) => (n, 0)
    | None => (0, 0)
    end in
  let uid := unit_match suffix in
  match unit_list !! Z.to_nat uid with
  | Some u => u64 (Z.shiftl num (shift u))
  | None => 18446744073709551615
  end.

(** ** [mperf_parse_args] *)

Definition MAX_BURST : Z := 1000.
Definition MAX_TIME : Z := 86400.

Definition atoi (l : list Z) : Z := match scan_int l with Some (v, _) => v | None => 0 end.

Record args := mkArgs {
  net_addr : Z; port : Z; arg_role : mperf_role; unit_no : Z; verbose : bool; mtcp_conf : option (list Z);
  conn : conn_config }.
#[global] Instance args_Rebuild : Rebuild args := fun r =>
  mkArgs (net_addr r) (port r) (arg_role r) (unit_no r) (verbose r) (mtcp_conf r) (conn r).

(** [global_conf] as the program starts. *)
Definition initial_args : args := mkArgs 0 5210 ROLE_SERVER 0 false None (mkConf DEFAULT_TCP_BLKSIZE 0 0 0 0 DURATION).

(** How an option ends the parsing: [return], or [exit] for the version. *)
Inductive finish := Returns (r : Z) | Exits (code : Z).
(** The locals [blksize], [duration_flag] and [mtcp_flag]. *)
Record locals := mkLocals { l_blksize : Z; l_duration : bool; l_mtcp : bool }.
#[global] Instance locals_Rebuild : Rebuild locals := fun r => mkLocals (l_blksize r) (l_duration r) (l_mtcp r).

Section args.
Context (inet_aton : list Z -> option Z).

(** The text before the first slash, and what follows it. *)
Fixpoint split_slash (l : list Z) : list Z * option (list Z) :=
  match l with
  | [] => ([], None)
  | c :: l => if c =? 47 then ([], Some l) else let '(a, b) := split_slash l in (c :: a, b)
  end.

Definition set_role (r : mperf_role) (optarg : list Z) (c : args) : args * option finish :=
  let c := c <| arg_role := r |> in
  match inet_aton optarg with
  | Some ip => (c <| net_addr := ip |>, None)
  | None => (c, Some (Returns (-1)))
  end.

Definition set_rate (optarg : list Z) (c : args) : args * option finish :=
  let '(text, slash) := split_slash optarg in
  let rated c := (c <| conn := conn c <| rate := unit_atolu text |> |>, None) in
  match slash with
  | None => rated c
  | Some s =>
      let b := u32 (atoi s) in
      let c := c <| conn := conn c <| burst := b |> |> in
      if (b <=? 0) || (MAX_BURST <? b) then (c, Some (Returns (-1))) else rated c
  end.

(** One round of the loop over the options. *)
Definition option_case (flag : Z) (optarg : list Z) (c : args) (x : locals) : args * locals * option finish :=
  if flag =? 109 (* m *) then (c <| mtcp_conf := Some optarg |>, x <| l_mtcp := true |>, None)
  else if flag =? 112 (* p *) then (c <| port := u16 (atoi optarg) |>, x, None)
  else if flag =? 102 (* f *) then
    let unit := unit_match (hd 0 optarg) in
    if unit <? UNIT_MAX then (c <| unit_no := unit |> <| verbose := true |>, x, None)  (* falls through to V *)
    else (c, x, Some (Returns (-1)))
  else if flag =? 86 (* V *) then (c <| verbose := true |>, x, None)
  else if flag =? 118 (* v *) then (c, x, Some (Exits 0))
  else if flag =? 115 (* s *) then let '(c, r) := set_role ROLE_SERVER optarg c in (c, x, r)
  else if flag =? 99 (* c *) then let '(c, r) := set_role ROLE_CLIENT optarg c in (c, x, r)
  else if flag =? 98 (* b *) then let '(c, r) := set_rate optarg c in (c, x, r)
  else if flag =? 116 (* t *) then
    let d := u32 (atoi optarg) in
    let c := c <| conn := conn c <| duration := d |> |> in
    if MAX_TIME <? d then (c, x, Some (Returns (-1))) else (c, x <| l_duration := true |>, None)
  else if flag =? 110 (* n *) then (c <| conn := conn c <| bytes := u32 (unit_atolu optarg) |> |>, x, None)
  else if flag =? 107 (* k *) then (c <| conn := conn c <| blocks := u32 (unit_atolu optarg) |> |>, x, None)
  else if flag =? 108 (* l *) then (c, x <| l_blksize := u32 (unit_atolu optarg) |>, None)
  else (c, x, Some (Returns 1)).

Fixpoint options_loop (opts : list (Z * list Z)) (c : args) (x : locals) : args * locals * option finish :=
  match opts with
  | [] => (c, x, None)
  | (flag, optarg) :: opts =>
      let '(c, x, r) := option_case flag optarg c x in
      match r with Some f => (c, x, Some f) | None => options_loop opts c x end
  end.

Definition mperf_parse_args (opts : list (Z * list Z)) (c : args) : args * finish :=
  let '(c, x, r) := options_loop opts c (mkLocals 0 false false) in
  match r with
  | Some f => (c, f)
  | None =>
      if negb (l_mtcp x) then (c, Returns (-1))
      else
        let size := if l_blksize x =? 0 then DEFAULT_TCP_BLKSIZE else l_blksize x in
        let c := c <| conn := conn c <| blksize := size |> |> in
        let c :=
          if (negb (bytes (conn c) =? 0) || negb (blocks (conn c) =? 0)) && negb (l_duration x)
          then c <| conn := conn c <| duration := 0 |> |> else c in
        (c, Returns 0)
  end.

End args.

(** ** Numbers with a unit *)

Lemma span_digits ds r :
  Forall (fun c => isdigit c = true) ds -> match r with [] => True | c :: _ => isdigit c = false end ->
  span isdigit (ds ++ r) = (ds, r).
Proof.
  induction 1 as [|c ds Hc _ IH]; intros Hr.
  - destruct r as [|c r]; [done|]. cbn. by rewrite Hr.
  - cbn. rewrite Hc. by rewrite IH.
Qed.

Lemma decimal_nonneg ds : Forall (fun c => isdigit c = true) ds -> 0 <= decimal ds.
Proof.
  intros Hds. unfold decimal. assert (H0 : 0 <= 0) by lia. revert H0. generalize 0 at 2 4.
  induction Hds as [|c ds Hc _ IH]; intros n Hn; [done|]. cbn. apply IH.
  unfold isdigit in Hc. apply andb_prop in Hc as [H1%Z.leb_le H2%Z.leb_le]. lia.
Qed.

Lemma scan_number ds r :
  ds <> [] -> Forall (fun c => isdigit c = true) ds -> decimal ds < 18446744073709551616 ->
  match r with [] => True | c :: _ => isdigit c = false end -> scan_ulong (ds ++ r) = Some (decimal ds, r).
Proof.
  intros Hne Hds Hlt Hr. destruct ds as [|d ds]; [done|].
  assert (Hd : 48 <= d <= 57).
  { apply Forall_cons in Hds as [Hd _]. unfold isdigit in Hd. apply andb_prop in Hd as [H1%Z.leb_le H2%Z.leb_le]. lia. }
  unfold scan_ulong.
  assert (Hsp : span isspace ((d :: ds) ++ r) = ([], (d :: ds) ++ r)).
  { cbn. unfold isspace. bdestruct_all; lia. }
  rewrite Hsp.
  assert (Hsign : match (d :: ds) ++ r with 45 :: l => (true, l) | 43 :: l => (false, l) | _ => (false, (d :: ds) ++ r) end
                  = (false, (d :: ds) ++ r)).
  { cbn. destruct d as [|p|p]; [done| |done]. do 6 (destruct p as [p|p|]; try done); lia. }
  rewrite Hsign, span_digits by done. by destruct (Z.leb_spec 18446744073709551616 (decimal (d :: ds))); [lia|].
Qed.

(** A number followed by a unit stands for the shifted number. *)
Theorem unit_atolu_suffix ds c u :
  ds <> [] -> Forall (fun c => isdigit c = true) ds -> decimal ds < 18446744073709551616 -> isalpha c = true ->
  unit_list !! Z.to_nat (unit_match c) = Some u -> unit_atolu (ds ++ [c]) = u64 (Z.shiftl (decimal ds) (shift u)).
Proof.
  intros Hne Hds Hlt Hc Hu. unfold unit_atolu. rewrite scan_number; [by rewrite Hu|done..|].
  cbn. revert Hc. unfold isalpha, isupper, islower, isdigit. bdestruct_all; lia.
Qed.

(** A number without a unit, which the usage allows, is not read. *)
Theorem unit_atolu_plain ds :
  ds <> [] -> Forall (fun c => isdigit c = true) ds -> decimal ds < 18446744073709551616 ->
  unit_atolu ds = 18446744073709551615.
Proof.
  intros Hne Hds Hlt. unfold unit_atolu. rewrite <- (app_nil_r ds). by rewrite scan_number.
Qed.

(** ** The accepted arguments *)

Record args_ok (c : args) : Prop := mkArgsOk {
  ok_port : 0 <= port c < 65536;
  ok_unit : 0 <= unit_no c < UNIT_MAX;
  ok_rate : 0 <= rate (conn c) < 18446744073709551616;
  ok_burst : 0 <= burst (conn c) <= MAX_BURST;
  ok_bytes : 0 <= bytes (conn c) < 4294967296;
  ok_blocks : 0 <= blocks (conn c) < 4294967296;
  ok_duration : 0 <= duration (conn c) <= MAX_TIME
}.

Lemma unit_atolu_range s : 0 <= unit_atolu s < 18446744073709551616.
Proof.
  unfold unit_atolu. destruct (match scan_ulong s with Some _ => _ | None => _ end) as [n c].
  destruct (unit_list !! _) as [u|]; [|lia]. unfold u64. apply Z.mod_pos_bound. lia.
Qed.

Lemma match_from_range i l c : 0 <= i -> 0 <= match_from i l c.
Proof. revert i. induction l as [|u l IH]; intros i Hi; cbn; [done|]. destruct (c =? symbol u); [done|]. apply IH. lia. Qed.

Section args_proofs.
Context (inet_aton : list Z -> option Z).

Lemma option_ok flag optarg c x c' x' :
  args_ok c -> 0 <= l_blksize x < 4294967296 -> option_case inet_aton flag optarg c x = (c', x', None) ->
  args_ok c' /\ 0 <= l_blksize x' < 4294967296.
Proof.
  intros Hok Hx. destruct Hok as [Hp Hu Hr Hb Hby Hbl Hd].
  pose proof (u32_range (unit_atolu optarg)). pose proof (u32_range (atoi optarg)).
  assert (0 <= u16 (atoi optarg) < 65536) by (unfold u16; apply Z.mod_pos_bound; lia).
  assert (Hm : 0 <= unit_match (hd 0 optarg)) by by apply match_from_range.
  unfold option_case, set_role, set_rate. cbv zeta. generalize dependent (unit_match (hd 0 optarg)). intros un Hm.
  repeat case_match; intros; simplify_eq; (split; [constructor|]); cbn; try done; try lia; apply unit_atolu_range.
Qed.

Lemma options_ok opts c x c' x' :
  args_ok c -> 0 <= l_blksize x < 4294967296 -> options_loop inet_aton opts c x = (c', x', None) ->
  args_ok c' /\ 0 <= l_blksize x' < 4294967296.
Proof.
  revert c x. induction opts as [|[flag optarg] opts IH]; intros c x Hc Hx; cbn.
  { by intros [= <- <-]. }
  destruct (option_case inet_aton flag optarg c x) as [[c1 x1] [f|]] eqn:E; [done|].
  destruct (option_ok _ _ _ _ _ _ Hc Hx E). by apply IH.
Qed.

Lemma options_fail opts c x c' x' f :
  options_loop inet_aton opts c x = (c', x', Some f) -> f <> Returns 0.
Proof.
  revert c x. induction opts as [|[flag optarg] opts IH]; intros c x; cbn; [done|].
  destruct (option_case inet_aton flag optarg c x) as [[c1 x1] [f'|]] eqn:E; [|apply IH].
  intros [= <- <- <-]. revert E. unfold option_case, set_role, set_rate. repeat case_match; naive_solver.
Qed.

(** When the arguments are accepted every field is within its limits and
    there is a block to send. *)
Theorem parse_args_bounds opts c :
  mperf_parse_args inet_aton opts initial_args = (c, Returns 0) -> args_ok c /\ 0 < blksize (conn c) < 4294967296.
Proof.
  unfold mperf_parse_args. destruct (options_loop _ _ _ _) as [[c1 x1] r] eqn:E. destruct r as [f|].
  { intros [= -> ->]. by apply options_fail in E. }
  apply options_ok in E as [[Hp Hu Hr Hb Hby Hbl Hd] Hx]; [|constructor; cbn; unfold UNIT_MAX, MAX_BURST, MAX_TIME, DURATION; lia|cbn; lia].
  destruct (negb (l_mtcp x1)); [done|].
  assert (Hs : 0 < (if l_blksize x1 =? 0 then DEFAULT_TCP_BLKSIZE else l_blksize x1) < 4294967296).
  { destruct (Z.eqb_spec (l_blksize x1) 0); [done|lia]. }
  generalize dependent (if l_blksize x1 =? 0 then DEFAULT_TCP_BLKSIZE else l_blksize x1). intros size Hs [= <-].
  case_match; (split; [constructor|]); cbn; try done; unfold MAX_TIME; lia.
Qed.

End args_proofs.

(** [-l 1000] asks for a block of 4 GB, and [-f k] also switches to verbose
    output. *)
Example plain_length :
  let aton (_ : list Z) := Some 1 in
  let '(c, r) := mperf_parse_args aton [(109, chars "m.conf"); (99, chars "10.0.0.2"); (108, chars "1000"); (102, chars "k")]
                   initial_args in
  (blksize (conn c), verbose c, r) = (4294967295, true, Returns 0).
Proof. vm_compute. reflexivity. Qed.
Example kilo_length :
  let aton (_ : list Z) := Some 1 in
  let '(c, r) := mperf_parse_args aton [(109, chars "m.conf"); (99, chars "10.0.0.2"); (108, chars "64K"); (98, chars "10m/8")]
                   initial_args in
  (conn c, r) = (mkConf 65536 10485760 8 0 0 10, Returns 0).
Proof. vm_compute. reflexivity. Qed.
