(* ===== verification/MperfNet.v ===== *)
(** * A client and a server of mperf over a network

    The service that the calls of mTCP give to the two workers of
    [MperfProg]: connections are pairs of byte streams, bytes written are in
    flight until the network delivers them, a level-triggered event is ready
    as long as its condition holds and an edge-triggered one after each
    arrival. A worker runs from one [mtcp_epoll_wait] to the next: it shares
    its core with the thread of the stack, which sends what the worker has
    written when the worker waits.

    [step] takes the connection requests, deliveries and rounds of the
    workers in any order. The theorem is in [MperfSession]. *)

From S2P Require Import Prelude MperfProg.

(** ** The network *)

Inductive side := Cli | Srv.
(** Bytes to the server, or to the client. *)
Inductive dir := Up | Down.

(** One direction of a connection: bytes in flight and whether its sender has
    closed it; bytes that have arrived and are not read, whether the end has
    arrived, and whether something has arrived since the last event. *)
Record pipe := mkPipe { flight : list Z; closing : bool; arrived : list Z; eof : bool; edge : bool }.
#[global] Instance pipe_Rebuild : Rebuild pipe := fun r =>
  mkPipe (flight r) (closing r) (arrived r) (eof r) (edge r).

Inductive cstate := Opening | Queued | Accepted.
Record conn := mkConn { dst : Z * Z; cst : cstate; up : pipe; down : pipe }.
#[global] Instance conn_Rebuild : Rebuild conn := fun r => mkConn (dst r) (cst r) (up r) (down r).

(** What a socket is: unused, bound, listening at an address, or an end of a
    connection. *)
Inductive slot := Plain | Bound (a : Z * Z) | Listening (a : Z * Z) | End (i : nat).

(** A host: its sockets, the events it waits for, the next socket number. *)
Record host := mkHost { slots : list (Z * slot); watch : list (Z * Z); nextfd : Z }.
#[global] Instance host_Rebuild : Rebuild host := fun r => mkHost (slots r) (watch r) (nextfd r).

Record net := mkNet { conns : list conn; queue : list nat; cli : host; srv : host; draws : nat }.
#[global] Instance net_Rebuild : Rebuild net := fun r =>
  mkNet (conns r) (queue r) (cli r) (srv r) (draws r).

Definition host_of (s : side) (n : net) : host := match s with Cli => cli n | Srv => srv n end.
Definition on_host (s : side) (f : host -> host) (n : net) : net :=
  match s with Cli => n <| cli := f (cli n) |> | Srv => n <| srv := f (srv n) |> end.

Fixpoint assoc {A} (l : list (Z * A)) (k : Z) : option A :=
  match l with [] => None | (k', v) :: l => if k' =? k then Some v else assoc l k end.
Definition without {A} (k : Z) (l : list (Z * A)) : list (Z * A) := List.filter (fun e => negb (fst e =? k)) l.
Definition slot_of (s : side) (fd : Z) (n : net) : option slot := assoc (slots (host_of s n)) fd.
Definition set_slot (s : side) (fd : Z) (v : slot) : net -> net :=
  on_host s (fun h => h <| slots := (fd, v) :: without fd (slots h) |>).

Fixpoint update {A} (i : nat) (f : A -> A) (l : list A) : list A :=
  match i, l with
  | _, [] => []
  | O, x :: l => f x :: l
  | S i, x :: l => x :: update i f l
  end.
Definition on_conn (i : nat) (f : conn -> conn) (n : net) : net := n <| conns := update i f (conns n) |>.
Definition get_pipe (d : dir) (c : conn) : pipe := match d with Up => up c | Down => down c end.
Definition on_pipe (d : dir) (f : pipe -> pipe) (c : conn) : conn :=
  match d with Up => c <| up := f (up c) |> | Down => c <| down := f (down c) |> end.
(** The directions a host writes and reads. *)
Definition out_dir (s : side) : dir := match s with Cli => Up | Srv => Down end.
Definition in_dir (s : side) : dir := match s with Cli => Down | Srv => Up end.

(** What the calls depend on: the size of the send buffers, the address of
    the client's host and the ports it uses, random numbers, and what
    uninitialised memory holds. *)
Class Setting := { cap : Z; client_ip : Z; client_port : nat -> Z; random : nat -> list Z; junk : list Z }.

Section net.
Context `{Setting}.

Definition sock_read (s : side) (fd k : Z) (n : net) : io (list Z) * net :=
  match slot_of s fd n with
  | Some (End i) =>
      match conns n !! i with
      | Some c =>
          let p := get_pipe (in_dir s) c in
          match cst c, arrived p with
          | Opening, _ => (Err E_OTHER, n)
          | _, [] => (if eof p then Got [] else Err E_AGAIN, n)
          | _, l => (Got (take (Z.to_nat k) l),
                     on_conn i (on_pipe (in_dir s) (fun p => p <| arrived := drop (Z.to_nat k) l |>)) n)
          end
      | None => (Err E_OTHER, n)
      end
  | _ => (Err E_OTHER, n)
  end.

Definition sock_write (s : side) (fd : Z) (buf : list Z) (n : net) : io Z * net :=
  match slot_of s fd n with
  | Some (End i) =>
      match conns n !! i with
      | Some c =>
          let p := get_pipe (out_dir s) c in
          match cst c with
          | Opening => (Err E_OTHER, n)
          | _ =>
              let space := cap - zlen (flight p) in
              if closing p then (Err E_OTHER, n)
              else if space <=? 0 then (Err E_AGAIN, n)
              else
                let d := take (Z.to_nat space) buf in
                (Got (zlen d), on_conn i (on_pipe (out_dir s) (fun p => p <| flight := flight p ++ d |>)) n)
          end
      | None => (Err E_OTHER, n)
      end
  | _ => (Err E_OTHER, n)
  end.

Definition sock_close (s : side) (fd : Z) (n : net) : net :=
  let n' := on_host s (fun h => h <| slots := without fd (slots h) |> <| watch := without fd (watch h) |>) n in
  match slot_of s fd n with
  | Some (End i) => on_conn i (on_pipe (out_dir s) (fun p => p <| closing := true |>)) n'
  | _ => n'
  end.

Definition sock_accept (fd : Z) (n : net) : io (Z * Z * Z) * net :=
  match slot_of Srv fd n, queue n with
  | Some (Listening _), i :: q =>
      let new := nextfd (srv n) in
      let n := n <| queue := q |> in
      let n := on_host Srv (fun h => h <| nextfd := new + 1 |> <| slots := (new, End i) :: slots h |>) n in
      (Got (new, client_ip, client_port i), on_conn i (fun c => c <| cst := Accepted |>) n)
  | Some (Listening _), [] => (Err E_AGAIN, n)
  | _, _ => (Err E_OTHER, n)
  end.

Definition empty_pipe : pipe := mkPipe [] false [] false false.

Definition sock_connect (s : side) (fd : Z) (a : Z * Z) (n : net) : io unit * net :=
  match s, slot_of s fd n with
  | Cli, Some Plain =>
      (Err E_INPROGRESS,
       set_slot s fd (End (length (conns n))) (n <| conns := conns n ++ [mkConn a Opening empty_pipe empty_pipe] |>))
  | _, _ => (Err E_OTHER, n)
  end.

Definition answer (s : side) {R} (c : call R) (n : net) : R * net :=
  match c with
  | Socket =>
      let fd := nextfd (host_of s n) in
      (Got fd, on_host s (fun h => h <| nextfd := fd + 1 |> <| slots := (fd, Plain) :: slots h |>) n)
  | Nonblock fd => (match slot_of s fd n with Some _ => Got tt | None => Err E_OTHER end, n)
  | Bind fd ip port =>
      match slot_of s fd n with
      | Some Plain => (Got tt, set_slot s fd (Bound (ip, port)) n)
      | _ => (Err E_OTHER, n)
      end
  | Listen fd _ =>
      match slot_of s fd n with
      | Some (Bound a) => (Got tt, set_slot s fd (Listening a) n)
      | _ => (Err E_OTHER, n)
      end
  | Accept fd => match s with Srv => sock_accept fd n | Cli => (Err E_OTHER, n) end
  | Connect fd ip port => sock_connect s fd (ip, port) n
  | Read fd k => sock_read s fd k n
  | Write fd buf => sock_write s fd buf n
  | EpollCtl op fd events =>
      (tt, on_host s (fun h =>
        h <| watch := if op =? EPOLL_ADD then (fd, events) :: without fd (watch h) else without fd (watch h) |>) n)
  | Close fd => (tt, sock_close s fd n)
  | EpollWait => (Got [], n)
  | Malloc _ => (true, n)
  | Rand => (random (draws n), n <| draws := S (draws n) |>)
  | Uninit k => (take (Z.to_nat k) junk, n)
  end.

(** A program up to the next wait, or to its end. *)
Definition waits {R} (c : call R) : bool := match c with EpollWait => true | _ => false end.
Fixpoint exec {A} (s : side) (p : prog A) (n : net) : prog A * net :=
  match p with
  | Call c k => if waits c then (p, n) else let '(r, n) := answer s c n in exec s (k r) n
  | _ => (p, n)
  end.

(** ** Events *)

Definition nonempty {A} (l : list A) : bool := match l with [] => false | _ => true end.

Definition conn_ready (s : side) (events : Z) (c : conn) : bool :=
  let p := get_pipe (in_dir s) c in
  let o := get_pipe (out_dir s) c in
  (Z.testbit events 0 && (if Z.testbit events 31 then edge p else nonempty (arrived p) || eof p))
  || (Z.testbit events 2 && match cst c with Opening => false | _ => zlen (flight o) <? cap end).

Definition fd_ready (s : side) (n : net) (fd events : Z) : bool :=
  match slot_of s fd n with
  | Some (Listening _) => Z.testbit events 0 && nonempty (queue n)
  | Some (End i) => match conns n !! i with Some c => conn_ready s events c | None => false end
  | _ => false
  end.
Definition ready (s : side) (n : net) : list Z :=
  map fst (List.filter (fun e => fd_ready s n (fst e) (snd e)) (watch (host_of s n))).

(** The events of an edge are reported once. *)
Fixpoint reported (s : side) (evs : list Z) (n : net) : net :=
  match evs with
  | [] => n
  | fd :: evs =>
      let n := match slot_of s fd n with
               | Some (End i) => on_conn i (on_pipe (in_dir s) (fun p => p <| edge := false |>)) n
               | _ => n
               end in
      reported s evs n
  end.

(** ** Runs *)

Record world := mkWorld { wire : net; cprog : prog (Z * worker); sprog : prog (Z * worker) }.

(** A connection request reaches the server; [n] bytes, and with [f] the end
    of the stream, arrive; a worker returns from its wait with events. *)
Inductive label := LArrive (i : nat) | LDeliver (d : dir) (i n : nat) (f : bool) | LRound (s : side) (evs : list Z).

Definition listens (a : Z * Z) (n : net) : bool :=
  existsb (fun e => match snd e with Listening b => bool_decide (a = b) | _ => false end) (slots (srv n)).

Definition arrive (i : nat) (n : net) : option net :=
  match conns n !! i with
  | Some c =>
      match cst c with
      | Opening =>
          if listens (dst c) n
          then Some (on_conn i (fun c => c <| cst := Queued |>) n <| queue := queue n ++ [i] |>)
          else None
      | _ => None
      end
  | None => None
  end.

Definition deliver_pipe (k : nat) (f : bool) (p : pipe) : pipe :=
  mkPipe (drop k (flight p)) (closing p) (arrived p ++ take k (flight p)) (eof p || f) true.
Definition can_deliver (k : nat) (f : bool) (p : pipe) : bool :=
  (k <=? length (flight p))%nat && ((1 <=? k)%nat || f)
  && (negb f || (closing p && negb (eof p) && (k =? length (flight p))%nat)).
Definition deliver (d : dir) (i k : nat) (f : bool) (n : net) : option net :=
  match conns n !! i with
  | Some c =>
      if can_deliver k f (get_pipe d c) then Some (on_conn i (on_pipe d (deliver_pipe k f)) n) else None
  | None => None
  end.

Definition legal_events (r evs : list Z) : bool :=
  nonempty evs && bool_decide (NoDup evs) && forallb (fun fd => existsb (Z.eqb fd) r) evs.

(** The program of a worker that waits, given the events. *)
Definition resume {A} (p : prog A) (evs : list Z) : option (prog A) :=
  match p with
  | Call c k =>
      match c in call R return ((R -> prog A) -> option (prog A)) with
      | EpollWait => fun k => Some (k (Got evs))
      | _ => fun _ => None
      end k
  | _ => None
  end.

Definition round (s : side) (evs : list Z) (p : prog (Z * worker)) (n : net) : option (prog (Z * worker) * net) :=
  if legal_events (ready s n) evs
  then match resume p evs with Some p => Some (exec s p (reported s evs n)) | None => None end
  else None.

Definition step (l : label) (w : world) : option world :=
  match l with
  | LArrive i => match arrive i (wire w) with Some n => Some (mkWorld n (cprog w) (sprog w)) | None => None end
  | LDeliver d i k f =>
      match deliver d i k f (wire w) with Some n => Some (mkWorld n (cprog w) (sprog w)) | None => None end
  | LRound Cli evs =>
      match round Cli evs (cprog w) (wire w) with Some (p, n) => Some (mkWorld n p (sprog w)) | None => None end
  | LRound Srv evs =>
      match round Srv evs (sprog w) (wire w) with Some (p, n) => Some (mkWorld n (cprog w) p) | None => None end
  end.

(** Two workers of which the server's is started first. *)
Definition idle_host : host := mkHost [] [] 0.
Definition launch (client server : prog (Z * worker)) : world :=
  let '(s, n) := exec Srv server (mkNet [] [] idle_host idle_host 0) in
  let '(c, n) := exec Cli client n in
  mkWorld n c s.

(** Deliveries that do not split a message of the control connection, the
    first one a client opens. *)
Definition unsplit (l : label) (w : world) : bool :=
  match l with
  | LDeliver d O k _ =>
      match conns (wire w) !! O with Some c => (k =? length (flight (get_pipe d c)))%nat | None => true end
  | _ => true
  end.

Inductive run : nat -> world -> world -> Prop :=
| run_0 w : run 0 w w
| run_S k w1 w2 w3 l : unsplit l w1 = true -> step l w1 = Some w2 -> run k w2 w3 -> run (S k) w1 w3.

Definition stuck (w : world) : Prop := forall l w', unsplit l w = true -> step l w <> Some w'.

End net.
