(* ===== verification/MperfExec.v ===== *)
(** * The programs of mperf on the network

    What the functions of [MperfProg] do when the network of [MperfNet]
    answers their calls: writes that fit, reads of what has arrived, the
    exchange of the configuration. *)

From Stdlib Require Import String.
From S2P Require Import Prelude MperfProg MperfNet.

(** ** Programs *)

Section exec.
Context `{Setting}.

Lemma exec_bind {A B} s (p : prog A) (f : A -> prog B) n :
  exec s (pbind p f) n =
  match exec s p n with
  | (Ret a, n') => exec s (f a) n'
  | (q, n') => (pbind q f, n')
  end.
Proof.
  revert n. induction p as [a|e|R c k IH]; intros n; [done..|]. cbn [pbind exec].
  destruct (waits c); [done|]. destruct (answer s c n) as [r n']. apply IH.
Qed.

Lemma exec_ret {A B} s (p : prog A) (f : A -> prog B) n a n' :
  exec s p n = (Ret a, n') -> exec s (pbind p f) n = exec s (f a) n'.
Proof. intros E. by rewrite exec_bind, E. Qed.

Lemma exec_do {A R} s (c : call R) (f : R -> prog A) n r n' :
  waits c = false -> answer s c n = (r, n') -> exec s (pbind (do c) f) n = exec s (f r) n'.
Proof. intros W E. cbn. by rewrite W, E. Qed.

Definition out_pipe (s : side) (fd : Z) (n : net) : option (nat * pipe) :=
  match slot_of s fd n with
  | Some (End i) =>
      match conns n !! i with
      | Some c => match cst c with Opening => None | _ => Some (i, get_pipe (out_dir s) c) end
      | None => None
      end
  | _ => None
  end.
Definition in_pipe (s : side) (fd : Z) (n : net) : option (nat * pipe) :=
  match slot_of s fd n with
  | Some (End i) =>
      match conns n !! i with
      | Some c => match cst c with Opening => None | _ => Some (i, get_pipe (in_dir s) c) end
      | None => None
      end
  | _ => None
  end.
Definition sent (s : side) (i : nat) (d : list Z) : net -> net :=
  on_conn i (on_pipe (out_dir s) (fun p => p <| flight := flight p ++ d |>)).
Definition taken (s : side) (i : nat) (l : list Z) : net -> net :=
  on_conn i (on_pipe (in_dir s) (fun p => p <| arrived := l |>)).

Lemma write_space s fd buf n i p :
  out_pipe s fd n = Some (i, p) -> closing p = false -> zlen (flight p) < cap ->
  sock_write s fd buf n =
  (Got (Z.min (cap - zlen (flight p)) (zlen buf)), sent s i (take (Z.to_nat (cap - zlen (flight p))) buf) n).
Proof.
  unfold out_pipe, sock_write. intros Hp Hc Hs.
  destruct (slot_of s fd n) as [[| | |j]|]; [done..| |done]. destruct (conns n !! j) as [c|]; [|done].
  destruct (cst c); [done| |]; simplify_eq; rewrite Hc;
    (destruct (Z.leb_spec (cap - zlen (flight (get_pipe (out_dir s) c))) 0); [lia|]);
    (f_equal; f_equal; unfold zlen in *; rewrite length_take; lia).
Qed.

Lemma exec_nwrite {A} s fd buf count (f : Z -> prog A) n i p :
  out_pipe s fd n = Some (i, p) -> closing p = false -> zlen (flight p) + zlen buf <= cap ->
  0 < zlen buf -> zlen buf = count -> count < 2147483648 ->
  exec s (pbind (nwrite fd buf count) f) n = exec s (f count) (sent s i buf n).
Proof.
  intros Hp Hc Hs Hb <- Hi. unfold nwrite. destruct (Z.to_nat (zlen buf)) as [|k] eqn:Hk; [lia|].
  cbn [nwrite_loop]. destruct (Z.leb_spec (zlen buf) 0); [lia|].
  unfold zlen in *.
  rewrite take_ge by lia. erewrite exec_ret;
    [|erewrite exec_do; [|done|apply (write_space s fd buf n i p Hp Hc); unfold zlen; lia]].
  2:{ unfold zlen. rewrite take_ge by lia. rewrite Z.min_r by lia.
      destruct (Z.eqb_spec (Z.of_nat (length buf)) 0); [lia|].
      rewrite Z.sub_diag. destruct k; cbn; reflexivity. }
  by rewrite s32_small by lia.
Qed.

Lemma read_some s fd k n i p :
  in_pipe s fd n = Some (i, p) -> arrived p <> [] ->
  sock_read s fd k n = (Got (take (Z.to_nat k) (arrived p)), taken s i (drop (Z.to_nat k) (arrived p)) n).
Proof.
  unfold in_pipe, sock_read. intros Hp Ha.
  destruct (slot_of s fd n) as [[| | |j]|]; [done..| |done]. destruct (conns n !! j) as [c|]; [|done].
  destruct (cst c); [done| |]; simplify_eq;
    by destruct (arrived (get_pipe (in_dir s) c)).
Qed.

Lemma read_none s fd k n i p :
  in_pipe s fd n = Some (i, p) -> arrived p = [] ->
  sock_read s fd k n = (if eof p then Got [] else Err E_AGAIN, n).
Proof.
  unfold in_pipe, sock_read. intros Hp Ha.
  destruct (slot_of s fd n) as [[| | |j]|]; [done..| |done]. destruct (conns n !! j) as [c|]; [|done].
  destruct (cst c); [done| |]; simplify_eq; by rewrite Ha.
Qed.

Lemma exec_nread {A} s fd count (f : Z * list Z -> prog A) n i p d rest :
  in_pipe s fd n = Some (i, p) -> arrived p = d ++ rest -> zlen d = count -> 0 < count < 2147483648 ->
  exec s (pbind (nread fd count) f) n = exec s (f (count, d)) (taken s i rest n).
Proof.
  intros Hp Ha <- Hi. unfold nread. destruct (Z.to_nat (zlen d)) as [|k] eqn:Hk; [lia|].
  cbn [nread_loop]. destruct (Z.leb_spec (zlen d) 0); [lia|].
  assert (Hd : d <> []) by (intros ->; done).
  erewrite exec_ret; [|erewrite exec_do;
    [|done|apply (read_some s fd (zlen d) n i p Hp); rewrite Ha; by destruct d]].
  2:{ rewrite Ha. rewrite take_app_length' by (unfold zlen; lia). rewrite drop_app_length' by (unfold zlen; lia).
      replace (match d with [] => Ret (s32 (zlen d - zlen d), []) | _ => nread_loop k fd (zlen d) (zlen d - zlen d) ([] ++ d) end)
        with (Ret (A := Z * list Z) (s32 (zlen d - 0), d)); [done|].
      destruct d as [|x d]; [done|]. rewrite Z.sub_diag. by destruct k. }
  cbn. rewrite Z.sub_0_r. by rewrite s32_small by lia.
Qed.

(** Updates of a connection. *)
Lemma update_lookup {A} i (f : A -> A) (l : list A) x : l !! i = Some x -> update i f l !! i = Some (f x).
Proof. revert i. induction l as [|y l IH]; intros [|i]; simpl; naive_solver. Qed.
Lemma update_twice {A} i (f g h : A -> A) (l : list A) :
  (forall x, f (g x) = h x) -> update i f (update i g l) = update i h l.
Proof. intros E. revert i. induction l as [|y l IH]; intros [|i]; simpl; rewrite ?E, ?IH; done. Qed.
Lemma update_same {A} i (f : A -> A) (l : list A) x : l !! i = Some x -> f x = x -> update i f l = l.
Proof.
  revert i. induction l as [|y l IH]; intros [|i]; simpl; intros L E; simplify_eq; rewrite ?E, ?IH; done.
Qed.

Lemma slot_of_on_conn s fd i f n : slot_of s fd (on_conn i f n) = slot_of s fd n.
Proof. by destruct s. Qed.

Lemma in_pipe_conn s fd n i p :
  in_pipe s fd n = Some (i, p) ->
  slot_of s fd n = Some (End i) /\
  exists c, conns n !! i = Some c /\ cst c <> Opening /\ get_pipe (in_dir s) c = p.
Proof.
  unfold in_pipe. intros E. destruct (slot_of s fd n) as [[| | |j]|]; [done..| |done].
  destruct (conns n !! j) as [c|] eqn:Hc; [|done]. destruct (cst c) eqn:Hs; [done| |]; simplify_eq;
    (split; [done|exists c; by rewrite Hs]).
Qed.

Lemma in_pipe_taken s fd n i p l :
  in_pipe s fd n = Some (i, p) -> in_pipe s fd (taken s i l n) = Some (i, p <| arrived := l |>).
Proof.
  intros (Hs & c & Hc & Ho & <-)%in_pipe_conn. unfold in_pipe, taken. rewrite slot_of_on_conn, Hs.
  cbn. erewrite update_lookup by done. by destruct s, c as [? [] ? ?].
Qed.

Lemma taken_twice s i l l' n : taken s i l (taken s i l' n) = taken s i l n.
Proof. unfold taken, on_conn. destruct n as [cs q c sv d]; cbn.
  apply (f_equal (fun l => mkNet l q c sv d)), update_twice. by intros []; destruct s. Qed.

Lemma taken_same s fd n i p : in_pipe s fd n = Some (i, p) -> taken s i (arrived p) n = n.
Proof.
  intros (Hs & c & Hc & Ho & <-)%in_pipe_conn. unfold taken, on_conn. destruct n as [cs q c' sv d]; cbn in *.
  apply (f_equal (fun l => mkNet l q c' sv d)). eapply update_same; [done|]. destruct c as [? ? [] []]; by destruct s.
Qed.

Lemma out_pipe_sent s fd n i p d :
  out_pipe s fd n = Some (i, p) -> out_pipe s fd (sent s i d n) = Some (i, p <| flight := flight p ++ d |>).
Proof.
  unfold out_pipe, sent. rewrite slot_of_on_conn.
  destruct (slot_of s fd n) as [[| | |j]|]; [done..| |done]. cbn.
  destruct (conns n !! j) as [c|] eqn:Hc; [|done]. destruct (cst c) eqn:Hs; [done| |];
    intros; simplify_eq; erewrite update_lookup by done; destruct c; simpl in *; subst; by destruct s.
Qed.

Lemma write_full s fd buf n i p :
  out_pipe s fd n = Some (i, p) -> closing p = false -> cap <= zlen (flight p) ->
  sock_write s fd buf n = (Err E_AGAIN, n).
Proof.
  unfold out_pipe, sock_write. intros Hp Hc Hs.
  destruct (slot_of s fd n) as [[| | |j]|]; [done..| |done]. destruct (conns n !! j) as [c|]; [|done].
  destruct (cst c); [done| |]; simplify_eq; rewrite Hc;
    by (destruct (Z.leb_spec (cap - zlen (flight (get_pipe (out_dir s) c))) 0); [|lia]).
Qed.

(** A write to an empty pipe takes what fits. *)
Lemma exec_nwrite_part {A} s fd buf count (f : Z -> prog A) n i p :
  out_pipe s fd n = Some (i, p) -> closing p = false -> flight p = [] -> 0 < cap ->
  0 < zlen buf -> zlen buf = count -> count < 2147483648 ->
  exec s (pbind (nwrite fd buf count) f) n =
  exec s (f (Z.min cap count)) (sent s i (take (Z.to_nat cap) buf) n).
Proof.
  intros Hp Hc Hf Hcap Hb Hl Hi. destruct (Z.le_gt_cases count cap) as [Hle|Hgt].
  { erewrite exec_nwrite by (done || (rewrite ?Hf; change (zlen (@nil Z)) with 0; lia)).
    unfold zlen in *. rewrite Z.min_r by lia. by rewrite take_ge by lia. }
  assert (Hw := write_space s fd buf n i p Hp Hc). rewrite Hf in Hw. specialize (Hw Hcap).
  change (zlen (@nil Z)) with 0 in Hw. rewrite !Z.sub_0_r, Z.min_l in Hw by lia.
  assert (Hw2 := write_full s fd (take (Z.to_nat (count - cap)) (drop (Z.to_nat cap) buf)) _ i _
    (out_pipe_sent s fd n i p (take (Z.to_nat cap) buf) Hp) Hc).
  specialize (Hw2 ltac:(cbn; rewrite Hf; unfold zlen in *; rewrite length_app, length_take; cbn; lia)).
  unfold nwrite. destruct (Z.to_nat count) as [|[|k]] eqn:Hk; [lia..|].
  cbn [nwrite_loop]. destruct (Z.leb_spec count 0); [lia|].
  rewrite take_ge by (unfold zlen in *; lia).
  apply exec_ret. erewrite exec_do; [|done|exact Hw]. cbn beta iota.
  destruct (Z.eqb_spec cap 0); [lia|].
  destruct (Z.leb_spec (count - cap) 0); [lia|].
  erewrite exec_do; [|done|exact Hw2]. cbn.
  replace (count - (count - cap)) with cap by lia. rewrite Z.min_l by lia. by rewrite s32_small by lia.
Qed.

(** Everything that has arrived is read; the end shows if the block is not
    complete. *)
Lemma exec_recv_loop fuel nleft w n i p :
  in_pipe Srv (datafd w) n = Some (i, p) -> 0 <= rx_bytes w -> rx_bytes w + zlen (arrived p) < 18446744073709551616 ->
  zlen (arrived p) <= nleft -> (Z.to_nat nleft <= fuel)%nat ->
  exec Srv (mperf_recv_loop fuel nleft w) n =
  (Ret (if eof p && (zlen (arrived p) <? nleft) then -1 else 0, w <| rx_bytes := rx_bytes w + zlen (arrived p) |>),
   taken Srv i [] n).
Proof.
  revert nleft w n p. induction fuel as [|fuel IH]; intros nleft w n p Hp Hrx Hb Hl Hf.
  all: pose proof (zlen_nonneg (arrived p)) as Ha0.
  all: assert (Hsame : arrived p = [] -> taken Srv i [] n = n) by
    (intros Ha; rewrite <- Ha at 1; by eapply taken_same).
  all: cbn [mperf_recv_loop]; destruct (Z.leb_spec nleft 0) as [Hn|Hn].
  1,3: assert (Ha : arrived p = []) by (destruct (arrived p); [done|unfold zlen in *; cbn in *; lia]).
  1,2: rewrite (Hsame Ha), Ha; change (zlen (@nil Z)) with 0; rewrite Z.add_0_r;
    destruct (Z.ltb_spec 0 nleft); [lia|]; rewrite andb_false_r; by destruct w.
  { lia. }
  destruct (arrived p) as [|x a] eqn:Ha.
  { erewrite exec_do; [|done|by apply (read_none _ _ _ _ _ _ Hp)].
    rewrite (Hsame eq_refl). change (zlen (@nil Z)) with 0.
    rewrite Z.add_0_r. destruct (Z.ltb_spec 0 nleft); [|lia]. rewrite andb_true_r.
    destruct w; by destruct (eof p). }
  erewrite exec_do; [|done|apply (read_some _ _ _ _ _ _ Hp); by rewrite Ha]. rewrite Ha.
  assert (Hm : (0 < Z.to_nat RX_BUF_SIZE)%nat) by (unfold RX_BUF_SIZE; lia).
  generalize dependent (Z.to_nat RX_BUF_SIZE). intros [|m] Hm; [lia|].
  assert (Hsum : zlen (take (S m) (x :: a)) + zlen (drop (S m) (x :: a)) = zlen (x :: a)) by
    by rewrite <- zlen_app, take_drop.
  pose proof (zlen_nonneg (drop (S m) (x :: a))).
  assert (Hd : 0 < zlen (take (S m) (x :: a))) by (unfold zlen; cbn [take length]; lia).
  change (take (S m) (x :: a)) with (x :: take m a) in *. cbn beta iota.
  assert (Hu : u64 (rx_bytes w + zlen (x :: take m a)) = rx_bytes w + zlen (x :: take m a)).
  { unfold u64. apply Z.mod_small. lia. }
  rewrite Hu. erewrite IH; [|exact (in_pipe_taken Srv _ n i p _ Hp)|..].
  2-5: change (arrived (p <| arrived := drop (S m) (x :: a) |>)) with (drop (S m) (x :: a)).
  2-5: change (rx_bytes (w <| rx_bytes := ?z |>)) with z; lia.
  change (arrived (p <| arrived := drop (S m) (x :: a) |>)) with (drop (S m) (x :: a)).
  change (eof (p <| arrived := drop (S m) (x :: a) |>)) with (eof p).
  change (rx_bytes (w <| rx_bytes := rx_bytes w + zlen (x :: take m a) |>)) with (rx_bytes w + zlen (x :: take m a)).
  rewrite taken_twice. rewrite <- Z.add_assoc, Hsum.
  replace (zlen (drop (S m) (x :: a)) <? nleft - zlen (x :: take m a)) with (zlen (x :: a) <? nleft); [done|].
  destruct (Z.ltb_spec (zlen (x :: a)) nleft), (Z.ltb_spec (zlen (drop (S m) (x :: a))) (nleft - zlen (x :: take m a)));
    done || lia.
Qed.

End exec.

(** ** The configuration *)

Section conf.
Context `{Json}.

(** Values that pass through a JSON number: below 2^53 a [double] holds every
    integer. *)
Definition conf_fits (c : conn_config) : Prop :=
  0 < blksize c < 2147483648 /\ 0 <= rate c < 2 ^ 53 /\ 0 <= burst c < 2 ^ 32 /\ 0 <= bytes c < 2 ^ 32 /\
  0 <= blocks c < 2 ^ 32 /\ 0 <= duration c < 2 ^ 32.
Definition server_conf : conn_config := mkConf DEFAULT_TCP_BLKSIZE 0 0 0 0 DURATION.

Lemma double_fits z : z < 2 ^ 53 -> to_double z = z.
Proof. intros Hz. unfold to_double. by destruct (Z.ltb_spec z (2 ^ 53)); [|lia]. Qed.

Definition text_ok (c : conn_config) : Prop :=
  json_parse (json_print (conf_json c)) = Some (conf_json c) /\ Forall (fun b => 0 < b < 256) (json_print (conf_json c)) /\
  0 < zlen (json_print (conf_json c)) < 2147483643.

(** Reading back the numbers that were not zero, over the defaults of the
    server. *)
Lemma conf_roundtrip c : conf_fits c -> apply_conf (conf_json c) server_conf = c.
Proof.
  intros (Hb & Hr & Hbu & Hby & Hbl & Hd). destruct c as [b r bu by' bl d]; cbn in *.
  unfold apply_conf, conf_json, number; cbn [blksize rate burst bytes blocks duration].
  rewrite !double_fits by lia.
  destruct (Z.eqb_spec b 0); [lia|].
  destruct (Z.eqb_spec r 0), (Z.eqb_spec bu 0), (Z.eqb_spec by' 0), (Z.eqb_spec bl 0); subst; cbn;
    unfold u32, u64; rewrite !Z.min_l by lia; rewrite !Z.mod_small by lia; done.
Qed.

Lemma version_item c : item (conf_json c) "client_version" = Some (Str package_string).
Proof. unfold conf_json, number. repeat case_match; done. Qed.

Lemma version_same : version_matches (Str package_string) = Ok true.
Proof. cbn. rewrite take_app_length. by rewrite bool_decide_true. Qed.

Lemma be_roundtrip x : 0 <= x < 4294967296 -> be_value (be_bytes x) = x.
Proof. intros Hx. cbn. wrap_lia. Qed.

Lemma c_str_id l : Forall (fun b => 0 < b < 256) l -> c_str l = l.
Proof. induction 1 as [|x l Hx _ IH]; [done|]. cbn. destruct (Z.eqb_spec x 0); [lia|]. by rewrite IH. Qed.

End conf.

(** The length of what is in flight, for goals about the space left. *)
Ltac space_lia :=
  cbn; unfold zlen in *; rewrite ?length_app;
  repeat match goal with H : flight _ = _ |- _ => rewrite H end; cbn [length be_bytes]; lia.

Section programs.
Context `{Json} `{Setting}.

Lemma sent_nil s i d d' n : sent s i d' (sent s i d n) = sent s i (d ++ d') n.
Proof.
  unfold sent, on_conn. destruct n as [cs q c sv dr]; cbn.
  apply (f_equal (fun l => mkNet l q c sv dr)), update_twice.
  intros [? ? [] []]; destruct s; cbn; by rewrite <- app_assoc.
Qed.

Definition json_msg (j : json) : list Z :=
  [TEST_STATE_PARAM_EXCHANGE] ++ be_bytes (zlen (json_print j)) ++ json_print j.

Lemma exec_JSON_write j fd n i p :
  out_pipe Cli fd n = Some (i, p) -> closing p = false -> flight p = [] ->
  0 < zlen (json_print j) < 2147483643 -> zlen (json_msg j) <= cap ->
  exec Cli (JSON_write fd j) n = (Ret 0, sent Cli i (json_msg j) n).
Proof.
  intros Hp Hc Hf Hl. unfold json_msg. rewrite !zlen_app.
  change (zlen [TEST_STATE_PARAM_EXCHANGE]) with 1. change (zlen (be_bytes _)) with 4. intros Hcap.
  unfold JSON_write. erewrite exec_do by done. cbn [negb]. rewrite u32_small by lia.
  assert (Hp2 := out_pipe_sent _ _ _ _ _ [TEST_STATE_PARAM_EXCHANGE] Hp).
  assert (Hp3 := out_pipe_sent _ _ _ _ _ (be_bytes (zlen (json_print j))) Hp2).
  erewrite exec_nwrite; [|exact Hp|done|space_lia|done..]. cbn [Z.ltb Z.compare].
  erewrite exec_nwrite; [|exact Hp2|done|space_lia|done..]. cbn [Z.ltb Z.compare].
  erewrite exec_nwrite; [|exact Hp3|done| |lia|done|lia].
  2: space_lia.
  destruct (Z.ltb_spec (zlen (json_print j)) 0); [lia|]. cbn [exec]. by rewrite !sent_nil.
Qed.

Lemma exec_send_conf w n i p :
  role w = ROLE_CLIENT -> 0 < zlen (json_print (conf_json (conn_conf w))) < 2147483643 ->
  out_pipe Cli (ctlfd w) n = Some (i, p) -> closing p = false -> flight p = [] ->
  zlen (json_msg (conf_json (conn_conf w))) <= cap ->
  exec Cli (mperf_send_conf w) n = (Ret 0, sent Cli i (json_msg (conf_json (conn_conf w))) n).
Proof.
  intros Hr Hl Hp Hc Hf Hcap. unfold mperf_send_conf. rewrite Hr. erewrite exec_do by done. cbn [negb].
  by erewrite exec_ret by (by eapply exec_JSON_write).
Qed.

(** A whole message is there after its first byte. *)
Lemma exec_JSON_read j fd n i p :
  in_pipe Srv fd n = Some (i, p) -> arrived p = be_bytes (zlen (json_print j)) ++ json_print j ->
  0 < zlen (json_print j) < 2147483643 -> Forall (fun b => 0 < b < 256) (json_print j) ->
  exec Srv (JSON_read fd) n = (Ret (json_parse (json_print j)), taken Srv i [] n).
Proof.
  intros Hp Ha Hl Hb. unfold JSON_read. erewrite exec_do by done.
  erewrite exec_nread by done. change (4 <? 0) with false. cbn beta iota zeta.
  erewrite exec_do by done. cbn [negb].
  rewrite (drop_ge (take _ _)) by (rewrite length_take; unfold be_bytes; cbn [length]; lia).
  rewrite app_nil_r, be_roundtrip by lia.
  erewrite exec_nread; [|by apply in_pipe_taken|symmetry; apply app_nil_r|done|lia].
  rewrite u32_small, taken_twice by lia.
  change (arrived (p <| arrived := json_print j |>)) with (json_print j).
  destruct (Z.ltb_spec (zlen (json_print j) + 1) (zlen (json_print j))); [lia|].
  destruct (Z.leb_spec 0 (zlen (json_print j))); [|lia]. rewrite Z.eqb_refl. cbn [andb exec].
  by rewrite c_str_id.
Qed.

Lemma exec_recv_conf w n i p c :
  role w = ROLE_SERVER -> text_ok c -> in_pipe Srv (ctlfd w) n = Some (i, p) ->
  arrived p = be_bytes (zlen (json_print (conf_json c))) ++ json_print (conf_json c) ->
  exec Srv (mperf_recv_conf w) n =
  (Ret (0, w <| conn_conf := apply_conf (conf_json c) (conn_conf w) |>), taken Srv i [] n).
Proof.
  intros Hr (Hj & Hb & Hl) Hp Ha. unfold mperf_recv_conf. rewrite Hr.
  erewrite exec_ret by (by eapply exec_JSON_read). rewrite Hj. cbv zeta. rewrite version_item, version_same. done.
Qed.

Lemma exec_random fuel nleft acc n :
  (forall k, length (random k) = 8%nat) -> 0 <= nleft -> (Z.to_nat nleft <= fuel)%nat ->
  exists d k, exec Cli (random_data fuel nleft acc) n = (Ret (acc ++ d), n <| draws := k |>) /\ zlen d = nleft.
Proof.
  intros Hr. revert nleft acc n. induction fuel as [|fuel IH]; intros nleft acc n Hn Hf; cbn [random_data].
  all: destruct (Z.leb_spec nleft 0).
  1,3: exists [], (draws n); split; [rewrite app_nil_r; by destruct n|unfold zlen; cbn; lia].
  { lia. }
  erewrite exec_do by done.
  edestruct (IH (nleft - Z.min 8 nleft) (acc ++ take (Z.to_nat (Z.min 8 nleft)) (random (draws n)))
    (n <| draws := S (draws n) |>)) as (d & k & -> & Hd); [lia..|].
  exists (take (Z.to_nat (Z.min 8 nleft)) (random (draws n)) ++ d), k. rewrite <- app_assoc. split; [done|].
  rewrite zlen_app, Hd. unfold zlen. rewrite length_take, Hr. lia.
Qed.

End programs.
