(* ===== verification/MperfSession.v ===== *)
(** * A session of mperf

    The client and the server of [MperfProg] run against each other over the
    network of [MperfNet]: whatever the order of deliveries and rounds, the
    session ends, and it ends with the server using the configuration of the
    client. *)

From Stdlib Require Import String.
From S2P Require Import Prelude MperfProg MperfNet MperfExec.

(** Decide the tests on constants. *)
Ltac test_one b :=
  let v := eval vm_compute in b in
  lazymatch v with true => change b with true | false => change b with false end.
Ltac tests :=
  repeat (match goal with
          | |- context [?a =? ?b] => test_one (a =? b)
          | |- context [?a <? ?b] => test_one (a <? b)
          end; cbn [andb orb negb]; cbn iota zeta).

(** ** Runs that end *)

Section ends.
Context `{Setting}.

(** [w] takes at most [n] steps, and [Q] holds where it stops. *)
Inductive ends (Q : world -> Prop) : nat -> world -> Prop :=
| ends_intro n w :
    (stuck w -> Q w) ->
    (forall l w', unsplit l w = true -> step l w = Some w' -> exists m, (m < n)%nat /\ ends Q m w') ->
    ends Q n w.

Lemma ends_run Q n w k w' : ends Q n w -> run k w w' -> (k <= n)%nat /\ (stuck w' -> Q w').
Proof.
  intros He Hr. revert n He. induction Hr as [w|k w1 w2 w3 l Hl Hs Hr IH]; intros n He; destruct He as [n w HQ Hstep].
  { split; [lia|done]. }
  destruct (Hstep _ _ Hl Hs) as (m & Hm & He). destruct (IH _ He). split; [lia|done].
Qed.

(** The only step of [w] leads to [w']. *)
Lemma ends_only Q n w w' l :
  step l w = Some w' -> unsplit l w = true ->
  (forall l2 w2, unsplit l2 w = true -> step l2 w = Some w2 -> w2 = w') ->
  ends Q n w' -> ends Q (S n) w.
Proof.
  intros Hs Hu Honly He. constructor.
  { intros Hst. by destruct (Hst l w' Hu). }
  intros l2 w2 Hu2 Hs2. rewrite (Honly _ _ Hu2 Hs2). exists n. split; [lia|done].
Qed.

Lemma legal_nil evs : legal_events [] evs = false.
Proof. unfold legal_events. destruct evs as [|e evs]; [done|]. cbn. apply andb_false_r. Qed.

Lemma legal_inv r evs : legal_events r evs = true -> evs <> [] /\ NoDup evs /\ forall e, e ∈ evs -> e ∈ r.
Proof.
  unfold legal_events. intros [[Hn Hd%bool_decide_eq_true_1]%andb_prop Hf]%andb_prop.
  split; [by destruct evs|]. split; [done|]. rewrite forallb_forall in Hf.
  intros e He%list_elem_of_In%Hf. apply existsb_exists in He as (e' & He & ->%Z.eqb_eq). by apply list_elem_of_In.
Qed.

Lemma legal_one x evs : legal_events [x] evs = true -> evs = [x].
Proof.
  intros (Hn & Hd & Hx)%legal_inv.
  assert (Hall : forall e, e ∈ evs -> e = x) by (intros e He; by apply list_elem_of_singleton, Hx).
  destruct evs as [|y [|z l]]; [done|by rewrite (Hall y) by set_solver|].
  rewrite (Hall y), (Hall z) in Hd by set_solver. apply NoDup_cons in Hd as [? _]. set_solver.
Qed.

Lemma legal_singleton x : legal_events [x] [x] = true.
Proof. unfold legal_events. cbn. rewrite Z.eqb_refl. rewrite bool_decide_true; [done|apply NoDup_singleton]. Qed.

End ends.

(** ** The states of a session *)

Section session.
Context `{Json} `{Setting}.
Context (g : mperf_config) (cw sw : worker) (dat : list Z) (dr : nat).

Definition client_fin (x : Z * worker) : prog (Z * worker) :=
  let '(ret, w) := x in
  let w := w <| done_flag := true |> in
  let+ w := mperf_destroy_client w in
  Ret (ret, w).
Definition server_fin (x : Z * worker) : prog (Z * worker) :=
  let '(ret, w) := x in
  let w := w <| done_flag := true |> in
  let+ w := mperf_destroy_server w in
  Ret (ret, w).
Definition cwait (f : nat) (ret : Z) (w : worker) : prog (Z * worker) := pbind (client_while f g ret w) client_fin.
Definition swait (f : nat) (ret : Z) (w : worker) : prog (Z * worker) := pbind (server_while f ret w) server_fin.

(** The workers, with what changes while they run. *)
Definition CW (ctl data st tx : Z) : worker :=
  mkWorker ROLE_CLIENT (template g) (inited cw) ctl data st (listenfd cw) (cli_ip cw) (cli_ctl_port cw)
    (cli_data_port cw) (rx_bytes cw) tx (Some dat) false.
Definition SW (conf : conn_config) (ctl data st ip cport dport rx : Z) : worker :=
  mkWorker ROLE_SERVER conf true ctl data st 0 ip cport dport rx (tx_bytes sw) (tx_data sw) false.

Definition addr : Z * Z := (saddr g, sport g).
Definition link (st : cstate) (u d : pipe) : conn := mkConn addr st u d.
Definition on_way (l : list Z) : pipe := mkPipe l false [] false false.
Definition there (l : list Z) : pipe := mkPipe [] false l false true.
Definition quiet : pipe := on_way [].

Definition CTL_EVENTS : Z := Z.lor EPOLLIN EPOLLET.
Definition ch1 : host := mkHost [(0, End 0)] [(0, CTL_EVENTS)] 1.
Definition ch2 : host := mkHost [(1, End 1); (0, End 0)] [(0, CTL_EVENTS)] 2.
Definition ch3 : host := mkHost [(1, End 1); (0, End 0)] [(1, EPOLLOUT); (0, CTL_EVENTS)] 2.
Definition sh1 : host := mkHost [(0, Listening addr)] [(0, EPOLLIN)] 1.
Definition sh2 : host := mkHost [(1, End 0); (0, Listening addr)] [(1, CTL_EVENTS); (0, EPOLLIN)] 2.
Definition sh3 : host :=
  mkHost [(2, End 1); (1, End 0); (0, Listening addr)] [(2, EPOLLIN); (1, CTL_EVENTS); (0, EPOLLIN)] 3.

Definition p0 : Z := client_port 0.
Definition p1 : Z := client_port 1.
Definition msg : list Z := json_msg (conf_json (template g)).

(** The states up to the transfer, by the connections, the requests that wait
    for [mtcp_accept], the hosts and the workers. *)
Definition S0 fc fs := mkWorld (mkNet [link Opening quiet quiet] [] ch1 sh1 dr)
  (cwait fc 0 (CW 0 (-1) TEST_STATE_START 0)) (swait fs 0 (SW server_conf (-1) (-1) TEST_STATE_START 0 0 0 0)).
Definition S1 fc fs := mkWorld (mkNet [link Queued quiet quiet] [0%nat] ch1 sh1 dr)
  (cwait fc 0 (CW 0 (-1) TEST_STATE_START 0)) (swait fs 0 (SW server_conf (-1) (-1) TEST_STATE_START 0 0 0 0)).
Definition S2 d fc fs := mkWorld (mkNet [link Accepted quiet d] [] ch1 sh2 dr)
  (cwait fc 0 (CW 0 (-1) TEST_STATE_START 0))
  (swait fs 0 (SW server_conf 1 (-1) TEST_STATE_PARAM_EXCHANGE client_ip p0 0 0)).
Definition S4 u fc fs := mkWorld (mkNet [link Accepted u quiet] [] ch1 sh2 dr)
  (cwait fc 0 (CW 0 (-1) TEST_STATE_PARAM_EXCHANGE 0))
  (swait fs 0 (SW server_conf 1 (-1) TEST_STATE_PARAM_EXCHANGE client_ip p0 0 0)).
Definition S6 d fc fs := mkWorld (mkNet [link Accepted quiet d] [] ch1 sh2 dr)
  (cwait fc 0 (CW 0 (-1) TEST_STATE_PARAM_EXCHANGE 0))
  (swait fs 0 (SW (template g) 1 (-1) TEST_STATE_CREATE_STREAM client_ip p0 0 0)).
Definition S8 st q fc fs := mkWorld (mkNet [link Accepted quiet quiet; link st quiet quiet] q ch2 sh2 dr)
  (cwait fc 0 (CW 0 1 TEST_STATE_CREATE_STREAM 0))
  (swait fs 0 (SW (template g) 1 (-1) TEST_STATE_CREATE_STREAM client_ip p0 0 0)).
Definition S10 d fc fs := mkWorld (mkNet [link Accepted quiet d; link Accepted quiet quiet] [] ch2 sh3 dr)
  (cwait fc 0 (CW 0 1 TEST_STATE_CREATE_STREAM 0))
  (swait fs 0 (SW (template g) 1 2 TEST_STATE_RUNNING client_ip p0 p1 0)).
Definition S12 fc fs := mkWorld (mkNet [link Accepted quiet quiet; link Accepted quiet quiet] [] ch3 sh3 dr)
  (cwait fc 0 (CW 0 1 TEST_STATE_RUNNING 0))
  (swait fs 0 (SW (template g) 1 2 TEST_STATE_RUNNING client_ip p0 p1 0)).

(** The transfer: the client has returned; [u0] and [u1] are what it sent. *)
Definition client_done (tx : Z) : worker :=
  CW (-1) (-1) TEST_STATE_END tx <| tx_data := None |> <| done_flag := true |>.
Definition S13 u0 u1 tx rx fs := mkWorld
  (mkNet [link Accepted u0 quiet; link Accepted u1 quiet] [] (mkHost [] [] 2) sh3 dr)
  (Ret (0, client_done tx)) (swait fs 0 (SW (template g) 1 2 TEST_STATE_RUNNING client_ip p0 p1 rx)).

(** *** Rounds *)

Lemma client_round f ret w evs n ret' w' n' :
  done_flag w = false -> legal_events (ready Cli n) evs = true ->
  exec Cli (client_events g evs ret w) (reported Cli evs n) = (Ret (ret', w'), n') ->
  test_over w' = false -> done_flag w' = false ->
  round Cli evs (cwait (S (S f)) ret w) n = Some (cwait (S f) ret' w', n').
Proof.
  intros Hd Hl He Ho Hd'. unfold round, cwait. rewrite Hl. cbn [client_while]. rewrite Hd. cbn [pbind resume do].
  rewrite !exec_bind, He, Ho. cbn [client_while]. by rewrite Hd'.
Qed.

Lemma client_last f ret w evs n ret' w' n' :
  done_flag w = false -> legal_events (ready Cli n) evs = true ->
  exec Cli (client_events g evs ret w) (reported Cli evs n) = (Ret (ret', w'), n') ->
  test_over w' = true ->
  round Cli evs (cwait (S f) ret w) n =
  Some (exec Cli (client_fin (if test_state w' =? TEST_STATE_END then 0 else -1, w')) n').
Proof.
  intros Hd Hl He Ho. unfold round, cwait. rewrite Hl. cbn [client_while]. rewrite Hd. cbn [pbind resume do].
  by rewrite !exec_bind, He, Ho.
Qed.

Lemma server_round f ret w evs n ret' w' n' :
  done_flag w = false -> legal_events (ready Srv n) evs = true ->
  exec Srv (server_events evs ret w) (reported Srv evs n) = (Ret (ret', w'), n') ->
  test_over w' = false -> done_flag w' = false ->
  round Srv evs (swait (S (S f)) ret w) n = Some (swait (S f) ret' w', n').
Proof.
  intros Hd Hl He Ho Hd'. unfold round, swait. rewrite Hl. cbn [server_while]. rewrite Hd. cbn [pbind resume do].
  rewrite !exec_bind, He, Ho. cbn [server_while]. by rewrite Hd'.
Qed.

Lemma server_last f ret w evs n ret' w' n' :
  done_flag w = false -> legal_events (ready Srv n) evs = true ->
  exec Srv (server_events evs ret w) (reported Srv evs n) = (Ret (ret', w'), n') ->
  test_over w' = true ->
  round Srv evs (swait (S f) ret w) n = Some (exec Srv (server_fin (ret', w')) n').
Proof.
  intros Hd Hl He Ho. unfold round, swait. rewrite Hl. cbn [server_while]. rewrite Hd. cbn [pbind resume do].
  by rewrite !exec_bind, He, Ho.
Qed.

(** *** The handshake *)

Context (Hcap : zlen msg <= cap) (Htext : text_ok (template g)) (Hfits : conf_fits (template g)).

Lemma cap_pos : 6 <= cap.
Proof.
  destruct Htext as (_ & _ & Hl). revert Hcap. unfold msg, json_msg. rewrite !zlen_app.
  change (zlen [TEST_STATE_PARAM_EXCHANGE]) with 1. change (zlen (be_bytes _)) with 4. lia.
Qed.

(** One byte of state, sent on the control connection. *)
Lemma exec_state {A} s st (w : worker) (f : Z * worker -> prog A) n i p :
  out_pipe s (ctlfd w) n = Some (i, p) -> closing p = false -> flight p = [] ->
  exec s (pbind (mperf_set_test_state st w) f) n =
  exec s (f (0, w <| test_state := st |>)) (sent s i [st] n).
Proof.
  intros Hp Hc Hf. pose proof cap_pos. apply exec_ret. unfold mperf_set_test_state.
  erewrite exec_nwrite; [|exact Hp|done|space_lia|done..]. done.
Qed.

Lemma accept_ctl :
  exec Srv (mperf_accept (SW server_conf (-1) (-1) TEST_STATE_START 0 0 0 0))
    (mkNet [link Queued quiet quiet] [0%nat] ch1 sh1 dr) =
  (Ret (0, SW server_conf 1 (-1) TEST_STATE_PARAM_EXCHANGE client_ip p0 0 0),
   mkNet [link Accepted quiet (on_way [TEST_STATE_PARAM_EXCHANGE])] [] ch1 sh2 dr).
Proof.
  unfold mperf_accept. erewrite exec_do; [|done|reflexivity]. cbn iota.
  change (ctlfd _ =? -1) with true. cbn iota zeta.
  erewrite exec_do; [|done|reflexivity]. erewrite exec_do; [|done|reflexivity].
  erewrite exec_state; [|reflexivity..]. reflexivity.
Qed.

Lemma client_conf :
  exec Cli (mperf_handle_client_msg g (CW 0 (-1) TEST_STATE_START 0))
    (mkNet [link Accepted quiet (mkPipe [] false [TEST_STATE_PARAM_EXCHANGE] false false)] [] ch1 sh2 dr) =
  (Ret (0, CW 0 (-1) TEST_STATE_PARAM_EXCHANGE 0), mkNet [link Accepted (on_way msg) quiet] [] ch1 sh2 dr).
Proof.
  unfold mperf_handle_client_msg.
  erewrite (exec_nread _ _ _ _ _ _ _ [TEST_STATE_PARAM_EXCHANGE] []); [|reflexivity..|lia]. cbn iota zeta.
  cbn [hd]. tests.
  erewrite exec_ret; [|eapply exec_send_conf]; [|done|apply Htext|reflexivity..|exact Hcap]. reflexivity.
Qed.

Lemma server_conf_read :
  exec Srv (mperf_handle_server_msg (SW server_conf 1 (-1) TEST_STATE_PARAM_EXCHANGE client_ip p0 0 0))
    (mkNet [link Accepted (mkPipe [] false msg false false) quiet] [] ch1 sh2 dr) =
  (Ret (0, SW (template g) 1 (-1) TEST_STATE_CREATE_STREAM client_ip p0 0 0),
   mkNet [link Accepted quiet (on_way [TEST_STATE_CREATE_STREAM])] [] ch1 sh2 dr).
Proof.
  unfold mperf_handle_server_msg.
  erewrite (exec_nread _ _ _ _ _ _ _ [TEST_STATE_PARAM_EXCHANGE]); [|reflexivity..|lia]. cbn iota zeta.
  cbn [hd]. tests.
  erewrite exec_ret; [|eapply (exec_recv_conf _ _ _ _ (template g))]; [|done|done|reflexivity..].
  cbn iota zeta. tests.
  change (conn_conf (SW server_conf _ _ _ _ _ _ _)) with server_conf.
  rewrite conf_roundtrip by done. erewrite exec_state; [|reflexivity..]. reflexivity.
Qed.

Lemma client_open :
  exec Cli (mperf_handle_client_msg g (CW 0 (-1) TEST_STATE_PARAM_EXCHANGE 0))
    (mkNet [link Accepted quiet (mkPipe [] false [TEST_STATE_CREATE_STREAM] false false)] [] ch1 sh2 dr) =
  (Ret (0, CW 0 1 TEST_STATE_CREATE_STREAM 0),
   mkNet [link Accepted quiet quiet; link Opening quiet quiet] [] ch2 sh2 dr).
Proof.
  unfold mperf_handle_client_msg.
  erewrite (exec_nread _ _ _ _ _ _ _ [TEST_STATE_CREATE_STREAM] []); [|reflexivity..|lia]. reflexivity.
Qed.

Lemma accept_data :
  exec Srv (mperf_accept (SW (template g) 1 (-1) TEST_STATE_CREATE_STREAM client_ip p0 0 0))
    (mkNet [link Accepted quiet quiet; link Queued quiet quiet] [1%nat] ch2 sh2 dr) =
  (Ret (0, SW (template g) 1 2 TEST_STATE_RUNNING client_ip p0 p1 0),
   mkNet [link Accepted quiet (on_way [TEST_STATE_RUNNING]); link Accepted quiet quiet] [] ch2 sh3 dr).
Proof.
  unfold mperf_accept. erewrite exec_do; [|done|reflexivity]. cbn iota.
  tests. change (cli_ip (SW (template g) 1 (-1) TEST_STATE_CREATE_STREAM client_ip p0 0 0)) with client_ip. rewrite Z.eqb_refl. cbn [negb].
  erewrite exec_do; [|done|reflexivity]. erewrite exec_do; [|done|reflexivity].
  erewrite exec_state; [|reflexivity..]. reflexivity.
Qed.

Lemma client_running :
  exec Cli (mperf_handle_client_msg g (CW 0 1 TEST_STATE_CREATE_STREAM 0))
    (mkNet [link Accepted quiet (mkPipe [] false [TEST_STATE_RUNNING] false false); link Accepted quiet quiet] []
       ch2 sh3 dr) =
  (Ret (0, CW 0 1 TEST_STATE_RUNNING 0),
   mkNet [link Accepted quiet quiet; link Accepted quiet quiet] [] ch3 sh3 dr).
Proof.
  unfold mperf_handle_client_msg.
  erewrite (exec_nread _ _ _ _ _ _ _ [TEST_STATE_RUNNING] []); [|reflexivity..|lia]. reflexivity.
Qed.

Context (Hdat : zlen dat = blksize (template g)).

Definition on_wire : list Z := take (Z.to_nat cap) dat.
Definition amount : Z := Z.min cap (blksize (template g)).

Lemma client_send :
  exec Cli (mperf_send (CW 0 1 TEST_STATE_RUNNING 0))
    (mkNet [link Accepted quiet quiet; link Accepted quiet quiet] [] ch3 sh3 dr) =
  (Ret (0, CW 0 1 TEST_STATE_RUNNING amount),
   mkNet [link Accepted quiet quiet; link Accepted (on_way on_wire) quiet] [] ch3 sh3 dr).
Proof.
  pose proof cap_pos. destruct Hfits as [Hb _]. assert (Ha : 0 <= amount < 2147483648) by (unfold amount; lia).
  unfold mperf_send. change (tx_data (CW 0 1 TEST_STATE_RUNNING 0)) with (Some dat). cbn iota.
  erewrite exec_nwrite_part; [|reflexivity..|lia| |exact Hdat|apply Hb]; [|lia].
  change (Z.min cap (blksize (conn_conf (CW 0 1 TEST_STATE_RUNNING 0)))) with amount.
  destruct (Z.ltb_spec amount 0); [lia|]. cbn [exec].
  change (tx_bytes (CW 0 1 TEST_STATE_RUNNING 0) + amount) with amount.
  replace (u64 amount) with amount; [reflexivity|]. unfold u64. rewrite Z.mod_small; lia.
Qed.

Lemma client_data :
  exec Cli (client_events g [1] 0 (CW 0 1 TEST_STATE_RUNNING 0))
    (mkNet [link Accepted quiet quiet; link Accepted quiet quiet] [] ch3 sh3 dr) =
  (Ret (0, CW 0 1 TEST_STATE_END amount),
   mkNet [link Accepted (on_way [TEST_STATE_END]) quiet; link Accepted (on_way on_wire) quiet] [] ch3 sh3 dr).
Proof.
  cbn [client_events]. tests. erewrite exec_ret by apply client_send.
  cbn iota. tests. erewrite exec_state; [|reflexivity..]. reflexivity.
Qed.

(** *** Which steps there are *)

Lemma round_none s evs p n : ready s n = [] -> round s evs p n = None.
Proof. intros Hr. unfold round. by rewrite Hr, legal_nil. Qed.
Lemma round_one s evs p n x r : ready s n = [x] -> round s evs p n = Some r -> evs = [x].
Proof. intros Hr. unfold round. rewrite Hr. destruct (legal_events [x] evs) eqn:E; [|done]. by apply legal_one in E. Qed.

Lemma no_delivery k f p : flight p = [] -> closing p = false -> can_deliver k f p = false.
Proof. intros Hf Hc. unfold can_deliver. rewrite Hf, Hc. by destruct k, f. Qed.

Lemma deliver_none d i k f n c :
  conns n !! i = Some c -> flight (get_pipe d c) = [] -> closing (get_pipe d c) = false -> deliver d i k f n = None.
Proof. intros Hc Hf Hcl. unfold deliver. by rewrite Hc, no_delivery. Qed.

(** A message in flight, not split. *)
Definition land (d : dir) (n : net) : net :=
  on_conn 0 (on_pipe d (fun p => mkPipe [] false (arrived p ++ flight p) (eof p) true)) n.

Lemma on_conn_ext i f h n c : conns n !! i = Some c -> f c = h c -> on_conn i f n = on_conn i h n.
Proof.
  intros Hc E. unfold on_conn. destruct n as [cs q ch sh d]; cbn in *. apply (f_equal (fun l => mkNet l q ch sh d)).
  revert i Hc. induction cs as [|y l IH]; intros [|i] Hc; cbn in *; simplify_eq; [by rewrite E|by rewrite IH].
Qed.

Lemma deliver_whole d k f w c :
  conns (wire w) !! 0%nat = Some c -> closing (get_pipe d c) = false -> unsplit (LDeliver d 0 k f) w = true ->
  deliver d 0 k f (wire w) = None \/ deliver d 0 k f (wire w) = Some (land d (wire w)).
Proof.
  intros Hc Hcl. unfold unsplit, deliver. rewrite Hc. intros Hk%Nat.eqb_eq.
  destruct (can_deliver k f (get_pipe d c)) eqn:Hd; [right|by left]. f_equal. unfold land.
  assert (f = false) as ->.
  { unfold can_deliver in Hd. rewrite Hcl in Hd. destruct f; [|done]. by rewrite andb_false_r in Hd. }
  apply (on_conn_ext _ _ _ _ c Hc). destruct c as [? ? [? ? ? ? ?] [? ? ? ? ?]]; destruct d; cbn in *; subst;
    unfold deliver_pipe; cbn; by rewrite drop_all, firstn_all, orb_false_r.
Qed.

Lemma deliver_lands d w c :
  conns (wire w) !! 0%nat = Some c -> flight (get_pipe d c) <> [] -> closing (get_pipe d c) = false ->
  deliver d 0 (length (flight (get_pipe d c))) false (wire w) = Some (land d (wire w)).
Proof.
  intros Hc Hf Hcl. destruct (deliver_whole d (length (flight (get_pipe d c))) false w c Hc Hcl) as [E|E]; [| |done].
  { cbn. rewrite Hc. apply Nat.eqb_refl. }
  exfalso. revert E. unfold deliver, can_deliver. rewrite Hc, Nat.leb_refl. by destruct (flight (get_pipe d c)).
Qed.

Context (Q : world -> Prop).

(** Dispose of the steps that are not enabled. *)
Ltac impossible Hs :=
  (discriminate Hs) ||
  (erewrite deliver_none in Hs by reflexivity; discriminate Hs) ||
  (rewrite round_none in Hs by reflexivity; discriminate Hs).
Ltac others :=
  let l := fresh "l" in
  intros l w2 Hu Hs; destruct l as [i|d i k f|[] evs]; cbn [step] in Hs;
  [destruct i as [|[|i]]|destruct d, i as [|[|i]]| |]; try (impossible Hs).

Lemma phase0 n fc fs : ends Q n (S1 fc fs) -> ends Q (S n) (S0 fc fs).
Proof.
  assert (Ha : arrive 0 (wire (S0 fc fs)) = Some (wire (S1 fc fs))).
  { cbn. by rewrite bool_decide_true. }
  apply (ends_only _ _ _ _ (LArrive 0)); [cbn [step]; by rewrite Ha|done|].
  others. rewrite Ha in Hs. by injection Hs.
Qed.

Lemma phase8 n fc fs : ends Q n (S8 Queued [1%nat] fc fs) -> ends Q (S n) (S8 Opening [] fc fs).
Proof.
  assert (Ha : arrive 1 (wire (S8 Opening [] fc fs)) = Some (wire (S8 Queued [1%nat] fc fs))).
  { cbn. by rewrite bool_decide_true. }
  apply (ends_only _ _ _ _ (LArrive 1)); [cbn [step]; by rewrite Ha|done|].
  others. rewrite Ha in Hs. by injection Hs.
Qed.

(** A delivery on the control connection is the only step. *)
Lemma phase_land d n w w' c :
  conns (wire w) !! 0%nat = Some c -> flight (get_pipe d c) <> [] -> closing (get_pipe d c) = false ->
  w' = mkWorld (land d (wire w)) (cprog w) (sprog w) ->
  (forall l w2, (forall k f, l <> LDeliver d 0 k f) -> step l w <> Some w2) ->
  ends Q n w' -> ends Q (S n) w.
Proof.
  intros Hc Hf Hcl -> Hno. assert (Hl := deliver_lands d w c Hc Hf Hcl).
  apply (ends_only _ _ _ _ (LDeliver d 0 (length (flight (get_pipe d c))) false)).
  - cbn [step]. by rewrite Hl.
  - cbn. rewrite Hc. apply Nat.eqb_refl.
  - intros l2 w2 Hu Hs.
    assert (Hd : (exists k f, l2 = LDeliver d 0 k f) \/ forall k f, l2 <> LDeliver d 0 k f).
    { destruct l2 as [|d2 [|i] k f|]; [by right| |by right..]. destruct d, d2; [left; eauto|by right..|left; eauto]. }
    destruct Hd as [(k & f & ->)|Hd]; [|by destruct (Hno _ w2 Hd)].
    cbn [step] in Hs. destruct (deliver_whole d k f w c Hc Hcl Hu) as [E|E]; rewrite E in Hs; [done|by injection Hs].
Qed.

(** A round with one event is the only step. *)
Lemma phase_round s x n w w' :
  ready s (wire w) = [x] -> step (LRound s [x]) w = Some w' ->
  (forall l w2, (forall evs, l <> LRound s evs) -> step l w <> Some w2) ->
  ends Q n w' -> ends Q (S n) w.
Proof.
  intros Hr Hst Hno. apply (ends_only _ _ _ _ (LRound s [x])); [done|done|].
  intros l2 w2 Hu Hs.
  assert (Hd : (exists evs, l2 = LRound s evs) \/ forall evs, l2 <> LRound s evs).
  { destruct l2 as [| |s2 evs]; [by right..|]. destruct s, s2; [left; eauto|by right..|left; eauto]. }
  destruct Hd as [(evs & ->)|Hd]; [|by destruct (Hno _ w2 Hd)].
  assert (evs = [x]) as ->; [|congruence].
  cbn [step] in Hs. destruct s; (destruct (round _ evs _ _) as [[]|] eqn:E; [|done]); by eapply round_one.
Qed.

Ltac no_other :=
  let l := fresh "l" in
  intros l w2 Hl Hs; destruct l as [i|d i k f|[] evs]; cbn [step] in Hs;
  [destruct i as [|[|i]]|destruct d, i as [|[|i]]| |];
  first [impossible Hs | by eapply Hl].
Lemma step_client evs w p n :
  round Cli evs (cprog w) (wire w) = Some (p, n) -> step (LRound Cli evs) w = Some (mkWorld n p (sprog w)).
Proof. intros E. cbn [step]. by rewrite E. Qed.
Lemma step_server evs w p n :
  round Srv evs (sprog w) (wire w) = Some (p, n) -> step (LRound Srv evs) w = Some (mkWorld n (cprog w) p).
Proof. intros E. cbn [step]. by rewrite E. Qed.

Ltac client_step E :=
  eapply (phase_round Cli); [reflexivity| |no_other];
  eapply step_client, client_round; [done|apply legal_singleton| |done|done];
  cbn [client_events]; tests; erewrite exec_ret by apply E; reflexivity.
Ltac server_step E :=
  eapply (phase_round Srv); [reflexivity| |no_other];
  eapply step_server, server_round; [done|apply legal_singleton| |done|done];
  cbn [server_events]; tests; erewrite exec_ret by apply E; reflexivity.

Lemma phase1 n fc fs :
  ends Q n (S2 (on_way [TEST_STATE_PARAM_EXCHANGE]) fc (S fs)) -> ends Q (S n) (S1 fc (S (S fs))).
Proof. server_step accept_ctl. Qed.

Lemma phase2 n fc fs :
  ends Q n (S2 (there [TEST_STATE_PARAM_EXCHANGE]) fc fs) -> ends Q (S n) (S2 (on_way [TEST_STATE_PARAM_EXCHANGE]) fc fs).
Proof. eapply (phase_land Down); [reflexivity|done|done|reflexivity|]. no_other. Qed.

Lemma phase3 n fc fs :
  ends Q n (S4 (on_way msg) (S fc) fs) -> ends Q (S n) (S2 (there [TEST_STATE_PARAM_EXCHANGE]) (S (S fc)) fs).
Proof. client_step client_conf. Qed.

Lemma phase4 n fc fs : ends Q n (S4 (there msg) fc fs) -> ends Q (S n) (S4 (on_way msg) fc fs).
Proof. eapply (phase_land Up); [reflexivity|done|done|reflexivity|]. no_other. Qed.

Lemma phase5 n fc fs :
  ends Q n (S6 (on_way [TEST_STATE_CREATE_STREAM]) fc (S fs)) -> ends Q (S n) (S4 (there msg) fc (S (S fs))).
Proof. server_step server_conf_read. Qed.

Lemma phase6 n fc fs :
  ends Q n (S6 (there [TEST_STATE_CREATE_STREAM]) fc fs) -> ends Q (S n) (S6 (on_way [TEST_STATE_CREATE_STREAM]) fc fs).
Proof. eapply (phase_land Down); [reflexivity|done|done|reflexivity|]. no_other. Qed.

Lemma phase7 n fc fs :
  ends Q n (S8 Opening [] (S fc) fs) -> ends Q (S n) (S6 (there [TEST_STATE_CREATE_STREAM]) (S (S fc)) fs).
Proof. client_step client_open. Qed.

Lemma phase9 n fc fs :
  ends Q n (S10 (on_way [TEST_STATE_RUNNING]) fc (S fs)) -> ends Q (S n) (S8 Queued [1%nat] fc (S (S fs))).
Proof. server_step accept_data. Qed.

Lemma phase10 n fc fs :
  ends Q n (S10 (there [TEST_STATE_RUNNING]) fc fs) -> ends Q (S n) (S10 (on_way [TEST_STATE_RUNNING]) fc fs).
Proof. eapply (phase_land Down); [reflexivity|done|done|reflexivity|]. no_other. Qed.

Lemma phase11 n fc fs :
  ends Q n (S12 (S fc) fs) -> ends Q (S n) (S10 (there [TEST_STATE_RUNNING]) (S (S fc)) fs).
Proof. client_step client_running. Qed.

Definition closed_way (l : list Z) : pipe := mkPipe l true [] false false.

Lemma ready_data : ready Cli (wire (S12 0 0)) = [1].
Proof.
  pose proof cap_pos. assert (E : (zlen (@nil Z) <? cap) = true) by (apply Z.ltb_lt; change (zlen _) with 0; lia).
  unfold ready. cbn. by rewrite E.
Qed.

Lemma phase12 n fc fs :
  ends Q n (S13 (closed_way [TEST_STATE_END]) (closed_way on_wire) amount 0 fs) -> ends Q (S n) (S12 (S fc) fs).
Proof.
  eapply (phase_round Cli); [apply ready_data| |no_other]. eapply step_client. etrans.
  - eapply client_last; [done| |apply client_data|done].
    change (wire (S12 (S fc) fs)) with (wire (S12 0 0)). rewrite ready_data. apply legal_singleton.
  - reflexivity.
Qed.

(** *** After the end *)

(** Bytes that have to be delivered and read, and an end that has to be
    delivered. *)
Definition weight (p : pipe) : nat :=
  2 * length (flight p) + length (arrived p) + (if closing p && negb (eof p) then 1 else 0).
Definition wt (n : net) : nat := sum_list_with (fun c => weight (up c) + weight (down c))%nat (conns n).

Lemma deliver_weight k f p : can_deliver k f p = true -> (weight (deliver_pipe k f p) < weight p)%nat.
Proof.
  unfold can_deliver, weight, deliver_pipe. cbn. intros [[Hk%Nat.leb_le Hor]%andb_prop Hf]%andb_prop.
  rewrite length_drop, length_app, length_take.
  destruct f; cbn in Hf.
  - apply andb_prop in Hf as [[Hc He]%andb_prop Hl%Nat.eqb_eq]. rewrite Hc, He, orb_true_r. cbn. lia.
  - rewrite orb_false_r in *. destruct k; [done|lia].
Qed.

Lemma sum_update {A} (h : A -> nat) i (u : A -> A) l x :
  l !! i = Some x -> (h (u x) < h x)%nat -> (sum_list_with h (update i u l) < sum_list_with h l)%nat.
Proof.
  revert i. induction l as [|y l IH]; intros [|i] Hl Hlt; cbn in *; simplify_eq; [lia|].
  specialize (IH i Hl Hlt). lia.
Qed.

Lemma deliver_wt d i k f n n' : deliver d i k f n = Some n' -> (wt n' < wt n)%nat.
Proof.
  unfold deliver. destruct (conns n !! i) as [c|] eqn:Hc; [|done].
  destruct (can_deliver k f (get_pipe d c)) eqn:Hd; [|done]. intros [= <-].
  unfold wt, on_conn. cbn. eapply sum_update; [done|]. apply deliver_weight in Hd. destruct d; cbn in *; lia.
Qed.

Lemma deliver_states d i k f n n' :
  deliver d i k f n = Some n' -> Forall (fun c => cst c <> Opening) (conns n) -> Forall (fun c => cst c <> Opening) (conns n').
Proof.
  unfold deliver. destruct (conns n !! i) as [c|]; [|done]. destruct (can_deliver _ _ _); [|done]. intros [= <-] Hall.
  unfold on_conn. cbn. revert i. induction Hall as [|y l Hy Hall IH]; intros [|i]; cbn; constructor; try done.
  by destruct d.
Qed.

Lemma arrive_none i n : Forall (fun c => cst c <> Opening) (conns n) -> arrive i n = None.
Proof.
  intros Hall. unfold arrive. destruct (conns n !! i) as [c|] eqn:Hc; [|done].
  assert (Ho : cst c <> Opening) by exact (Forall_lookup_1 _ _ _ _ Hall Hc). by destruct (cst c).
Qed.

Lemma round_ret s evs a n : round s evs (Ret a) n = None.
Proof. unfold round. by destruct (legal_events _ _). Qed.

(** Both workers have returned: only deliveries are left. *)
Lemma ends_done n w a b :
  cprog w = Ret a -> sprog w = Ret b -> Forall (fun c => cst c <> Opening) (conns (wire w)) ->
  (forall w', cprog w' = Ret a -> sprog w' = Ret b -> Q w') -> (wt (wire w) <= n)%nat -> ends Q n w.
Proof.
  intros Ha Hb Hall HQ. revert w Ha Hb Hall. induction (lt_wf n) as [n _ IH]. intros w Ha Hb Hall Hn.
  constructor; [intros _; by apply HQ|].
  intros [i|d i k f|[] evs] w' _; cbn [step].
  - by rewrite arrive_none.
  - destruct (deliver d i k f (wire w)) as [n'|] eqn:Hd; [|done]. intros [= <-].
    pose proof (deliver_wt _ _ _ _ _ _ Hd). exists (wt n'). split; [lia|].
    apply IH; [lia|done|done|by eapply deliver_states|done].
  - by rewrite Ha, round_ret.
  - by rewrite Hb, round_ret.
Qed.

(** *** The transfer *)

Definition N (u0 u1 : pipe) : net :=
  mkNet [link Accepted u0 quiet; link Accepted u1 quiet] [] (mkHost [] [] 2) sh3 dr.
Definition RW (st rx : Z) : worker := SW (template g) 1 2 st client_ip p0 p1 rx.

Lemma transfer_ready u0 u1 :
  ready Srv (N u0 u1) = (if nonempty (arrived u1) || eof u1 then [2] else []) ++ (if edge u0 then [1] else []).
Proof. by destruct u0 as [? ? ? ? []], u1 as [? ? [] [] ?]. Qed.

Lemma read_end u0 u1 rx :
  arrived u0 = [TEST_STATE_END] ->
  exec Srv (mperf_handle_server_msg (RW TEST_STATE_RUNNING rx)) (N u0 u1) =
  (Ret (1, RW TEST_STATE_END rx), N (u0 <| arrived := [] |>) u1).
Proof.
  intros Ha. unfold mperf_handle_server_msg.
  erewrite (exec_nread _ _ _ _ _ _ _ [TEST_STATE_END] []); [|reflexivity|exact Ha|reflexivity|lia]. reflexivity.
Qed.

Lemma read_data u0 u1 rx :
  0 <= rx -> rx + zlen (arrived u1) <= amount ->
  exec Srv (mperf_recv (RW TEST_STATE_RUNNING rx)) (N u0 u1) =
  (Ret (if eof u1 && (zlen (arrived u1) <? blksize (template g)) then -1 else 0,
        RW TEST_STATE_RUNNING (rx + zlen (arrived u1))), N u0 (u1 <| arrived := [] |>)).
Proof.
  intros Hrx Ha. destruct Hfits as [Hb _]. unfold amount in Ha. unfold mperf_recv.
  rewrite (exec_recv_loop _ _ _ _ 1 u1); [reflexivity|reflexivity|done|cbn; lia|cbn; lia|done].
Qed.

(** How a round of the server ends. *)
Definition transferred (u0 u1 : pipe) (rx : Z) (evs : list Z) : Prop :=
  exists ret w u0' u1',
    exec Srv (server_events evs 0 (RW TEST_STATE_RUNNING rx)) (reported Srv evs (N u0 u1)) = (Ret (ret, w), N u0' u1') /\
    (weight u0' <= weight u0)%nat /\
    ((ret = 0 /\ w = RW TEST_STATE_RUNNING (rx + zlen (arrived u1)) /\ arrived u1 <> [] /\ u0' = u0 /\
      exists e, u1' = mkPipe (flight u1) (closing u1) [] (eof u1) e) \/
     (weight u1' <= weight u1)%nat /\ exists rx', rx <= rx' <= rx + zlen (arrived u1) /\
     (ret = 1 /\ w = RW TEST_STATE_END rx' \/
      ret = -1 /\ w = RW TEST_STATE_ERROR rx' /\ eof u1 = true /\ rx' = rx + zlen (arrived u1))).

Lemma two_events (evs : list Z) :
  evs <> [] -> NoDup evs -> (forall e, e ∈ evs -> e = 2 \/ e = 1) -> evs = [1] \/ evs = [2] \/ evs = [1; 2] \/ evs = [2; 1].
Proof.
  intros Hne Hnd He. destruct evs as [|a [|b [|c evs]]]; [done|..].
  - destruct (He a ltac:(set_solver)); subst; auto.
  - apply NoDup_cons in Hnd as [Hab _].
    destruct (He a ltac:(set_solver)), (He b ltac:(set_solver)); subst; set_solver.
  - exfalso. rewrite !NoDup_cons in Hnd.
    destruct (He a ltac:(set_solver)), (He b ltac:(set_solver)), (He c ltac:(set_solver)); subst; set_solver.
Qed.

Definition no_edge (p : pipe) : pipe := p <| edge := false |>.

(** A round that starts with the control connection. *)
Lemma round_end u0 u1 v1 rx evs :
  arrived u0 = [TEST_STATE_END] -> weight v1 = weight u1 ->
  reported Srv (1 :: evs) (N u0 u1) = N (no_edge u0) v1 -> transferred u0 u1 rx (1 :: evs).
Proof.
  intros Ha Hw Hrep. unfold transferred. rewrite Hrep. pose proof (zlen_nonneg (arrived u1)).
  exists 1, (RW TEST_STATE_END rx), (no_edge u0 <| arrived := [] |>), v1. split_and!.
  - cbn [server_events]. tests. by erewrite exec_ret by (by apply read_end).
  - unfold weight. rewrite Ha. cbn. lia.
  - right. split; [lia|]. exists rx. split; [lia|]. by left.
Qed.

(** A round that starts with the data connection. *)
Lemma round_data u0 u1 v0 rx evs :
  0 <= rx -> rx + zlen (arrived u1) <= amount -> nonempty (arrived u1) || eof u1 = true ->
  (evs = [] /\ v0 = u0 \/ evs = [1] /\ v0 = no_edge u0 /\ arrived u0 = [TEST_STATE_END]) ->
  reported Srv (2 :: evs) (N u0 u1) = N v0 (no_edge u1) -> transferred u0 u1 rx (2 :: evs).
Proof.
  intros Hrx Ha Hr Hevs Hrep. unfold transferred. rewrite Hrep. pose proof (zlen_nonneg (arrived u1)).
  destruct Hfits as [Hb _].
  assert (Hwu : (weight u1 = weight (no_edge u1 <| arrived := [] |>) + length (arrived u1))%nat).
  { unfold weight. cbn. lia. }
  cbn [server_events]. tests. rewrite exec_bind, read_data by done. cbn iota.
  change (eof (no_edge u1)) with (eof u1). change (arrived (no_edge u1)) with (arrived u1).
  destruct (eof u1 && (zlen (arrived u1) <? blksize (template g))) eqn:He; tests.
  { apply andb_prop in He as [He _]. eexists _, _, _, _. split; [reflexivity|].
    assert (weight v0 = weight u0) as -> by (destruct Hevs as [[_ ->]|(_ & -> & _)]; done).
    split; [done|]. right. split; [lia|]. exists (rx + zlen (arrived u1)). split; [lia|]. by right. }
  destruct Hevs as [[-> ->]|(-> & -> & Hend)].
  - eexists _, _, _, _. split; [reflexivity|]. split; [done|]. left. split_and!; [done|done| |done|by eexists].
    intros E. rewrite E in *. cbn in Hr. rewrite Hr in He. cbn in He. apply Z.ltb_ge in He.
    change (zlen (@nil Z)) with 0 in He. lia.
  - exists 1, (RW TEST_STATE_END (rx + zlen (arrived u1))), (no_edge u0 <| arrived := [] |>), (no_edge u1 <| arrived := [] |>).
    split_and!.
    + cbn [server_events]. tests. by erewrite exec_ret by (by apply read_end).
    + unfold weight. rewrite Hend. cbn. lia.
    + right. split; [lia|]. exists (rx + zlen (arrived u1)). split; [lia|]. by left.
Qed.

Lemma transfer_round u0 u1 rx evs :
  (edge u0 = true -> arrived u0 = [TEST_STATE_END]) -> 0 <= rx -> rx + zlen (arrived u1) <= amount ->
  legal_events (ready Srv (N u0 u1)) evs = true -> transferred u0 u1 rx evs.
Proof.
  intros Hedge Hrx Ha (Hne & Hnd & Hin)%legal_inv. rewrite transfer_ready in Hin.
  assert (Hfd : forall e, e ∈ evs -> e = 2 /\ nonempty (arrived u1) || eof u1 = true \/ e = 1 /\ edge u0 = true).
  { intros e He%Hin. destruct (nonempty (arrived u1) || eof u1), (edge u0); set_solver. }
  destruct (two_events evs Hne Hnd) as [-> | [-> | [-> | -> ]]].
  { intros e He%Hfd. tauto. }
  - eapply round_end; [|reflexivity..]. destruct (Hfd 1 ltac:(set_solver)) as [[? _]|[_ He]]; [lia|auto].
  - eapply round_data; [done|done| |by left|reflexivity].
    destruct (Hfd 2 ltac:(set_solver)) as [[_ He]|[? _]]; [done|lia].
  - eapply (round_end _ _ (no_edge u1)); [|reflexivity..].
    destruct (Hfd 1 ltac:(set_solver)) as [[? _]|[_ He]]; [lia|auto].
  - eapply round_data; [done|done| |right; split_and!; [done|reflexivity|]|reflexivity].
    + destruct (Hfd 2 ltac:(set_solver)) as [[_ He]|[? _]]; [done|lia].
    + destruct (Hfd 1 ltac:(set_solver)) as [[? _]|[_ He]]; [lia|auto].
Qed.

Definition server_done (st rx : Z) : worker :=
  mkWorker ROLE_SERVER (template g) true (-1) (-1) st (-1) 0 0 0 rx (tx_bytes sw) (tx_data sw) true.

Lemma server_stop ret st rx u0 u1 :
  exec Srv (server_fin (ret, RW st rx)) (N u0 u1) =
  (Ret (ret, server_done st rx),
   mkNet [link Accepted u0 (closed_way []); link Accepted u1 (closed_way [])] [] (mkHost [] [] 2) (mkHost [] [] 3) dr).
Proof. reflexivity. Qed.

(** What the two workers return. *)
Definition session_over (w : world) : Prop :=
  cprog w = Ret (0, client_done amount) /\
  exists ret st rx, sprog w = Ret (ret, server_done st rx) /\ 0 <= rx <= amount /\
    (ret = 1 /\ st = TEST_STATE_END \/ ret = -1 /\ st = TEST_STATE_ERROR /\ rx = amount).

(** The end message and the data on their way. *)
Definition end_state (u : pipe) : Prop :=
  closing u = true /\
  (flight u = [TEST_STATE_END] /\ arrived u = [] /\ edge u = false /\ eof u = false \/
   flight u = [] /\ arrived u = [TEST_STATE_END] /\ edge u = true).
Definition data_state (u : pipe) (rx : Z) : Prop :=
  closing u = true /\ 0 <= rx /\ rx + zlen (arrived u) + zlen (flight u) = amount /\ (eof u = true -> flight u = []).

Lemma end_delivered k f u :
  end_state u -> k = length (flight u) -> can_deliver k f u = true -> end_state (deliver_pipe k f u).
Proof.
  intros [Hc [(Hf & Ha & He & Ho)|(Hf & Ha & He)]] -> _; split; [done| |done|]; right; unfold deliver_pipe;
    cbn; by rewrite Hf, Ha.
Qed.

Lemma data_delivered k f u rx : data_state u rx -> can_deliver k f u = true -> data_state (deliver_pipe k f u) rx.
Proof.
  intros (Hc & Hrx & Hsum & Heof) Hd. unfold data_state, deliver_pipe. cbn. split_and!; [done|done| |].
  - rewrite zlen_app. rewrite <- Hsum. rewrite <- (take_drop k (flight u)) at 3. rewrite zlen_app. lia.
  - intros [He|Hf]%orb_prop; [by rewrite (Heof He), drop_nil|]. subst f. unfold can_deliver in Hd.
    apply andb_prop in Hd as [_ Hd]. cbn in Hd. apply andb_prop in Hd as [_ ->%Nat.eqb_eq]. apply drop_all.
Qed.

Lemma wt_N u0 u1 : wt (N u0 u1) = (weight u0 + weight u1)%nat.
Proof. unfold wt. cbn. lia. Qed.

Context (HQ : forall w, session_over w -> Q w).

Lemma ends_over ret st rx u0 u1 n :
  0 <= rx <= amount -> (ret = 1 /\ st = TEST_STATE_END \/ ret = -1 /\ st = TEST_STATE_ERROR /\ rx = amount) ->
  (weight u0 + weight u1 + 2 <= n)%nat ->
  ends Q n (mkWorld (snd (exec Srv (server_fin (ret, RW st rx)) (N u0 u1))) (Ret (0, client_done amount))
    (fst (exec Srv (server_fin (ret, RW st rx)) (N u0 u1)))).
Proof.
  intros Hrx Hres Hn. rewrite server_stop. eapply ends_done; [done|done|by repeat constructor| |].
  - intros w' Hc Hs. apply HQ. split; [done|]. by exists ret, st, rx.
  - unfold wt. cbn [wire snd conns sum_list_with link up down]. change (weight (closed_way [])) with 1%nat. lia.
Qed.

(** The server is not left waiting. *)
Lemma transfer_progress u0 u1 rx fs : end_state u0 -> data_state u1 rx -> ~ stuck (S13 u0 u1 amount rx (S fs)).
Proof.
  intros [Hc0 [(Hf & Ha & He & Ho)|(Hf & Ha & He)]] (Hc1 & Hrx & Hsum & _) Hst.
  - eapply (Hst (LDeliver Up 0 1 false)); [cbn; by rewrite Hf|]. cbn [step]. unfold deliver. cbn.
    unfold can_deliver. rewrite Hf. reflexivity.
  - pose proof (zlen_nonneg (flight u1)).
    assert (Hl : legal_events (ready Srv (N u0 u1)) [1] = true).
    { rewrite transfer_ready, He. destruct (nonempty (arrived u1) || eof u1); done. }
    destruct (transfer_round u0 u1 rx [1]) as (ret & w & u0' & u1' & Hx & _ & _); [done|done|lia|done|].
    destruct (round Srv [1] (swait (S fs) 0 (RW TEST_STATE_RUNNING rx)) (N u0 u1)) as [[p n']|] eqn:Hr.
    + eapply (Hst (LRound Srv [1])); [done|]. eapply step_server. exact Hr.
    + unfold round in Hr. by rewrite Hl in Hr.
Qed.

(** A round of the server reads data, or is its last one. *)
Lemma transfer_step u0 u1 rx fs evs w :
  end_state u0 -> data_state u1 rx -> (Z.to_nat (amount - rx) <= fs)%nat ->
  step (LRound Srv evs) (S13 u0 u1 amount rx (S fs)) = Some w ->
  (exists f u1', fs = S f /\ (Z.to_nat (amount - (rx + zlen (arrived u1))) <= f)%nat /\ w = S13 u0 u1' amount (rx + zlen (arrived u1)) fs /\
     data_state u1' (rx + zlen (arrived u1)) /\ (weight u1' < weight u1)%nat) \/
  (exists ret st rx' u0' u1',
     w = mkWorld (snd (exec Srv (server_fin (ret, RW st rx')) (N u0' u1'))) (Ret (0, client_done amount))
           (fst (exec Srv (server_fin (ret, RW st rx')) (N u0' u1'))) /\
     0 <= rx' <= amount /\ (ret = 1 /\ st = TEST_STATE_END \/ ret = -1 /\ st = TEST_STATE_ERROR /\ rx' = amount) /\
     (weight u0' + weight u1' <= weight u0 + weight u1)%nat).
Proof.
  intros [Hc0 Hu0] (Hc1 & Hrx & Hsum & Heof) Hfs Hs. pose proof (zlen_nonneg (flight u1)).
  change (step _ _) with (match round Srv evs (swait (S fs) 0 (RW TEST_STATE_RUNNING rx)) (N u0 u1) with
    Some (p, n) => Some (mkWorld n (Ret (0, client_done amount)) p) | None => None end) in Hs.
  destruct (legal_events (ready Srv (N u0 u1)) evs) eqn:Hl.
  2:{ unfold round in Hs. by rewrite Hl in Hs. }
  destruct (transfer_round u0 u1 rx evs) as (ret & x & u0' & u1' & Hx & Hw0 & Hcase); [|done|lia|done|].
  { intros He. destruct Hu0 as [(_ & _ & ? & _)|(_ & ? & _)]; congruence. }
  destruct Hcase as [(-> & -> & Hne & -> & e & ->)|(Hw1 & rx' & Hrx' & Hcase)].
  - left.
    assert (0 < zlen (arrived u1)) by (destruct (arrived u1); [done|unfold zlen; cbn; lia]).
    destruct fs as [|f]; [lia|].
    erewrite server_round in Hs; [|done|done|exact Hx|done|done]. injection Hs as <-.
    exists f, (mkPipe (flight u1) (closing u1) [] (eof u1) e). split_and!; [done|lia|reflexivity| |].
    + unfold data_state. cbn. change (zlen (@nil Z)) with 0. split_and!; [done|lia|lia|done].
    + unfold weight, zlen in *. cbn. lia.
  - right. exists ret, (test_state x), rx', u0', u1'.
    assert (Ho : test_over x = true) by (destruct Hcase as [[_ ->]|(_ & -> & _)]; done).
    erewrite server_last in Hs; [|done|done|exact Hx|done].
    destruct Hcase as [[-> ->]|(-> & -> & He & ->)].
    + injection Hs as <-. split_and!; [done|lia|lia|by left|lia].
    + injection Hs as <-. specialize (Heof He). rewrite Heof in Hsum. change (zlen (@nil Z)) with 0 in Hsum.
      split_and!; [done|lia|lia|right; split_and!; [done..|lia]|lia].
Qed.

Lemma ends_transfer n u0 u1 rx fs :
  end_state u0 -> data_state u1 rx -> (Z.to_nat (amount - rx) <= fs)%nat -> (weight u0 + weight u1 + 4 <= n)%nat ->
  ends Q n (S13 u0 u1 amount rx (S fs)).
Proof.
  revert u0 u1 rx fs. induction (lt_wf n) as [n _ IH]. intros u0 u1 rx fs Hu0 Hu1 Hfs Hn. constructor.
  { intros Hst. exfalso. by eapply transfer_progress. }
  intros l w' Hu Hs. destruct l as [i|d i k f|s evs].
  - cbn [step] in Hs. rewrite arrive_none in Hs; [done|by repeat constructor].
  - cbn [step] in Hs. destruct d, i as [|[|i]]; try done.
    + change (deliver _ _ _ _ _) with (if can_deliver k f u0 then Some (N (deliver_pipe k f u0) u1) else None) in Hs.
      cbn in Hu. destruct (can_deliver k f u0) eqn:Hd; [|done]. injection Hs as <-.
      apply Nat.eqb_eq in Hu. pose proof (deliver_weight _ _ _ Hd). exists (pred n). split; [lia|].
      apply (IH (pred n)); [lia|by apply end_delivered|done|done|lia].
    + change (deliver _ _ _ _ _) with (if can_deliver k f u1 then Some (N u0 (deliver_pipe k f u1)) else None) in Hs.
      destruct (can_deliver k f u1) eqn:Hd; [|done]. injection Hs as <-.
      pose proof (deliver_weight _ _ _ Hd). exists (pred n). split; [lia|].
      apply (IH (pred n)); [lia|done|by apply data_delivered|done|lia].
    + by erewrite deliver_none in Hs by reflexivity.
    + by erewrite deliver_none in Hs by reflexivity.
  - destruct s; [cbn [step S13 cprog] in Hs; by rewrite round_ret in Hs|].
    destruct (transfer_step u0 u1 rx fs evs w' Hu0 Hu1 Hfs Hs) as
      [(f & u1' & -> & Hf & -> & Hd & Hw)|(ret & st & rx' & u0' & u1' & -> & Hrx & Hres & Hw)].
    + exists (pred n). split; [lia|]. apply (IH (pred n)); [lia|done|done|lia|lia].
    + exists (pred n). split; [lia|]. apply ends_over; [done|done|lia].
Qed.

End session.

(** ** The session *)

Section whole.
Context `{Json} `{Setting}.

Lemma start_server g sw fs :
  role sw = ROLE_SERVER -> inited sw = true -> done_flag sw = false ->
  exec Srv (mperf_server_loop (S fs) g sw) (mkNet [] [] idle_host idle_host 0) =
  (swait (S fs) 0 (SW sw server_conf (-1) (-1) TEST_STATE_START 0 0 0 0), mkNet [] [] idle_host (sh1 g) 0).
Proof. intros Hr Hi Hd. destruct sw; cbn in Hr, Hi, Hd; subst. reflexivity. Qed.

Lemma start_client g cw fc dat dr n :
  role cw = ROLE_CLIENT -> done_flag cw = false -> conns n = [] -> cli n = idle_host ->
  exec Cli (random_data (Z.to_nat (blksize (template g))) (blksize (template g)) []) n =
    (Ret ([] ++ dat), n <| draws := dr |>) ->
  exec Cli (mperf_client_loop (S fc) g cw) n =
  (cwait g (S fc) 0 (CW g cw dat 0 (-1) TEST_STATE_START 0), mkNet [link g Opening quiet quiet] (queue n) ch1 (srv n) dr).
Proof.
  intros Hr Hd Hc Hh Hex. destruct cw; cbn in Hr, Hd; subst. destruct n; cbn in Hc, Hh; subst.
  unfold mperf_client_loop. erewrite exec_ret.
  2:{ unfold mperf_init_client. erewrite exec_do by done. cbn [negb]. erewrite exec_ret by exact Hex. reflexivity. }
  reflexivity.
Qed.

Lemma launch_S0 g cw sw fc fs :
  role cw = ROLE_CLIENT -> role sw = ROLE_SERVER -> inited sw = true -> done_flag cw = false -> done_flag sw = false ->
  0 < blksize (template g) -> (forall k, length (random k) = 8%nat) ->
  exists dat dr, zlen dat = blksize (template g) /\
    launch (mperf_client_loop (S fc) g cw) (mperf_server_loop (S fs) g sw) = S0 g cw sw dat dr (S fc) (S fs).
Proof.
  intros Hrc Hrs Hi Hdc Hds Hb Hrnd.
  edestruct (exec_random (Z.to_nat (blksize (template g))) (blksize (template g)) []
    (mkNet [] [] idle_host (sh1 g) 0) Hrnd) as (dat & dr & Hex & Hlen); [lia|done|].
  exists dat, dr. split; [done|]. unfold launch. rewrite start_server by done.
  by rewrite (start_client _ _ _ dat dr) by done.
Qed.

(** The configuration of the session, as the command line gives it, the
    workers as [mperf_init_worker] leaves them, and the network. *)
Record session_ok (g : mperf_config) (cw sw : worker) : Prop := mkSessionOk {
  so_client : role cw = ROLE_CLIENT /\ done_flag cw = false;
  so_server : role sw = ROLE_SERVER /\ inited sw = true /\ done_flag sw = false;
  so_conf : conf_fits (template g);
  so_text : text_ok (template g);
  so_cap : zlen (json_msg (conf_json (template g))) <= cap;
  so_random : forall k, length (random k) = 8%nat
}.

Lemma session_ends g cw sw fc fs :
  session_ok g cw sw -> (4 <= fc)%nat -> (4 + Z.to_nat (amount g) <= fs)%nat ->
  exists dat, ends (session_over g cw sw dat) (2 * Z.to_nat (amount g) + 21)
    (launch (mperf_client_loop fc g cw) (mperf_server_loop fs g sw)).
Proof.
  intros [[Hrc Hdc] (Hrs & Hi & Hds) Hfits Htext Hcap Hrnd] Hfc Hfs.
  destruct fc as [|[|[|[|fc]]]]; [lia..|]. destruct fs as [|[|[|[|fs]]]]; [lia..|].
  destruct (launch_S0 g cw sw (S (S (S fc))) (S (S (S fs)))) as (dat & dr & Hdat & ->); try done.
  { apply Hfits. }
  exists dat. rewrite Nat.add_comm. change 21%nat with (13 + 8)%nat. cbn [Nat.add].
  apply phase0, phase1, phase2, phase3, phase4, phase5, phase6, phase7, phase8, phase9, phase10, phase11, phase12;
    try done.
  assert (Hw : zlen (on_wire dat) = amount g).
  { unfold on_wire, amount, zlen in *. rewrite length_take. destruct Hfits. lia. }
  pose proof (zlen_nonneg (on_wire dat)).
  apply ends_transfer; try done.
  - split; [done|]. left. done.
  - lia.
  - change (weight (closed_way [TEST_STATE_END])) with 3%nat. unfold weight, zlen in *. cbn. lia.
Qed.


End whole.
