(* ===== verification/MperfDemo.v ===== *)
(** * Sessions of mperf on concrete inputs

    A codec for the objects that mperf exchanges, a network, and runs of the
    two workers: one in which both end, and the two in which the server
    fails. *)

From Stdlib Require Import String Ascii.
From S2P Require Import Prelude MperfProg MperfNet MperfExec MperfSession.

(** ** A codec *)

Definition of_string (s : string) : list Z := map (fun a => Z.of_nat (nat_of_ascii a)) (list_ascii_of_string s).
Definition to_string (l : list Z) : string := string_of_list_ascii (map (fun c => ascii_of_nat (Z.to_nat c)) l).

Fixpoint decimal (fuel : nat) (z : Z) : list Z :=
  match fuel with
  | O => []
  | S fuel => (if z <? 10 then [] else decimal fuel (z / 10)) ++ [48 + z mod 10]
  end.
Definition print_value (v : jval) : list Z :=
  match v with Num z => decimal 20 z | Str s => [34] ++ s ++ [34] end.
Definition print_item (e : string * jval) : list Z := [34] ++ of_string (fst e) ++ [34; 58] ++ print_value (snd e).
Fixpoint print_items (j : json) : list Z :=
  match j with [] => [] | [e] => print_item e | e :: j => print_item e ++ [44] ++ print_items j end.
Definition print_object (j : json) : list Z := [123] ++ print_items j ++ [125].

(** The characters before a quote, and those after it. *)
Fixpoint quoted (l : list Z) : option (list Z * list Z) :=
  match l with
  | [] => None
  | c :: l => if c =? 34 then Some ([], l) else match quoted l with Some (s, r) => Some (c :: s, r) | None => None end
  end.
Fixpoint digits (acc : Z) (l : list Z) : Z * list Z :=
  match l with
  | c :: r => if (48 <=? c) && (c <=? 57) then digits (acc * 10 + (c - 48)) r else (acc, l)
  | [] => (acc, [])
  end.
Definition read_value (l : list Z) : option (jval * list Z) :=
  match l with
  | c :: r =>
      if c =? 34 then match quoted r with Some (s, r) => Some (Str s, r) | None => None end
      else let '(z, r) := digits 0 l in Some (Num z, r)
  | [] => None
  end.
Fixpoint read_items (fuel : nat) (l : list Z) : option json :=
  match fuel, l with
  | S fuel, 34 :: l =>
      match quoted l with
      | Some (k, 58 :: l) =>
          match read_value l with
          | Some (v, [125]) => Some [(to_string k, v)]
          | Some (v, 44 :: l) =>
              match read_items fuel l with Some j => Some ((to_string k, v) :: j) | None => None end
          | _ => None
          end
      | _ => None
      end
  | _, _ => None
  end.
Definition read_object (l : list Z) : option json :=
  match l with 123 :: l => read_items (length l) l | _ => None end.

#[local] Instance demo_json : Json :=
  {| json_print := print_object; json_parse := read_object; package_string := of_string "tcp-samples 1.0" |}.
#[local] Instance demo_setting : Setting :=
  {| cap := 200; client_ip := 167772161; client_port := fun i => 40000 + Z.of_nat i;
     random := fun i => map (fun k => (Z.of_nat i + k) mod 256) [1; 2; 3; 4; 5; 6; 7; 8]; junk := [0; 0; 1; 0] |}.

(** ** Two workers *)

Definition demo_conf (size : Z) : conn_config := mkConf size 1000000 0 0 0 10.
Definition demo_config (size : Z) : mperf_config := mkConfig 167772162 5210 (demo_conf size).
Definition demo_worker (r : mperf_role) : worker :=
  mkWorker r (mkConf 0 0 0 0 0 0) true 0 0 TEST_STATE_UNINIT 0 0 0 0 0 0 None false.
Notation demo_start size :=
  (launch (mperf_client_loop 4 (demo_config size) (demo_worker ROLE_CLIENT))
    (mperf_server_loop 300 (demo_config size) (demo_worker ROLE_SERVER))).

Fixpoint follow (ls : list label) (w : world) : option world :=
  match ls with
  | [] => Some w
  | l :: ls => match step l w with Some w => follow ls w | None => None end
  end.
Fixpoint unsplit_all (ls : list label) (w : world) : bool :=
  match ls with
  | [] => true
  | l :: ls => unsplit l w && match step l w with Some w => unsplit_all ls w | None => true end
  end.

Lemma follow_run ls w w' : follow ls w = Some w' -> unsplit_all ls w = true -> run (length ls) w w'.
Proof.
  revert w. induction ls as [|l ls IH]; intros w; cbn [follow unsplit_all].
  { intros [= ->] _. constructor. }
  destruct (step l w) as [w1|] eqn:Hs; [|done]. intros Hf [Hu Hus]%andb_prop. econstructor; eauto.
Qed.

(** What the workers returned: [ret], the state of the test, and the bytes. *)
Definition outcome (p : prog (Z * worker)) : option (Z * Z * Z) :=
  match p with Ret (r, w) => Some (r, test_state w, rx_bytes w) | _ => None end.

Definition handshake (len : nat) : list label :=
  [LArrive 0; LRound Srv [0]; LDeliver Down 0 1 false; LRound Cli [0]; LDeliver Up 0 len false; LRound Srv [1];
   LDeliver Down 0 1 false; LRound Cli [0]; LArrive 1; LRound Srv [0]; LDeliver Down 0 1 false; LRound Cli [0];
   LRound Cli [1]].
Definition conf_len (size : Z) : nat := length (json_msg (conf_json (demo_conf size))).

(** The data is read in two parts, then the end message. *)
Definition demo_labels : list label :=
  handshake (conf_len 100) ++ [LDeliver Up 1 60 false; LRound Srv [2]; LDeliver Up 1 40 false; LRound Srv [2];
    LDeliver Up 0 1 false; LRound Srv [1]].

Example demo_both_end :
  (fun w => (outcome (cprog w), outcome (sprog w))) <$> follow demo_labels (demo_start 100) =
  Some (Some (0, TEST_STATE_END, 0), Some (1, TEST_STATE_END, 100)).
Proof. vm_compute. reflexivity. Qed.

Lemma demo_session_ok : session_ok (demo_config 100) (demo_worker ROLE_CLIENT) (demo_worker ROLE_SERVER).
Proof.
  constructor; [done|done| | |vm_compute; done|done].
  - unfold conf_fits; cbn; lia.
  - split; [vm_compute; reflexivity|]. split; [|vm_compute; done].
    apply (bool_decide_unpack _). vm_compute. exact I.
Qed.

Lemma session_run w : follow demo_labels (demo_start 100) = Some w -> run (length demo_labels) (demo_start 100) w.
Proof. intros E. apply follow_run; [exact E|vm_compute; reflexivity]. Qed.
Lemma demo_fuel : (4 + Z.to_nat (amount (demo_config 100)) <= 300)%nat.
Proof. apply Nat.leb_le. vm_compute. reflexivity. Qed.


(** The close of the data connection reaches the server before the end
    message: the server has read the whole block, in two rounds, and reports
    an error. *)
Theorem close_before_end_fails :
  (fun w => (outcome (cprog w), outcome (sprog w))) <$>
    follow (handshake (conf_len 100) ++ [LDeliver Up 1 60 false; LRound Srv [2]; LDeliver Up 1 40 true; LRound Srv [2]])
      (demo_start 100) =
  Some (Some (0, TEST_STATE_END, 0), Some (-1, TEST_STATE_ERROR, 100)).
Proof. vm_compute. reflexivity. Qed.

(** The first byte of the configuration message arrives alone: the server
    takes the length of the text from uninitialised memory and gives up. *)
Theorem split_conf_fails :
  (fun w => outcome (sprog w)) <$>
    follow [LArrive 0; LRound Srv [0]; LDeliver Down 0 1 false; LRound Cli [0]; LDeliver Up 0 1 false; LRound Srv [1]]
      (demo_start 100) =
  Some (Some (-1, TEST_STATE_ERROR, 0)).
Proof. vm_compute. reflexivity. Qed.
